(** * Radial profiles on an adaptive mesh: [Aux_ComputeProfile]

    A shallow embedding of [src/Auxiliary/Aux_ComputeProfile.cpp].

    Conventions of the embedding.
    - [double] and [real] values are real numbers ([R]): arithmetic is exact,
      [log] is [ln], [pow] is [Rpower] (they agree on positive bases, the only
      ones a valid configuration uses), [sqrt] is [sqrt].
    - [int] and [long] values are integers ([Z]); the cast [int( x )] rounds
      toward zero and is written [c_int]; casts are assumed to fit.
    - heap arrays are lists, indexed by [Z]; a read or write outside an array
      is the error [OutOfBounds] (undefined behaviour in the source).
    - [Aux_Error] aborts the run: a stage returns [Err e], and the entry point
      returns [Fatal e st] where [st] is the state of the profile objects when
      the run was aborted.
    - macros, build flags and helpers declared elsewhere in the code base are
      fields of [Config]; the patch hierarchy ([amr]) is the record [AMR_t]. *)

From Stdlib Require Import Reals ZArith List Bool Lia Lra Sorted Permutation.
Import ListNotations.
Local Open Scope R_scope.

(* ================================================================== *)
(** ** Errors and the result monad *)

Inductive error : Type :=
| InvalidParameter     (* Aux_Error of the parameter checks *)
| NegativeBin          (* Aux_Error "bin < 0" of debug builds *)
| UnsupportedQuantity  (* Aux_Error of the [default] case of the switch *)
| OutOfBounds          (* an access outside an array *)
| OutOfFuel.           (* the loop model ran out of steps (never happens, see
                          [remove_empty_bins_fuel]) *)

Inductive result (A : Type) : Type :=
| Ok (a : A)
| Err (e : error).
Arguments Ok {A} a.
Arguments Err {A} e.

Definition bind {A B} (c : result A) (k : A -> result B) : result B :=
  match c with
  | Ok a => k a
  | Err e => Err e
  end.

Notation "x <- c ;; k" := (bind c (fun x => k))
  (at level 61, c at next level, right associativity).

(* ================================================================== *)
(** ** Arrays and counted loops *)

Fixpoint upd {A} (n : nat) (v : A) (l : list A) : list A :=
  match l, n with
  | [], _ => []
  | _ :: t, O => v :: t
  | h :: t, S n' => h :: upd n' v t
  end.

(** [a[i]] as an r-value. *)
Definition load {A} (a : list A) (i : Z) : result A :=
  if (i <? 0)%Z then Err OutOfBounds
  else match nth_error a (Z.to_nat i) with
       | Some v => Ok v
       | None => Err OutOfBounds
       end.

(** [a[i] = v]. *)
Definition store {A} (a : list A) (i : Z) (v : A) : result (list A) :=
  if ((0 <=? i) && (i <? Z.of_nat (length a)))%Z
  then Ok (upd (Z.to_nat i) v a)
  else Err OutOfBounds.

(** [for (i=lo; i<lo+n; i++) body], the body changing neither [i] nor the
    bound. *)
Fixpoint for_steps {S} (n : nat) (lo : Z) (body : Z -> S -> result S) (s : S)
  : result S :=
  match n with
  | O => Ok s
  | Datatypes.S n' => s' <- body lo s ;; for_steps n' (lo + 1)%Z body s'
  end.

(** [for (i=lo; i<hi; i++) body]. *)
Definition for_Z {S} (lo hi : Z) (body : Z -> S -> result S) (s : S)
  : result S :=
  for_steps (Z.to_nat (hi - lo)) lo body s.

(** [for (p=0; p<N; p++) body(p, obj[p])] over an array of [N] objects, the
    body touching object [p] only; [p] counts from [p0]. *)
Fixpoint for_each {A} (body : nat -> A -> result A) (p0 : nat) (objs : list A)
  : result (list A) :=
  match objs with
  | [] => Ok []
  | o :: rest =>
      o' <- body p0 o ;;
      rest' <- for_each body (Datatypes.S p0) rest ;;
      Ok (o' :: rest')
  end.

(* ================================================================== *)
(** ** Numbers *)

Definition SQR (x : R) : R := x * x.
Definition CUBE (x : R) : R := x * x * x.

(** Largest integer not above [x]. *)
Definition floorZ (x : R) : Z := Int_part x.

(** [ceil( x )], as an integer. *)
Definition ceilZ (x : R) : Z := (- Int_part (- x))%Z.

(** The cast [int( x )]: rounding toward zero. *)
Definition c_int (x : R) : Z :=
  if Rle_dec 0 x then Int_part x else (- Int_part (- x))%Z.

Definition vec3 : Type := (R * R * R)%type.

(** [v[d]] for [d] in 0..2. *)
Definition axis (v : vec3) (d : nat) : R :=
  match v, d with
  | (x, _, _), O => x
  | (_, y, _), Datatypes.S O => y
  | (_, _, z), _ => z
  end.

(* ================================================================== *)
(** ** Data model *)

(** Field indices accepted in [TVar]; any other code is [OtherQuant]. *)
Inductive Quant : Type :=
| DENS | MOMX | MOMY | MOMZ | ENGY
| VRAD | PRESSURE | INTERNAL_ENGY
| OtherQuant (code : Z).

(** Boundary conditions of the fluid solver ([OPT__BC_FLU]). *)
Inductive OptFluBC_t : Type :=
| BC_FLU_PERIODIC
| BC_FLU_OTHER (code : Z).

Definition is_periodic (bc : OptFluBC_t) : bool :=
  match bc with
  | BC_FLU_PERIODIC => true
  | BC_FLU_OTHER _ => false
  end.

(** One patch of the hierarchy, as this routine reads it: [fluid] is the
    array of the current sandglass [amr->FluSg[lv]], indexed [v][k][j][i]. *)
Record patch_t : Type := {
  son : Z;
  EdgeL : vec3;
  fluid : Quant -> Z -> Z -> Z -> R;
  magnetic : nat -> Z -> R
}.

(** The patches whose iterations of the [omp for] loop one thread runs, per
    refinement level. Every real patch of the rank is in exactly one share. *)
Definition share_t : Type := Z -> list patch_t.

(** One MPI rank: thread 0 and the other threads of its team. *)
Record rank_t : Type := {
  thread0 : share_t;
  threads : list share_t
}.

(** The hierarchy [amr] and the run-time options read by the routine. *)
Record AMR_t : Type := {
  BoxSize : vec3;
  dh : Z -> R;
  OPT__BC_FLU : nat -> OptFluBC_t;
  root : rank_t;
  ranks : list rank_t
}.

(** Build flags, macros and helper routines declared outside the file. *)
Record Config : Type := {
  GAMER_DEBUG : bool;
  MHD : bool;
  PS1 : Z;
  TOP_LEVEL : Z;
  GAMMA : R;
  NULL_REAL : R;
  ATAN2 : R -> R -> R;
  COS : R -> R;
  SIN : R -> R;
  SQRT : R -> R;
  Hydro_GetPressure : R -> R -> R -> R -> R -> R -> bool -> R -> R -> R;
  MHD_GetCellCenteredBField :
    (Z -> R) -> (Z -> R) -> (Z -> R) -> Z -> Z -> Z -> Z -> Z -> Z -> vec3
}.

(** [Profile_t] of include/Profile.h. *)
Record Profile_t : Type := {
  Center : vec3;
  MaxRadius : R;
  LogBin : bool;
  LogBinRatio : R;
  NBin : Z;
  Radius : list R;
  Data : list R;
  Weight : list R;
  NCell : list Z
}.

Definition set_NBin (pr : Profile_t) (n : Z) : Profile_t :=
  {| Center := Center pr; MaxRadius := MaxRadius pr; LogBin := LogBin pr;
     LogBinRatio := LogBinRatio pr; NBin := n; Radius := Radius pr;
     Data := Data pr; Weight := Weight pr; NCell := NCell pr |}.

Definition set_MaxRadius (pr : Profile_t) (m : R) : Profile_t :=
  {| Center := Center pr; MaxRadius := m; LogBin := LogBin pr;
     LogBinRatio := LogBinRatio pr; NBin := NBin pr; Radius := Radius pr;
     Data := Data pr; Weight := Weight pr; NCell := NCell pr |}.

Definition set_Radius (pr : Profile_t) (a : list R) : Profile_t :=
  {| Center := Center pr; MaxRadius := MaxRadius pr; LogBin := LogBin pr;
     LogBinRatio := LogBinRatio pr; NBin := NBin pr; Radius := a;
     Data := Data pr; Weight := Weight pr; NCell := NCell pr |}.

Definition set_Data (pr : Profile_t) (a : list R) : Profile_t :=
  {| Center := Center pr; MaxRadius := MaxRadius pr; LogBin := LogBin pr;
     LogBinRatio := LogBinRatio pr; NBin := NBin pr; Radius := Radius pr;
     Data := a; Weight := Weight pr; NCell := NCell pr |}.

(** The arguments of one call. [NProf] is the number of objects in the array
    [Prof], which is passed as a list; [TVar] is read at indices below it. *)
Record Call : Type := {
  arg_Center : vec3;
  arg_r_max_input : R;
  arg_dr_min : R;
  arg_LogBin : bool;
  arg_LogBinRatio : R;
  arg_RemoveEmpty : bool;
  arg_TVar : nat -> Quant;
  arg_SingleLv : Z
}.

(** The per-thread arrays of one profile: [OMP_Data[p][TID]],
    [OMP_Weight[p][TID]] and [OMP_NCell[p][TID]]. *)
Record omp_t : Type := {
  OMP_Data : list R;
  OMP_Weight : list R;
  OMP_NCell : list Z
}.

(** What the entry point leaves behind. *)
Inductive outcome : Type :=
| Return (Prof : list Profile_t)
| Fatal (e : error) (Prof : list Profile_t).

(* ================================================================== *)
(** ** Parameter checks (debug builds only) *)

Definition check_parameters (cf : Config) (cl : Call) : result unit :=
  if GAMER_DEBUG cf then
    if Rle_dec (arg_r_max_input cl) 0 then Err InvalidParameter
    else if Rle_dec (arg_dr_min cl) 0 then Err InvalidParameter
    else if arg_LogBin cl && (if Rle_dec (arg_LogBinRatio cl) 1 then true else false)
         then Err InvalidParameter
    else Ok tt
  else Ok tt.

(* ================================================================== *)
(** ** Bin geometry *)

(** [ceil( x )] as a [double]. *)
Definition c_ceil (x : R) : R := IZR (ceilZ x).

Definition initial_NBin (cl : Call) : Z :=
  if arg_LogBin cl
  then (c_int (ln (arg_r_max_input cl / arg_dr_min cl) / ln (arg_LogBinRatio cl)) + 2)%Z
  else c_int (c_ceil (arg_r_max_input cl / arg_dr_min cl)).

Definition initial_MaxRadius (cl : Call) (nbin : Z) : R :=
  if arg_LogBin cl
  then arg_dr_min cl * Rpower (arg_LogBinRatio cl) (IZR (nbin - 1))
  else arg_dr_min cl * IZR nbin.

(** Modelled from the spec: [Profile_t::AllocateMemory] is declared in
    include/Profile.h, which is not part of the sources at hand; it allocates
    the four per-profile arrays to [NBin] entries. Fresh entries are zero. *)
Definition AllocateMemory (pr : Profile_t) : Profile_t :=
  let n := Z.to_nat (NBin pr) in
  {| Center := Center pr; MaxRadius := MaxRadius pr; LogBin := LogBin pr;
     LogBinRatio := LogBinRatio pr; NBin := NBin pr;
     Radius := repeat 0 n; Data := repeat 0 n; Weight := repeat 0 n;
     NCell := repeat 0%Z n |}.

Definition radial_coordinate (cl : Call) (b : Z) : R :=
  if arg_LogBin cl
  then arg_dr_min cl * Rpower (arg_LogBinRatio cl) (IZR b - 0.5)
  else (IZR b + 0.5) * arg_dr_min cl.

(** Body of the first loop over [p]. [first] is [Prof[0]->NBin] when
    [p > 0]; for [p = 0] it is the value just assigned. *)
Definition configure_profile (cl : Call) (first : option Z) (pr : Profile_t)
  : result Profile_t :=
  let nbin := initial_NBin cl in
  let pr1 :=
    {| Center := arg_Center cl;
       MaxRadius := initial_MaxRadius cl nbin;
       LogBin := arg_LogBin cl;
       LogBinRatio := if arg_LogBin cl then arg_LogBinRatio cl else LogBinRatio pr;
       NBin := nbin;
       Radius := Radius pr; Data := Data pr; Weight := Weight pr;
       NCell := NCell pr |} in
  let pr2 := AllocateMemory pr1 in
  let nbin0 := match first with Some n => n | None => NBin pr2 end in
  rad <- for_Z 0 nbin0
           (fun b rad => store rad b (radial_coordinate cl b)) (Radius pr2) ;;
  Ok (set_Radius pr2 rad).

Fixpoint configure_loop (cl : Call) (first : option Z) (Prof : list Profile_t)
  : result (list Profile_t) :=
  match Prof with
  | [] => Ok []
  | pr :: rest =>
      pr' <- configure_profile cl first pr ;;
      let first' := match first with Some n => Some n | None => Some (NBin pr') end in
      rest' <- configure_loop cl first' rest ;;
      Ok (pr' :: rest')
  end.

Definition configure (cl : Call) (Prof : list Profile_t)
  : result (list Profile_t) :=
  configure_loop cl None Prof.

(* ================================================================== *)
(** ** Local accumulation *)

(** Nearest-image correction of one offset: the [if ( Periodic[d] )] blocks. *)
Definition wrap (periodic : bool) (HalfBox Box d : R) : R :=
  if periodic then
    if Rlt_dec HalfBox d then d - Box
    else if Rlt_dec d (- HalfBox) then d + Box
    else d
  else d.

Definition Periodic (amr : AMR_t) (d : nat) : bool :=
  is_periodic (OPT__BC_FLU amr (2 * d)%nat).

Definition HalfBox (amr : AMR_t) (d : nat) : R := 0.5 * axis (BoxSize amr) d.

(** The bin of a cell at radius [r]. *)
Definition cell_bin (cl : Call) (r : R) : Z :=
  if arg_LogBin cl
  then if Rlt_dec r (arg_dr_min cl) then 0%Z
       else (c_int (ln (r / arg_dr_min cl) / ln (arg_LogBinRatio cl)) + 1)%Z
  else c_int (r / arg_dr_min cl).

Definition magnetic_energy (cf : Config) (pt : patch_t) (k j i : Z) : R :=
  let B := MHD_GetCellCenteredBField cf (magnetic pt 0%nat) (magnetic pt 1%nat)
             (magnetic pt 2%nat) (PS1 cf) (PS1 cf) (PS1 cf) i j k in
  0.5 * (SQR (axis B 0) + SQR (axis B 1) + SQR (axis B 2)).

(** The [switch ( quant )]: what a cell adds to [OMP_Data] and to
    [OMP_Weight]. *)
Definition contribution (cf : Config) (pt : patch_t) (quant : Quant)
    (k j i : Z) (dx dy dz r dv : R) : result (R * R) :=
  match quant with
  | DENS | ENGY | MOMX | MOMY | MOMZ =>
      Ok (fluid pt quant k j i * dv, dv)
  | VRAD =>
      let Phi := ATAN2 cf dy dx in
      let cosPhi := COS cf Phi in
      let sinPhi := SIN cf Phi in
      let cosTheta := dz / r in
      let sinTheta := SQRT cf (1 - SQR cosTheta) in
      let MomRad := fluid pt MOMX k j i * sinTheta * cosPhi
                    + fluid pt MOMY k j i * sinTheta * sinPhi
                    + fluid pt MOMZ k j i * cosTheta in
      Ok (MomRad * dv, fluid pt DENS k j i * dv)
  | PRESSURE =>
      let EngyB := if MHD cf then magnetic_energy cf pt k j i else NULL_REAL cf in
      let Pres := Hydro_GetPressure cf
                    (fluid pt DENS k j i) (fluid pt MOMX k j i)
                    (fluid pt MOMY k j i) (fluid pt MOMZ k j i)
                    (fluid pt ENGY k j i)
                    (GAMMA cf - 1) false (NULL_REAL cf) EngyB in
      Ok (Pres * dv, dv)
  | INTERNAL_ENGY =>
      let intengy := fluid pt ENGY k j i
                     - 0.5 * (SQR (fluid pt MOMX k j i)
                              + SQR (fluid pt MOMY k j i)
                              + SQR (fluid pt MOMZ k j i))
                       / fluid pt DENS k j i in
      let intengy' := if MHD cf then intengy - magnetic_energy cf pt k j i
                      else intengy in
      Ok (intengy' * dv, dv)
  | OtherQuant _ => Err UnsupportedQuantity
  end.

(** Body of the loop over [p] for one cell: the switch, then
    [OMP_NCell[p][TID][bin] ++]. *)
Definition accumulate_quantity (cf : Config) (cl : Call) (pt : patch_t)
    (k j i : Z) (dx dy dz r dv : R) (bin : Z) (p : nat) (o : omp_t)
  : result omp_t :=
  cw <- contribution cf pt (arg_TVar cl p) k j i dx dy dz r dv ;;
  d <- load (OMP_Data o) bin ;;
  data <- store (OMP_Data o) bin (d + fst cw) ;;
  w <- load (OMP_Weight o) bin ;;
  weight <- store (OMP_Weight o) bin (w + snd cw) ;;
  n <- load (OMP_NCell o) bin ;;
  ncell <- store (OMP_NCell o) bin (n + 1)%Z ;;
  Ok {| OMP_Data := data; OMP_Weight := weight; OMP_NCell := ncell |}.

(** One cell, from [const double r2 = ...] to the end of the loop over [p].
    [NBin0] is [Prof[0]->NBin]. *)
Definition accumulate_cell (cf : Config) (cl : Call) (NBin0 : Z) (r_max2 : R)
    (pt : patch_t) (dv : R) (k j i : Z) (dx dy dz : R) (omp : list omp_t)
  : result (list omp_t) :=
  let r2 := SQR dx + SQR dy + SQR dz in
  if Rlt_dec r2 r_max2 then
    let r := sqrt r2 in
    let bin := cell_bin cl r in
    if (bin >=? NBin0)%Z then Ok omp
    else if GAMER_DEBUG cf && (bin <? 0)%Z then Err NegativeBin
    else for_each (accumulate_quantity cf cl pt k j i dx dy dz r dv bin) 0 omp
  else Ok omp.

(** The offsets of cell [(k,j,i)] of a patch from the center, corrected. *)
Definition offset (amr : AMR_t) (cl : Call) (h : R) (pt : patch_t) (d : nat)
    (n : Z) : R :=
  wrap (Periodic amr d) (HalfBox amr d) (axis (BoxSize amr) d)
       (axis (EdgeL pt) d + 0.5 * h - axis (arg_Center cl) d + IZR n * h).

(** One patch: body of the loop over [PID]. *)
Definition accumulate_patch (cf : Config) (amr : AMR_t) (cl : Call)
    (NBin0 : Z) (r_max2 : R) (h dv : R) (pt : patch_t) (omp : list omp_t)
  : result (list omp_t) :=
  if (son pt =? -1)%Z then
    for_Z 0 (PS1 cf) (fun k omp =>
      let dz := offset amr cl h pt 2 k in
      for_Z 0 (PS1 cf) (fun j omp =>
        let dy := offset amr cl h pt 1 j in
        for_Z 0 (PS1 cf) (fun i omp =>
          let dx := offset amr cl h pt 0 i in
          accumulate_cell cf cl NBin0 r_max2 pt dv k j i dx dy dz omp)
        omp)
      omp)
    omp
  else Ok omp.

(** The iterations of [for (PID...)] that fall to one thread. *)
Fixpoint for_patches {S} (body : patch_t -> S -> result S) (l : list patch_t)
    (s : S) : result S :=
  match l with
  | [] => Ok s
  | pt :: rest => s' <- body pt s ;; for_patches body rest s'
  end.

Definition lv_min (cl : Call) : Z :=
  if (arg_SingleLv cl <? 0)%Z then 0%Z else arg_SingleLv cl.

Definition lv_max (cf : Config) (cl : Call) : Z :=
  if (arg_SingleLv cl <? 0)%Z then TOP_LEVEL cf else arg_SingleLv cl.

Definition zero_omp (NBin0 : Z) : omp_t :=
  {| OMP_Data := repeat 0 (Z.to_nat NBin0);
     OMP_Weight := repeat 0 (Z.to_nat NBin0);
     OMP_NCell := repeat 0%Z (Z.to_nat NBin0) |}.

(** The parallel region as one thread runs it: initialise the thread's arrays,
    then loop over the levels and over the thread's patches. *)
Definition accumulate_thread (cf : Config) (amr : AMR_t) (cl : Call)
    (NProf : nat) (NBin0 : Z) (r_max2 : R) (share : share_t)
  : result (list omp_t) :=
  for_Z (lv_min cl) (lv_max cf cl + 1) (fun lv omp =>
    let h := dh amr lv in
    let dv := CUBE h in
    for_patches (accumulate_patch cf amr cl NBin0 r_max2 h dv) (share lv) omp)
  (repeat (zero_omp NBin0) NProf).

(* ================================================================== *)
(** ** Reduction over threads and ranks *)

Fixpoint map2 {A B C} (f : A -> B -> C) (l : list A) (m : list B) : list C :=
  match l, m with
  | a :: l', b :: m' => f a b :: map2 f l' m'
  | _, _ => []
  end.

(** Entry-wise sum of the arrays of one profile. *)
Definition omp_add (a b : omp_t) : omp_t :=
  {| OMP_Data := map2 Rplus (OMP_Data a) (OMP_Data b);
     OMP_Weight := map2 Rplus (OMP_Weight a) (OMP_Weight b);
     OMP_NCell := map2 Z.add (OMP_NCell a) (OMP_NCell b) |}.

Definition sums_add (a b : list omp_t) : list omp_t := map2 omp_add a b.

Fixpoint all_ok {A} (l : list (result A)) : result (list A) :=
  match l with
  | [] => Ok []
  | c :: rest => a <- c ;; r <- all_ok rest ;; Ok (a :: r)
  end.

(** One rank: every thread accumulates, then the arrays of thread 0 are
    copied and those of the threads [t >= 1] added. *)
Definition accumulate_rank (cf : Config) (amr : AMR_t) (cl : Call)
    (NProf : nat) (NBin0 : Z) (r_max2 : R) (rk : rank_t)
  : result (list omp_t) :=
  t0 <- accumulate_thread cf amr cl NProf NBin0 r_max2 (thread0 rk) ;;
  ts <- all_ok (map (accumulate_thread cf amr cl NProf NBin0 r_max2)
                    (threads rk)) ;;
  Ok (fold_left sums_add ts t0).

(** [MPI_Reduce] with [MPI_SUM] to the root rank (and, after normalisation,
    [MPI_Bcast] to all of them): the sums every rank holds. *)
Definition collect (cf : Config) (amr : AMR_t) (cl : Call)
    (NProf : nat) (NBin0 : Z) (r_max2 : R) : result (list omp_t) :=
  r0 <- accumulate_rank cf amr cl NProf NBin0 r_max2 (root amr) ;;
  rs <- all_ok (map (accumulate_rank cf amr cl NProf NBin0 r_max2)
                    (ranks amr)) ;;
  Ok (fold_left sums_add rs r0).

(** [Prof[p]->Data], [Weight] and [NCell] receive the sums (entries
    [0..Prof[0]->NBin-1], that is, all of them). *)
Definition store_sums (pr : Profile_t) (o : omp_t) : Profile_t :=
  {| Center := Center pr; MaxRadius := MaxRadius pr; LogBin := LogBin pr;
     LogBinRatio := LogBinRatio pr; NBin := NBin pr; Radius := Radius pr;
     Data := OMP_Data o; Weight := OMP_Weight o; NCell := OMP_NCell o |}.

(* ================================================================== *)
(** ** Normalisation *)

(** Body of the loop over [b] of the normaliser. *)
Definition normalize_bin (quant : Quant) (b : Z) (pr : Profile_t)
  : result Profile_t :=
  n <- load (NCell pr) b ;;
  if (n >? 0)%Z then
    match quant with
    | DENS | ENGY | MOMX | MOMY | MOMZ | PRESSURE | INTERNAL_ENGY =>
        d <- load (Data pr) b ;;
        w <- load (Weight pr) b ;;
        data <- store (Data pr) b (d / w) ;;
        Ok (set_Data pr data)
    | VRAD =>
        w <- load (Weight pr) b ;;
        if Rlt_dec 0 w then
          d <- load (Data pr) b ;;
          data <- store (Data pr) b (d / w) ;;
          Ok (set_Data pr data)
        else Ok pr
    | OtherQuant _ => Ok pr
    end
  else Ok pr.

Definition normalize (cl : Call) (NBin0 : Z) (Prof : list Profile_t)
  : result (list Profile_t) :=
  for_each (fun p pr => for_Z 0 NBin0 (normalize_bin (arg_TVar cl p)) pr)
           0 Prof.

(* ================================================================== *)
(** ** Removal of the empty bins *)

(** [for (b_up=b+1; b_up<NBin; b_up++) if ( NCell[b_up] != 0L ) break;]:
    the value of [b_up] after the loop, [n] bounding the iterations left. *)
Fixpoint next_nonempty (n : nat) (b_up : Z) (ncell : list Z) : result Z :=
  match n with
  | O => Ok b_up
  | Datatypes.S n' =>
      c <- load ncell b_up ;;
      if (c =? 0)%Z then next_nonempty n' (b_up + 1)%Z ncell else Ok b_up
  end.

(** The four assignments [X[b_up_ms] = X[b_up]] of one profile. *)
Definition shift_bin (b_up_ms b_up : Z) (pr : Profile_t) : result Profile_t :=
  r <- load (Radius pr) b_up ;;
  radius <- store (Radius pr) b_up_ms r ;;
  d <- load (Data pr) b_up ;;
  data <- store (Data pr) b_up_ms d ;;
  w <- load (Weight pr) b_up ;;
  weight <- store (Weight pr) b_up_ms w ;;
  n <- load (NCell pr) b_up ;;
  ncell <- store (NCell pr) b_up_ms n ;;
  Ok {| Center := Center pr; MaxRadius := MaxRadius pr; LogBin := LogBin pr;
        LogBinRatio := LogBinRatio pr; NBin := NBin pr;
        Radius := radius; Data := data; Weight := weight; NCell := ncell |}.

(** The loop over [b], started at [b]. The source decrements [b] and the
    bound [Prof[0]->NBin] inside the body, so the loop is not a counted one:
    [fuel] bounds the number of times its condition is evaluated. *)
Fixpoint remove_empty_loop (fuel : nat) (b : Z) (Prof : list Profile_t)
  : result (list Profile_t) :=
  match fuel with
  | O => Err OutOfFuel
  | Datatypes.S fuel' =>
      p0 <- load Prof 0 ;;
      if (b <? NBin p0)%Z then
        n <- load (NCell p0) b ;;
        if negb (n =? 0)%Z then remove_empty_loop fuel' (b + 1)%Z Prof
        else
          b_up <- next_nonempty (Z.to_nat (NBin p0 - (b + 1))) (b + 1)%Z
                                (NCell p0) ;;
          let stride := (b_up - b)%Z in
          Prof1 <- for_Z (b + stride) (NBin p0)
                     (fun b_up P =>
                        for_each (fun _ pr => shift_bin (b_up - stride) b_up pr)
                                 0 P)
                     Prof ;;
          let Prof2 := map (fun pr => set_NBin pr (NBin pr - stride)) Prof1 in
          remove_empty_loop fuel' (b - 1 + 1)%Z Prof2
      else Ok Prof
  end.

(** Every evaluation of the loop condition but the last either moves [b] up
    or lowers the bound, so [NBin + 1] evaluations are enough. *)
Definition remove_empty_bins_fuel (Prof : list Profile_t) : nat :=
  match Prof with
  | [] => 1%nat
  | p0 :: _ => Datatypes.S (Z.to_nat (NBin p0))
  end.

Definition remove_empty_bins (cl : Call) (Prof : list Profile_t)
  : result (list Profile_t) :=
  if arg_RemoveEmpty cl
  then remove_empty_loop (remove_empty_bins_fuel Prof) 0 Prof
  else Ok Prof.

(* ================================================================== *)
(** ** The outer radius after the removal, and the entry point *)

Definition extrapolate (cl : Call) (last before_last : R) : R :=
  if arg_LogBin cl then SQR last / before_last
  else 2.0 * last - before_last.

Definition update_MaxRadius (cl : Call) (Prof : list Profile_t)
  : result (list Profile_t) :=
  for_each (fun _ pr =>
              let b := NBin pr in
              r1 <- load (Radius pr) (b - 1) ;;
              r2 <- load (Radius pr) (b - 2) ;;
              Ok (set_MaxRadius pr (extrapolate cl r1 r2)))
           0 Prof.

(** From the allocation of the per-thread arrays to the end of the
    reduction. *)
Definition accumulate_all (cf : Config) (amr : AMR_t) (cl : Call)
    (Prof : list Profile_t) : result (list Profile_t) :=
  p0 <- load Prof 0 ;;
  sums <- collect cf amr cl (length Prof) (NBin p0) (SQR (MaxRadius p0)) ;;
  Ok (map2 store_sums Prof sums).

Definition normalize_all (cl : Call) (Prof : list Profile_t)
  : result (list Profile_t) :=
  p0 <- load Prof 0 ;;
  normalize cl (NBin p0) Prof.

(** The state of the profiles before normalisation. *)
Definition reduced (cf : Config) (amr : AMR_t) (cl : Call)
    (Prof : list Profile_t) : result (list Profile_t) :=
  P1 <- configure cl Prof ;;
  accumulate_all cf amr cl P1.

(** Run one stage; an error aborts with the state the stage started from. *)
Definition stage (st : list Profile_t) (c : result (list Profile_t))
    (k : list Profile_t -> outcome) : outcome :=
  match c with
  | Ok st' => k st'
  | Err e => Fatal e st
  end.

Definition Aux_ComputeProfile (cf : Config) (amr : AMR_t) (cl : Call)
    (Prof : list Profile_t) : outcome :=
  match check_parameters cf cl with
  | Err e => Fatal e Prof
  | Ok _ =>
      stage Prof (configure cl Prof) (fun P1 =>
      stage P1 (accumulate_all cf amr cl P1) (fun P2 =>
      stage P2 (normalize_all cl P2) (fun P3 =>
      stage P3 (remove_empty_bins cl P3) (fun P4 =>
      stage P4 (update_MaxRadius cl P4) Return))))
  end.

(* ================================================================== *)
(** ** Reference definitions used by the statements *)

(** Entries of the arrays, for statements. *)
Definition entry (a : list R) (b : Z) : R := nth (Z.to_nat b) a 0.
Definition cells (a : list Z) (b : Z) : Z := nth (Z.to_nat b) a 0%Z.

Fixpoint seqZ (lo : Z) (n : nat) : list Z :=
  match n with
  | O => []
  | Datatypes.S n' => lo :: seqZ (lo + 1)%Z n'
  end.

Definition sumZ {A} (f : A -> Z) (l : list A) : Z :=
  fold_right (fun a s => (f a + s)%Z) 0%Z l.

(** Sum of an array of counts. *)
Definition total (a : list Z) : Z := sumZ (fun n => n) a.

(** The bins a profile exposes: entries [0..NBin-1] of its arrays. *)
Definition visible (pr : Profile_t) : Profile_t :=
  let n := Z.to_nat (NBin pr) in
  {| Center := Center pr; MaxRadius := MaxRadius pr; LogBin := LogBin pr;
     LogBinRatio := LogBinRatio pr; NBin := NBin pr;
     Radius := firstn n (Radius pr); Data := firstn n (Data pr);
     Weight := firstn n (Weight pr); NCell := firstn n (NCell pr) |}.

(** What one contributing cell does to the arrays of one profile. *)
Definition add_cell (bin : Z) (c w : R) (o : omp_t) : omp_t :=
  {| OMP_Data := upd (Z.to_nat bin) (entry (OMP_Data o) bin + c) (OMP_Data o);
     OMP_Weight := upd (Z.to_nat bin) (entry (OMP_Weight o) bin + w) (OMP_Weight o);
     OMP_NCell := upd (Z.to_nat bin) (cells (OMP_NCell o) bin + 1)%Z (OMP_NCell o) |}.

(** The bin index as the specification words it, with [floor]. *)
Definition spec_bin (cl : Call) (r : R) : Z :=
  if arg_LogBin cl
  then if Rlt_dec r (arg_dr_min cl) then 0%Z
       else (floorZ (ln (r / arg_dr_min cl) / ln (arg_LogBinRatio cl)) + 1)%Z
  else floorZ (r / arg_dr_min cl).

(** The quantities the switch accepts. *)
Definition supported (q : Quant) : Prop :=
  match q with
  | OtherQuant _ => False
  | _ => True
  end.

(** The plain volume-weighted quantities. *)
Definition volume_weighted (q : Quant) : Prop :=
  match q with
  | DENS | ENGY | MOMX | MOMY | MOMZ | PRESSURE | INTERNAL_ENGY => True
  | _ => False
  end.

(** A valid configuration of the bins. *)
Definition valid_configuration (cl : Call) : Prop :=
  0 < arg_r_max_input cl /\ 0 < arg_dr_min cl /\
  (arg_LogBin cl = true -> 1 < arg_LogBinRatio cl).

(** Nearest-image correction as the specification words it: when the axis is
    periodic and the offset exceeds half the domain length, the full domain
    length is subtracted or added. *)
Definition nearest_image (periodic : bool) (L d : R) : R :=
  if periodic then
    if Rlt_dec (L / 2) d then d - L
    else if Rlt_dec d (- (L / 2)) then d + L
    else d
  else d.

Definition cell_center (h : R) (pt : patch_t) (d : nat) (n : Z) : R :=
  axis (EdgeL pt) d + (IZR n + 1 / 2) * h.

Definition corrected_offset (amr : AMR_t) (cl : Call) (h : R) (pt : patch_t)
    (d : nat) (n : Z) : R :=
  nearest_image (Periodic amr d) (axis (BoxSize amr) d)
                (cell_center h pt d n - axis (arg_Center cl) d).

Definition distance (amr : AMR_t) (cl : Call) (h : R) (pt : patch_t)
    (k j i : Z) : R :=
  sqrt (SQR (corrected_offset amr cl h pt 0 i)
        + SQR (corrected_offset amr cl h pt 1 j)
        + SQR (corrected_offset amr cl h pt 2 k)).

(** Sums over the cells of the hierarchy of a weight [w lv pt k j i]: over
    the cells of a leaf patch, the patches of a share on the levels [lvs],
    the threads of a rank, and the ranks. *)
Definition sum_patch (cf : Config) (w : patch_t -> Z -> Z -> Z -> Z)
    (pt : patch_t) : Z :=
  if (son pt =? -1)%Z then
    sumZ (fun k => sumZ (fun j => sumZ (fun i => w pt k j i)
                                       (seqZ 0 (Z.to_nat (PS1 cf))))
                        (seqZ 0 (Z.to_nat (PS1 cf))))
         (seqZ 0 (Z.to_nat (PS1 cf)))
  else 0%Z.

Definition sum_share (cf : Config) (lvs : list Z)
    (w : Z -> patch_t -> Z -> Z -> Z -> Z) (share : share_t) : Z :=
  sumZ (fun lv => sumZ (sum_patch cf (w lv)) (share lv)) lvs.

Definition sum_rank (cf : Config) (lvs : list Z)
    (w : Z -> patch_t -> Z -> Z -> Z -> Z) (rk : rank_t) : Z :=
  (sum_share cf lvs w (thread0 rk) + sumZ (sum_share cf lvs w) (threads rk))%Z.

Definition sum_cells (cf : Config) (amr : AMR_t) (lvs : list Z)
    (w : Z -> patch_t -> Z -> Z -> Z -> Z) : Z :=
  (sum_rank cf lvs w (root amr) + sumZ (sum_rank cf lvs w) (ranks amr))%Z.

(** The levels a call loops over, and all the levels of the hierarchy. *)
Definition considered_levels (cf : Config) (cl : Call) : list Z :=
  seqZ (lv_min cl) (Z.to_nat (lv_max cf cl + 1 - lv_min cl)).

Definition all_levels (cf : Config) : list Z :=
  seqZ 0 (Z.to_nat (TOP_LEVEL cf + 1)).

(** Number of leaf cells on the levels [lvs] whose corrected distance from
    the center is below [outer]. *)
Definition leaf_cells_within (cf : Config) (amr : AMR_t) (cl : Call)
    (lvs : list Z) (outer : R) : Z :=
  sum_cells cf amr lvs
    (fun lv pt k j i =>
       if Rlt_dec (distance amr cl (dh amr lv) pt k j i) outer then 1%Z else 0%Z).

(** A patch that some thread of some rank visits on level [lv]. *)
Definition shares (amr : AMR_t) : list share_t :=
  flat_map (fun rk => thread0 rk :: threads rk) (root amr :: ranks amr).

Definition patch_at (amr : AMR_t) (lv : Z) (pt : patch_t) : Prop :=
  exists sh, In sh (shares amr) /\ In pt (sh lv).

(** Removal of the empty bins by hand: the entries of [a] whose cell count in
    [ncell] is not zero, in order. *)
Fixpoint keep_nonempty {A} (ncell : list Z) (a : list A) : list A :=
  match ncell, a with
  | n :: ns, x :: xs =>
      if (n =? 0)%Z then keep_nonempty ns xs else x :: keep_nonempty ns xs
  | _, _ => []
  end.

(** Drop the zero-count bins of a profile from its four arrays and shrink
    [NBin]; the outer radius is left for [manual_MaxRadius]. *)
Definition manual_compact (pr : Profile_t) : Profile_t :=
  let nc := NCell (visible pr) in
  {| Center := Center pr; MaxRadius := MaxRadius pr; LogBin := LogBin pr;
     LogBinRatio := LogBinRatio pr;
     NBin := Z.of_nat (length (keep_nonempty nc nc));
     Radius := keep_nonempty nc (Radius (visible pr));
     Data := keep_nonempty nc (Data (visible pr));
     Weight := keep_nonempty nc (Weight (visible pr));
     NCell := keep_nonempty nc nc |}.

(** The extrapolation rule on the last two radii; undefined ([Err]) with
    fewer than two bins. *)
Definition manual_MaxRadius (cl : Call) (pr : Profile_t) : result Profile_t :=
  r1 <- load (Radius pr) (NBin pr - 1) ;;
  r2 <- load (Radius pr) (NBin pr - 2) ;;
  Ok (set_MaxRadius pr (extrapolate cl r1 r2)).

Fixpoint map_ok {A B} (f : A -> result B) (l : list A) : result (list B) :=
  match l with
  | [] => Ok []
  | a :: rest => b <- f a ;; r <- map_ok f rest ;; Ok (b :: r)
  end.

Definition manual_remove_empty (cl : Call) (Prof : list Profile_t)
  : result (list Profile_t) :=
  map_ok (fun pr => manual_MaxRadius cl (manual_compact pr)) Prof.

(** What the geometry loop establishes for a profile. *)
Definition configured (cl : Call) (pr : Profile_t) : Prop :=
  Center pr = arg_Center cl /\
  NBin pr = initial_NBin cl /\
  MaxRadius pr = initial_MaxRadius cl (initial_NBin cl) /\
  LogBin pr = arg_LogBin cl /\
  (arg_LogBin cl = true -> LogBinRatio pr = arg_LogBinRatio cl) /\
  length (Radius pr) = Z.to_nat (NBin pr) /\
  length (Data pr) = Z.to_nat (NBin pr) /\
  length (Weight pr) = Z.to_nat (NBin pr) /\
  length (NCell pr) = Z.to_nat (NBin pr) /\
  (forall b, (0 <= b < NBin pr)%Z -> entry (Radius pr) b = radial_coordinate cl b).

(* ================================================================== *)
(** ** Concrete inputs *)

(** A profile object before its first use. *)
Definition fresh_profile : Profile_t :=
  {| Center := (0, 0, 0); MaxRadius := 0; LogBin := false; LogBinRatio := 0;
     NBin := (-1)%Z; Radius := []; Data := []; Weight := []; NCell := [] |}.

(** Linear bins of width 1 out to radius 4 around (4,4,4), density profile,
    all levels, empty bins kept. *)
Definition linear_call : Call :=
  {| arg_Center := (4, 4, 4); arg_r_max_input := 4; arg_dr_min := 1;
     arg_LogBin := false; arg_LogBinRatio := 0; arg_RemoveEmpty := false;
     arg_TVar := fun _ => DENS; arg_SingleLv := (-1)%Z |}.

(** Logarithmic bins of ratio 2, the innermost of width 1, out to radius 4. *)
Definition log_call : Call :=
  {| arg_Center := (4, 4, 4); arg_r_max_input := 4; arg_dr_min := 1;
     arg_LogBin := true; arg_LogBinRatio := 2; arg_RemoveEmpty := false;
     arg_TVar := fun _ => DENS; arg_SingleLv := (-1)%Z |}.

(** Logarithmic bins of ratio 2 with a requested radius, 3, below the width
    of the innermost bin, 8. *)
Definition small_log_call : Call :=
  {| arg_Center := (4, 4, 4); arg_r_max_input := 3; arg_dr_min := 8;
     arg_LogBin := true; arg_LogBinRatio := 2; arg_RemoveEmpty := false;
     arg_TVar := fun _ => DENS; arg_SingleLv := (-1)%Z |}.

(* ================================================================== *)
(** ** Predicates used by the proofs *)

(** Postcondition of a computation: [Q] on a result, [E] on an error. With
    [E] always true this is partial correctness; with [E] always false the
    computation returns. *)
Definition post {A} (Q : A -> Prop) (E : error -> Prop) (c : result A) : Prop :=
  match c with
  | Ok a => Q a
  | Err e => E e
  end.

(** The arrays of one profile have [n] entries each. *)
Definition omp_wf (n : Z) (o : omp_t) : Prop :=
  length (OMP_Data o) = Z.to_nat n /\
  length (OMP_Weight o) = Z.to_nat n /\
  length (OMP_NCell o) = Z.to_nat n.

(** Cell [(k,j,i)] of patch [pt] on level [lv] is one the loops visit. *)
Definition visited (cf : Config) (amr : AMR_t) (cl : Call)
    (lv : Z) (pt : patch_t) (k j i : Z) : Prop :=
  (lv_min cl <= lv <= lv_max cf cl)%Z /\ patch_at amr lv pt /\
  son pt = (-1)%Z /\
  (0 <= k < PS1 cf)%Z /\ (0 <= j < PS1 cf)%Z /\ (0 <= i < PS1 cf)%Z.

(** Squared distance as the loops compute it. *)
Definition cell_r2 (amr : AMR_t) (cl : Call) (h : R) (pt : patch_t)
    (k j i : Z) : R :=
  SQR (offset amr cl h pt 0 i) + SQR (offset amr cl h pt 1 j)
  + SQR (offset amr cl h pt 2 k).

(** 1 when the cell is counted (in range, and its bin below [NBin0]),
    0 otherwise. *)
Definition counted (cl : Call) (NBin0 : Z) (r_max2 r2 : R) : Z :=
  if Rlt_dec r2 r_max2 then
    if (cell_bin cl (sqrt r2) >=? NBin0)%Z then 0%Z else 1%Z
  else 0%Z.

(** [omp'] is [omp] after a cell of bin [bin] was added to every profile. *)
Definition cell_added (cf : Config) (cl : Call) (pt : patch_t)
    (k j i : Z) (dx dy dz r dv : R) (bin : Z) (omp omp' : list omp_t) : Prop :=
  length omp' = length omp /\
  forall p o, nth_error omp p = Some o ->
    (0 <= bin)%Z /\
    exists c w,
      contribution cf pt (arg_TVar cl p) k j i dx dy dz r dv = Ok (c, w) /\
      nth_error omp' p = Some (add_cell bin c w o).

(** The per-thread arrays of [NProf] profiles, [NBin0] bins each. *)
Definition omp_all_wf (NProf : nat) (NBin0 : Z) (omp : list omp_t) : Prop :=
  length omp = NProf /\ Forall (omp_wf NBin0) omp.

(** Entry [x] of an array, [d] outside it. *)
Definition zth {A} (d : A) (a : list A) (x : Z) : A := nth (Z.to_nat x) a d.

(** [a[dst] = a[src]]. *)
Definition move {A} (d : A) (dst src : Z) (a : list A) : list A :=
  upd (Z.to_nat dst) (zth d a src) a.

(** [steps] iterations of the shifting loop on one array, from [b_up = m]. *)
Fixpoint shift_list {A} (d : A) (steps : nat) (m stride : Z) (a : list A)
  : list A :=
  match steps with
  | O => a
  | Datatypes.S k => shift_list d k (m + 1)%Z stride (move d (m - stride)%Z m a)
  end.

Definition shift_profile (steps : nat) (m stride : Z) (pr : Profile_t)
  : Profile_t :=
  {| Center := Center pr; MaxRadius := MaxRadius pr; LogBin := LogBin pr;
     LogBinRatio := LogBinRatio pr; NBin := NBin pr;
     Radius := shift_list 0 steps m stride (Radius pr);
     Data := shift_list 0 steps m stride (Data pr);
     Weight := shift_list 0 steps m stride (Weight pr);
     NCell := shift_list 0%Z steps m stride (NCell pr) |}.

(** The four arrays of a profile have [L] entries, of which [NBin] are in
    use. *)
Definition prof_wf (L : nat) (pr : Profile_t) : Prop :=
  length (Radius pr) = L /\ length (Data pr) = L /\
  length (Weight pr) = L /\ length (NCell pr) = L /\
  (0 <= NBin pr <= Z.of_nat L)%Z.

(** The first [n] entries of [a] with those at or above [b] whose count in
    [mask] is zero removed. *)
Definition compact_from {A} (b n : nat) (mask : list Z) (a : list A) : list A :=
  firstn b a ++ keep_nonempty (skipn b (firstn n mask)) (skipn b (firstn n a)).

(** [pr'] is [pr] with the empty bins at or above [b] removed, the counts
    being those of [mask]. *)
Definition compacted (L b n : nat) (mask : list Z) (pr pr' : Profile_t) : Prop :=
  Center pr' = Center pr /\ MaxRadius pr' = MaxRadius pr /\
  LogBin pr' = LogBin pr /\ LogBinRatio pr' = LogBinRatio pr /\
  NBin pr' = Z.of_nat (length (compact_from b n mask mask)) /\
  Radius (visible pr') = compact_from b n mask (Radius pr) /\
  Data (visible pr') = compact_from b n mask (Data pr) /\
  Weight (visible pr') = compact_from b n mask (Weight pr) /\
  NCell (visible pr') = compact_from b n mask (NCell pr) /\
  prof_wf L pr'.

(** The value the normaliser leaves in [Data[b]], from the cell count, the
    accumulated sum [d] and the accumulated weight [w] of the bin. *)
Definition normalized_value (q : Quant) (n : Z) (d w : R) : R :=
  if (n >? 0)%Z then
    match q with
    | VRAD => if Rlt_dec 0 w then d / w else d
    | OtherQuant _ => d
    | _ => d / w
    end
  else d.

(** [pr'] is [pr] with the first [n] entries of [Data] normalised. *)
Definition normalized (q : Quant) (n : Z) (pr pr' : Profile_t) : Prop :=
  exists data,
    pr' = set_Data pr data /\ length data = length (Data pr) /\
    forall x, (0 <= x < n)%Z ->
      entry data x
      = normalized_value q (cells (NCell pr) x) (entry (Data pr) x)
                         (entry (Weight pr) x).

(** The outer radius the geometry loop sets, and its square as the
    accumulation uses it. *)
Definition outer_radius (cl : Call) : R := initial_MaxRadius cl (initial_NBin cl).

Definition with_RemoveEmpty (flag : bool) (cl : Call) : Call :=
  {| arg_Center := arg_Center cl; arg_r_max_input := arg_r_max_input cl;
     arg_dr_min := arg_dr_min cl; arg_LogBin := arg_LogBin cl;
     arg_LogBinRatio := arg_LogBinRatio cl; arg_RemoveEmpty := flag;
     arg_TVar := arg_TVar cl; arg_SingleLv := arg_SingleLv cl |}.

(** A patch of leaf cells with uniform density 2, at rest, whose left edges
    are at the origin. *)
Definition uniform_patch : patch_t :=
  {| son := (-1)%Z; EdgeL := (0, 0, 0);
     fluid := fun q _ _ _ => match q with DENS => 2 | ENGY => 1 | _ => 0 end;
     magnetic := fun _ _ => 0 |}.

(** A box of side 8 without periodic boundaries, one level of spacing 1, and
    one rank with one thread holding [uniform_patch]. *)
Definition single_patch_amr : AMR_t :=
  {| BoxSize := (8, 8, 8);
     dh := fun _ => 1;
     OPT__BC_FLU := fun _ => BC_FLU_OTHER 0;
     root := {| thread0 := fun lv => if (lv =? 0)%Z then [uniform_patch] else [];
                threads := [] |};
     ranks := [] |}.

(** A serial, non-debug, hydro-only build with patches of 8 cells a side and
    one level. *)
Definition serial_build : Config :=
  {| GAMER_DEBUG := false; MHD := false; PS1 := 8; TOP_LEVEL := 0;
     GAMMA := 5 / 3; NULL_REAL := 0;
     ATAN2 := fun y x => if Rlt_dec 0 x then atan (y / x)
                         else if Rlt_dec x 0 then atan (y / x) + PI
                         else PI / 2;
     COS := cos; SIN := sin; SQRT := sqrt;
     Hydro_GetPressure :=
       fun d mx my mz e g _ _ _ => g * (e - 0.5 * (SQR mx + SQR my + SQR mz) / d);
     MHD_GetCellCenteredBField := fun _ _ _ _ _ _ _ _ _ => (0, 0, 0) |}.

(** The same build with the debug checks compiled in. *)
Definition debug_build : Config :=
  {| GAMER_DEBUG := true; MHD := MHD serial_build; PS1 := PS1 serial_build;
     TOP_LEVEL := TOP_LEVEL serial_build; GAMMA := GAMMA serial_build;
     NULL_REAL := NULL_REAL serial_build; ATAN2 := ATAN2 serial_build;
     COS := COS serial_build; SIN := SIN serial_build; SQRT := SQRT serial_build;
     Hydro_GetPressure := Hydro_GetPressure serial_build;
     MHD_GetCellCenteredBField := MHD_GetCellCenteredBField serial_build |}.

(** The parameters the checks of the debug build reject. *)
Definition invalid_parameters (cl : Call) : Prop :=
  arg_r_max_input cl <= 0 \/ arg_dr_min cl <= 0 \/
  (arg_LogBin cl = true /\ arg_LogBinRatio cl <= 1).

(** Linear bins with a negative requested radius and a negative bin width,
    around a center far from the box. *)
Definition negative_call : Call :=
  {| arg_Center := (100, 100, 100); arg_r_max_input := -4; arg_dr_min := -1;
     arg_LogBin := false; arg_LogBinRatio := 0; arg_RemoveEmpty := false;
     arg_TVar := fun _ => DENS; arg_SingleLv := (-1)%Z |}.

(** No count is negative, and a bin without cells holds no data and no
    weight. *)
Definition empty_bins_zero (o : omp_t) : Prop :=
  forall i : nat,
    (0 <= nth i (OMP_NCell o) 0)%Z /\
    (nth i (OMP_NCell o) 0%Z = 0%Z ->
     nth i (OMP_Data o) 0 = 0 /\ nth i (OMP_Weight o) 0 = 0).

(** The bins a call leaves of an array [a], the counts being [mask]: all of
    them, or with [RemoveEmpty] those whose count is not zero. *)
Definition final_bins {A} (flag : bool) (mask : list Z) (a : list A) : list A :=
  if flag then keep_nonempty mask a else a.

(** A build with two refinement levels. *)
Definition two_level_build : Config :=
  {| GAMER_DEBUG := GAMER_DEBUG serial_build; MHD := MHD serial_build;
     PS1 := PS1 serial_build; TOP_LEVEL := 1; GAMMA := GAMMA serial_build;
     NULL_REAL := NULL_REAL serial_build; ATAN2 := ATAN2 serial_build;
     COS := COS serial_build; SIN := SIN serial_build; SQRT := SQRT serial_build;
     Hydro_GetPressure := Hydro_GetPressure serial_build;
     MHD_GetCellCenteredBField := MHD_GetCellCenteredBField serial_build |}.

(** [linear_call] restricted to level 1. *)
Definition level_one_call : Call :=
  {| arg_Center := arg_Center linear_call;
     arg_r_max_input := arg_r_max_input linear_call;
     arg_dr_min := arg_dr_min linear_call; arg_LogBin := arg_LogBin linear_call;
     arg_LogBinRatio := arg_LogBinRatio linear_call;
     arg_RemoveEmpty := arg_RemoveEmpty linear_call;
     arg_TVar := arg_TVar linear_call; arg_SingleLv := 1%Z |}.

(** In every bin the data are [rho0] times the weight, and a bin with cells
    has a positive weight. *)
Definition uniform_bins (rho0 : R) (o : omp_t) : Prop :=
  forall i : nat,
    nth i (OMP_Data o) 0 = rho0 * nth i (OMP_Weight o) 0 /\
    (0 <= nth i (OMP_NCell o) 0)%Z /\
    0 <= nth i (OMP_Weight o) 0 /\
    ((0 < nth i (OMP_NCell o) 0)%Z -> 0 < nth i (OMP_Weight o) 0).

(** Two computations of a list of profiles agree: both fail, or both return
    and the bins the first exposes are the second. *)
Definition agree (c : result (list Profile_t)) (m : result (list Profile_t))
  : Prop :=
  match c, m with
  | Ok Pt, Ok Pm => map visible Pt = Pm
  | Err _, Err _ => True
  | _, _ => False
  end.

(** The same for one profile. *)
Definition agree1 (c : result Profile_t) (m : result Profile_t) : Prop :=
  match c, m with
  | Ok a, Ok b => visible a = b
  | Err _, Err _ => True
  | _, _ => False
  end.

(** The body of the loop of [update_MaxRadius]. *)
Definition update_MaxRadius_body (cl : Call) (pr : Profile_t) : result Profile_t :=
  r1 <- load (Radius pr) (NBin pr - 1) ;;
  r2 <- load (Radius pr) (NBin pr - 2) ;;
  Ok (set_MaxRadius pr (extrapolate cl r1 r2)).

(* ================================================================== *)
(** ** Further definitions for [Aux_ComputeProfile] *)

(** The edges of bin [b]. The header of the routine gives the right edge of a
    logarithmic bin, [dr_min*LogBinRatio^b]; a linear bin has width
    [dr_min]. Bin 0 starts at the center. *)
Definition right_edge (cl : Call) (b : Z) : R :=
  if arg_LogBin cl then arg_dr_min cl * Rpower (arg_LogBinRatio cl) (IZR b)
  else (IZR b + 1) * arg_dr_min cl.

Definition left_edge (cl : Call) (b : Z) : R :=
  if (b =? 0)%Z then 0 else right_edge cl (b - 1).

(** A box of side 8 with periodic boundaries, holding [uniform_patch]. *)
Definition periodic_amr : AMR_t :=
  {| BoxSize := BoxSize single_patch_amr; dh := dh single_patch_amr;
     OPT__BC_FLU := fun _ => BC_FLU_PERIODIC;
     root := root single_patch_amr; ranks := ranks single_patch_amr |}.

(** [linear_call] around a center near a corner of the box. *)
Definition corner_call : Call :=
  {| arg_Center := (1, 1, 1);
     arg_r_max_input := arg_r_max_input linear_call;
     arg_dr_min := arg_dr_min linear_call; arg_LogBin := arg_LogBin linear_call;
     arg_LogBinRatio := arg_LogBinRatio linear_call;
     arg_RemoveEmpty := arg_RemoveEmpty linear_call;
     arg_TVar := arg_TVar linear_call; arg_SingleLv := arg_SingleLv linear_call |}.

(** The offset of a cell from the center before the correction. *)
Definition raw_offset (cl : Call) (h : R) (pt : patch_t) (d : nat) (n : Z) : R :=
  axis (EdgeL pt) d + 0.5 * h - axis (arg_Center cl) d + IZR n * h.

(** Sums of a real weight over the cells of the hierarchy, as [sumZ],
    [sum_patch], [sum_share], [sum_rank] and [sum_cells] for counts. *)
Definition sumR {A} (f : A -> R) (l : list A) : R :=
  fold_right (fun a s => f a + s) 0 l.

Definition sumR_patch (cf : Config) (w : patch_t -> Z -> Z -> Z -> R)
    (pt : patch_t) : R :=
  if (son pt =? -1)%Z then
    sumR (fun k => sumR (fun j => sumR (fun i => w pt k j i)
                                       (seqZ 0 (Z.to_nat (PS1 cf))))
                        (seqZ 0 (Z.to_nat (PS1 cf))))
         (seqZ 0 (Z.to_nat (PS1 cf)))
  else 0.

Definition sumR_share (cf : Config) (lvs : list Z)
    (w : Z -> patch_t -> Z -> Z -> Z -> R) (share : share_t) : R :=
  sumR (fun lv => sumR (sumR_patch cf (w lv)) (share lv)) lvs.

Definition sumR_rank (cf : Config) (lvs : list Z)
    (w : Z -> patch_t -> Z -> Z -> Z -> R) (rk : rank_t) : R :=
  sumR_share cf lvs w (thread0 rk) + sumR (sumR_share cf lvs w) (threads rk).

Definition sumR_cells (cf : Config) (amr : AMR_t) (lvs : list Z)
    (w : Z -> patch_t -> Z -> Z -> Z -> R) : R :=
  sumR_rank cf lvs w (root amr) + sumR (sumR_rank cf lvs w) (ranks amr).

(** Cell [(k,j,i)] of a patch on level [lv] lies in bin [b]: its squared
    distance is below [r_max2] and its bin index is [b]. *)
Definition in_bin (amr : AMR_t) (cl : Call) (r_max2 : R) (b : Z)
    (lv : Z) (pt : patch_t) (k j i : Z) : bool :=
  let r2 := cell_r2 amr cl (dh amr lv) pt k j i in
  if Rlt_dec r2 r_max2 then (cell_bin cl (sqrt r2) =? b)%Z else false.

(** What the cell adds to [Data] and [Weight] of profile [p]: the pair the
    switch computes (nothing for a quantity the switch rejects). *)
Definition cell_terms (cf : Config) (amr : AMR_t) (cl : Call) (p : nat)
    (lv : Z) (pt : patch_t) (k j i : Z) : R * R :=
  let h := dh amr lv in
  match contribution cf pt (arg_TVar cl p) k j i
          (offset amr cl h pt 0 i) (offset amr cl h pt 1 j)
          (offset amr cl h pt 2 k) (sqrt (cell_r2 amr cl h pt k j i)) (CUBE h)
  with
  | Ok cw => cw
  | Err _ => (0, 0)
  end.

(** Number of leaf cells of the considered levels in bin [b]. *)
Definition cells_in_bin (cf : Config) (amr : AMR_t) (cl : Call) (r_max2 : R)
    (b : Z) : Z :=
  sum_cells cf amr (considered_levels cf cl)
    (fun lv pt k j i => if in_bin amr cl r_max2 b lv pt k j i then 1%Z else 0%Z).

(** Sums over the leaf cells in bin [b] of what each adds to [Data] and to
    [Weight] of profile [p]. *)
Definition data_in_bin (cf : Config) (amr : AMR_t) (cl : Call) (r_max2 : R)
    (p : nat) (b : Z) : R :=
  sumR_cells cf amr (considered_levels cf cl)
    (fun lv pt k j i =>
       if in_bin amr cl r_max2 b lv pt k j i
       then fst (cell_terms cf amr cl p lv pt k j i) else 0).

Definition weight_in_bin (cf : Config) (amr : AMR_t) (cl : Call) (r_max2 : R)
    (p : nat) (b : Z) : R :=
  sumR_cells cf amr (considered_levels cf cl)
    (fun lv pt k j i =>
       if in_bin amr cl r_max2 b lv pt k j i
       then snd (cell_terms cf amr cl p lv pt k j i) else 0).

(** The cell counts of the bins of a call, before any removal. *)
Definition bin_counts (cf : Config) (amr : AMR_t) (cl : Call) : list Z :=
  map (cells_in_bin cf amr cl (SQR (outer_radius cl)))
      (seqZ 0 (Z.to_nat (initial_NBin cl))).

(** The number of bins a call leaves: all of them, or with [RemoveEmpty]
    those that hold a cell. *)
Definition remaining_bins (cf : Config) (amr : AMR_t) (cl : Call) : Z :=
  Z.of_nat (length (final_bins (arg_RemoveEmpty cl) (bin_counts cf amr cl)
                               (bin_counts cf amr cl))).

(** [linear_call] asking for a field index the switch does not know. *)
Definition unknown_field_call : Call :=
  {| arg_Center := arg_Center linear_call;
     arg_r_max_input := arg_r_max_input linear_call;
     arg_dr_min := arg_dr_min linear_call; arg_LogBin := arg_LogBin linear_call;
     arg_LogBinRatio := arg_LogBinRatio linear_call;
     arg_RemoveEmpty := arg_RemoveEmpty linear_call;
     arg_TVar := fun _ => OtherQuant 99; arg_SingleLv := arg_SingleLv linear_call |}.

(** A profile object left over from an earlier, different use. *)
Definition used_profile : Profile_t :=
  {| Center := (1, 2, 3); MaxRadius := 7; LogBin := true; LogBinRatio := 0;
     NBin := 3%Z; Radius := [1; 2; 3]; Data := [4; 5; 6]; Weight := [1; 1; 1];
     NCell := [1%Z; 0%Z; 2%Z] |}.

(** All the patches of level [lv], whichever thread of whichever rank holds
    them. *)
Definition all_patches (amr : AMR_t) (lv : Z) : list patch_t :=
  flat_map (fun sh : share_t => sh lv) (shares amr).

(** Two descriptions of the same grid: the same box, spacings and boundary
    conditions, and on every level the same patches, distributed over the
    threads and ranks in any way. *)
Definition same_grid (amr amr' : AMR_t) : Prop :=
  BoxSize amr = BoxSize amr' /\
  (forall lv, dh amr lv = dh amr' lv) /\
  (forall d, OPT__BC_FLU amr d = OPT__BC_FLU amr' d) /\
  (forall lv, Permutation (all_patches amr lv) (all_patches amr' lv)).

(** A second patch, next to [uniform_patch] along x, with density 3. *)
Definition second_patch : patch_t :=
  {| son := (-1)%Z; EdgeL := (8, 0, 0);
     fluid := fun q _ _ _ => match q with DENS => 3 | ENGY => 1 | _ => 0 end;
     magnetic := fun _ _ => 0 |}.

(** A box of 16 x 8 x 8 holding the two patches: on one thread of one rank,
    and split between the second thread of the root rank and another rank. *)
Definition serial_amr : AMR_t :=
  {| BoxSize := (16, 8, 8);
     dh := fun _ => 1;
     OPT__BC_FLU := fun _ => BC_FLU_OTHER 0;
     root := {| thread0 := fun lv => if (lv =? 0)%Z
                                     then [uniform_patch; second_patch] else [];
                threads := [] |};
     ranks := [] |}.

Definition split_amr : AMR_t :=
  {| BoxSize := (16, 8, 8);
     dh := fun _ => 1;
     OPT__BC_FLU := fun _ => BC_FLU_OTHER 0;
     root := {| thread0 := fun _ => [];
                threads := [fun lv => if (lv =? 0)%Z then [second_patch] else []] |};
     ranks := [ {| thread0 := fun lv => if (lv =? 0)%Z then [uniform_patch] else [];
                   threads := [] |} ] |}.



(** [linear_call] around a center one cell and a half below the box along z:
    no cell is closer to it than 1.5, so that bin 0 stays empty while bins 1
    to 3 hold cells. *)
Definition outside_call : Call :=
  {| arg_Center := (4, 4, -1);
     arg_r_max_input := arg_r_max_input linear_call;
     arg_dr_min := arg_dr_min linear_call; arg_LogBin := arg_LogBin linear_call;
     arg_LogBinRatio := arg_LogBinRatio linear_call;
     arg_RemoveEmpty := arg_RemoveEmpty linear_call;
     arg_TVar := arg_TVar linear_call; arg_SingleLv := arg_SingleLv linear_call |}.

(** The radial coordinates the geometry loop records, bin by bin. *)
Definition configured_radii (cl : Call) : list R :=
  map (radial_coordinate cl) (seqZ 0 (Z.to_nat (initial_NBin cl))).

(** Number of leaf cells on the levels [lvs] that the accumulation counts:
    those that pass both tests of the loop body, [r2 < r_max2] and
    [bin < NBin]. *)
Definition leaf_cells_counted (cf : Config) (amr : AMR_t) (cl : Call)
    (lvs : list Z) : Z :=
  sum_cells cf amr lvs
    (fun lv pt k j i =>
       counted cl (initial_NBin cl) (SQR (outer_radius cl))
               (cell_r2 amr cl (dh amr lv) pt k j i)).


(* ================================================================== *)
(** * The evolution time-step: [Mis_GetTimeStep]

    A shallow embedding of [src/Miscellaneous/Mis_GetTimeStep.cpp], for
    [MODEL == HYDRO] (the only model for which the file compiles to a defined
    value of [dTime1]). The conventions are those of the first part; in
    addition
    - the globals, run-time options and build flags the routine reads, and
      the routines it calls that are defined elsewhere, are fields of
      [DtEnv];
    - [fmin] is [Rmin] and every real is finite, so the two [isfinite] tests
      of the last check never fire;
    - the static flag [FirstTime], the messages written to [stderr] and the
      lines appended to the file [Record__TimeStep] are the state [World];
      [fopen] is taken to succeed;
    - [MPI_Exit] and [Aux_Error] end the run: the outcome is [Exited]. *)

(** [OPT__OUTPUT_MODE] and [OPT__DT_LEVEL], as far as the routine tells their
    values apart. *)
Inductive OptOutputMode_t : Type :=
| OUTPUT_CONST_DT
| OUTPUT_USE_TABLE
| OUTPUT_MODE_OTHER (code : Z).

Inductive OptDtLevel_t : Type :=
| DT_LEVEL_FLEXIBLE
| DT_LEVEL_OTHER (code : Z).

(** The solver selector passed to [dt_InvokeSolver]. *)
Inductive Solver_t : Type :=
| DT_FLU_SOLVER.

Record DtEnv : Type := {
  COMOVING : bool;
  PARTICLE : bool;
  MPI_Rank : Z;
  NPatchTotal : Z -> Z;
  HUGE_NUMBER : R;
  OMEGA_M0 : R;
  Time_ : Z -> R;                     (* the array [Time] *)
  DT__MAX_DELTA_A : R;
  OPT__OUTPUT_TOTAL : bool;
  OPT__OUTPUT_PART : bool;
  OPT__OUTPUT_USER : bool;
  OPT__OUTPUT_BASEPS : bool;
  OPT__OUTPUT_PAR_TEXT : bool;
  OPT__OUTPUT_MODE : OptOutputMode_t;
  DumpTime : R;
  END_T : R;
  OPT__DT_USER : bool;
  Mis_GetTimeStep_User_Ptr : option (R -> R);
  OPT__DT_LEVEL : OptDtLevel_t;
  DT__FLEXIBLE_RANGE : R;
  OPT__RECORD_DT : bool;
  Step : Z;
  dt_InvokeSolver : Solver_t -> Z -> R;
  Mis_dTime2dt : R -> R -> R
}.

(** What the routine writes to [stderr]. *)
Inductive dt_message : Type :=
| Warning_FileExists
| Error_dTime4 (dTime4 dump time : R) (lv : Z)
| Error_dTime5 (dTime5 end_t time : R) (lv : Z)
| Error_SyncFaLv (dTime_SyncFaLv : R)
| Error_TimeStep (dt_min dTime_min : R).

(** The lines it appends to [Record__TimeStep]. *)
Inductive dt_line : Type :=
| Line_Time (time : R) (step next : Z) (dTime_dt : R) (lv : Z)
| Line_Rule
| Line_Hydro (dt dTime : R)
| Line_DeltaA (dt dTime : R)
| Line_DataDump (dt dTime : R)
| Line_EndTime (dt dTime : R)
| Line_User (dt dTime : R)
| Line_SyncFaLv (dt dTime : R)
| Line_Minimum (dt dTime : R)
| Line_Blank.

(** The static flag, the record file ([None]: it does not exist) and
    [stderr]. *)
Record World : Type := {
  FirstTime : bool;
  RecordFile : option (list dt_line);
  Stderr : list dt_message
}.

Inductive dt_error : Type :=
| DumpTimePassed        (* dTime4 <= 0 *)
| EndTimePassed         (* dTime5 <= 0 *)
| SyncTimePassed        (* dTime_SyncFaLv <= 0 *)
| IncorrectTimeStep.    (* the last check *)

Inductive dt_outcome : Type :=
| Returned (dTime_min : R)
| Exited (e : dt_error).

Definition say (m : list dt_message) (w : World) : World :=
  {| FirstTime := FirstTime w; RecordFile := RecordFile w;
     Stderr := Stderr w ++ m |}.

(** [fopen( FileName, "a" )], the [fprintf]s and [fclose]. *)
Definition append_lines (l : list dt_line) (w : World) : World :=
  {| FirstTime := FirstTime w;
     RecordFile := Some (match RecordFile w with
                         | Some old => old ++ l
                         | None => l
                         end);
     Stderr := Stderr w |}.

(** The first block: the warning of the first call on the root rank. *)
Definition first_call (env : DtEnv) (w : World) : World :=
  if (MPI_Rank env =? 0)%Z && FirstTime w then
    {| FirstTime := false; RecordFile := RecordFile w;
       Stderr := Stderr w ++ match RecordFile w with
                             | Some _ => [Warning_FileExists]
                             | None => []
                             end |}
  else w.

Definition dTime_dt (env : DtEnv) (lv : Z) : R :=
  if COMOVING env
  then Rpower (OMEGA_M0 env * Rpower (Time_ env lv) 3.0
               + (1.0 - OMEGA_M0 env) * Rpower (Time_ env lv) 6.0) 0.5
  else 1.0.

Definition DumpData (env : DtEnv) : bool :=
  if PARTICLE env
  then OPT__OUTPUT_TOTAL env || OPT__OUTPUT_PART env || OPT__OUTPUT_USER env
       || OPT__OUTPUT_BASEPS env || OPT__OUTPUT_PAR_TEXT env
  else OPT__OUTPUT_TOTAL env || OPT__OUTPUT_PART env || OPT__OUTPUT_USER env
       || OPT__OUTPUT_BASEPS env.

Definition DumpByTime (env : DtEnv) : bool :=
  DumpData env && match OPT__OUTPUT_MODE env with
                  | OUTPUT_CONST_DT | OUTPUT_USE_TABLE => true
                  | OUTPUT_MODE_OTHER _ => false
                  end.

(** [OPT__DT_USER && Mis_GetTimeStep_User_Ptr != NULL], with the pointer. *)
Definition user_criterion (env : DtEnv) : option (R -> R) :=
  if OPT__DT_USER env then Mis_GetTimeStep_User_Ptr env else None.

(** [OPT__DT_LEVEL == DT_LEVEL_FLEXIBLE && lv > 0]. *)
Definition synchronised (env : DtEnv) (lv : Z) : bool :=
  match OPT__DT_LEVEL env with
  | DT_LEVEL_FLEXIBLE => (lv >? 0)%Z
  | DT_LEVEL_OTHER _ => false
  end.

(** Step 2.1: the minimum over the criteria. *)
Definition minimum_criteria (env : DtEnv) (lv : Z)
    (dTime1 dTime3 dTime4 dTime5 dTime6 : R) : R :=
  let m := dTime1 in
  let m := if COMOVING env then Rmin m dTime3 else m in
  let m := if DumpByTime env then Rmin m dTime4 else m in
  let m := Rmin m dTime5 in
  match user_criterion env with
  | Some _ => Rmin m dTime6
  | None => m
  end.

(** Step 4: the lines of one record. *)
Definition record_lines (env : DtEnv) (lv : Z) (dTime_SyncFaLv : R)
    (ddt dTime1 dTime3 dTime4 dTime5 dTime6 dt_min dTime_min : R)
  : list dt_line :=
  [Line_Time (Time_ env lv) (Step env) (Step env + 1) ddt lv; Line_Rule;
   Line_Hydro (dTime1 / ddt) dTime1]
  ++ (if COMOVING env then [Line_DeltaA (dTime3 / ddt) dTime3] else [])
  ++ (if DumpByTime env then [Line_DataDump (dTime4 / ddt) dTime4] else [])
  ++ (if Req_dec_T dTime_min dTime5
      then [Line_EndTime (dTime5 / ddt) dTime5] else [])
  ++ (match user_criterion env with
      | Some _ => [Line_User (dTime6 / ddt) dTime6]
      | None => []
      end)
  ++ (if synchronised env lv
      then [Line_SyncFaLv (dTime_SyncFaLv / ddt) dTime_SyncFaLv] else [])
  ++ [Line_Minimum dt_min dTime_min; Line_Blank].

Definition Mis_GetTimeStep (cf : Config) (env : DtEnv) (lv : Z)
    (dTime_SyncFaLv : R) (w : World) : dt_outcome * World :=
  let w := first_call env w in
  if (NPatchTotal env lv =? 0)%Z then (Returned (HUGE_NUMBER env), w)
  else
    let ddt := dTime_dt env lv in
    let dTime1 := ddt * dt_InvokeSolver env DT_FLU_SOLVER lv in
    let dTime3 := DT__MAX_DELTA_A env * Time_ env lv in
    let dTime4 := if DumpByTime env then DumpTime env - Time_ env lv
                  else NULL_REAL cf in
    if DumpByTime env && (if Rle_dec dTime4 0.0 then true else false) then
      (Exited DumpTimePassed,
       say [Error_dTime4 dTime4 (DumpTime env) (Time_ env lv) lv] w)
    else
      let dTime5 := END_T env - Time_ env lv in
      if Rle_dec dTime5 0.0 then
        (Exited EndTimePassed,
         say [Error_dTime5 dTime5 (END_T env) (Time_ env lv) lv] w)
      else
        let dTime6 := match user_criterion env with
                      | Some user => ddt * user ddt
                      | None => NULL_REAL cf
                      end in
        let dTime_min := minimum_criteria env lv dTime1 dTime3 dTime4 dTime5
                                          dTime6 in
        if synchronised env lv && (if Rle_dec dTime_SyncFaLv 0.0 then true else false)
        then (Exited SyncTimePassed, say [Error_SyncFaLv dTime_SyncFaLv] w)
        else
          let dTime_min :=
            if synchronised env lv
               && (if Rge_dec ((1.0 + DT__FLEXIBLE_RANGE env) * dTime_min)
                              dTime_SyncFaLv then true else false)
            then dTime_SyncFaLv else dTime_min in
          let dt_min := Mis_dTime2dt env (Time_ env lv) dTime_min in
          let w := if OPT__RECORD_DT env && (MPI_Rank env =? 0)%Z
                   then append_lines
                          (record_lines env lv dTime_SyncFaLv ddt dTime1 dTime3
                                        dTime4 dTime5 dTime6 dt_min dTime_min) w
                   else w in
          if (if Rle_dec dt_min 0.0 then true else false)
             || (if Rle_dec dTime_min 0.0 then true else false)
          then (Exited IncorrectTimeStep, say [Error_TimeStep dt_min dTime_min] w)
          else (Returned dTime_min, w).

(** The time-step criteria in force on level [lv]: the fluid solver, the
    expansion factor (comoving runs), the next data dump (dumps by time), the
    end of the run, and the user's criterion (when enabled and set). *)
Definition active_criteria (env : DtEnv) (lv : Z) : list R :=
  [dTime_dt env lv * dt_InvokeSolver env DT_FLU_SOLVER lv]
  ++ (if COMOVING env then [DT__MAX_DELTA_A env * Time_ env lv] else [])
  ++ (if DumpByTime env then [DumpTime env - Time_ env lv] else [])
  ++ [END_T env - Time_ env lv]
  ++ (match user_criterion env with
      | Some user => [dTime_dt env lv * user (dTime_dt env lv)]
      | None => []
      end).

(** The criteria of one call, before the synchronisation with the parent
    level. *)
Definition criteria_minimum (cf : Config) (env : DtEnv) (lv : Z) : R :=
  minimum_criteria env lv
    (dTime_dt env lv * dt_InvokeSolver env DT_FLU_SOLVER lv)
    (DT__MAX_DELTA_A env * Time_ env lv)
    (if DumpByTime env then DumpTime env - Time_ env lv else NULL_REAL cf)
    (END_T env - Time_ env lv)
    (match user_criterion env with
     | Some user => dTime_dt env lv * user (dTime_dt env lv)
     | None => NULL_REAL cf
     end).

(** A hydro run in physical coordinates on one rank: two levels with patches,
    the fluid solver allowing a step of 1/4, the run ending at time 10, data
    dumps every unit of time, no user criterion, flexible time-steps. *)
Definition plain_env : DtEnv :=
  {| COMOVING := false; PARTICLE := false; MPI_Rank := 0%Z;
     NPatchTotal := fun lv => if (lv <? 2)%Z then 8%Z else 0%Z;
     HUGE_NUMBER := 1000000;
     OMEGA_M0 := 1; Time_ := fun _ => 2; DT__MAX_DELTA_A := 1;
     OPT__OUTPUT_TOTAL := true; OPT__OUTPUT_PART := false;
     OPT__OUTPUT_USER := false; OPT__OUTPUT_BASEPS := false;
     OPT__OUTPUT_PAR_TEXT := false;
     OPT__OUTPUT_MODE := OUTPUT_CONST_DT;
     DumpTime := 3; END_T := 10;
     OPT__DT_USER := false; Mis_GetTimeStep_User_Ptr := None;
     OPT__DT_LEVEL := DT_LEVEL_FLEXIBLE; DT__FLEXIBLE_RANGE := 0.1;
     OPT__RECORD_DT := true; Step := 7%Z;
     dt_InvokeSolver := fun _ _ => 0.25;
     Mis_dTime2dt := fun _ dTime => dTime |}.

(** The state at the start of a run that finds an old record file. *)
Definition fresh_world : World :=
  {| FirstTime := true; RecordFile := Some []; Stderr := [] |}.

(** [plain_env] after the end of the run. *)
Definition late_env : DtEnv :=
  {| COMOVING := COMOVING plain_env; PARTICLE := PARTICLE plain_env;
     MPI_Rank := MPI_Rank plain_env; NPatchTotal := NPatchTotal plain_env;
     HUGE_NUMBER := HUGE_NUMBER plain_env; OMEGA_M0 := OMEGA_M0 plain_env;
     Time_ := Time_ plain_env; DT__MAX_DELTA_A := DT__MAX_DELTA_A plain_env;
     OPT__OUTPUT_TOTAL := OPT__OUTPUT_TOTAL plain_env;
     OPT__OUTPUT_PART := OPT__OUTPUT_PART plain_env;
     OPT__OUTPUT_USER := OPT__OUTPUT_USER plain_env;
     OPT__OUTPUT_BASEPS := OPT__OUTPUT_BASEPS plain_env;
     OPT__OUTPUT_PAR_TEXT := OPT__OUTPUT_PAR_TEXT plain_env;
     OPT__OUTPUT_MODE := OPT__OUTPUT_MODE plain_env;
     DumpTime := DumpTime plain_env; END_T := 1;
     OPT__DT_USER := OPT__DT_USER plain_env;
     Mis_GetTimeStep_User_Ptr := Mis_GetTimeStep_User_Ptr plain_env;
     OPT__DT_LEVEL := OPT__DT_LEVEL plain_env;
     DT__FLEXIBLE_RANGE := DT__FLEXIBLE_RANGE plain_env;
     OPT__RECORD_DT := OPT__RECORD_DT plain_env; Step := Step plain_env;
     dt_InvokeSolver := dt_InvokeSolver plain_env;
     Mis_dTime2dt := Mis_dTime2dt plain_env |}.

(** The contents of the record file, empty when it does not exist. *)
Definition file_lines (w : World) : list dt_line :=
  match RecordFile w with
  | Some l => l
  | None => []
  end.

(* ================================================================== *)
(** * Input of the chemistry solver: [Grackle_Prepare]

    A shallow embedding of [Grackle_Prepare] (the file of the sources that
    defines it carries no name), for a build with [SUPPORT_GRACKLE] and
    without [DUAL_ENERGY]. [h_Che_Array] is a list of patches, each a list of
    [CHE_NPREP] components of [CUBE(PS1)] values; [patch] is the array
    [amr->patch[ amr->FluSg[lv] ][lv]], indexed by the patch index;
    a pointer to a component of [h_Che_Array] is the pair of its two indices.
    The iterations of the [omp parallel for] touch different entries, so they
    are run in order. *)

Definition CHE_NPREP : Z := 3.
Definition Idx_Dens : Z := 0.
Definition Idx_sEint : Z := 1.
Definition Idx_Ek : Z := 2.

(** The fields of [Che_FieldData[N]] the routine sets. *)
Record Che_FieldData_t : Type := {
  density : option (Z * Z);
  internal_energy : option (Z * Z);
  grid_dx : R
}.

(** [*( f[0][0] + t )] for a [PS1 x PS1 x PS1] array [f]. *)
Definition flat (cf : Config) (f : Z -> Z -> Z -> R) (t : Z) : R :=
  f (t / (PS1 cf * PS1 cf))%Z ((t / PS1 cf) mod PS1 cf)%Z (t mod PS1 cf)%Z.

(** [h_Che_Array[N][Idx][t] = v]. *)
Definition store3 (h : list (list (list R))) (N Idx t : Z) (v : R)
  : result (list (list (list R))) :=
  row <- load h N ;;
  comp <- load row Idx ;;
  comp' <- store comp t v ;;
  row' <- store row Idx comp' ;;
  store h N row'.

(** The kinetic energy density and the specific internal energy of cell [t]
    of a patch. *)
Definition prepared_Ek (cf : Config) (pt : patch_t) (t : Z) : R :=
  let _Dens := 1.0 / flat cf (fluid pt DENS) t in
  0.5 * (SQR (flat cf (fluid pt MOMX) t) + SQR (flat cf (fluid pt MOMY) t)
         + SQR (flat cf (fluid pt MOMZ) t)) * _Dens.

Definition prepared_sEint (cf : Config) (pt : patch_t) (t : Z) : R :=
  let _Dens := 1.0 / flat cf (fluid pt DENS) t in
  (flat cf (fluid pt ENGY) t - prepared_Ek cf pt t) * _Dens.

(** Body of the loop over [t]. *)
Definition prepare_cell (cf : Config) (patch : list patch_t) (PID N t : Z)
    (h : list (list (list R))) : result (list (list (list R))) :=
  pt <- load patch PID ;;
  let Dens := flat cf (fluid pt DENS) t in
  let Ek := prepared_Ek cf pt t in
  let sEint := prepared_sEint cf pt t in
  h1 <- store3 h N Idx_Dens t Dens ;;
  h2 <- store3 h1 N Idx_sEint t sEint ;;
  store3 h2 N Idx_Ek t Ek.

(** Body of the loop over [LocalID]. *)
Definition prepare_patch (cf : Config) (GRACKLE_MODE_ORI : bool) (dh_lv : R)
    (patch : list patch_t) (TID PID0 LocalID : Z)
    (s : list (list (list R)) * list Che_FieldData_t)
  : result (list (list (list R)) * list Che_FieldData_t) :=
  let PID := (PID0 + LocalID)%Z in
  let N := (8 * TID + LocalID)%Z in
  h <- for_Z 0 (PS1 cf * PS1 cf * PS1 cf) (prepare_cell cf patch PID N) (fst s) ;;
  if GRACKLE_MODE_ORI then
    fd <- store (snd s) N {| density := Some (N, Idx_Dens);
                             internal_energy := Some (N, Idx_sEint);
                             grid_dx := dh_lv |} ;;
    Ok (h, fd)
  else Ok (h, snd s).

Definition Grackle_Prepare (cf : Config) (amr : AMR_t) (GRACKLE_MODE_ORI : bool)
    (patch : list patch_t) (Che_FieldData : list Che_FieldData_t)
    (lv : Z) (h_Che_Array : list (list (list R))) (NPG : Z) (PID0_List : list Z)
  : result (list (list (list R)) * list Che_FieldData_t) :=
  let dh_lv := dh amr lv in
  for_Z 0 NPG
    (fun TID s =>
       PID0 <- load PID0_List TID ;;
       for_Z 0 8 (prepare_patch cf GRACKLE_MODE_ORI dh_lv patch TID PID0) s)
    (h_Che_Array, Che_FieldData).

(** Entry [[N][Idx][t]] of [h_Che_Array], for statements. *)
Definition get3 (h : list (list (list R))) (N Idx t : Z) : R :=
  nth (Z.to_nat t) (nth (Z.to_nat Idx) (nth (Z.to_nat N) h []) []) 0.

(** [h_Che_Array] holds [rows] patches of [CHE_NPREP] components of [cells]
    values. *)
Definition che_wf (rows cells : nat) (h : list (list (list R))) : Prop :=
  length h = rows /\
  Forall (fun row => length row = Z.to_nat CHE_NPREP /\
                     Forall (fun comp => length comp = cells) row) h.

(** The patch the entries [N] of the arrays are prepared from. *)
Definition source_patch (patch : list patch_t) (PID0_List : list Z) (N : Z)
  : result patch_t :=
  PID0 <- load PID0_List (N / 8) ;;
  load patch (PID0 + N mod 8).

(** The value prepared for component [Idx] of a cell. *)
Definition prepared (cf : Config) (pt : patch_t) (Idx t : Z) : R :=
  if (Idx =? Idx_Dens)%Z then flat cf (fluid pt DENS) t
  else if (Idx =? Idx_sEint)%Z then prepared_sEint cf pt t
  else prepared_Ek cf pt t.

(** What the routine leaves in [Che_FieldData[N]]. *)
Definition prepared_FieldData (dh_lv : R) (N : Z) : Che_FieldData_t :=
  {| density := Some (N, Idx_Dens); internal_energy := Some (N, Idx_sEint);
     grid_dx := dh_lv |}.

(** One patch group of the concrete grid: [uniform_patch] eight times. *)
Definition patch_group : list patch_t := repeat uniform_patch 8.

(** A host array for one patch group, zeroed. *)
Definition zero_Che_Array : list (list (list R)) :=
  repeat (repeat (repeat 0 512) 3) 8.

Definition unset_FieldData : Che_FieldData_t :=
  {| density := None; internal_energy := None; grid_dx := 0 |}.

(** The entries written before cell [t] of patch [N] is prepared: those of
    the patches below [N], and the cells below [t] of patch [N]. *)
Definition che_done (N t N' t' : Z) : bool :=
  ((N' <? N) || ((N' =? N) && (t' <? t)))%Z.

(** [h] is [h0] with the entries written before cell [t] of patch [N]
    prepared. *)
Definition che_filled (cf : Config) (patch : list patch_t) (PID0_List : list Z)
    (rows cells : nat) (h0 : list (list (list R))) (N t : Z)
    (h : list (list (list R))) : Prop :=
  che_wf rows cells h /\
  forall N' Idx' t',
    (0 <= N')%Z -> (0 <= Idx' < CHE_NPREP)%Z -> (0 <= t' < Z.of_nat cells)%Z ->
    get3 h N' Idx' t'
    = if che_done N t N' t'
      then match source_patch patch PID0_List N' with
           | Ok pt => prepared cf pt Idx' t'
           | Err _ => 0
           end
      else get3 h0 N' Idx' t'.

(** [fd] is [fd0] with the entries below [N] set, when the mode asks for
    it. *)
Definition fd_filled (mode : bool) (dh_lv : R) (fd0 : list Che_FieldData_t)
    (N : Z) (fd : list Che_FieldData_t) : Prop :=
  length fd = length fd0 /\
  forall N', (0 <= N')%Z ->
    nth_error fd (Z.to_nat N')
    = if mode && (N' <? N)%Z then Some (prepared_FieldData dh_lv N')
      else nth_error fd0 (Z.to_nat N').

(* ================================================================== *)
(** * Proofs *)

(* ------------------------------------------------------------------ *)
(** ** The monad, arrays and loops *)

Lemma bind_ok {A B} (c : result A) (k : A -> result B) (b : B) :
  bind c k = Ok b -> exists a, c = Ok a /\ k a = Ok b.
Proof.
  destruct c as [a|e]; simpl; intros H; [eauto | discriminate].
Qed.

Ltac inv_bind H :=
  let a := fresh "x" in
  let E := fresh "E" in
  apply bind_ok in H; destruct H as [a [E H]].

Ltac inv_ok H := injection H as H; try subst.

Lemma upd_length {A} (n : nat) (v : A) (l : list A) :
  length (upd n v l) = length l.
Proof.
  revert n; induction l as [|h t IH]; intros [|n]; simpl; auto.
Qed.

Lemma nth_upd_eq {A} (n : nat) (v d : A) (l : list A) :
  (n < length l)%nat -> nth n (upd n v l) d = v.
Proof.
  revert n; induction l as [|h t IH]; intros [|n] H; simpl in *; try lia; auto.
  apply IH; lia.
Qed.

Lemma nth_upd_neq {A} (n m : nat) (v d : A) (l : list A) :
  n <> m -> nth m (upd n v l) d = nth m l d.
Proof.
  revert n m; induction l as [|h t IH]; intros [|n] [|m] H; simpl; auto.
  congruence.
Qed.

Lemma load_ok {A} (a : list A) (i : Z) (d : A) :
  (0 <= i < Z.of_nat (length a))%Z -> load a i = Ok (nth (Z.to_nat i) a d).
Proof.
  intros H; unfold load.
  destruct (i <? 0)%Z eqn:E; [lia|].
  destruct (nth_error a (Z.to_nat i)) as [v|] eqn:N.
  - f_equal; symmetry; apply nth_error_nth; exact N.
  - apply nth_error_None in N; lia.
Qed.

Lemma load_inv {A} (a : list A) (i : Z) (v d : A) :
  load a i = Ok v ->
  (0 <= i < Z.of_nat (length a))%Z /\ nth (Z.to_nat i) a d = v.
Proof.
  unfold load; destruct (i <? 0)%Z eqn:E; [discriminate|].
  destruct (nth_error a (Z.to_nat i)) as [w|] eqn:N; [|discriminate].
  intros H; inv_ok H.
  assert (Z.to_nat i < length a)%nat by (apply nth_error_Some; congruence).
  split; [lia | apply nth_error_nth; exact N].
Qed.

Lemma store_ok {A} (a : list A) (i : Z) (v : A) :
  (0 <= i < Z.of_nat (length a))%Z -> store a i v = Ok (upd (Z.to_nat i) v a).
Proof.
  intros H; unfold store.
  destruct (0 <=? i)%Z eqn:E1; [|lia].
  destruct (i <? Z.of_nat (length a))%Z eqn:E2; [reflexivity | lia].
Qed.

Lemma store_inv {A} (a a' : list A) (i : Z) (v : A) :
  store a i v = Ok a' ->
  (0 <= i < Z.of_nat (length a))%Z /\ a' = upd (Z.to_nat i) v a.
Proof.
  unfold store.
  destruct (0 <=? i)%Z eqn:E1; [|discriminate].
  destruct (i <? Z.of_nat (length a))%Z eqn:E2; [|discriminate].
  simpl; intros H; inv_ok H; split; [lia | reflexivity].
Qed.

Lemma entry_load (a : list R) (i : Z) (v : R) :
  load a i = Ok v -> entry a i = v.
Proof. intros H; apply (load_inv _ _ _ 0) in H; apply H. Qed.

Lemma cells_load (a : list Z) (i : Z) (v : Z) :
  load a i = Ok v -> cells a i = v.
Proof. intros H; apply (load_inv _ _ _ 0%Z) in H; apply H. Qed.

(** Invariant rule of the counted loop: partial correctness. *)
(** Invariant rule of the counted loop: the loop returns. *)
Lemma for_steps_total {S} (I : Z -> S -> Prop) (body : Z -> S -> result S) :
  forall (n : nat) (lo : Z) (s : S),
    I lo s ->
    (forall i s, (lo <= i < lo + Z.of_nat n)%Z -> I i s ->
                 exists s', body i s = Ok s' /\ I (i + 1)%Z s') ->
    exists r, for_steps n lo body s = Ok r /\ I (lo + Z.of_nat n)%Z r.
Proof.
  induction n as [|n IH]; intros lo s H0 Hstep; cbn [for_steps].
  - exists s; split; auto. replace (lo + Z.of_nat 0)%Z with lo by lia. exact H0.
  - destruct (Hstep lo s) as [s' [E Hs']]; auto; [lia|].
    rewrite E; cbn [bind].
    replace (lo + Z.of_nat (Datatypes.S n))%Z with (lo + 1 + Z.of_nat n)%Z by lia.
    apply IH; auto.
    intros i t Hi; apply Hstep; lia.
Qed.

Lemma for_Z_total {S} (I : Z -> S -> Prop) (body : Z -> S -> result S)
    (lo hi : Z) (s : S) :
  I lo s ->
  (forall i s, (lo <= i < hi)%Z -> I i s ->
               exists s', body i s = Ok s' /\ I (i + 1)%Z s') ->
  exists r, for_Z lo hi body s = Ok r /\ I (Z.max lo hi) r.
Proof.
  intros H0 Hstep; unfold for_Z.
  replace (Z.max lo hi) with (lo + Z.of_nat (Z.to_nat (hi - lo)))%Z by lia.
  apply for_steps_total; auto.
  intros i t Hi; apply Hstep; lia.
Qed.

(** The loop over the objects: what each object becomes. *)
Lemma for_each_inv {A} (body : nat -> A -> result A) :
  forall (objs : list A) (p0 : nat) (r : list A),
    for_each body p0 objs = Ok r ->
    length r = length objs /\
    forall p o, nth_error objs p = Some o ->
                exists o', body (p0 + p)%nat o = Ok o' /\ nth_error r p = Some o'.
Proof.
  induction objs as [|o rest IH]; intros p0 r H; simpl in H.
  - inv_ok H; split; auto. intros [|p] o; discriminate.
  - inv_bind H. inv_bind H. inv_ok H.
    destruct (IH _ _ E0) as [L Hn].
    split; [simpl; congruence|].
    intros [|p] o' Hp; simpl in Hp.
    + inv_ok Hp. exists x; split; auto. rewrite Nat.add_0_r; auto.
    + destruct (Hn p o' Hp) as [o'' [Hb Hr]].
      exists o''; split; auto.
      replace (p0 + Datatypes.S p)%nat with (Datatypes.S p0 + p)%nat by lia; auto.
Qed.

Lemma for_each_total {A} (body : nat -> A -> result A) :
  forall (objs : list A) (p0 : nat),
    (forall p o, nth_error objs p = Some o ->
                 exists o', body (p0 + p)%nat o = Ok o') ->
    exists r, for_each body p0 objs = Ok r.
Proof.
  induction objs as [|o rest IH]; intros p0 H; simpl.
  - eauto.
  - destruct (H 0%nat o eq_refl) as [o' Ho]. rewrite Nat.add_0_r in Ho.
    rewrite Ho; simpl.
    destruct (IH (Datatypes.S p0)) as [r Hr].
    + intros p o1 Hp. destruct (H (Datatypes.S p) o1 Hp) as [o2 Ho2].
      exists o2. replace (Datatypes.S p0 + p)%nat with (p0 + Datatypes.S p)%nat by lia; auto.
    + rewrite Hr; simpl; eauto.
Qed.

(* ------------------------------------------------------------------ *)
(** ** Rounding *)

Lemma floorZ_spec (x : R) : IZR (floorZ x) <= x < IZR (floorZ x) + 1.
Proof.
  unfold floorZ; destruct (base_Int_part x) as [H1 H2]; lra.
Qed.

Lemma floorZ_unique (x : R) (z : Z) : IZR z <= x < IZR z + 1 -> floorZ x = z.
Proof.
  intros H; unfold floorZ; symmetry; apply Int_part_spec; lra.
Qed.

Lemma floorZ_IZR (z : Z) : floorZ (IZR z) = z.
Proof. apply floorZ_unique; lra. Qed.

Lemma floorZ_nonneg (x : R) : 0 <= x -> (0 <= floorZ x)%Z.
Proof.
  intros H; destruct (floorZ_spec x) as [_ H2].
  assert (IZR (-1) < IZR (floorZ x)) by (simpl; lra).
  apply lt_IZR in H0; lia.
Qed.

Lemma floorZ_lt (x : R) (n : Z) : x < IZR n -> (floorZ x < n)%Z.
Proof.
  intros H; destruct (floorZ_spec x) as [H1 _].
  apply lt_IZR; lra.
Qed.

Lemma ceilZ_spec (x : R) : IZR (ceilZ x) - 1 < x <= IZR (ceilZ x).
Proof.
  unfold ceilZ; rewrite opp_IZR.
  destruct (floorZ_spec (- x)) as [H1 H2]; unfold floorZ in *; lra.
Qed.

Lemma c_int_nonneg (x : R) : 0 <= x -> c_int x = floorZ x.
Proof.
  intros H; unfold c_int; destruct (Rle_dec 0 x); [reflexivity | contradiction].
Qed.

Lemma c_int_negative (x : R) : x < 0 -> c_int x = ceilZ x.
Proof.
  intros H; unfold c_int; destruct (Rle_dec 0 x); [lra | reflexivity].
Qed.

Lemma c_int_IZR (z : Z) : c_int (IZR z) = z.
Proof.
  unfold c_int; destruct (Rle_dec 0 (IZR z)).
  - apply floorZ_IZR.
  - rewrite <- opp_IZR. change (- floorZ (IZR (- z)) = z)%Z.
    rewrite floorZ_IZR; lia.
Qed.

Lemma c_int_ceil (x : R) : c_int (c_ceil x) = ceilZ x.
Proof. apply c_int_IZR. Qed.

(* ------------------------------------------------------------------ *)
(** ** Bin geometry *)

Lemma fill_Radius_ok (cl : Call) (n : Z) (rad : list R) :
  length rad = Z.to_nat n ->
  exists rad',
    for_Z 0 n (fun b rad => store rad b (radial_coordinate cl b)) rad = Ok rad' /\
    length rad' = Z.to_nat n /\
    forall b, (0 <= b < n)%Z -> entry rad' b = radial_coordinate cl b.
Proof.
  intros L.
  destruct (for_Z_total
              (fun i (s : list R) =>
                 length s = Z.to_nat n /\
                 forall b, (0 <= b < i)%Z -> entry s b = radial_coordinate cl b)
              (fun b rad => store rad b (radial_coordinate cl b)) 0 n rad)
    as [r [E [Lr Hr]]].
  - split; auto; intros; lia.
  - intros i s Hi [Ls Hs].
    exists (upd (Z.to_nat i) (radial_coordinate cl i) s); split.
    + apply store_ok; lia.
    + split; [rewrite upd_length; auto|].
      intros b Hb; unfold entry.
      destruct (Z.eq_dec b i) as [->|Hne].
      * apply nth_upd_eq; lia.
      * rewrite nth_upd_neq by lia. apply Hs; lia.
  - exists r; repeat split; auto.
    intros b Hb; apply Hr; lia.
Qed.

Lemma configure_profile_ok (cl : Call) (first : option Z) (pr : Profile_t) :
  first = None \/ first = Some (initial_NBin cl) ->
  exists pr',
    configure_profile cl first pr = Ok pr' /\ configured cl pr' /\
    (arg_LogBin cl = false -> LogBinRatio pr' = LogBinRatio pr).
Proof.
  intros Hf; unfold configure_profile.
  set (pr2 := AllocateMemory _).
  assert (Hn : match first with Some n => n | None => NBin pr2 end = initial_NBin cl)
    by (destruct Hf as [-> | ->]; reflexivity).
  rewrite Hn.
  destruct (fill_Radius_ok cl (initial_NBin cl) (Radius pr2)) as [rad [E [L Hr]]].
  { unfold pr2; simpl; apply repeat_length. }
  rewrite E; simpl.
  eexists; split; [reflexivity|].
  split.
  - unfold configured; simpl.
    repeat split; auto; try apply repeat_length.
    intros H; rewrite H; reflexivity.
  - simpl; intros H; rewrite H; reflexivity.
Qed.

Lemma configure_loop_ok (cl : Call) :
  forall (Prof : list Profile_t) (first : option Z),
    first = None \/ first = Some (initial_NBin cl) ->
    exists P1, configure_loop cl first Prof = Ok P1 /\
               length P1 = length Prof /\ Forall (configured cl) P1.
Proof.
  induction Prof as [|pr rest IH]; intros first Hf; simpl.
  - exists []; auto.
  - destruct (configure_profile_ok cl first pr Hf) as [pr' [E [C _]]].
    rewrite E; simpl.
    destruct (IH (match first with Some n => Some n | None => Some (NBin pr') end))
      as [P1 [E1 [L1 F1]]].
    { right; destruct Hf as [-> | ->]; [|reflexivity].
      destruct C as [_ [-> _]]; reflexivity. }
    rewrite E1; simpl.
    exists (pr' :: P1); repeat split; simpl; auto.
Qed.

Lemma configure_ok (cl : Call) (Prof : list Profile_t) :
  exists P1, configure cl Prof = Ok P1 /\
             length P1 = length Prof /\ Forall (configured cl) P1.
Proof. apply configure_loop_ok; auto. Qed.

Lemma configure_inv (cl : Call) (Prof P1 : list Profile_t) :
  configure cl Prof = Ok P1 ->
  length P1 = length Prof /\ Forall (configured cl) P1.
Proof.
  intros H; destruct (configure_ok cl Prof) as [P1' [E H']].
  rewrite E in H; inv_ok H; exact H'.
Qed.

(** C4. Linear bins: for a valid configuration the geometry loop returns,
    and gives every profile [NBin = ceil(r_max/dr_min)] (the least integer not
    below the quotient), the outer radius [dr_min * NBin], which is not below
    the requested [r_max], and [Radius[b] = (b + 0.5) * dr_min] for every bin
    [b]. *)
Theorem linear_geometry (cl : Call) (Prof : list Profile_t) :
  valid_configuration cl ->
  arg_LogBin cl = false ->
  exists P1,
    configure cl Prof = Ok P1 /\ length P1 = length Prof /\
    Forall (fun pr =>
              NBin pr = ceilZ (arg_r_max_input cl / arg_dr_min cl) /\
              IZR (NBin pr) - 1 < arg_r_max_input cl / arg_dr_min cl <= IZR (NBin pr) /\
              MaxRadius pr = arg_dr_min cl * IZR (NBin pr) /\
              arg_r_max_input cl <= MaxRadius pr /\
              length (Radius pr) = Z.to_nat (NBin pr) /\
              forall b, (0 <= b < NBin pr)%Z ->
                        entry (Radius pr) b = (IZR b + 0.5) * arg_dr_min cl) P1.
Proof.
  intros [Hr [Hd _]] Hlin.
  destruct (configure_ok cl Prof) as [P1 [E [L F]]].
  exists P1; repeat split; auto.
  eapply Forall_impl; [|exact F].
  intros pr [_ [Hn [Hm [_ [_ [Lr [_ [_ [_ Hrad]]]]]]]]].
  assert (Hc : NBin pr = ceilZ (arg_r_max_input cl / arg_dr_min cl)).
  { rewrite Hn; unfold initial_NBin; rewrite Hlin; apply c_int_ceil. }
  assert (Hs := ceilZ_spec (arg_r_max_input cl / arg_dr_min cl)).
  rewrite <- Hc in Hs.
  assert (Hmax : MaxRadius pr = arg_dr_min cl * IZR (NBin pr)).
  { rewrite Hm, <- Hn; unfold initial_MaxRadius; rewrite Hlin; reflexivity. }
  repeat split; auto; try apply Hs.
  - rewrite Hmax.
    replace (arg_r_max_input cl)
      with (arg_dr_min cl * (arg_r_max_input cl / arg_dr_min cl)) at 1
      by (field; lra).
    apply Rmult_le_compat_l; [lra | apply Hs].
  - intros b Hb; rewrite (Hrad b Hb); unfold radial_coordinate.
    rewrite Hlin; reflexivity.
Qed.

Lemma linear_geometry_witness :
  valid_configuration linear_call /\
  exists P1,
    configure linear_call [fresh_profile] = Ok P1 /\
    length P1 = 1%nat /\
    Forall (fun pr =>
              NBin pr = ceilZ (4 / 1) /\
              IZR (NBin pr) - 1 < 4 / 1 <= IZR (NBin pr) /\
              MaxRadius pr = 1 * IZR (NBin pr) /\
              4 <= MaxRadius pr /\
              length (Radius pr) = Z.to_nat (NBin pr) /\
              forall b, (0 <= b < NBin pr)%Z ->
                        entry (Radius pr) b = (IZR b + 0.5) * 1) P1.
Proof.
  assert (V : valid_configuration linear_call).
  { unfold valid_configuration; simpl; repeat split; intros; try lra;
    discriminate. }
  split; [exact V|].
  exact (linear_geometry linear_call [fresh_profile] V eq_refl).
Defined.

Lemma ln_2_pos : 0 < ln 2.
Proof. rewrite <- ln_1; apply ln_increasing; lra. Qed.

Lemma ln_ratio_pos (x : R) : 1 < x -> 0 < ln x.
Proof. intros H; rewrite <- ln_1; apply ln_increasing; lra. Qed.

Lemma ln_nonneg (x : R) : 1 <= x -> 0 <= ln x.
Proof.
  intros [H | <-]; [left; apply ln_ratio_pos; exact H | rewrite ln_1; lra].
Qed.

(** The amended C3. Logarithmic bins: for a valid configuration the geometry
    loop returns, and gives every profile
    [NBin = int( log(r_max/dr_min)/log(ratio) ) + 2], the cast rounding
    toward zero, which is [floor(...) + 2] whenever [r_max >= dr_min]; the
    outer radius [dr_min * ratio^(NBin-1)]; and
    [Radius[b] = dr_min * ratio^(b - 0.5)] for every bin [b]. *)
Theorem log_geometry (cl : Call) (Prof : list Profile_t) :
  valid_configuration cl ->
  arg_LogBin cl = true ->
  exists P1,
    configure cl Prof = Ok P1 /\ length P1 = length Prof /\
    Forall (fun pr =>
              NBin pr = (c_int (ln (arg_r_max_input cl / arg_dr_min cl)
                                / ln (arg_LogBinRatio cl)) + 2)%Z /\
              (arg_dr_min cl <= arg_r_max_input cl ->
               NBin pr = (floorZ (ln (arg_r_max_input cl / arg_dr_min cl)
                                  / ln (arg_LogBinRatio cl)) + 2)%Z) /\
              MaxRadius pr = arg_dr_min cl
                             * Rpower (arg_LogBinRatio cl) (IZR (NBin pr - 1)) /\
              length (Radius pr) = Z.to_nat (NBin pr) /\
              forall b, (0 <= b < NBin pr)%Z ->
                        entry (Radius pr) b
                        = arg_dr_min cl * Rpower (arg_LogBinRatio cl) (IZR b - 0.5)) P1.
Proof.
  intros [Hr [Hd Hq]] Hlog. specialize (Hq Hlog).
  destruct (configure_ok cl Prof) as [P1 [E [L F]]].
  exists P1; repeat split; auto.
  eapply Forall_impl; [|exact F].
  intros pr [_ [Hn [Hm [_ [_ [Lr [_ [_ [_ Hrad]]]]]]]]].
  assert (Hc : NBin pr = (c_int (ln (arg_r_max_input cl / arg_dr_min cl)
                                 / ln (arg_LogBinRatio cl)) + 2)%Z).
  { rewrite Hn; unfold initial_NBin; rewrite Hlog; reflexivity. }
  repeat split; auto.
  - intros Hge; rewrite Hc; f_equal.
    apply c_int_nonneg.
    apply Rmult_le_pos.
    + apply ln_nonneg.
      apply (Rmult_le_reg_r (arg_dr_min cl)); [lra|].
      replace (arg_r_max_input cl / arg_dr_min cl * arg_dr_min cl)
        with (arg_r_max_input cl) by (field; lra).
      lra.
    + left; apply Rinv_0_lt_compat, ln_ratio_pos; exact Hq.
  - rewrite Hm, <- Hn; unfold initial_MaxRadius; rewrite Hlog; reflexivity.
  - intros b Hb; rewrite (Hrad b Hb); unfold radial_coordinate.
    rewrite Hlog; reflexivity.
Qed.

Lemma log_geometry_witness :
  valid_configuration log_call /\
  exists P1,
    configure log_call [fresh_profile] = Ok P1 /\
    length P1 = 1%nat /\
    Forall (fun pr =>
              NBin pr = (c_int (ln (4 / 1) / ln 2) + 2)%Z /\
              (1 <= 4 -> NBin pr = (floorZ (ln (4 / 1) / ln 2) + 2)%Z) /\
              MaxRadius pr = 1 * Rpower 2 (IZR (NBin pr - 1)) /\
              length (Radius pr) = Z.to_nat (NBin pr) /\
              forall b, (0 <= b < NBin pr)%Z ->
                        entry (Radius pr) b = 1 * Rpower 2 (IZR b - 0.5)) P1.
Proof.
  assert (V : valid_configuration log_call).
  { unfold valid_configuration; simpl; repeat split; intros; lra. }
  split; [exact V|].
  exact (log_geometry log_call [fresh_profile] V eq_refl).
Defined.

Lemma ln_3_8_over_ln_2 : -2 < ln (3 / 8) / ln 2 < -1.
Proof.
  assert (P := ln_2_pos).
  assert (H1 : ln (/ 2) = - ln 2) by (apply ln_Rinv; lra).
  assert (H2 : ln (/ 4) = - (ln 2 + ln 2)).
  { rewrite ln_Rinv by lra. replace 4 with (2 * 2) by lra.
    rewrite ln_mult by lra. reflexivity. }
  assert (L1 : ln (/ 4) < ln (3 / 8)) by (apply ln_increasing; lra).
  assert (L2 : ln (3 / 8) < ln (/ 2)) by (apply ln_increasing; lra).
  rewrite H2 in L1; rewrite H1 in L2.
  split.
  - apply (Rmult_lt_reg_r (ln 2)); [exact P|].
    replace (ln (3 / 8) / ln 2 * ln 2) with (ln (3 / 8)) by (field; lra). lra.
  - apply (Rmult_lt_reg_r (ln 2)); [exact P|].
    replace (ln (3 / 8) / ln 2 * ln 2) with (ln (3 / 8)) by (field; lra). lra.
Qed.

(** C3 as stated fails: with [r_max = 3], [dr_min = 8] and ratio 2, a valid
    configuration, the quotient of the logarithms lies between -2 and -1; the
    cast gives -1 and [NBin = 1], where [floor(...) + 2] is 0. *)
Lemma log_geometry_floor_counterexample :
  valid_configuration small_log_call /\
  arg_LogBin small_log_call = true /\
  exists P1,
    configure small_log_call [fresh_profile] = Ok P1 /\
    Forall (fun pr => NBin pr = 1%Z) P1 /\
    (floorZ (ln (arg_r_max_input small_log_call / arg_dr_min small_log_call)
             / ln (arg_LogBinRatio small_log_call)) + 2 = 0)%Z /\
    ~ Forall (fun pr =>
                NBin pr
                = (floorZ (ln (arg_r_max_input small_log_call
                               / arg_dr_min small_log_call)
                           / ln (arg_LogBinRatio small_log_call)) + 2)%Z) P1.
Proof.
  assert (B := ln_3_8_over_ln_2).
  assert (Hf : floorZ (ln (3 / 8) / ln 2) = (-2)%Z)
    by (apply floorZ_unique; simpl; lra).
  assert (Hc : c_int (ln (3 / 8) / ln 2) = (-1)%Z).
  { rewrite c_int_negative by lra. unfold ceilZ.
    change (- floorZ (- (ln (3 / 8) / ln 2)) = -1)%Z.
    rewrite (floorZ_unique _ 1%Z); [reflexivity | simpl; lra]. }
  split; [unfold valid_configuration; simpl; repeat split; intros; lra|].
  split; [reflexivity|].
  destruct (configure_ok small_log_call [fresh_profile]) as [P1 [E [L F]]].
  exists P1; split; [exact E|].
  assert (F1 : Forall (fun pr => NBin pr = 1%Z) P1).
  { eapply Forall_impl; [|exact F].
    intros pr [_ [Hn _]]. rewrite Hn; unfold initial_NBin; simpl.
    rewrite Hc; reflexivity. }
  simpl. rewrite Hf.
  split; [exact F1|]. split; [reflexivity|].
  destruct P1 as [|pr P1]; [discriminate L|].
  intros G. inversion G; subst. inversion F1; subst. lia.
Qed.

(* ------------------------------------------------------------------ *)
(** ** Loops with a running count *)

Lemma post_bind {A B} (Q : B -> Prop) (E : error -> Prop)
    (c : result A) (k : A -> result B) :
  post (fun a => post Q E (k a)) E c -> post Q E (bind c k).
Proof. destruct c; simpl; auto. Qed.

Lemma post_total {A} (Q : A -> Prop) (c : result A) :
  post Q (fun _ => False) c -> exists a, c = Ok a /\ Q a.
Proof. destruct c; simpl; [eauto | tauto]. Qed.

Lemma for_steps_count {S} (Q : Z -> S -> Prop) (E : error -> Prop)
    (w : Z -> Z) (body : Z -> S -> result S) :
  forall (n : nat) (lo m : Z) (s : S),
    Q m s ->
    (forall i m s, (lo <= i < lo + Z.of_nat n)%Z -> Q m s ->
                   post (Q (m + w i)%Z) E (body i s)) ->
    post (Q (m + sumZ w (seqZ lo n))%Z) E (for_steps n lo body s).
Proof.
  induction n as [|n IH]; intros lo m s H0 Hstep; cbn [for_steps seqZ].
  - simpl. rewrite Z.add_0_r. exact H0.
  - apply post_bind.
    assert (Hb := Hstep lo m s ltac:(lia) H0).
    destruct (body lo s) as [s'|e]; simpl in *; auto.
    replace (m + (w lo + sumZ w (seqZ (lo + 1) n)))%Z
      with (m + w lo + sumZ w (seqZ (lo + 1) n))%Z by lia.
    apply IH; auto.
    intros i m' t Hi; apply Hstep; lia.
Qed.

Lemma for_Z_count {S} (Q : Z -> S -> Prop) (E : error -> Prop)
    (w : Z -> Z) (body : Z -> S -> result S) (lo hi m : Z) (s : S) :
  Q m s ->
  (forall i m s, (lo <= i < hi)%Z -> Q m s -> post (Q (m + w i)%Z) E (body i s)) ->
  post (Q (m + sumZ w (seqZ lo (Z.to_nat (hi - lo))))%Z) E (for_Z lo hi body s).
Proof.
  intros H0 Hstep; unfold for_Z; apply for_steps_count; auto.
  intros i m' t Hi; apply Hstep; lia.
Qed.

Lemma for_patches_count {S} (Q : Z -> S -> Prop) (E : error -> Prop)
    (w : patch_t -> Z) (body : patch_t -> S -> result S) :
  forall (l : list patch_t) (m : Z) (s : S),
    Q m s ->
    (forall pt m s, In pt l -> Q m s -> post (Q (m + w pt)%Z) E (body pt s)) ->
    post (Q (m + sumZ w l)%Z) E (for_patches body l s).
Proof.
  induction l as [|pt l IH]; intros m s H0 Hstep; cbn [for_patches].
  - simpl. rewrite Z.add_0_r. exact H0.
  - apply post_bind.
    assert (Hb := Hstep pt m s (or_introl eq_refl) H0).
    destruct (body pt s) as [s'|e]; simpl in *; auto.
    replace (m + (w pt + sumZ w l))%Z with (m + w pt + sumZ w l)%Z by lia.
    apply IH; auto; intros pt' m' t Hi; apply Hstep; simpl; auto.
Qed.

Lemma all_ok_post {A B} (P : A -> B -> Prop) (E : error -> Prop)
    (f : A -> result B) :
  forall l : list A,
    (forall x, In x l -> post (P x) E (f x)) ->
    post (fun ts => Forall2 P l ts) E (all_ok (map f l)).
Proof.
  induction l as [|x l IH]; intros H; simpl.
  - constructor.
  - apply post_bind.
    assert (Hx := H x (or_introl eq_refl)).
    destruct (f x) as [b|e]; simpl in *; auto.
    apply post_bind.
    assert (Hl : post (fun ts => Forall2 P l ts) E (all_ok (map f l)))
      by (apply IH; intros y Hy; apply H; right; exact Hy).
    destruct (all_ok (map f l)) as [ts|e]; simpl in *; auto.
Qed.

Lemma fold_sums_count {A} (Q : Z -> list omp_t -> Prop) (g : A -> Z) :
  (forall n m a b, Q n a -> Q m b -> Q (n + m)%Z (sums_add a b)) ->
  forall (l : list A) (ts : list (list omp_t)) (m : Z) (a : list omp_t),
    Q m a ->
    Forall2 (fun x t => Q (g x) t) l ts ->
    Q (m + sumZ g l)%Z (fold_left sums_add ts a).
Proof.
  intros Hadd l ts m a H0 F; revert m a H0.
  induction F as [|x t l ts Hx F IH]; intros m a H0; simpl.
  - rewrite Z.add_0_r; exact H0.
  - replace (m + (g x + sumZ g l))%Z with (m + g x + sumZ g l)%Z by lia.
    apply IH, Hadd; auto.
Qed.

(* ------------------------------------------------------------------ *)
(** ** An induction principle for the accumulation *)

Section Accumulation.

Variables (cf : Config) (amr : AMR_t) (cl : Call).
Variables (NProf : nat) (NBin0 : Z) (r_max2 : R).

(** [Q n omp]: a property of per-profile arrays that have received [n]
    units of the weight [w]; [E]: what may be said of an error. *)
Variable Q : Z -> list omp_t -> Prop.
Variable E : error -> Prop.
Variable w : Z -> patch_t -> Z -> Z -> Z -> Z.

Hypothesis Q_zero : Q 0%Z (repeat (zero_omp NBin0) NProf).

Hypothesis Q_cell :
  forall lv pt k j i n omp,
    visited cf amr cl lv pt k j i ->
    Q n omp ->
    post (Q (n + w lv pt k j i)%Z) E
         (accumulate_cell cf cl NBin0 r_max2 pt (CUBE (dh amr lv)) k j i
            (offset amr cl (dh amr lv) pt 0 i)
            (offset amr cl (dh amr lv) pt 1 j)
            (offset amr cl (dh amr lv) pt 2 k) omp).

Hypothesis Q_add :
  forall n m a b, Q n a -> Q m b -> Q (n + m)%Z (sums_add a b).

Lemma accumulate_patch_post (lv : Z) (pt : patch_t) (n : Z)
    (omp : list omp_t) :
  (lv_min cl <= lv <= lv_max cf cl)%Z ->
  patch_at amr lv pt ->
  Q n omp ->
  post (Q (n + sum_patch cf (w lv) pt)%Z) E
       (accumulate_patch cf amr cl NBin0 r_max2 (dh amr lv)
                         (CUBE (dh amr lv)) pt omp).
Proof.
  intros Hlv Hpt H0; unfold accumulate_patch, sum_patch.
  destruct (son pt =? -1)%Z eqn:Hson.
  - apply Z.eqb_eq in Hson.
    replace (Z.to_nat (PS1 cf)) with (Z.to_nat (PS1 cf - 0)) by (f_equal; lia).
    apply (for_Z_count Q E); auto.
    intros k m s Hk Hm.
    apply (for_Z_count Q E); auto.
    intros j m1 s1 Hj Hm1.
    apply (for_Z_count Q E); auto.
    intros i m2 s2 Hi Hm2.
    apply Q_cell; auto.
    unfold visited; repeat split; auto; lia.
  - simpl. rewrite Z.add_0_r. exact H0.
Qed.

Lemma accumulate_thread_post (share : share_t) :
  In share (shares amr) ->
  post (Q (sum_share cf (considered_levels cf cl) w share)) E
       (accumulate_thread cf amr cl NProf NBin0 r_max2 share).
Proof.
  intros Hsh; unfold accumulate_thread, sum_share, considered_levels.
  change (sumZ (fun lv => sumZ (sum_patch cf (w lv)) (share lv))
               (seqZ (lv_min cl) (Z.to_nat (lv_max cf cl + 1 - lv_min cl))))
    with (0 + sumZ (fun lv => sumZ (sum_patch cf (w lv)) (share lv))
                   (seqZ (lv_min cl) (Z.to_nat (lv_max cf cl + 1 - lv_min cl))))%Z.
  apply (for_Z_count Q E); auto.
  intros lv m s Hlv Hm.
  apply (for_patches_count Q E); auto.
  intros pt m1 s1 Hpt Hm1.
  apply accumulate_patch_post; auto; [lia|].
  exists share; auto.
Qed.

Lemma accumulate_rank_post (rk : rank_t) :
  In rk (root amr :: ranks amr) ->
  post (Q (sum_rank cf (considered_levels cf cl) w rk)) E
       (accumulate_rank cf amr cl NProf NBin0 r_max2 rk).
Proof.
  intros Hrk; unfold accumulate_rank, sum_rank.
  assert (Hin : forall sh, In sh (thread0 rk :: threads rk) -> In sh (shares amr)).
  { intros sh Hsh; unfold shares; apply in_flat_map; exists rk; auto. }
  apply post_bind.
  assert (H0 := accumulate_thread_post (thread0 rk) (Hin _ (or_introl eq_refl))).
  destruct (accumulate_thread cf amr cl NProf NBin0 r_max2 (thread0 rk))
    as [t0|e]; simpl in *; auto.
  apply post_bind.
  assert (Hts := all_ok_post
                   (fun sh t => Q (sum_share cf (considered_levels cf cl) w sh) t)
                   E (accumulate_thread cf amr cl NProf NBin0 r_max2)
                   (threads rk)
                   (fun sh Hsh => accumulate_thread_post sh (Hin sh (or_intror Hsh)))).
  destruct (all_ok _) as [ts|e]; simpl in *; auto.
  apply (fold_sums_count Q); auto.
Qed.

Theorem collect_post :
  post (Q (sum_cells cf amr (considered_levels cf cl) w)) E
       (collect cf amr cl NProf NBin0 r_max2).
Proof.
  unfold collect, sum_cells.
  apply post_bind.
  assert (H0 := accumulate_rank_post (root amr) (or_introl eq_refl)).
  destruct (accumulate_rank cf amr cl NProf NBin0 r_max2 (root amr))
    as [r0|e]; simpl in *; auto.
  apply post_bind.
  assert (Hrs := all_ok_post
                   (fun rk t => Q (sum_rank cf (considered_levels cf cl) w rk) t)
                   E (accumulate_rank cf amr cl NProf NBin0 r_max2)
                   (ranks amr)
                   (fun rk Hrk => accumulate_rank_post rk (or_intror Hrk))).
  destruct (all_ok _) as [rs|e]; simpl in *; auto.
  apply (fold_sums_count Q); auto.
Qed.

End Accumulation.

(* ------------------------------------------------------------------ *)
(** ** One cell *)

Lemma contribution_supported (cf : Config) (pt : patch_t) (q : Quant)
    (k j i : Z) (dx dy dz r dv : R) :
  supported q ->
  exists c w, contribution cf pt q k j i dx dy dz r dv = Ok (c, w).
Proof.
  destruct q; simpl; intros H; try (eexists; eexists; reflexivity).
  contradiction.
Qed.

Lemma contribution_inv (cf : Config) (pt : patch_t) (q : Quant)
    (k j i : Z) (dx dy dz r dv : R) (cw : R * R) :
  contribution cf pt q k j i dx dy dz r dv = Ok cw -> supported q.
Proof. destruct q; simpl; intros H; auto; discriminate. Qed.

Lemma contribution_err (cf : Config) (pt : patch_t) (q : Quant)
    (k j i : Z) (dx dy dz r dv : R) (e : error) :
  contribution cf pt q k j i dx dy dz r dv = Err e -> ~ supported q.
Proof. destruct q; simpl; intros H; auto; discriminate. Qed.

Lemma add_cell_wf (n bin : Z) (c w : R) (o : omp_t) :
  omp_wf n o -> omp_wf n (add_cell bin c w o).
Proof.
  intros [H1 [H2 H3]]; unfold omp_wf, add_cell; simpl.
  rewrite !upd_length; auto.
Qed.

(** With the bin inside the arrays, the body of the loop over [p] is the
    switch followed by [add_cell]. *)
Lemma accumulate_quantity_spec (cf : Config) (cl : Call) (pt : patch_t)
    (k j i : Z) (dx dy dz r dv : R) (bin : Z) (p : nat) (o : omp_t) (n : Z) :
  omp_wf n o -> (0 <= bin < n)%Z ->
  accumulate_quantity cf cl pt k j i dx dy dz r dv bin p o
  = (cw <- contribution cf pt (arg_TVar cl p) k j i dx dy dz r dv ;;
     Ok (add_cell bin (fst cw) (snd cw) o)).
Proof.
  intros [H1 [H2 H3]] Hb; unfold accumulate_quantity.
  destruct (contribution _ _ _ _ _ _ _ _ _ _ _) as [[c w]|e]; simpl; auto.
  rewrite (load_ok _ _ 0) by lia; simpl.
  rewrite store_ok by lia; simpl.
  rewrite (load_ok _ _ 0) by lia; simpl.
  rewrite store_ok by lia; simpl.
  rewrite (load_ok _ _ 0%Z) by lia; simpl.
  rewrite store_ok by lia; simpl.
  reflexivity.
Qed.

Lemma accumulate_quantity_inv (cf : Config) (cl : Call) (pt : patch_t)
    (k j i : Z) (dx dy dz r dv : R) (bin : Z) (p : nat) (o o' : omp_t) :
  accumulate_quantity cf cl pt k j i dx dy dz r dv bin p o = Ok o' ->
  (0 <= bin)%Z /\
  exists c w,
    contribution cf pt (arg_TVar cl p) k j i dx dy dz r dv = Ok (c, w) /\
    o' = add_cell bin c w o.
Proof.
  unfold accumulate_quantity; intros H.
  inv_bind H. destruct x as [c w].
  inv_bind H. inv_bind H. inv_bind H. inv_bind H. inv_bind H. inv_bind H.
  inv_ok H.
  apply store_inv in E1, E3, E5.
  destruct E1 as [Hb ->], E3 as [_ ->], E5 as [_ ->].
  split; [lia|]. exists c, w; split; auto.
  apply entry_load in E0, E2. apply cells_load in E4. subst.
  reflexivity.
Qed.

Lemma omp_all_wf_nth (NProf : nat) (NBin0 : Z) (omp : list omp_t)
    (p : nat) (o : omp_t) :
  omp_all_wf NProf NBin0 omp -> nth_error omp p = Some o -> omp_wf NBin0 o.
Proof.
  intros [_ F] H. rewrite Forall_forall in F.
  apply F. eapply nth_error_In; eauto.
Qed.

Lemma cell_added_wf (cf : Config) (cl : Call) (pt : patch_t)
    (k j i : Z) (dx dy dz r dv : R) (bin : Z) (NProf : nat) (NBin0 : Z)
    (omp omp' : list omp_t) :
  omp_all_wf NProf NBin0 omp ->
  cell_added cf cl pt k j i dx dy dz r dv bin omp omp' ->
  omp_all_wf NProf NBin0 omp'.
Proof.
  intros W [L H]; split; [destruct W; congruence|].
  apply Forall_forall; intros o' Ho'.
  apply In_nth_error in Ho'; destruct Ho' as [p Hp].
  destruct (nth_error omp p) as [o|] eqn:Eo.
  - destruct (H p o Eo) as [_ [c [w [_ Hn]]]].
    rewrite Hn in Hp; inv_ok Hp.
    apply add_cell_wf. eapply omp_all_wf_nth; eauto.
  - apply nth_error_None in Eo.
    assert (p < length omp')%nat by (apply nth_error_Some; congruence).
    lia.
Qed.

(** What a cell does, when the call goes on. *)
Lemma accumulate_cell_inv (cf : Config) (cl : Call) (NBin0 : Z) (r_max2 : R)
    (pt : patch_t) (dv : R) (k j i : Z) (dx dy dz : R)
    (omp omp' : list omp_t) :
  let r2 := SQR dx + SQR dy + SQR dz in
  accumulate_cell cf cl NBin0 r_max2 pt dv k j i dx dy dz omp = Ok omp' ->
  (counted cl NBin0 r_max2 r2 = 0%Z /\ omp' = omp) \/
  (counted cl NBin0 r_max2 r2 = 1%Z /\
   r2 < r_max2 /\ (cell_bin cl (sqrt r2) < NBin0)%Z /\
   cell_added cf cl pt k j i dx dy dz (sqrt r2) dv (cell_bin cl (sqrt r2))
              omp omp').
Proof.
  intros r2; unfold accumulate_cell, counted; fold r2.
  destruct (Rlt_dec r2 r_max2) as [Hr|Hr].
  - destruct (cell_bin cl (sqrt r2) >=? NBin0)%Z eqn:Hb.
    + intros H; inv_ok H; left; auto.
    + destruct (GAMER_DEBUG cf && (cell_bin cl (sqrt r2) <? 0)%Z); [discriminate|].
      intros H; right.
      split; [reflexivity|]. split; [exact Hr|]. split; [lia|]. split.
      * apply for_each_inv in H; apply H.
      * intros p o Ho. apply for_each_inv in H. destruct H as [_ H].
        destruct (H p o Ho) as [o' [Hb' Hn]].
        apply accumulate_quantity_inv in Hb'.
        destruct Hb' as [Hb0 [c [w [Hc ->]]]]. split; auto. exists c, w; auto.
  - intros H; inv_ok H; left; auto.
Qed.

(** A cell never stops the call when its bin is not negative and every
    quantity is one the switch knows. *)
Lemma accumulate_cell_total (cf : Config) (cl : Call) (NProf : nat)
    (NBin0 : Z) (r_max2 : R)
    (pt : patch_t) (dv : R) (k j i : Z) (dx dy dz : R) (omp : list omp_t) :
  let r2 := SQR dx + SQR dy + SQR dz in
  omp_all_wf NProf NBin0 omp ->
  (counted cl NBin0 r_max2 r2 = 1%Z -> (0 <= cell_bin cl (sqrt r2))%Z) ->
  (forall p, (p < NProf)%nat -> supported (arg_TVar cl p)) ->
  exists omp', accumulate_cell cf cl NBin0 r_max2 pt dv k j i dx dy dz omp = Ok omp'.
Proof.
  intros r2 W Hbin Hq; unfold accumulate_cell; fold r2.
  unfold counted in Hbin.
  destruct (Rlt_dec r2 r_max2) as [Hr|Hr]; [|eauto].
  destruct (cell_bin cl (sqrt r2) >=? NBin0)%Z eqn:Hb; [eauto|].
  specialize (Hbin eq_refl).
  replace (cell_bin cl (sqrt r2) <? 0)%Z with false by (symmetry; apply Z.ltb_ge; lia).
  rewrite andb_false_r.
  apply for_each_total.
  intros p o Ho.
  rewrite (accumulate_quantity_spec cf cl pt k j i dx dy dz (sqrt r2) dv _ _ o NBin0);
    [|eapply omp_all_wf_nth; eauto | lia].
  destruct (contribution_supported cf pt (arg_TVar cl (0 + p)) k j i dx dy dz
                                   (sqrt r2) dv) as [c [w Hc]].
  - apply Hq. destruct W as [<- _]. apply nth_error_Some; simpl; congruence.
  - rewrite Hc; simpl; eauto.
Qed.

(* ------------------------------------------------------------------ *)
(** ** Entry-wise sums *)

Lemma map2_length {A B C} (f : A -> B -> C) :
  forall (l : list A) (m : list B),
    length l = length m -> length (map2 f l m) = length l.
Proof.
  induction l as [|a l IH]; intros [|b m] H; simpl in *; auto; try lia.
Qed.

Lemma nth_error_map2 {A B C} (f : A -> B -> C) :
  forall (l : list A) (m : list B) (p : nat) (c : C),
    nth_error (map2 f l m) p = Some c ->
    exists a b, nth_error l p = Some a /\ nth_error m p = Some b /\ c = f a b.
Proof.
  induction l as [|a l IH]; intros [|b m] [|p] c H; simpl in *; try discriminate.
  - inv_ok H; eauto.
  - apply IH; auto.
Qed.

Lemma nth_map2 {A B C} (f : A -> B -> C) (da : A) (db : B) (dc : C) :
  forall (l : list A) (m : list B) (p : nat),
    (p < length l)%nat -> (p < length m)%nat ->
    nth p (map2 f l m) dc = f (nth p l da) (nth p m db).
Proof.
  induction l as [|a l IH]; intros [|b m] [|p] Hl Hm; simpl in *; try lia; auto.
  apply IH; lia.
Qed.

Lemma omp_add_wf (n : Z) (a b : omp_t) :
  omp_wf n a -> omp_wf n b -> omp_wf n (omp_add a b).
Proof.
  intros [A1 [A2 A3]] [B1 [B2 B3]]; unfold omp_wf, omp_add; simpl.
  rewrite !map2_length; auto; congruence.
Qed.

Lemma sums_add_wf (NProf : nat) (n : Z) (a b : list omp_t) :
  omp_all_wf NProf n a -> omp_all_wf NProf n b ->
  omp_all_wf NProf n (sums_add a b).
Proof.
  intros Wa Wb; split.
  - unfold sums_add; rewrite map2_length; destruct Wa, Wb; congruence.
  - apply Forall_forall; intros o Ho.
    apply In_nth_error in Ho; destruct Ho as [p Hp].
    apply nth_error_map2 in Hp; destruct Hp as [x [y [Hx [Hy ->]]]].
    apply omp_add_wf;
      [apply (omp_all_wf_nth NProf n a p) | apply (omp_all_wf_nth NProf n b p)];
      auto.
Qed.

Lemma zero_omp_wf (n : Z) : omp_wf n (zero_omp n).
Proof. unfold omp_wf, zero_omp; simpl; rewrite !repeat_length; auto. Qed.

Lemma zeros_wf (NProf : nat) (n : Z) :
  omp_all_wf NProf n (repeat (zero_omp n) NProf).
Proof.
  split; [apply repeat_length|].
  apply Forall_forall; intros o Ho; apply repeat_spec in Ho; subst.
  apply zero_omp_wf.
Qed.

Lemma nth_error_zeros (NProf : nat) (n : Z) (p : nat) (o : omp_t) :
  nth_error (repeat (zero_omp n) NProf) p = Some o ->
  o = zero_omp n /\ (p < NProf)%nat.
Proof.
  intros H; split.
  - apply nth_error_In in H; apply repeat_spec in H; exact H.
  - assert (p < length (repeat (zero_omp n) NProf))%nat
      by (apply nth_error_Some; congruence).
    rewrite repeat_length in H0; exact H0.
Qed.

(* ------------------------------------------------------------------ *)
(** ** Invariants of the sums, profile by profile *)

Section PerProfile.

Variables (cf : Config) (amr : AMR_t) (cl : Call).
Variables (NProf : nat) (NBin0 : Z) (r_max2 : R).

(** [J p n o]: the arrays [o] of profile [p] after [n] counted cells. *)
Variable J : nat -> Z -> omp_t -> Prop.

Hypothesis J_zero : forall p, (p < NProf)%nat -> J p 0%Z (zero_omp NBin0).

Hypothesis J_cell :
  forall lv pt k j i p n o c w,
    visited cf amr cl lv pt k j i ->
    (p < NProf)%nat -> omp_wf NBin0 o -> J p n o ->
    let h := dh amr lv in
    let r := sqrt (cell_r2 amr cl h pt k j i) in
    cell_r2 amr cl h pt k j i < r_max2 ->
    (0 <= cell_bin cl r < NBin0)%Z ->
    contribution cf pt (arg_TVar cl p) k j i
                 (offset amr cl h pt 0 i) (offset amr cl h pt 1 j)
                 (offset amr cl h pt 2 k) r (CUBE h) = Ok (c, w) ->
    J p (n + 1)%Z (add_cell (cell_bin cl r) c w o).

Hypothesis J_add :
  forall p n m a b,
    omp_wf NBin0 a -> omp_wf NBin0 b -> J p n a -> J p m b ->
    J p (n + m)%Z (omp_add a b).

Theorem collect_per_profile (sums : list omp_t) :
  collect cf amr cl NProf NBin0 r_max2 = Ok sums ->
  omp_all_wf NProf NBin0 sums /\
  forall p o, nth_error sums p = Some o ->
    J p (sum_cells cf amr (considered_levels cf cl)
           (fun lv pt k j i =>
              counted cl NBin0 r_max2 (cell_r2 amr cl (dh amr lv) pt k j i)))
      o.
Proof.
  intros H.
  assert (P : post
                (fun omp => omp_all_wf NProf NBin0 omp /\
                   forall p o, nth_error omp p = Some o ->
                     J p (sum_cells cf amr (considered_levels cf cl)
                            (fun lv pt k j i =>
                               counted cl NBin0 r_max2
                                       (cell_r2 amr cl (dh amr lv) pt k j i)))
                       o)
                (fun _ => True)
                (collect cf amr cl NProf NBin0 r_max2));
    [|rewrite H in P; exact P].
  apply (collect_post cf amr cl NProf NBin0 r_max2
           (fun n omp => omp_all_wf NProf NBin0 omp /\
                         forall p o, nth_error omp p = Some o -> J p n o)
           (fun _ => True)
           (fun lv pt k j i =>
              counted cl NBin0 r_max2 (cell_r2 amr cl (dh amr lv) pt k j i))).
  - split; [apply zeros_wf|].
    intros p o Ho; apply nth_error_zeros in Ho; destruct Ho as [-> Hp]; auto.
  - intros lv pt k j i n omp V [W HJ].
    destruct (accumulate_cell _ _ _ _ _ _ _ _ _ _ _ _ _) as [omp'|e] eqn:Hc;
      simpl; auto.
    apply accumulate_cell_inv in Hc.
    fold (cell_r2 amr cl (dh amr lv) pt k j i) in Hc.
    destruct Hc as [[Hc ->] | [Hc [Hr [Hb Ha]]]]; rewrite Hc.
    + rewrite Z.add_0_r; auto.
    + split; [eapply cell_added_wf; eauto|].
      intros p o' Ho'.
      destruct Ha as [L Ha].
      destruct (nth_error omp p) as [o|] eqn:Eo.
      * destruct (Ha p o Eo) as [Hb0 [c [w [Hcw Hn]]]].
        rewrite Hn in Ho'; inv_ok Ho'.
        apply (J_cell lv pt k j i); auto.
        -- destruct W as [<- _]; apply nth_error_Some; congruence.
        -- eapply omp_all_wf_nth; eauto.
      * apply nth_error_None in Eo.
        assert (p < length omp')%nat by (apply nth_error_Some; congruence).
        lia.
  - intros n m a b [Wa Ja] [Wb Jb]; split; [apply sums_add_wf; auto|].
    intros p o Ho.
    apply nth_error_map2 in Ho; destruct Ho as [x [y [Hx [Hy ->]]]].
    apply J_add; auto;
      [apply (omp_all_wf_nth NProf NBin0 a p) | apply (omp_all_wf_nth NProf NBin0 b p)];
      auto.
Qed.

(** The accumulation returns when no counted cell has a negative bin and
    every quantity is supported. *)
Theorem collect_total :
  (forall lv pt k j i,
      visited cf amr cl lv pt k j i ->
      let r2 := cell_r2 amr cl (dh amr lv) pt k j i in
      counted cl NBin0 r_max2 r2 = 1%Z -> (0 <= cell_bin cl (sqrt r2))%Z) ->
  (forall p, (p < NProf)%nat -> supported (arg_TVar cl p)) ->
  exists sums, collect cf amr cl NProf NBin0 r_max2 = Ok sums.
Proof.
  intros Hbin Hq.
  assert (P : post (fun omp => omp_all_wf NProf NBin0 omp) (fun _ => False)
                   (collect cf amr cl NProf NBin0 r_max2));
    [|apply post_total in P; destruct P as [sums [E _]]; eauto].
  apply (collect_post cf amr cl NProf NBin0 r_max2
           (fun _ omp => omp_all_wf NProf NBin0 omp)
           (fun _ => False)
           (fun _ _ _ _ _ => 0%Z)).
  - apply zeros_wf.
  - intros lv pt k j i n omp V W.
    destruct (accumulate_cell_total cf cl NProf NBin0 r_max2 pt
                (CUBE (dh amr lv)) k j i
                (offset amr cl (dh amr lv) pt 0 i)
                (offset amr cl (dh amr lv) pt 1 j)
                (offset amr cl (dh amr lv) pt 2 k) omp W) as [omp' Hc]; auto.
    + apply (Hbin lv pt k j i V).
    + rewrite Hc; simpl.
      apply accumulate_cell_inv in Hc.
      destruct Hc as [[_ ->] | [_ [_ [_ Ha]]]]; auto.
      eapply cell_added_wf; eauto.
  - intros n m a b Wa Wb; apply sums_add_wf; auto.
Qed.

End PerProfile.

(* ------------------------------------------------------------------ *)
(** ** Shifting the bins down *)

Lemma zth_load {A} (d : A) (a : list A) (x : Z) :
  (0 <= x < Z.of_nat (length a))%Z -> load a x = Ok (zth d a x).
Proof. apply load_ok. Qed.

Lemma move_length {A} (d : A) (dst src : Z) (a : list A) :
  length (move d dst src a) = length a.
Proof. apply upd_length. Qed.

Lemma zth_move {A} (d : A) (dst src : Z) (a : list A) (x : Z) :
  (0 <= dst < Z.of_nat (length a))%Z -> (0 <= x)%Z ->
  zth d (move d dst src a) x = if (x =? dst)%Z then zth d a src else zth d a x.
Proof.
  intros Hd Hx; unfold move, zth at 1.
  destruct (x =? dst)%Z eqn:E.
  - apply Z.eqb_eq in E; subst. apply nth_upd_eq; lia.
  - apply Z.eqb_neq in E. apply nth_upd_neq; lia.
Qed.

Lemma shift_list_length {A} (d : A) (stride : Z) :
  forall (steps : nat) (m : Z) (a : list A),
    length (shift_list d steps m stride a) = length a.
Proof.
  induction steps as [|k IH]; intros m a; simpl; auto.
  rewrite IH; apply move_length.
Qed.

(** Entry by entry: the [steps] entries from [m - stride] on receive the
    entries [stride] places above them. *)
Lemma zth_shift_list {A} (d : A) (stride : Z) :
  forall (steps : nat) (m : Z) (a : list A) (x : Z),
    (0 <= stride)%Z -> (0 <= m - stride)%Z ->
    (m + Z.of_nat steps <= Z.of_nat (length a))%Z -> (0 <= x)%Z ->
    zth d (shift_list d steps m stride a) x
    = if ((m - stride <=? x) && (x <? m - stride + Z.of_nat steps))%Z
      then zth d a (x + stride) else zth d a x.
Proof.
  induction steps as [|k IH]; intros m a x Hs Hm Hl Hx; cbn [shift_list].
  - replace (x <? m - stride + Z.of_nat 0)%Z with (x <? m - stride)%Z
      by (f_equal; lia).
    destruct (m - stride <=? x)%Z eqn:E1, (x <? m - stride)%Z eqn:E2;
      simpl; auto; lia.
  - rewrite IH; try rewrite move_length; try lia.
    destruct (Z.leb_spec (m + 1 - stride) x);
      destruct (Z.ltb_spec x (m + 1 - stride + Z.of_nat k));
      destruct (Z.leb_spec (m - stride) x);
      destruct (Z.ltb_spec x (m - stride + Z.of_nat (Datatypes.S k)));
      cbn [andb]; try lia;
      rewrite zth_move by lia;
      match goal with
      | |- context [(?u =? ?v)%Z] => destruct (Z.eqb_spec u v)
      end; try lia; try reflexivity; f_equal; lia.
Qed.

Lemma list_ext_zth {A} (d : A) (l l' : list A) :
  length l = length l' ->
  (forall x, (0 <= x < Z.of_nat (length l))%Z -> zth d l x = zth d l' x) ->
  l = l'.
Proof.
  intros L H; apply (nth_ext l l' d d L).
  intros n Hn. specialize (H (Z.of_nat n)). unfold zth in H.
  rewrite Nat2Z.id in H. apply H; lia.
Qed.

(** The entries in use after a run of [stride] bins was removed at [b]. *)
Lemma firstn_shift_list {A} (d : A) (b stride n : nat) (a : list A) :
  (b + stride <= n)%nat -> (n <= length a)%nat ->
  firstn (n - stride)
         (shift_list d (n - (b + stride)) (Z.of_nat (b + stride))
                     (Z.of_nat stride) a)
  = firstn b a ++ skipn (b + stride) (firstn n a).
Proof.
  intros H1 H2.
  apply (list_ext_zth d).
  - rewrite length_app, !length_firstn, length_skipn, length_firstn,
      shift_list_length; lia.
  - intros x Hx.
    rewrite length_firstn, shift_list_length in Hx.
    unfold zth at 1 2.
    rewrite nth_firstn.
    replace (Z.to_nat x <? n - stride)%nat with true
      by (symmetry; apply Nat.ltb_lt; lia).
    fold (zth d (shift_list d (n - (b + stride)) (Z.of_nat (b + stride))
                            (Z.of_nat stride) a) x).
    rewrite zth_shift_list by lia.
    destruct (Z.leb_spec (Z.of_nat (b + stride) - Z.of_nat stride) x) as [E1|E1].
    + replace (x <? Z.of_nat (b + stride) - Z.of_nat stride
                    + Z.of_nat (n - (b + stride)))%Z with true
        by (symmetry; apply Z.ltb_lt; lia).
      simpl.
      rewrite app_nth2 by (rewrite length_firstn; lia).
      rewrite length_firstn, nth_skipn, nth_firstn.
      replace (Nat.min b (length a)) with b by lia.
      replace (b + stride + (Z.to_nat x - b) <? n)%nat with true
        by (symmetry; apply Nat.ltb_lt; lia).
      unfold zth; f_equal; lia.
    + simpl.
      rewrite app_nth1 by (rewrite length_firstn; lia).
      rewrite nth_firstn.
      replace (Z.to_nat x <? b)%nat with true
        by (symmetry; apply Nat.ltb_lt; lia).
      reflexivity.
Qed.

Lemma for_each_map {A} (body : nat -> A -> result A) (f : A -> A) :
  forall (objs : list A) (p0 : nat),
    (forall p o, In o objs -> body p o = Ok (f o)) ->
    for_each body p0 objs = Ok (map f objs).
Proof.
  induction objs as [|o rest IH]; intros p0 H; simpl; auto.
  rewrite H by (left; reflexivity); simpl.
  rewrite IH by (intros; apply H; right; assumption); reflexivity.
Qed.

Lemma shift_bin_ok (L : nat) (m stride : Z) (pr : Profile_t) :
  prof_wf L pr ->
  (0 <= m - stride < Z.of_nat L)%Z -> (0 <= m < Z.of_nat L)%Z ->
  shift_bin (m - stride) m pr = Ok (shift_profile 1 m stride pr).
Proof.
  intros [H1 [H2 [H3 [H4 _]]]] Hd Hs; unfold shift_bin.
  rewrite (zth_load 0) by lia; cbn [bind].
  rewrite store_ok by lia; cbn [bind].
  rewrite (zth_load 0) by lia; cbn [bind].
  rewrite store_ok by lia; cbn [bind].
  rewrite (zth_load 0) by lia; cbn [bind].
  rewrite store_ok by lia; cbn [bind].
  rewrite (zth_load 0%Z) by lia; cbn [bind].
  rewrite store_ok by lia; cbn [bind].
  reflexivity.
Qed.

Lemma shift_profile_wf (L : nat) (steps : nat) (m stride : Z) (pr : Profile_t) :
  prof_wf L pr -> prof_wf L (shift_profile steps m stride pr).
Proof.
  intros [H1 [H2 [H3 [H4 H5]]]]; unfold prof_wf, shift_profile; simpl.
  rewrite !shift_list_length; auto.
Qed.

(** The loop over [b_up] that shifts the bins: every array of every profile
    is shifted. *)
Lemma shift_loop_ok (L : nat) (stride : Z) :
  forall (steps : nat) (m : Z) (P : list Profile_t),
    Forall (prof_wf L) P ->
    (0 <= stride)%Z -> (0 <= m - stride)%Z ->
    (m + Z.of_nat steps <= Z.of_nat L)%Z ->
    for_steps steps m
      (fun b_up P =>
         for_each (fun _ pr => shift_bin (b_up - stride) b_up pr) 0 P) P
    = Ok (map (shift_profile steps m stride) P).
Proof.
  induction steps as [|k IH]; intros m P W Hs Hm Hl; cbn [for_steps].
  - f_equal. rewrite <- (map_id P) at 1. apply map_ext.
    intros pr; destruct pr; reflexivity.
  - rewrite (for_each_map _ (shift_profile 1 m stride)).
    + cbn [bind]. rewrite IH; auto; try lia.
      * rewrite map_map; reflexivity.
      * apply Forall_forall; intros pr Hpr.
        apply in_map_iff in Hpr; destruct Hpr as [pr0 [<- Hpr0]].
        apply shift_profile_wf. rewrite Forall_forall in W; auto.
    + intros p pr Hpr. rewrite Forall_forall in W.
      apply (shift_bin_ok L); auto; lia.
Qed.

(** The search for the next bin that is not empty. *)
Lemma next_nonempty_ok (ncell : list Z) :
  forall (steps : nat) (b_up : Z),
    (0 <= b_up)%Z -> (b_up + Z.of_nat steps <= Z.of_nat (length ncell))%Z ->
    exists b', next_nonempty steps b_up ncell = Ok b' /\
               (b_up <= b' <= b_up + Z.of_nat steps)%Z /\
               (forall x, (b_up <= x < b')%Z -> zth 0%Z ncell x = 0%Z) /\
               (b' < b_up + Z.of_nat steps -> zth 0%Z ncell b' <> 0)%Z.
Proof.
  induction steps as [|k IH]; intros b_up H0 Hl; cbn [next_nonempty].
  - exists b_up; repeat split; intros; lia.
  - rewrite (zth_load 0%Z) by lia; cbn [bind].
    destruct (Z.eqb_spec (zth 0%Z ncell b_up) 0) as [Hz|Hz].
    + destruct (IH (b_up + 1)%Z) as [b' [E [Hb [Hzero Hnz]]]]; try lia.
      exists b'; split; [exact E|]. split; [lia|]. split.
      * intros x Hx. destruct (Z.eq_dec x b_up) as [->|Hne]; auto.
        apply Hzero; lia.
      * intros Hlt; apply Hnz; lia.
    + exists b_up; repeat split; intros; auto; lia.
Qed.

(* ------------------------------------------------------------------ *)
(** ** Keeping the bins that are not empty *)

Lemma skipn_zth_cons {A} (d : A) (b : nat) (a : list A) :
  (b < length a)%nat ->
  skipn b a = zth d a (Z.of_nat b) :: skipn (Datatypes.S b) a.
Proof.
  unfold zth; rewrite Nat2Z.id.
  revert b; induction a as [|h t IH]; intros [|b] H; simpl in *; try lia; auto.
  apply IH; lia.
Qed.

Lemma zth_firstn {A} (d : A) (n : nat) (a : list A) (x : Z) :
  (0 <= x < Z.of_nat n)%Z -> zth d (firstn n a) x = zth d a x.
Proof.
  intros H; unfold zth; rewrite nth_firstn.
  replace (Z.to_nat x <? n)%nat with true by (symmetry; apply Nat.ltb_lt; lia).
  reflexivity.
Qed.

Lemma firstn_snoc {A} (d : A) (b : nat) (a : list A) :
  (b < length a)%nat ->
  firstn (Datatypes.S b) a = firstn b a ++ [zth d a (Z.of_nat b)].
Proof.
  unfold zth; rewrite Nat2Z.id.
  revert b; induction a as [|h t IH]; intros [|b] H; simpl in *; try lia; auto.
  f_equal; apply IH; lia.
Qed.

(** A bin that is not empty stays. *)
Lemma compact_from_keep {A} (d : A) (b n : nat) (mask : list Z) (a : list A) :
  (b < n)%nat -> (n <= length mask)%nat -> (n <= length a)%nat ->
  zth 0%Z mask (Z.of_nat b) <> 0%Z ->
  compact_from (Datatypes.S b) n mask a = compact_from b n mask a.
Proof.
  intros Hb Hm Ha Hnz; unfold compact_from.
  rewrite (skipn_zth_cons 0%Z b (firstn n mask)) by (rewrite length_firstn; lia).
  rewrite (skipn_zth_cons d b (firstn n a)) by (rewrite length_firstn; lia).
  rewrite !zth_firstn by lia.
  cbn [keep_nonempty].
  destruct (Z.eqb_spec (zth 0%Z mask (Z.of_nat b)) 0); [contradiction|].
  rewrite (firstn_snoc d) by lia.
  rewrite <- app_assoc; reflexivity.
Qed.

(** A run of empty bins goes. *)
Lemma keep_nonempty_skip_run {A} (d : A) (mask : list Z) (a : list A) :
  forall (stride b : nat),
    (b + stride <= length mask)%nat -> (b + stride <= length a)%nat ->
    (forall x, (Z.of_nat b <= x < Z.of_nat (b + stride))%Z ->
               zth 0%Z mask x = 0%Z) ->
    keep_nonempty (skipn b mask) (skipn b a)
    = keep_nonempty (skipn (b + stride) mask) (skipn (b + stride) a).
Proof.
  induction stride as [|s IH]; intros b Hm Ha Hz.
  - rewrite Nat.add_0_r; reflexivity.
  - rewrite (skipn_zth_cons 0%Z b mask) by lia.
    rewrite (skipn_zth_cons d b a) by lia.
    cbn [keep_nonempty].
    rewrite Hz by lia. simpl (0 =? 0)%Z. cbn iota.
    replace (b + Datatypes.S s)%nat with (Datatypes.S b + s)%nat by lia.
    apply IH; try lia.
    intros x Hx; apply Hz; lia.
Qed.

Lemma compact_from_end {A} (n : nat) (mask : list Z) (a : list A) :
  compact_from n n mask a = firstn n a.
Proof.
  unfold compact_from.
  rewrite (skipn_all2 (firstn n mask)) by (rewrite length_firstn; lia).
  simpl; apply app_nil_r.
Qed.

(** Removing a run of [s] empty bins at [b] by shifting, then compacting
    from [b] on, is compacting from [b] on. *)
Lemma compact_from_shift {A} (d : A) (b s n : nat) (mask : list Z) (a : list A) :
  (b + s <= n)%nat -> (n <= length mask)%nat -> (n <= length a)%nat ->
  (forall x, (Z.of_nat b <= x < Z.of_nat (b + s))%Z -> zth 0%Z mask x = 0%Z) ->
  compact_from b (n - s)
    (shift_list 0%Z (n - (b + s)) (Z.of_nat (b + s)) (Z.of_nat s) mask)
    (shift_list d (n - (b + s)) (Z.of_nat (b + s)) (Z.of_nat s) a)
  = compact_from b n mask a.
Proof.
  intros H1 Hm Ha Hz; unfold compact_from.
  rewrite (firstn_shift_list 0%Z b s n mask) by lia.
  rewrite (firstn_shift_list d b s n a) by lia.
  assert (Fa : firstn b (shift_list d (n - (b + s)) (Z.of_nat (b + s))
                                     (Z.of_nat s) a) = firstn b a).
  { replace b with (Nat.min b (n - s)) at 1 by lia.
    rewrite <- firstn_firstn, (firstn_shift_list d b s n a) by lia.
    rewrite firstn_app, length_firstn.
    replace (b - Nat.min b (length a))%nat with 0%nat by lia.
    rewrite firstn_firstn, Nat.min_id. simpl; apply app_nil_r. }
  rewrite Fa.
  rewrite !skipn_app, !length_firstn.
  replace (b - Nat.min b (length mask))%nat with 0%nat by lia.
  replace (b - Nat.min b (length a))%nat with 0%nat by lia.
  rewrite (skipn_all2 (firstn b mask)) by (rewrite length_firstn; lia).
  rewrite (skipn_all2 (firstn b a)) by (rewrite length_firstn; lia).
  simpl. f_equal.
  symmetry; apply (keep_nonempty_skip_run d).
  - rewrite length_firstn; lia.
  - rewrite length_firstn; lia.
  - intros x Hx. rewrite zth_firstn by lia. apply Hz; exact Hx.
Qed.

Lemma compacted_transfer (L b n b' n' : nat) (mask mask' : list Z)
    (pr pr0 pr' : Profile_t) :
  Center pr0 = Center pr -> MaxRadius pr0 = MaxRadius pr ->
  LogBin pr0 = LogBin pr -> LogBinRatio pr0 = LogBinRatio pr ->
  compact_from b' n' mask' mask' = compact_from b n mask mask ->
  compact_from b' n' mask' (Radius pr0) = compact_from b n mask (Radius pr) ->
  compact_from b' n' mask' (Data pr0) = compact_from b n mask (Data pr) ->
  compact_from b' n' mask' (Weight pr0) = compact_from b n mask (Weight pr) ->
  compact_from b' n' mask' (NCell pr0) = compact_from b n mask (NCell pr) ->
  compacted L b' n' mask' pr0 pr' -> compacted L b n mask pr pr'.
Proof.
  intros E1 E2 E3 E4 Em Er Ed Ew En [C1 [C2 [C3 [C4 [C5 [C6 [C7 [C8 [C9 W]]]]]]]]].
  unfold compacted.
  rewrite <- E1, <- E2, <- E3, <- E4, <- Em, <- Er, <- Ed, <- Ew, <- En.
  repeat split; auto; apply W.
Qed.

Lemma compacted_refl (L n : nat) (mask : list Z) (pr : Profile_t) :
  prof_wf L pr -> NBin pr = Z.of_nat n -> (n <= length mask)%nat ->
  compacted L n n mask pr pr.
Proof.
  intros W Hn Hm; unfold compacted, visible; simpl.
  rewrite !compact_from_end, Hn, Nat2Z.id, length_firstn.
  repeat split; auto; try apply W. f_equal; lia.
Qed.

Lemma Forall2_In_left {A B} (R : A -> B -> Prop) (l : list A) (l' : list B) :
  Forall2 R l l' -> Forall2 (fun a b => In a l /\ R a b) l l'.
Proof.
  induction 1 as [|a b l l' H F IH]; constructor.
  - split; [left; reflexivity | exact H].
  - eapply Forall2_impl; [|exact IH].
    intros x y [Hin Hr]; split; [right; exact Hin | exact Hr].
Qed.

Lemma Forall2_map_left {A B C} (R : B -> C -> Prop) (f : A -> B) :
  forall (l : list A) (l' : list C),
    Forall2 R (map f l) l' -> Forall2 (fun a c => R (f a) c) l l'.
Proof.
  induction l as [|a l IH]; intros l' H; inversion H; subst; constructor; auto.
Qed.

(** The loop over [b] returns, within the fuel, the profiles with the empty
    bins at or above [b] removed. *)
Lemma remove_empty_loop_ok (L : nat) :
  forall (fuel b n : nat) (p0 : Profile_t) (rest : list Profile_t),
    Forall (prof_wf L) (p0 :: rest) ->
    Forall (fun pr => NBin pr = Z.of_nat n) (p0 :: rest) ->
    (b <= n)%nat ->
    (n - b < fuel)%nat ->
    exists P',
      remove_empty_loop fuel (Z.of_nat b) (p0 :: rest) = Ok P' /\
      Forall2 (compacted L b n (NCell p0)) (p0 :: rest) P'.
Proof.
  induction fuel as [|f IH]; intros b n p0 rest W Hn Hb Hf; [lia|].
  assert (W0 : prof_wf L p0) by (inversion W; auto).
  assert (Hn0 : NBin p0 = Z.of_nat n) by (inversion Hn; auto).
  assert (HL : (n <= L)%nat) by (destruct W0 as [_ [_ [_ [_ HH]]]]; lia).
  assert (Lm : length (NCell p0) = L) by apply W0.
  cbn [remove_empty_loop].
  change (load (p0 :: rest) 0) with (Ok p0); cbn [bind].
  rewrite Hn0.
  destruct (Z.ltb_spec (Z.of_nat b) (Z.of_nat n)) as [Hlt|Hge].
  - rewrite (zth_load 0%Z) by lia; cbn [bind].
    destruct (Z.eqb_spec (zth 0%Z (NCell p0) (Z.of_nat b)) 0) as [Hz|Hz];
      cbn [negb].
    + (* a run of empty bins starts at [b] *)
      destruct (next_nonempty_ok (NCell p0)
                  (Z.to_nat (Z.of_nat n - (Z.of_nat b + 1)))
                  (Z.of_nat b + 1)%Z) as [b' [E [Hb' [Hzero _]]]]; try lia.
      rewrite E; cbn [bind].
      set (s := Z.to_nat (b' - Z.of_nat b)).
      assert (Hs : (b' - Z.of_nat b)%Z = Z.of_nat s) by (unfold s; lia).
      rewrite Hs.
      unfold for_Z.
      replace (Z.to_nat (Z.of_nat n - (Z.of_nat b + Z.of_nat s)))
        with (n - (b + s))%nat by lia.
      replace (Z.of_nat b + Z.of_nat s)%Z with (Z.of_nat (b + s)) by lia.
      rewrite (shift_loop_ok L); auto; try lia.
      cbn [bind].
      replace (Z.of_nat b - 1 + 1)%Z with (Z.of_nat b) by lia.
      rewrite map_map. cbn [map].
      set (g := fun pr => set_NBin
                            (shift_profile (n - (b + s)) (Z.of_nat (b + s))
                                           (Z.of_nat s) pr)
                            (NBin (shift_profile (n - (b + s)) (Z.of_nat (b + s))
                                                 (Z.of_nat s) pr) - Z.of_nat s)).
      destruct (IH b (n - s)%nat (g p0) (map g rest)) as [P' [E' F']]; try lia.
      * change (g p0 :: map g rest) with (map g (p0 :: rest)).
        apply Forall_forall; intros pr' Hpr'.
        apply in_map_iff in Hpr'; destruct Hpr' as [pr [<- Hpr]].
        rewrite Forall_forall in W, Hn.
        specialize (W pr Hpr); specialize (Hn pr Hpr).
        destruct (shift_profile_wf L (n - (b + s)) (Z.of_nat (b + s))
                                   (Z.of_nat s) pr W) as [A1 [A2 [A3 [A4 A5]]]].
        unfold g, prof_wf; simpl. simpl in A5. repeat split; auto; lia.
      * change (g p0 :: map g rest) with (map g (p0 :: rest)).
        apply Forall_forall; intros pr' Hpr'.
        apply in_map_iff in Hpr'; destruct Hpr' as [pr [<- Hpr]].
        rewrite Forall_forall in Hn. specialize (Hn pr Hpr).
        unfold g; simpl. lia.
      * exists P'; split; [exact E'|].
        change (g p0 :: map g rest) with (map g (p0 :: rest)) in F'.
        apply Forall2_map_left, Forall2_In_left in F'.
        assert (Hzeros : forall x, (Z.of_nat b <= x < Z.of_nat (b + s))%Z ->
                                   zth 0%Z (NCell p0) x = 0%Z).
        { intros x Hx. destruct (Z.eq_dec x (Z.of_nat b)) as [->|Hne]; auto.
          apply Hzero; lia. }
        rewrite Forall_forall in W.
        eapply Forall2_impl; [|exact F'].
        intros pr pr' [Hin Hc].
        destruct (W pr Hin) as [A1 [A2 [A3 [A4 _]]]].
        eapply compacted_transfer; [| | | | | | | | |exact Hc];
          try reflexivity; unfold g; simpl;
          apply compact_from_shift; auto; lia.
    + (* bin [b] is not empty *)
      replace (Z.of_nat b + 1)%Z with (Z.of_nat (Datatypes.S b)) by lia.
      destruct (IH (Datatypes.S b) n p0 rest) as [P' [E' F']]; auto; try lia.
      exists P'; split; [exact E'|].
      rewrite Forall_forall in W.
      apply Forall2_In_left in F'.
      eapply Forall2_impl; [|exact F'].
      intros pr pr' [Hin Hc].
      destruct (W pr Hin) as [A1 [A2 [A3 [A4 _]]]].
      eapply compacted_transfer; [| | | | | | | | |exact Hc];
        try reflexivity;
        try (apply (compact_from_keep 0); auto; lia);
        apply (compact_from_keep 0%Z); auto; lia.
  - assert (b = n) by lia; subst b.
    exists (p0 :: rest); split; [reflexivity|].
    rewrite Forall_forall in W, Hn.
    assert (F : Forall (fun pr => compacted L n n (NCell p0) pr pr) (p0 :: rest)).
    { apply Forall_forall; intros pr Hpr.
      apply compacted_refl; auto; lia. }
    clear - F. induction F; constructor; auto.
Qed.

(* ------------------------------------------------------------------ *)
(** ** Normalisation *)

Lemma upd_same {A} (d : A) :
  forall (l : list A) (n : nat), upd n (nth n l d) l = l.
Proof.
  induction l as [|h t IH]; intros [|n]; simpl; auto.
  f_equal; apply IH.
Qed.

Lemma set_Data_same (pr : Profile_t) : set_Data pr (Data pr) = pr.
Proof. destruct pr; reflexivity. Qed.

Lemma normalize_bin_ok (q : Quant) (b : Z) (pr : Profile_t) :
  (0 <= b < Z.of_nat (length (Data pr)))%Z ->
  (0 <= b < Z.of_nat (length (Weight pr)))%Z ->
  (0 <= b < Z.of_nat (length (NCell pr)))%Z ->
  normalize_bin q b pr
  = Ok (set_Data pr
          (upd (Z.to_nat b)
               (normalized_value q (cells (NCell pr) b) (entry (Data pr) b)
                                 (entry (Weight pr) b))
               (Data pr))).
Proof.
  intros Hd Hw Hn; unfold normalize_bin, normalized_value.
  rewrite (load_ok _ _ 0%Z) by lia; cbn [bind].
  fold (cells (NCell pr) b).
  assert (Same : Ok pr = Ok (set_Data pr (upd (Z.to_nat b) (entry (Data pr) b)
                                              (Data pr)))).
  { unfold entry; rewrite upd_same, set_Data_same; reflexivity. }
  destruct (cells (NCell pr) b >? 0)%Z; [|exact Same].
  destruct q; try exact Same;
    try (rewrite (load_ok _ _ 0) by lia; cbn [bind];
         rewrite (load_ok _ _ 0) by lia; cbn [bind];
         rewrite store_ok by lia; reflexivity).
  rewrite (load_ok _ _ 0) by lia; cbn [bind].
  fold (entry (Weight pr) b).
  destruct (Rlt_dec 0 (entry (Weight pr) b)); [|exact Same].
  rewrite (load_ok _ _ 0) by lia; cbn [bind].
  rewrite store_ok by lia; reflexivity.
Qed.

Lemma normalize_profile_ok (q : Quant) (L : nat) (n : Z) (pr : Profile_t) :
  prof_wf L pr -> (n <= Z.of_nat L)%Z ->
  exists pr', for_Z 0 n (normalize_bin q) pr = Ok pr' /\ normalized q n pr pr'.
Proof.
  intros [H1 [H2 [H3 [H4 H5]]]] Hn.
  destruct (for_Z_total
              (fun i pr' =>
                 exists data,
                   pr' = set_Data pr data /\ length data = length (Data pr) /\
                   forall x, (0 <= x)%Z ->
                     entry data x
                     = if (x <? i)%Z
                       then normalized_value q (cells (NCell pr) x)
                                             (entry (Data pr) x)
                                             (entry (Weight pr) x)
                       else entry (Data pr) x)
              (normalize_bin q) 0 n pr) as [pr' [E [data [Hpr [Ld Hx]]]]].
  - exists (Data pr); rewrite set_Data_same; repeat split; auto.
    intros x Hx. destruct (Z.ltb_spec x 0); [lia | reflexivity].
  - intros i s Hi [data [-> [Ld Hx]]].
    rewrite normalize_bin_ok by (simpl; lia). simpl.
    eexists; split; [reflexivity|].
    eexists; split; [reflexivity|].
    split; [rewrite upd_length; exact Ld|].
    intros x Hx0. unfold entry at 1.
    destruct (Z.eq_dec x i) as [->|Hne].
    + rewrite nth_upd_eq by lia.
      destruct (Z.ltb_spec i (i + 1)); [|lia].
      f_equal. rewrite (Hx i) by lia.
      destruct (Z.ltb_spec i i); [lia | reflexivity].
    + rewrite nth_upd_neq by lia.
      fold (entry data x). rewrite (Hx x Hx0).
      destruct (Z.ltb_spec x i), (Z.ltb_spec x (i + 1)); try lia; reflexivity.
  - exists pr'; split; [exact E|].
    exists data; repeat split; auto.
    intros x Hx'. rewrite Hx by lia.
    destruct (Z.ltb_spec x (Z.max 0 n)); [reflexivity | lia].
Qed.

Lemma normalize_ok (cl : Call) (L : nat) (n : Z) (P : list Profile_t) :
  Forall (prof_wf L) P -> (n <= Z.of_nat L)%Z ->
  exists P',
    normalize cl n P = Ok P' /\ length P' = length P /\
    forall p pr, nth_error P p = Some pr ->
      exists pr', nth_error P' p = Some pr' /\
                  normalized (arg_TVar cl p) n pr pr'.
Proof.
  intros W Hn; unfold normalize.
  rewrite Forall_forall in W.
  destruct (for_each_total
              (fun p pr => for_Z 0 n (normalize_bin (arg_TVar cl p)) pr) P 0%nat)
    as [P' E].
  - intros p pr Hp.
    destruct (normalize_profile_ok (arg_TVar cl (0 + p)) L n pr) as [pr' [E _]];
      eauto using nth_error_In.
  - exists P'; split; [exact E|].
    apply for_each_inv in E; destruct E as [Len H].
    split; [exact Len|].
    intros p pr Hp. destruct (H p pr Hp) as [pr' [Hb Hn']].
    exists pr'; split; [exact Hn'|].
    destruct (normalize_profile_ok (arg_TVar cl p) L n pr) as [pr'' [E2 N]];
      eauto using nth_error_In.
    simpl in Hb. rewrite E2 in Hb; inv_ok Hb. exact N.
Qed.

(* ------------------------------------------------------------------ *)
(** ** The bin of a cell, for a valid configuration *)

Lemma ln_quotient_nonneg (x q : R) : 1 <= x -> 1 < q -> 0 <= ln x / ln q.
Proof.
  intros Hx Hq; apply Rmult_le_pos; [apply ln_nonneg; exact Hx|].
  left; apply Rinv_0_lt_compat, ln_ratio_pos; exact Hq.
Qed.

Lemma quotient_ge_1 (r d : R) : 0 < d -> d <= r -> 1 <= r / d.
Proof.
  intros Hd Hr. apply (Rmult_le_reg_r d); [exact Hd|].
  replace (r / d * d) with r by (field; lra). lra.
Qed.

Lemma quotient_nonneg (r d : R) : 0 < d -> 0 <= r -> 0 <= r / d.
Proof.
  intros Hd Hr; apply Rmult_le_pos; [exact Hr|].
  left; apply Rinv_0_lt_compat; exact Hd.
Qed.

(** For a positive bin width and, with logarithmic bins, a ratio above 1,
    the cast of the source is the [floor] of the specification. *)
Lemma cell_bin_spec (cl : Call) (r : R) :
  0 < arg_dr_min cl -> (arg_LogBin cl = true -> 1 < arg_LogBinRatio cl) ->
  0 <= r ->
  cell_bin cl r = spec_bin cl r.
Proof.
  intros Hd Hq Hr; unfold cell_bin, spec_bin.
  destruct (arg_LogBin cl).
  - destruct (Rlt_dec r (arg_dr_min cl)); [reflexivity|].
    rewrite c_int_nonneg; [reflexivity|].
    apply ln_quotient_nonneg; auto. apply quotient_ge_1; lra.
  - apply c_int_nonneg, quotient_nonneg; auto.
Qed.

Lemma spec_bin_nonneg (cl : Call) (r : R) :
  0 < arg_dr_min cl -> (arg_LogBin cl = true -> 1 < arg_LogBinRatio cl) ->
  0 <= r ->
  (0 <= spec_bin cl r)%Z.
Proof.
  intros Hd Hq Hr; unfold spec_bin.
  destruct (arg_LogBin cl).
  - destruct (Rlt_dec r (arg_dr_min cl)); [lia|].
    assert (0 <= floorZ (ln (r / arg_dr_min cl) / ln (arg_LogBinRatio cl)))%Z;
      [|lia].
    apply floorZ_nonneg, ln_quotient_nonneg; auto. apply quotient_ge_1; lra.
  - apply floorZ_nonneg, quotient_nonneg; auto.
Qed.

Lemma cell_bin_nonneg (cl : Call) (r : R) :
  0 < arg_dr_min cl -> (arg_LogBin cl = true -> 1 < arg_LogBinRatio cl) ->
  0 <= r ->
  (0 <= cell_bin cl r)%Z.
Proof.
  intros Hd Hq Hr; rewrite cell_bin_spec by auto.
  apply spec_bin_nonneg; auto.
Qed.

Lemma outer_radius_pos (cl : Call) :
  0 < arg_dr_min cl -> (arg_LogBin cl = true -> 1 < arg_LogBinRatio cl) ->
  (1 <= initial_NBin cl)%Z ->
  0 < outer_radius cl.
Proof.
  intros Hd Hq Hn; unfold outer_radius, initial_MaxRadius.
  destruct (arg_LogBin cl).
  - apply Rmult_lt_0_compat; [exact Hd | apply exp_pos].
  - apply Rmult_lt_0_compat; [exact Hd|]. apply IZR_lt; lia.
Qed.

(** Inside the outer radius the bin is below the number of bins: in exact
    arithmetic the guard [bin >= NBin] never fires. *)
Lemma cell_bin_below (cl : Call) (r : R) :
  0 < arg_dr_min cl -> (arg_LogBin cl = true -> 1 < arg_LogBinRatio cl) ->
  (1 <= initial_NBin cl)%Z ->
  0 <= r -> r < outer_radius cl ->
  (cell_bin cl r < initial_NBin cl)%Z.
Proof.
  intros Hd Hq Hn Hr Hlt; rewrite cell_bin_spec by auto.
  unfold spec_bin, outer_radius, initial_MaxRadius in *.
  destruct (arg_LogBin cl) eqn:Hlog.
  - specialize (Hq eq_refl).
    destruct (Rlt_dec r (arg_dr_min cl)); [lia|].
    set (N := initial_NBin cl) in *.
    assert (Hl : ln (arg_LogBinRatio cl) > 0) by (apply ln_ratio_pos; exact Hq).
    assert (H1 : r / arg_dr_min cl < Rpower (arg_LogBinRatio cl) (IZR (N - 1))).
    { apply (Rmult_lt_reg_r (arg_dr_min cl)); [exact Hd|].
      replace (r / arg_dr_min cl * arg_dr_min cl) with r by (field; lra). lra. }
    assert (H2 : ln (r / arg_dr_min cl) < IZR (N - 1) * ln (arg_LogBinRatio cl)).
    { rewrite <- (ln_exp (IZR (N - 1) * ln (arg_LogBinRatio cl))).
      apply ln_increasing; [|exact H1].
      assert (1 <= r / arg_dr_min cl) by (apply quotient_ge_1; lra). lra. }
    assert (H3 : ln (r / arg_dr_min cl) / ln (arg_LogBinRatio cl) < IZR (N - 1)).
    { apply (Rmult_lt_reg_r (ln (arg_LogBinRatio cl))); [exact Hl|].
      replace (ln (r / arg_dr_min cl) / ln (arg_LogBinRatio cl)
               * ln (arg_LogBinRatio cl))
        with (ln (r / arg_dr_min cl)) by (field; lra).
      exact H2. }
    apply floorZ_lt in H3. lia.
  - apply floorZ_lt.
    apply (Rmult_lt_reg_r (arg_dr_min cl)); [exact Hd|].
    replace (r / arg_dr_min cl * arg_dr_min cl) with r by (field; lra). lra.
Qed.

(** Comparing the squares is comparing the distances. *)
Lemma sqrt_lt_outer (r2 m : R) : 0 <= r2 -> 0 < m -> (r2 < SQR m <-> sqrt r2 < m).
Proof.
  intros H0 Hm; unfold SQR; split; intros H.
  - rewrite <- (sqrt_square m) by lra. apply sqrt_lt_1; nra.
  - rewrite <- (sqrt_sqrt r2 H0).
    assert (0 <= sqrt r2) by apply sqrt_pos. nra.
Qed.

Lemma SQR_nonneg (x : R) : 0 <= SQR x.
Proof. unfold SQR; nra. Qed.

Lemma cell_r2_nonneg (amr : AMR_t) (cl : Call) (h : R) (pt : patch_t)
    (k j i : Z) : 0 <= cell_r2 amr cl h pt k j i.
Proof.
  unfold cell_r2.
  assert (A := SQR_nonneg (offset amr cl h pt 0 i)).
  assert (B := SQR_nonneg (offset amr cl h pt 1 j)).
  assert (C := SQR_nonneg (offset amr cl h pt 2 k)). lra.
Qed.

(** The offsets of the loops are the nearest-image offsets of the
    specification. *)
Lemma wrap_nearest_image (periodic : bool) (L d d' : R) :
  d = d' -> wrap periodic (0.5 * L) L d = nearest_image periodic L d'.
Proof.
  intros <-; unfold wrap, nearest_image.
  destruct periodic; [|reflexivity].
  destruct (Rlt_dec (0.5 * L) d), (Rlt_dec (L / 2) d); try lra.
  destruct (Rlt_dec d (- (0.5 * L))), (Rlt_dec d (- (L / 2))); lra.
Qed.

Lemma offset_corrected (amr : AMR_t) (cl : Call) (h : R) (pt : patch_t)
    (d : nat) (n : Z) :
  offset amr cl h pt d n = corrected_offset amr cl h pt d n.
Proof.
  unfold offset, corrected_offset, HalfBox, cell_center.
  apply wrap_nearest_image. lra.
Qed.

Lemma cell_r2_distance (amr : AMR_t) (cl : Call) (h : R) (pt : patch_t)
    (k j i : Z) :
  sqrt (cell_r2 amr cl h pt k j i) = distance amr cl h pt k j i.
Proof.
  unfold cell_r2, distance. rewrite !offset_corrected. reflexivity.
Qed.

Lemma cells_add_cell (n bin : Z) (c w : R) (o : omp_t) :
  omp_wf n o -> (0 <= bin < n)%Z ->
  cells (OMP_NCell (add_cell bin c w o)) bin = (cells (OMP_NCell o) bin + 1)%Z.
Proof.
  intros [_ [_ H]] Hb; unfold add_cell, cells at 1; simpl.
  apply nth_upd_eq; lia.
Qed.

(** C1. A cell of a patch adds to the profiles exactly when its squared
    distance from the center, with the nearest-image offsets, is below the
    squared outer radius and its bin is below the number of bins; the bin is
    [floor(r/dr_min)] with linear bins, and 0 if [r < dr_min], else
    [floor(log(r/dr_min)/log(ratio)) + 1], with logarithmic bins; a cell that
    adds raises the cell count of that bin by one in every profile. *)
Theorem cell_contribution (cf : Config) (amr : AMR_t) (cl : Call)
    (NProf : nat) (NBin0 : Z) (r_max2 h : R) (pt : patch_t) (k j i : Z)
    (omp : list omp_t) :
  0 < arg_dr_min cl ->
  (arg_LogBin cl = true -> 1 < arg_LogBinRatio cl) ->
  omp_all_wf NProf NBin0 omp ->
  (forall p, (p < NProf)%nat -> supported (arg_TVar cl p)) ->
  let dx := offset amr cl h pt 0 i in
  let dy := offset amr cl h pt 1 j in
  let dz := offset amr cl h pt 2 k in
  let r2 := SQR (corrected_offset amr cl h pt 0 i)
            + SQR (corrected_offset amr cl h pt 1 j)
            + SQR (corrected_offset amr cl h pt 2 k) in
  let bin := spec_bin cl (sqrt r2) in
  let run := accumulate_cell cf cl NBin0 r_max2 pt (CUBE h) k j i dx dy dz omp in
  (~ r2 < r_max2 -> run = Ok omp) /\
  (r2 < r_max2 -> (NBin0 <= bin)%Z -> run = Ok omp) /\
  (r2 < r_max2 -> (bin < NBin0)%Z ->
   exists omp',
     run = Ok omp' /\
     cell_added cf cl pt k j i dx dy dz (sqrt r2) (CUBE h) bin omp omp' /\
     forall p o o', nth_error omp p = Some o -> nth_error omp' p = Some o' ->
                    cells (OMP_NCell o') bin = (cells (OMP_NCell o) bin + 1)%Z).
Proof.
  intros Hd Hq W Hsup dx dy dz r2 bin run.
  assert (Er2 : SQR dx + SQR dy + SQR dz = r2)
    by (unfold dx, dy, dz, r2; rewrite !offset_corrected; reflexivity).
  assert (Hbin : cell_bin cl (sqrt r2) = bin)
    by (apply cell_bin_spec; auto; apply sqrt_pos).
  assert (Hb0 : (0 <= bin)%Z) by (apply spec_bin_nonneg; auto; apply sqrt_pos).
  assert (Hrun : exists omp', run = Ok omp').
  { apply (accumulate_cell_total cf cl NProf); auto.
    rewrite Er2, Hbin; intros _; exact Hb0. }
  destruct Hrun as [omp' Hrun].
  assert (Hinv := accumulate_cell_inv _ _ _ _ _ _ _ _ _ _ _ _ _ _ Hrun).
  cbv zeta in Hinv; rewrite Er2, Hbin in Hinv; unfold counted in Hinv.
  rewrite Hbin in Hinv.
  split; [|split].
  - intros Hr. destruct (Rlt_dec r2 r_max2); [contradiction|].
    destruct Hinv as [[_ ->] | [Hc _]]; [exact Hrun | discriminate].
  - intros Hr Hge. destruct (Rlt_dec r2 r_max2); [|contradiction].
    destruct (Z.geb_spec bin NBin0); [|lia].
    destruct Hinv as [[_ ->] | [Hc _]]; [exact Hrun | discriminate].
  - intros Hr Hlt. destruct (Rlt_dec r2 r_max2); [|contradiction].
    destruct (Z.geb_spec bin NBin0); [lia|].
    destruct Hinv as [[Hc _] | [_ [_ [_ Ha]]]]; [discriminate|].
    exists omp'; split; [exact Hrun|]. split; [exact Ha|].
    intros p o o' Ho Ho'.
    destruct Ha as [_ Ha]. destruct (Ha p o Ho) as [_ [c [w [_ Hn]]]].
    rewrite Hn in Ho'; inv_ok Ho'.
    apply (cells_add_cell NBin0); [|lia].
    eapply omp_all_wf_nth; eauto.
Qed.

Lemma cell_contribution_witness :
  0 < arg_dr_min linear_call /\
  omp_all_wf 1 4 [zero_omp 4] /\
  let dx := offset single_patch_amr linear_call 1 uniform_patch 0 3 in
  let dy := offset single_patch_amr linear_call 1 uniform_patch 1 3 in
  let dz := offset single_patch_amr linear_call 1 uniform_patch 2 3 in
  let r2 := SQR (corrected_offset single_patch_amr linear_call 1 uniform_patch 0 3)
            + SQR (corrected_offset single_patch_amr linear_call 1 uniform_patch 1 3)
            + SQR (corrected_offset single_patch_amr linear_call 1 uniform_patch 2 3) in
  let bin := spec_bin linear_call (sqrt r2) in
  let run := accumulate_cell serial_build linear_call 4 16 uniform_patch (CUBE 1)
                             3 3 3 dx dy dz [zero_omp 4] in
  (~ r2 < 16 -> run = Ok [zero_omp 4]) /\
  (r2 < 16 -> (4 <= bin)%Z -> run = Ok [zero_omp 4]) /\
  (r2 < 16 -> (bin < 4)%Z ->
   exists omp',
     run = Ok omp' /\
     cell_added serial_build linear_call uniform_patch 3 3 3 dx dy dz (sqrt r2)
                (CUBE 1) bin [zero_omp 4] omp' /\
     forall p o o', nth_error [zero_omp 4] p = Some o ->
                    nth_error omp' p = Some o' ->
                    cells (OMP_NCell o') bin = (cells (OMP_NCell o) bin + 1)%Z).
Proof.
  assert (Hd : 0 < arg_dr_min linear_call) by (simpl; lra).
  assert (W : omp_all_wf 1 4 [zero_omp 4]) by apply (zeros_wf 1 4).
  split; [exact Hd|]. split; [exact W|].
  apply (cell_contribution serial_build single_patch_amr linear_call 1 4 16 1
                           uniform_patch 3 3 3 [zero_omp 4] Hd).
  - simpl; intros H; discriminate H.
  - exact W.
  - intros p _; exact I.
Defined.

(* ------------------------------------------------------------------ *)
(** ** The stages of a call that returns *)

Lemma collect_wf (cf : Config) (amr : AMR_t) (cl : Call) (NProf : nat)
    (NBin0 : Z) (r_max2 : R) (sums : list omp_t) :
  collect cf amr cl NProf NBin0 r_max2 = Ok sums ->
  omp_all_wf NProf NBin0 sums.
Proof.
  intros H.
  apply (collect_per_profile cf amr cl NProf NBin0 r_max2 (fun _ _ _ => True));
    auto.
Qed.

Lemma accumulate_all_spec (cf : Config) (amr : AMR_t) (cl : Call)
    (p1 : Profile_t) (rest : list Profile_t) :
  configured cl p1 ->
  accumulate_all cf amr cl (p1 :: rest)
  = (sums <- collect cf amr cl (length (p1 :: rest)) (initial_NBin cl)
                     (SQR (outer_radius cl)) ;;
     Ok (map2 store_sums (p1 :: rest) sums)).
Proof.
  intros [_ [Hn [Hm _]]]; unfold accumulate_all.
  change (load (p1 :: rest) 0) with (Ok p1); cbn [bind].
  rewrite Hn, Hm; reflexivity.
Qed.

Lemma accumulate_all_spec_list (cf : Config) (amr : AMR_t) (cl : Call)
    (P1 : list Profile_t) :
  P1 <> [] -> Forall (configured cl) P1 ->
  accumulate_all cf amr cl P1
  = (sums <- collect cf amr cl (length P1) (initial_NBin cl)
                     (SQR (outer_radius cl)) ;;
     Ok (map2 store_sums P1 sums)).
Proof.
  intros Hne F. destruct P1 as [|p1 rest]; [contradiction|].
  apply accumulate_all_spec. inversion F; auto.
Qed.

Lemma store_sums_wf (cl : Call) (pr : Profile_t) (o : omp_t) :
  configured cl pr -> omp_wf (initial_NBin cl) o -> (0 <= initial_NBin cl)%Z ->
  prof_wf (Z.to_nat (initial_NBin cl)) (store_sums pr o) /\
  NBin (store_sums pr o) = Z.of_nat (Z.to_nat (initial_NBin cl)).
Proof.
  intros [_ [Hn [_ [_ [_ [Lr _]]]]]] [H1 [H2 H3]] H0.
  unfold prof_wf, store_sums; simpl. rewrite Hn in *.
  repeat split; auto; lia.
Qed.

Lemma normalized_wf (q : Quant) (n : Z) (L : nat) (pr pr' : Profile_t) :
  normalized q n pr pr' -> prof_wf L pr -> prof_wf L pr'.
Proof.
  intros [data [-> [Ld _]]] [H1 [H2 [H3 [H4 H5]]]].
  unfold prof_wf; simpl. repeat split; auto; lia.
Qed.

Lemma normalized_fields (q : Quant) (n : Z) (pr pr' : Profile_t) :
  normalized q n pr pr' ->
  Center pr' = Center pr /\ MaxRadius pr' = MaxRadius pr /\
  LogBin pr' = LogBin pr /\ LogBinRatio pr' = LogBinRatio pr /\
  NBin pr' = NBin pr /\ Radius pr' = Radius pr /\
  Weight pr' = Weight pr /\ NCell pr' = NCell pr.
Proof. intros [data [-> _]]; simpl; repeat split; reflexivity. Qed.

Lemma Forall2_nth_error_r {A B} (R : A -> B -> Prop) :
  forall (l : list A) (l' : list B) (p : nat) (y : B),
    Forall2 R l l' -> nth_error l' p = Some y ->
    exists x, nth_error l p = Some x /\ R x y.
Proof.
  intros l l' p y F; revert p; induction F as [|a b l l' H F IH];
    intros [|p] Hp; simpl in *; try discriminate.
  - inv_ok Hp; eauto.
  - apply IH; exact Hp.
Qed.

Lemma remove_empty_bins_ok (cl : Call) (L n : nat) (p0 : Profile_t)
    (rest : list Profile_t) :
  Forall (prof_wf L) (p0 :: rest) ->
  Forall (fun pr => NBin pr = Z.of_nat n) (p0 :: rest) ->
  exists P4,
    remove_empty_bins cl (p0 :: rest) = Ok P4 /\
    if arg_RemoveEmpty cl
    then Forall2 (compacted L 0 n (NCell p0)) (p0 :: rest) P4
    else P4 = p0 :: rest.
Proof.
  intros W Hn; unfold remove_empty_bins.
  destruct (arg_RemoveEmpty cl); [|eauto].
  assert (Hn0 : NBin p0 = Z.of_nat n) by (inversion Hn; auto).
  apply (remove_empty_loop_ok L _ 0 n); auto; try lia.
  unfold remove_empty_bins_fuel; rewrite Hn0; lia.
Qed.

Lemma remove_empty_bins_negative (cl : Call) (p0 : Profile_t)
    (rest : list Profile_t) :
  (NBin p0 < 0)%Z -> remove_empty_bins cl (p0 :: rest) = Ok (p0 :: rest).
Proof.
  intros H; unfold remove_empty_bins.
  destruct (arg_RemoveEmpty cl); [|reflexivity].
  unfold remove_empty_bins_fuel. cbn [remove_empty_loop].
  change (load (p0 :: rest) 0) with (Ok p0); cbn [bind].
  destruct (Z.ltb_spec 0 (NBin p0)); [lia | reflexivity].
Qed.

Lemma update_MaxRadius_inv (cl : Call) (P4 P5 : list Profile_t) :
  update_MaxRadius cl P4 = Ok P5 ->
  length P5 = length P4 /\
  forall p pr4, nth_error P4 p = Some pr4 ->
    exists r1 r2,
      load (Radius pr4) (NBin pr4 - 1) = Ok r1 /\
      load (Radius pr4) (NBin pr4 - 2) = Ok r2 /\
      nth_error P5 p = Some (set_MaxRadius pr4 (extrapolate cl r1 r2)).
Proof.
  intros H; apply for_each_inv in H; destruct H as [L H].
  split; [exact L|].
  intros p pr4 Hp. destruct (H p pr4 Hp) as [pr5 [Hb Hn]].
  inv_bind Hb. inv_bind Hb. inv_ok Hb. eauto.
Qed.

Lemma update_MaxRadius_total (cl : Call) (P4 : list Profile_t) :
  Forall (fun pr => (2 <= NBin pr <= Z.of_nat (length (Radius pr)))%Z) P4 ->
  exists P5, update_MaxRadius cl P4 = Ok P5.
Proof.
  intros F; rewrite Forall_forall in F.
  apply for_each_total. intros p pr Hp.
  assert (H := F pr (nth_error_In _ _ Hp)). cbv beta zeta.
  rewrite (load_ok _ _ 0) by lia; cbn [bind].
  rewrite (load_ok _ _ 0) by lia; cbn [bind]. eauto.
Qed.

Lemma stage_Return (st : list Profile_t) (c : result (list Profile_t))
    (k : list Profile_t -> outcome) (P : list Profile_t) :
  stage st c k = Return P -> exists st', c = Ok st' /\ k st' = Return P.
Proof. destruct c; simpl; intros H; [eauto | discriminate]. Qed.

Lemma Aux_Return_stages (cf : Config) (amr : AMR_t) (cl : Call)
    (Prof P5 : list Profile_t) :
  Aux_ComputeProfile cf amr cl Prof = Return P5 ->
  exists P1 P2 P3 P4,
    check_parameters cf cl = Ok tt /\
    configure cl Prof = Ok P1 /\
    accumulate_all cf amr cl P1 = Ok P2 /\
    normalize_all cl P2 = Ok P3 /\
    remove_empty_bins cl P3 = Ok P4 /\
    update_MaxRadius cl P4 = Ok P5.
Proof.
  unfold Aux_ComputeProfile; intros H.
  destruct (check_parameters cf cl) as [[]|e] eqn:Hc; [|discriminate].
  apply stage_Return in H; destruct H as [P1 [E1 H]].
  apply stage_Return in H; destruct H as [P2 [E2 H]].
  apply stage_Return in H; destruct H as [P3 [E3 H]].
  apply stage_Return in H; destruct H as [P4 [E4 H]].
  apply stage_Return in H; destruct H as [P5' [E5 H]].
  inversion H; subst.
  exists P1, P2, P3, P4; repeat split; assumption.
Qed.

Lemma nth_error_lt {A} (l : list A) (p : nat) :
  (p < length l)%nat -> exists x, nth_error l p = Some x.
Proof.
  intros H; destruct (nth_error l p) as [x|] eqn:E; [eauto|].
  apply nth_error_None in E; lia.
Qed.

Lemma nth_error_length {A} (l : list A) (p : nat) (x : A) :
  nth_error l p = Some x -> (p < length l)%nat.
Proof. intros H; apply nth_error_Some; congruence. Qed.

Lemma for_Z_empty {S} (lo hi : Z) (body : Z -> S -> result S) (s : S) :
  (hi <= lo)%Z -> for_Z lo hi body s = Ok s.
Proof.
  intros H; unfold for_Z. replace (Z.to_nat (hi - lo)) with 0%nat by lia.
  reflexivity.
Qed.

(** Everything a call that returns went through, profile by profile. *)
Lemma Aux_Return_profiles (cf : Config) (amr : AMR_t) (cl : Call)
    (Prof P5 : list Profile_t) :
  Aux_ComputeProfile cf amr cl Prof = Return P5 ->
  exists sums o0,
    (0 <= initial_NBin cl)%Z /\
    collect cf amr cl (length Prof) (initial_NBin cl) (SQR (outer_radius cl))
    = Ok sums /\
    nth_error sums 0 = Some o0 /\
    length P5 = length Prof /\
    forall p pr5, nth_error P5 p = Some pr5 ->
      exists pr1 o pr3 pr4 r1 r2,
        nth_error sums p = Some o /\ configured cl pr1 /\
        omp_wf (initial_NBin cl) o /\
        normalized (arg_TVar cl p) (initial_NBin cl) (store_sums pr1 o) pr3 /\
        (if arg_RemoveEmpty cl
         then compacted (Z.to_nat (initial_NBin cl)) 0
                        (Z.to_nat (initial_NBin cl)) (OMP_NCell o0) pr3 pr4
         else pr4 = pr3) /\
        load (Radius pr4) (NBin pr4 - 1) = Ok r1 /\
        load (Radius pr4) (NBin pr4 - 2) = Ok r2 /\
        pr5 = set_MaxRadius pr4 (extrapolate cl r1 r2).
Proof.
  intros H.
  destruct (Aux_Return_stages _ _ _ _ _ H)
    as [P1 [P2 [P3 [P4 [Hc [E1 [E2 [E3 [E4 E5]]]]]]]]].
  destruct (configure_inv cl Prof P1 E1) as [L1 F1].
  destruct P1 as [|p1 rest1]; [discriminate E2|].
  assert (C1 : configured cl p1) by (inversion F1; auto).
  rewrite accumulate_all_spec in E2 by auto.
  inv_bind E2. rename x into sums. inv_ok E2.
  assert (Ws := collect_wf _ _ _ _ _ _ _ E).
  destruct sums as [|o0 sums']; [destruct Ws as [Ls _]; discriminate Ls|].
  set (n0 := initial_NBin cl) in *.
  set (P1 := p1 :: rest1) in *. set (sums := o0 :: sums') in *.
  assert (F2 : forall p pr2, nth_error (map2 store_sums P1 sums) p = Some pr2 ->
                 exists pr1 o, nth_error sums p = Some o /\ configured cl pr1 /\
                               omp_wf n0 o /\ pr2 = store_sums pr1 o).
  { intros p pr2 Hp. apply nth_error_map2 in Hp.
    destruct Hp as [pr1 [o [Hp1 [Ho ->]]]].
    exists pr1, o. split; [exact Ho|]. split; [|split; [|reflexivity]].
    - rewrite Forall_forall in F1. apply F1. eapply nth_error_In; eauto.
    - eapply omp_all_wf_nth; eauto. }
  assert (L2 : length (map2 store_sums P1 sums) = length Prof).
  { rewrite map2_length; [exact L1|]. destruct Ws as [-> _]. reflexivity. }
  change (normalize cl (NBin (store_sums p1 o0)) (map2 store_sums P1 sums)
          = Ok P3) in E3.
  assert (Hn1 : NBin (store_sums p1 o0) = n0) by (simpl; apply C1).
  rewrite Hn1 in E3.
  destruct (Z.lt_ge_cases n0 0) as [Hneg|Hpos].
  - (* a negative number of bins: the last stage fails *)
    exfalso.
    apply for_each_inv in E3. destruct E3 as [L3 E3].
    destruct (E3 0%nat (store_sums p1 o0) eq_refl) as [p3 [Hb H3]].
    rewrite for_Z_empty in Hb by lia. inv_ok Hb.
    destruct P3 as [|p3 rest3]; [discriminate H3|].
    simpl in H3; inv_ok H3.
    rewrite remove_empty_bins_negative in E4 by (rewrite Hn1; exact Hneg).
    inv_ok E4.
    apply update_MaxRadius_inv in E5. destruct E5 as [_ E5].
    destruct (E5 0%nat (store_sums p1 o0) eq_refl) as [r1 [r2 [Hl _]]].
    apply (load_inv _ _ _ 0) in Hl. rewrite Hn1 in Hl. lia.
  - exists sums, o0.
    split; [exact Hpos|]. split; [rewrite <- L1; exact E|].
    split; [reflexivity|].
    set (L := Z.to_nat n0).
    assert (W2 : Forall (prof_wf L) (map2 store_sums P1 sums)).
    { apply Forall_forall; intros pr2 Hpr2.
      apply In_nth_error in Hpr2; destruct Hpr2 as [p Hp].
      destruct (F2 p pr2 Hp) as [pr1 [o [_ [Cp [Wo ->]]]]].
      apply store_sums_wf; auto. }
    assert (N2 : Forall (fun pr => NBin pr = Z.of_nat L) (map2 store_sums P1 sums)).
    { apply Forall_forall; intros pr2 Hpr2.
      apply In_nth_error in Hpr2; destruct Hpr2 as [p Hp].
      destruct (F2 p pr2 Hp) as [pr1 [o [_ [Cp [Wo ->]]]]].
      apply store_sums_wf; auto. }
    destruct (normalize_ok cl L n0 _ W2) as [P3' [E3' [L3 H3]]]; [unfold L; lia|].
    rewrite E3 in E3'; injection E3' as E3'; subst P3'.
    assert (W3 : Forall (prof_wf L) P3).
    { apply Forall_forall; intros pr3 Hpr3.
      apply In_nth_error in Hpr3; destruct Hpr3 as [p Hp].
      destruct (nth_error_lt (map2 store_sums P1 sums) p) as [pr2 Hp2];
        [rewrite <- L3; eapply nth_error_length; eauto|].
      destruct (H3 p pr2 Hp2) as [pr3' [Hp3 Hnorm]].
      rewrite Hp in Hp3; inv_ok Hp3.
      eapply normalized_wf; eauto.
      rewrite Forall_forall in W2; apply W2; eapply nth_error_In; eauto. }
    assert (N3 : Forall (fun pr => NBin pr = Z.of_nat L) P3).
    { apply Forall_forall; intros pr3 Hpr3.
      apply In_nth_error in Hpr3; destruct Hpr3 as [p Hp].
      destruct (nth_error_lt (map2 store_sums P1 sums) p) as [pr2 Hp2];
        [rewrite <- L3; eapply nth_error_length; eauto|].
      destruct (H3 p pr2 Hp2) as [pr3' [Hp3 Hnorm]].
      rewrite Hp in Hp3; inv_ok Hp3.
      apply normalized_fields in Hnorm. destruct Hnorm as [_ [_ [_ [_ [-> _]]]]].
      rewrite Forall_forall in N2; apply N2; eapply nth_error_In; eauto. }
    destruct (H3 0%nat (store_sums p1 o0) eq_refl) as [p3 [Hp3 Hnorm3]].
    destruct P3 as [|p3' rest3]; [discriminate Hp3|].
    simpl in Hp3; inv_ok Hp3.
    assert (Hmask : NCell p3 = OMP_NCell o0).
    { apply normalized_fields in Hnorm3. destruct Hnorm3 as [_ [_ [_ [_ [_ [_ [_ ->]]]]]]].
      reflexivity. }
    destruct (remove_empty_bins_ok cl L L p3 rest3 W3 N3) as [P4' [E4' R4]].
    rewrite E4 in E4'; injection E4' as E4'; subst P4'.
    rewrite Hmask in R4.
    destruct (update_MaxRadius_inv cl _ _ E5) as [L5 H5].
    assert (L4 : length P4 = length (p3 :: rest3)).
    { destruct (arg_RemoveEmpty cl); [|subst; reflexivity].
      symmetry; eapply Forall2_length; eauto. }
    split; [rewrite L5, L4, L3; exact L2|].
    intros p pr5 Hp5.
    destruct (nth_error_lt P4 p) as [pr4 Hp4];
      [rewrite <- L5; eapply nth_error_length; eauto|].
    destruct (H5 p pr4 Hp4) as [r1 [r2 [Hr1 [Hr2 Hp5']]]].
    rewrite Hp5 in Hp5'; inv_ok Hp5'.
    destruct (nth_error_lt (map2 store_sums P1 sums) p) as [pr2 Hp2];
      [rewrite <- L3, <- L4; eapply nth_error_length; eauto|].
    destruct (F2 p pr2 Hp2) as [pr1 [o [Ho [Cp [Wo ->]]]]].
    destruct (H3 p _ Hp2) as [pr3 [Hp3 Hnorm]].
    exists pr1, o, pr3, pr4, r1, r2.
    split; [exact Ho|]. split; [exact Cp|]. split; [exact Wo|].
    split; [exact Hnorm|]. split; [|split; [exact Hr1|split; [exact Hr2|reflexivity]]].
    destruct (arg_RemoveEmpty cl).
    + destruct (Forall2_nth_error_r _ _ _ _ _ R4 Hp4) as [pr3' [Hp3' Hc4]].
      rewrite Hp3 in Hp3'; inv_ok Hp3'. exact Hc4.
    + subst P4. rewrite Hp3 in Hp4; inv_ok Hp4. reflexivity.
Qed.

(* ------------------------------------------------------------------ *)
(** ** Calls that return *)

Lemma check_parameters_valid (cf : Config) (cl : Call) :
  valid_configuration cl -> check_parameters cf cl = Ok tt.
Proof.
  intros [Hr [Hd Hq]]; unfold check_parameters.
  destruct (GAMER_DEBUG cf); [|reflexivity].
  destruct (Rle_dec (arg_r_max_input cl) 0); [lra|].
  destruct (Rle_dec (arg_dr_min cl) 0); [lra|].
  destruct (arg_LogBin cl); [|reflexivity].
  specialize (Hq eq_refl).
  destruct (Rle_dec (arg_LogBinRatio cl) 1); [lra | reflexivity].
Qed.

(** With the empty bins kept, at least two bins, supported quantities and no
    counted cell of negative bin, the call returns. *)
Lemma Aux_returns (cf : Config) (amr : AMR_t) (cl : Call)
    (Prof : list Profile_t) :
  check_parameters cf cl = Ok tt ->
  Prof <> [] ->
  (2 <= initial_NBin cl)%Z ->
  arg_RemoveEmpty cl = false ->
  (forall lv pt k j i,
      visited cf amr cl lv pt k j i ->
      let r2 := cell_r2 amr cl (dh amr lv) pt k j i in
      counted cl (initial_NBin cl) (SQR (outer_radius cl)) r2 = 1%Z ->
      (0 <= cell_bin cl (sqrt r2))%Z) ->
  (forall p, (p < length Prof)%nat -> supported (arg_TVar cl p)) ->
  exists P5, Aux_ComputeProfile cf amr cl Prof = Return P5.
Proof.
  intros Hc Hne Hn Hre Hbin Hq; unfold Aux_ComputeProfile; rewrite Hc.
  destruct (configure_ok cl Prof) as [P1 [E1 [L1 F1]]].
  rewrite E1; cbn [stage].
  destruct P1 as [|p1 rest1]; [destruct Prof; [contradiction | discriminate L1]|].
  assert (C1 : configured cl p1) by (inversion F1; auto).
  rewrite accumulate_all_spec by auto.
  destruct (collect_total cf amr cl (length (p1 :: rest1)) (initial_NBin cl)
                          (SQR (outer_radius cl))) as [sums E2]; auto.
  { rewrite L1; exact Hq. }
  rewrite E2; cbn [bind stage].
  assert (Ws := collect_wf _ _ _ _ _ _ _ E2).
  destruct sums as [|o0 sums']; [destruct Ws as [Ls _]; discriminate Ls|].
  set (P1 := p1 :: rest1) in *. set (sums := o0 :: sums') in *.
  set (n0 := initial_NBin cl) in *. set (L := Z.to_nat n0).
  assert (F2 : forall pr2, In pr2 (map2 store_sums P1 sums) ->
                 prof_wf L pr2 /\ NBin pr2 = Z.of_nat L).
  { intros pr2 Hpr2.
    apply In_nth_error in Hpr2; destruct Hpr2 as [p Hp].
    apply nth_error_map2 in Hp. destruct Hp as [pr1 [o [Hp1 [Ho ->]]]].
    apply store_sums_wf; [| |lia].
    - rewrite Forall_forall in F1. apply F1. eapply nth_error_In; eauto.
    - eapply omp_all_wf_nth; eauto. }
  change (normalize_all cl (map2 store_sums P1 sums))
    with (normalize cl (NBin (store_sums p1 o0)) (map2 store_sums P1 sums)).
  assert (Hn1 : NBin (store_sums p1 o0) = n0) by (simpl; apply C1).
  rewrite Hn1.
  destruct (normalize_ok cl L n0 (map2 store_sums P1 sums)) as [P3 [E3 [L3 H3]]].
  { apply Forall_forall; intros pr2 Hpr2; apply F2; exact Hpr2. }
  { unfold L; lia. }
  rewrite E3; cbn [stage].
  unfold remove_empty_bins; rewrite Hre; cbn [stage].
  destruct (update_MaxRadius_total cl P3) as [P5 E5].
  { apply Forall_forall; intros pr3 Hpr3.
    apply In_nth_error in Hpr3; destruct Hpr3 as [p Hp].
    destruct (nth_error_lt (map2 store_sums P1 sums) p) as [pr2 Hp2];
      [rewrite <- L3; eapply nth_error_length; eauto|].
    destruct (H3 p pr2 Hp2) as [pr3' [Hp3 Hnorm]].
    rewrite Hp in Hp3; inv_ok Hp3.
    destruct (F2 pr2 (nth_error_In _ _ Hp2)) as [[Lr _] N2].
    apply normalized_fields in Hnorm.
    destruct Hnorm as [_ [_ [_ [_ [-> [-> _]]]]]].
    rewrite N2, Lr. unfold L; lia. }
  rewrite E5; cbn [stage]. eauto.
Qed.

Lemma Aux_returns_valid (cf : Config) (amr : AMR_t) (cl : Call)
    (Prof : list Profile_t) :
  valid_configuration cl ->
  Prof <> [] ->
  (2 <= initial_NBin cl)%Z ->
  arg_RemoveEmpty cl = false ->
  (forall p, (p < length Prof)%nat -> supported (arg_TVar cl p)) ->
  exists P5, Aux_ComputeProfile cf amr cl Prof = Return P5.
Proof.
  intros V Hne Hn Hre Hq.
  apply Aux_returns; auto.
  - apply check_parameters_valid; exact V.
  - intros lv pt k j i _ r2 _. destruct V as [_ [Hd Hr]].
    apply cell_bin_nonneg; auto. apply sqrt_pos.
Qed.

(* ------------------------------------------------------------------ *)
(** ** Parameter checks *)

(** The amended C5. In a build with the debug checks ([GAMER_DEBUG]), a call
    with [r_max <= 0], or [dr_min <= 0], or logarithmic bins and
    [ratio <= 1], aborts with the invalid-parameter error and leaves the
    profile objects as they were passed: nothing was set or allocated. *)
Theorem invalid_parameters_abort (cf : Config) (amr : AMR_t) (cl : Call)
    (Prof : list Profile_t) :
  GAMER_DEBUG cf = true ->
  invalid_parameters cl ->
  Aux_ComputeProfile cf amr cl Prof = Fatal InvalidParameter Prof.
Proof.
  intros Hdbg Hinv; unfold Aux_ComputeProfile, check_parameters.
  rewrite Hdbg.
  destruct (Rle_dec (arg_r_max_input cl) 0); [reflexivity|].
  destruct (Rle_dec (arg_dr_min cl) 0); [reflexivity|].
  destruct Hinv as [H | [H | [H1 H2]]]; try contradiction.
  rewrite H1; simpl.
  destruct (Rle_dec (arg_LogBinRatio cl) 1); [reflexivity | contradiction].
Qed.

Lemma invalid_parameters_abort_witness :
  GAMER_DEBUG debug_build = true /\
  invalid_parameters negative_call /\
  Aux_ComputeProfile debug_build single_patch_amr negative_call [fresh_profile]
  = Fatal InvalidParameter [fresh_profile].
Proof.
  assert (Hinv : invalid_parameters negative_call)
    by (left; cbv [negative_call arg_r_max_input]; lra).
  split; [reflexivity|]. split; [exact Hinv|].
  exact (invalid_parameters_abort debug_build single_patch_amr negative_call
                                  [fresh_profile] eq_refl Hinv).
Defined.

Lemma ceilZ_IZR (z : Z) : ceilZ (IZR z) = z.
Proof.
  unfold ceilZ. rewrite <- opp_IZR.
  change (- floorZ (IZR (- z)) = z)%Z. rewrite floorZ_IZR; lia.
Qed.

Lemma negative_call_NBin : initial_NBin negative_call = 4%Z.
Proof.
  unfold initial_NBin; simpl.
  replace (-4 / -1) with (IZR 4) by (simpl; field).
  rewrite c_int_ceil. apply ceilZ_IZR.
Qed.

Lemma single_patch_amr_patch (lv : Z) (pt : patch_t) :
  patch_at single_patch_amr lv pt -> pt = uniform_patch.
Proof.
  intros [sh [Hsh Hpt]]. simpl in Hsh.
  destruct Hsh as [<- | []].
  cbv beta in Hpt.
  destruct (lv =? 0)%Z; simpl in Hpt;
    [destruct Hpt as [<- | []]; reflexivity | contradiction].
Qed.

(** C5 as stated fails: without the debug checks the parameters are not looked
    at. The call with [r_max = -4] and [dr_min = -1] on a grid with no cell
    in range returns. *)
Lemma invalid_parameters_counterexample :
  GAMER_DEBUG serial_build = false /\
  invalid_parameters negative_call /\
  exists P5,
    Aux_ComputeProfile serial_build single_patch_amr negative_call
                       [fresh_profile] = Return P5.
Proof.
  split; [reflexivity|].
  split; [left; cbv [negative_call arg_r_max_input]; lra|].
  apply Aux_returns.
  - reflexivity.
  - discriminate.
  - rewrite negative_call_NBin; lia.
  - reflexivity.
  - intros lv pt k j i V r2 Hc. exfalso.
    destruct V as [_ [Hpt [_ [Hk [Hj Hi]]]]].
    apply single_patch_amr_patch in Hpt; subst pt.
    unfold counted in Hc.
    destruct (Rlt_dec r2 (SQR (outer_radius negative_call))) as [Hr|Hr];
      [|discriminate Hc].
    unfold outer_radius in Hr. rewrite negative_call_NBin in Hr.
    unfold r2, cell_r2, offset, wrap, Periodic, initial_MaxRadius, SQR in Hr.
    cbn [negative_call single_patch_amr uniform_patch arg_LogBin arg_dr_min
         arg_Center OPT__BC_FLU is_periodic EdgeL dh axis] in Hr.
    cbn [PS1 serial_build] in Hk, Hj, Hi.
    assert (Bk : 0 <= IZR k <= 8) by (split; apply IZR_le; lia).
    assert (Bj : 0 <= IZR j <= 8) by (split; apply IZR_le; lia).
    assert (Bi : 0 <= IZR i <= 8) by (split; apply IZR_le; lia).
    nra.
  - intros p _; exact I.
Qed.

(* ------------------------------------------------------------------ *)
(** ** Empty bins hold zeros *)

Lemma nth_repeat_default {A} (d : A) (n i : nat) : nth i (repeat d n) d = d.
Proof.
  revert i; induction n as [|n IH]; intros [|i]; simpl; auto.
Qed.

Lemma nth_map2_default {A} (f : A -> A -> A) (d : A) (l m : list A) (i : nat) :
  length l = length m -> f d d = d ->
  nth i (map2 f l m) d = f (nth i l d) (nth i m d).
Proof.
  intros L Hd.
  destruct (Nat.lt_ge_cases i (length l)) as [Hi|Hi].
  - apply nth_map2; lia.
  - rewrite !nth_overflow; auto; try lia.
    rewrite map2_length; auto.
Qed.

Lemma zero_omp_empty_bins_zero (n : Z) : empty_bins_zero (zero_omp n).
Proof.
  intros i; unfold zero_omp; simpl.
  rewrite !nth_repeat_default. split; [lia | auto].
Qed.

Lemma add_cell_empty_bins_zero (n bin : Z) (c w : R) (o : omp_t) :
  omp_wf n o -> (0 <= bin < n)%Z ->
  empty_bins_zero o -> empty_bins_zero (add_cell bin c w o).
Proof.
  intros [W1 [W2 W3]] Hb H i; unfold add_cell; simpl.
  destruct (H i) as [H0 Hz].
  destruct (Nat.eq_dec (Z.to_nat bin) i) as [<-|Hne].
  - rewrite nth_upd_eq by lia. unfold cells. split; [lia|]. intros; lia.
  - rewrite !nth_upd_neq by auto. split; auto.
Qed.

Lemma omp_add_empty_bins_zero (n : Z) (a b : omp_t) :
  omp_wf n a -> omp_wf n b ->
  empty_bins_zero a -> empty_bins_zero b -> empty_bins_zero (omp_add a b).
Proof.
  intros [A1 [A2 A3]] [B1 [B2 B3]] Ha Hb i; unfold omp_add; simpl.
  rewrite !nth_map2_default; try congruence; try lra; try lia.
  destruct (Ha i) as [Ha0 Haz], (Hb i) as [Hb0 Hbz].
  split; [lia|]. intros Hz.
  destruct Haz as [-> ->]; [lia|]. destruct Hbz as [-> ->]; [lia|].
  split; lra.
Qed.

Lemma sums_empty_bins_zero (cf : Config) (amr : AMR_t) (cl : Call)
    (NProf : nat) (NBin0 : Z) (r_max2 : R) (sums : list omp_t) :
  collect cf amr cl NProf NBin0 r_max2 = Ok sums ->
  forall p o, nth_error sums p = Some o -> empty_bins_zero o.
Proof.
  intros H.
  apply (collect_per_profile cf amr cl NProf NBin0 r_max2
           (fun _ _ o => empty_bins_zero o)); auto.
  - intros p _; apply zero_omp_empty_bins_zero.
  - intros lv pt k j i p n o c w _ _ W J h r _ Hb _.
    apply (add_cell_empty_bins_zero NBin0); auto.
  - intros p n m a b Wa Wb Ja Jb.
    apply (omp_add_empty_bins_zero NBin0); auto.
Qed.

Lemma reduced_inv (cf : Config) (amr : AMR_t) (cl : Call)
    (Prof P2 : list Profile_t) :
  reduced cf amr cl Prof = Ok P2 ->
  exists sums,
    collect cf amr cl (length Prof) (initial_NBin cl) (SQR (outer_radius cl))
    = Ok sums /\
    length P2 = length Prof /\
    normalize_all cl P2 = normalize cl (initial_NBin cl) P2 /\
    forall p pr2, nth_error P2 p = Some pr2 ->
      exists pr1 o, nth_error sums p = Some o /\ configured cl pr1 /\
                    omp_wf (initial_NBin cl) o /\ pr2 = store_sums pr1 o.
Proof.
  unfold reduced; intros H. inv_bind H. rename x into P1.
  destruct (configure_inv cl Prof P1 E) as [L1 F1].
  assert (Hne : P1 <> []) by (intros ->; discriminate H).
  rewrite accumulate_all_spec_list in H by auto.
  destruct (collect cf amr cl (length P1) (initial_NBin cl)
                    (SQR (outer_radius cl))) as [sums|e] eqn:E0;
    [|discriminate H].
  cbn [bind] in H. injection H as H. rewrite <- H. clear H P2.
  assert (Ws := collect_wf _ _ _ _ _ _ _ E0).
  exists sums.
  split; [rewrite <- L1; exact E0|].
  split; [rewrite map2_length; [exact L1 | destruct Ws as [-> _]; reflexivity]|].
  split.
  - destruct P1 as [|p1 rest1]; [contradiction|].
    assert (C1 : configured cl p1) by (inversion F1; auto).
    destruct sums as [|o0 sums']; [destruct Ws as [Ls _]; discriminate Ls|].
    change (normalize_all cl (map2 store_sums (p1 :: rest1) (o0 :: sums')))
      with (normalize cl (NBin (store_sums p1 o0))
                      (map2 store_sums (p1 :: rest1) (o0 :: sums'))).
    f_equal. simpl; apply C1.
  - intros p pr2 Hp. apply nth_error_map2 in Hp.
    destruct Hp as [pr1 [o [Hp1 [Ho ->]]]].
    exists pr1, o. split; [exact Ho|]. split; [|split; [|reflexivity]].
    + rewrite Forall_forall in F1. apply F1. eapply nth_error_In; eauto.
    + eapply omp_all_wf_nth; eauto.
Qed.

Lemma normalize_empty (cl : Call) (n : Z) (P : list Profile_t) :
  (n <= 0)%Z -> normalize cl n P = Ok P.
Proof.
  intros H; unfold normalize.
  generalize 0%nat. induction P as [|pr P IH]; intros p0; simpl; auto.
  rewrite for_Z_empty by lia. cbn [bind]. rewrite IH. reflexivity.
Qed.

(** C2. On the sums of a call, normalisation returns; it leaves the weights
    and the cell counts alone; in a bin with cells, the data of a plain
    volume-weighted quantity are divided by the weight unconditionally, those
    of the radial velocity are divided by the weight if the weight is
    positive and otherwise stay the accumulated sum; a bin without cells has
    zero data and zero weight before and after, and is never divided. *)
Theorem normalization (cf : Config) (amr : AMR_t) (cl : Call)
    (Prof P2 : list Profile_t) :
  reduced cf amr cl Prof = Ok P2 ->
  exists P3,
    normalize_all cl P2 = Ok P3 /\ length P3 = length P2 /\
    forall p pr2 pr3,
      nth_error P2 p = Some pr2 -> nth_error P3 p = Some pr3 ->
      Weight pr3 = Weight pr2 /\ NCell pr3 = NCell pr2 /\
      forall b, (0 <= b < NBin pr2)%Z ->
        let n := cells (NCell pr2) b in
        let d := entry (Data pr2) b in
        let w := entry (Weight pr2) b in
        (0 <= n)%Z /\
        ((0 < n)%Z ->
         (volume_weighted (arg_TVar cl p) -> entry (Data pr3) b = d / w) /\
         (arg_TVar cl p = VRAD -> 0 < w -> entry (Data pr3) b = d / w) /\
         (arg_TVar cl p = VRAD -> ~ 0 < w -> entry (Data pr3) b = d)) /\
        (n = 0%Z -> d = 0 /\ w = 0 /\ entry (Data pr3) b = d).
Proof.
  intros H.
  destruct (reduced_inv _ _ _ _ _ H) as [sums [Ec [L2 [En F2]]]].
  rewrite En.
  destruct (Z.lt_ge_cases (initial_NBin cl) 0) as [Hneg|Hpos].
  - exists P2. split; [apply normalize_empty; lia|]. split; [reflexivity|].
    intros p pr2 pr3 Hp2 Hp3. rewrite Hp2 in Hp3; injection Hp3 as Hp3.
    subst pr3.
    split; [reflexivity|]. split; [reflexivity|].
    intros b Hb. destruct (F2 p pr2 Hp2) as [pr1 [o [_ [C [_ ->]]]]].
    simpl in Hb. destruct C as [_ [Hn _]]. lia.
  - set (L := Z.to_nat (initial_NBin cl)).
    assert (W2 : Forall (prof_wf L) P2).
    { apply Forall_forall; intros pr2 Hpr2.
      apply In_nth_error in Hpr2; destruct Hpr2 as [p Hp].
      destruct (F2 p pr2 Hp) as [pr1 [o [_ [Cp [Wo ->]]]]].
      apply store_sums_wf; auto. }
    destruct (normalize_ok cl L (initial_NBin cl) P2 W2) as [P3 [E3 [L3 H3]]];
      [unfold L; lia|].
    exists P3. split; [exact E3|]. split; [exact L3|].
    intros p pr2 pr3 Hp2 Hp3.
    destruct (H3 p pr2 Hp2) as [pr3' [Hp3' Hnorm]].
    rewrite Hp3 in Hp3'; injection Hp3' as Hp3'; subst pr3'.
    assert (Hf := normalized_fields _ _ _ _ Hnorm).
    destruct Hf as [_ [_ [_ [_ [_ [_ [Hw Hc]]]]]]].
    split; [exact Hw|]. split; [exact Hc|].
    intros b Hb n d w.
    destruct (F2 p pr2 Hp2) as [pr1 [o [Ho [Cp [Wo Hpr2]]]]].
    assert (Hnb : NBin pr2 = initial_NBin cl)
      by (rewrite Hpr2; simpl; apply Cp).
    destruct Hnorm as [data [Hpr3 [Ld Hx]]].
    assert (Hd3 : entry (Data pr3) b = normalized_value (arg_TVar cl p) n d w).
    { rewrite Hpr3; simpl. apply Hx. lia. }
    assert (Z0 := sums_empty_bins_zero _ _ _ _ _ _ _ Ec p o Ho (Z.to_nat b)).
    assert (Hn : n = nth (Z.to_nat b) (OMP_NCell o) 0%Z)
      by (unfold n, cells; rewrite Hpr2; reflexivity).
    assert (Hdd : d = nth (Z.to_nat b) (OMP_Data o) 0)
      by (unfold d, entry; rewrite Hpr2; reflexivity).
    assert (Hww : w = nth (Z.to_nat b) (OMP_Weight o) 0)
      by (unfold w, entry; rewrite Hpr2; reflexivity).
    rewrite <- Hn, <- Hdd, <- Hww in Z0. destruct Z0 as [Z0 Zz].
    split; [exact Z0|]. split.
    + intros Hpos'. unfold normalized_value in Hd3.
      destruct (Z.gtb_spec n 0) as [_|]; [|lia].
      split; [|split].
      * intros Hv. rewrite Hd3. destruct (arg_TVar cl p); simpl in Hv;
          try reflexivity; contradiction.
      * intros Hq Hw0. rewrite Hd3, Hq.
        destruct (Rlt_dec 0 w); [reflexivity | contradiction].
      * intros Hq Hw0. rewrite Hd3, Hq.
        destruct (Rlt_dec 0 w); [contradiction | reflexivity].
    + intros Hz0. destruct (Zz Hz0) as [Hd0 Hw0].
      split; [exact Hd0|]. split; [exact Hw0|].
      rewrite Hd3. unfold normalized_value.
      destruct (Z.gtb_spec n 0); [lia | reflexivity].
Qed.

(* ------------------------------------------------------------------ *)
(** ** Every profile counts the same cells *)

Lemma sums_same_NCell (cf : Config) (amr : AMR_t) (cl : Call)
    (NProf : nat) (NBin0 : Z) (r_max2 : R) (sums : list omp_t) :
  collect cf amr cl NProf NBin0 r_max2 = Ok sums ->
  forall p q o o', nth_error sums p = Some o -> nth_error sums q = Some o' ->
                   OMP_NCell o = OMP_NCell o'.
Proof.
  intros H.
  assert (P : post
                (fun omp => omp_all_wf NProf NBin0 omp /\
                   forall p q o o', nth_error omp p = Some o ->
                                    nth_error omp q = Some o' ->
                                    OMP_NCell o = OMP_NCell o')
                (fun _ => True)
                (collect cf amr cl NProf NBin0 r_max2));
    [|rewrite H in P; apply P].
  apply (collect_post cf amr cl NProf NBin0 r_max2
           (fun _ omp => omp_all_wf NProf NBin0 omp /\
              forall p q o o', nth_error omp p = Some o ->
                               nth_error omp q = Some o' ->
                               OMP_NCell o = OMP_NCell o')
           (fun _ => True) (fun _ _ _ _ _ => 0%Z)).
  - split; [apply zeros_wf|].
    intros p q o o' Ho Ho'.
    apply nth_error_zeros in Ho, Ho'. destruct Ho as [-> _], Ho' as [-> _].
    reflexivity.
  - intros lv pt k j i n omp V [W Hs].
    destruct (accumulate_cell _ _ _ _ _ _ _ _ _ _ _ _ _) as [omp'|e] eqn:Hc;
      simpl; auto.
    apply accumulate_cell_inv in Hc.
    destruct Hc as [[_ ->] | [_ [_ [_ Ha]]]]; [split; auto|].
    split; [eapply cell_added_wf; eauto|].
    intros p q o1 o2 Ho1 Ho2.
    destruct Ha as [L Ha].
    destruct (nth_error_lt omp p) as [a Hpa];
      [rewrite <- L; eapply nth_error_length; eauto|].
    destruct (nth_error_lt omp q) as [b Hqb];
      [rewrite <- L; eapply nth_error_length; eauto|].
    destruct (Ha p a Hpa) as [_ [c1 [w1 [_ H1]]]].
    destruct (Ha q b Hqb) as [_ [c2 [w2 [_ H2]]]].
    rewrite H1 in Ho1; rewrite H2 in Ho2. inv_ok Ho1. inv_ok Ho2.
    unfold add_cell; simpl. rewrite (Hs p q a b Hpa Hqb). reflexivity.
  - intros n m a b [Wa Ha] [Wb Hb]. split; [apply sums_add_wf; auto|].
    intros p q o o' Ho Ho'.
    apply nth_error_map2 in Ho, Ho'.
    destruct Ho as [x [y [Hx [Hy ->]]]], Ho' as [x' [y' [Hx' [Hy' ->]]]].
    unfold omp_add; simpl.
    rewrite (Ha p q x x' Hx Hx'), (Hb p q y y' Hy Hy'). reflexivity.
Qed.

Lemma compact_from_0 {A} (n : nat) (mask : list Z) (a : list A) :
  length mask = n -> length a = n ->
  compact_from 0 n mask a = keep_nonempty mask a.
Proof.
  intros Lm La; unfold compact_from; simpl.
  rewrite !firstn_all2 by lia. reflexivity.
Qed.

Lemma keep_nonempty_length {A} (mask : list Z) :
  forall a : list A, length a = length mask ->
                     length (keep_nonempty mask a) = length (keep_nonempty mask mask).
Proof.
  induction mask as [|m mask IH]; intros [|x a] H; simpl in *; try lia.
  destruct (m =? 0)%Z; simpl; auto.
Qed.

(** The bins a call that returns leaves, profile by profile: [mask] is the
    array of cell counts all profiles share before the removal. *)
Lemma Aux_Return_visible (cf : Config) (amr : AMR_t) (cl : Call)
    (Prof P5 : list Profile_t) :
  Aux_ComputeProfile cf amr cl Prof = Return P5 ->
  exists sums mask,
    (0 <= initial_NBin cl)%Z /\
    collect cf amr cl (length Prof) (initial_NBin cl) (SQR (outer_radius cl))
    = Ok sums /\
    length mask = Z.to_nat (initial_NBin cl) /\
    length P5 = length Prof /\
    forall p pr5, nth_error P5 p = Some pr5 ->
      exists pr1 o pr3,
        nth_error sums p = Some o /\ configured cl pr1 /\
        omp_wf (initial_NBin cl) o /\ OMP_NCell o = mask /\
        normalized (arg_TVar cl p) (initial_NBin cl) (store_sums pr1 o) pr3 /\
        Center pr5 = Center pr1 /\ LogBin pr5 = LogBin pr1 /\
        LogBinRatio pr5 = LogBinRatio pr1 /\
        NBin pr5
        = Z.of_nat (length (final_bins (arg_RemoveEmpty cl) mask mask)) /\
        Radius (visible pr5)
        = final_bins (arg_RemoveEmpty cl) mask (Radius pr1) /\
        Data (visible pr5) = final_bins (arg_RemoveEmpty cl) mask (Data pr3) /\
        Weight (visible pr5)
        = final_bins (arg_RemoveEmpty cl) mask (OMP_Weight o) /\
        NCell (visible pr5) = final_bins (arg_RemoveEmpty cl) mask mask /\
        (2 <= NBin pr5)%Z /\
        MaxRadius pr5
        = extrapolate cl (entry (Radius (visible pr5)) (NBin pr5 - 1))
                         (entry (Radius (visible pr5)) (NBin pr5 - 2)).
Proof.
  intros H.
  destruct (Aux_Return_profiles _ _ _ _ _ H)
    as [sums [o0 [Hpos [Ec [Ho0 [L5 Hp]]]]]].
  assert (Ws := collect_wf _ _ _ _ _ _ _ Ec).
  assert (W0 : omp_wf (initial_NBin cl) o0) by (eapply omp_all_wf_nth; eauto).
  exists sums, (OMP_NCell o0).
  split; [exact Hpos|]. split; [exact Ec|]. split; [apply W0|].
  split; [exact L5|].
  intros p pr5 Hp5.
  destruct (Hp p pr5 Hp5)
    as [pr1 [o [pr3 [pr4 [r1 [r2 [Ho [C1 [Wo [Hn [Hrm [Hr1 [Hr2 ->]]]]]]]]]]]]].
  exists pr1, o, pr3.
  assert (Hmask : OMP_NCell o = OMP_NCell o0)
    by (eapply sums_same_NCell; eauto).
  assert (Hf := normalized_fields _ _ _ _ Hn).
  destruct Hf as [F1 [F2 [F3 [F4 [F5 [F6 [F7 F8]]]]]]]. simpl in *.
  set (L := Z.to_nat (initial_NBin cl)) in *.
  destruct (store_sums_wf cl pr1 o C1 Wo Hpos) as [W2 N2].
  assert (W3 : prof_wf L pr3) by (eapply normalized_wf; eauto).
  destruct W3 as [A1 [A2 [A3 [A4 A5]]]].
  assert (N3 : NBin pr3 = Z.of_nat L) by (rewrite F5; exact N2).
  assert (Lm : length (OMP_NCell o0) = L) by apply W0.
  assert (Vis : Radius (visible pr4)
                = final_bins (arg_RemoveEmpty cl) (OMP_NCell o0) (Radius pr1) /\
                Data (visible pr4)
                = final_bins (arg_RemoveEmpty cl) (OMP_NCell o0) (Data pr3) /\
                Weight (visible pr4)
                = final_bins (arg_RemoveEmpty cl) (OMP_NCell o0) (OMP_Weight o) /\
                NCell (visible pr4)
                = final_bins (arg_RemoveEmpty cl) (OMP_NCell o0) (OMP_NCell o0) /\
                NBin pr4
                = Z.of_nat (length (final_bins (arg_RemoveEmpty cl)
                                               (OMP_NCell o0) (OMP_NCell o0))) /\
                Center pr4 = Center pr1 /\ LogBin pr4 = LogBin pr1 /\
                LogBinRatio pr4 = LogBinRatio pr1).
  { unfold final_bins. destruct (arg_RemoveEmpty cl).
    - destruct Hrm as [C1' [C2 [C3 [C4 [C5 [C6 [C7 [C8 [C9 _]]]]]]]]].
      rewrite C6, C7, C8, C9, C5, C1', C3, C4, F1, F3, F4.
      rewrite !compact_from_0; auto; try congruence.
      rewrite F6, F7, F8, Hmask. repeat split; reflexivity.
    - subst pr4. unfold visible; simpl.
      rewrite N3, Nat2Z.id, !firstn_all2 by lia.
      rewrite F6, F7, F8, Hmask, F1, F3, F4.
      repeat split; try reflexivity. lia. }
  destruct Vis as [V1 [V2 [V3 [V4 [V5 [V6 [V7 V8]]]]]]].
  apply (load_inv _ _ _ 0) in Hr1, Hr2.
  destruct Hr1 as [B1 Hr1], Hr2 as [B2 Hr2].
  split; [exact Ho|]. split; [exact C1|]. split; [exact Wo|].
  split; [exact Hmask|]. split; [exact Hn|].
  split; [exact V6|]. split; [exact V7|]. split; [exact V8|].
  split; [exact V5|]. split; [exact V1|]. split; [exact V2|].
  split; [exact V3|]. split; [exact V4|]. split; [lia|].
  f_equal.
  - rewrite <- Hr1. unfold entry, visible; simpl.
    rewrite nth_firstn.
    replace (Z.to_nat (NBin pr4 - 1) <? Z.to_nat (NBin pr4))%nat with true
      by (symmetry; apply Nat.ltb_lt; lia).
    reflexivity.
  - rewrite <- Hr2. unfold entry, visible; simpl.
    rewrite nth_firstn.
    replace (Z.to_nat (NBin pr4 - 2) <? Z.to_nat (NBin pr4))%nat with true
      by (symmetry; apply Nat.ltb_lt; lia).
    reflexivity.
Qed.

Lemma linear_call_NBin : initial_NBin linear_call = 4%Z.
Proof.
  unfold initial_NBin; simpl.
  replace (4 / 1) with (IZR 4) by (simpl; field).
  rewrite c_int_ceil. apply ceilZ_IZR.
Qed.

Lemma linear_call_valid : valid_configuration linear_call.
Proof.
  unfold valid_configuration; simpl; repeat split; intros; try lra; discriminate.
Qed.

Lemma linear_call_returns (cf : Config) (amr : AMR_t) (Prof : list Profile_t) :
  Prof <> [] ->
  exists P5, Aux_ComputeProfile cf amr linear_call Prof = Return P5.
Proof.
  intros Hne. apply Aux_returns_valid; auto.
  - apply linear_call_valid.
  - rewrite linear_call_NBin; lia.
  - intros p _; exact I.
Qed.

(* ------------------------------------------------------------------ *)
(** ** The number of cells counted *)

Lemma total_repeat_0 (n : nat) : total (repeat 0%Z n) = 0%Z.
Proof. induction n as [|n IH]; simpl; auto. Qed.

Lemma total_upd (l : list Z) (n : nat) (v : Z) :
  (n < length l)%nat -> total (upd n v l) = (total l - nth n l 0 + v)%Z.
Proof.
  revert n; induction l as [|h t IH]; intros [|n] H; simpl in H; try lia.
  - unfold total; simpl; lia.
  - change (h + total (upd n v t) = h + total t - nth n t 0 + v)%Z.
    rewrite IH by lia; lia.
Qed.

Lemma total_map2_add (a b : list Z) :
  length a = length b -> total (map2 Z.add a b) = (total a + total b)%Z.
Proof.
  revert b; induction a as [|x a IH]; intros [|y b] H; simpl in H; try lia;
    try reflexivity.
  change (x + y + total (map2 Z.add a b) = x + total a + (y + total b))%Z.
  rewrite IH by lia; lia.
Qed.

Lemma total_keep_nonempty (mask : list Z) :
  total (keep_nonempty mask mask) = total mask.
Proof.
  induction mask as [|m mask IH]; [reflexivity|].
  cbn [keep_nonempty].
  destruct (Z.eqb_spec m 0) as [->|Hm].
  - change (total (keep_nonempty mask mask) = 0 + total mask)%Z. lia.
  - change (m + total (keep_nonempty mask mask) = m + total mask)%Z. lia.
Qed.

Lemma keep_nonempty_length_le {A} (mask : list Z) :
  forall a : list A, (length (keep_nonempty mask a) <= length mask)%nat.
Proof.
  induction mask as [|m mask IH]; intros [|x a]; simpl; try lia.
  destruct (m =? 0)%Z; simpl; specialize (IH a); lia.
Qed.

Lemma sums_total (cf : Config) (amr : AMR_t) (cl : Call)
    (NProf : nat) (NBin0 : Z) (r_max2 : R) (sums : list omp_t) :
  collect cf amr cl NProf NBin0 r_max2 = Ok sums ->
  forall p o, nth_error sums p = Some o ->
    total (OMP_NCell o)
    = sum_cells cf amr (considered_levels cf cl)
        (fun lv pt k j i =>
           counted cl NBin0 r_max2 (cell_r2 amr cl (dh amr lv) pt k j i)).
Proof.
  intros H.
  apply (collect_per_profile cf amr cl NProf NBin0 r_max2
           (fun _ n o => total (OMP_NCell o) = n)); auto.
  - intros p _. unfold zero_omp; simpl. apply total_repeat_0.
  - intros lv pt k j i p n o c w _ _ [_ [_ W]] J h r _ Hb _.
    unfold add_cell; simpl. rewrite total_upd by lia.
    unfold cells. lia.
  - intros p n m a b [_ [_ Wa]] [_ [_ Wb]] Ja Jb.
    unfold omp_add; simpl. rewrite total_map2_add by congruence. lia.
Qed.

Lemma sumZ_ext {A} (f g : A -> Z) (l : list A) :
  (forall a, f a = g a) -> sumZ f l = sumZ g l.
Proof.
  intros H; induction l as [|a l IH]; simpl; auto. rewrite H, IH; reflexivity.
Qed.

Lemma sum_cells_ext (cf : Config) (amr : AMR_t) (lvs : list Z)
    (w w' : Z -> patch_t -> Z -> Z -> Z -> Z) :
  (forall lv pt k j i, w lv pt k j i = w' lv pt k j i) ->
  sum_cells cf amr lvs w = sum_cells cf amr lvs w'.
Proof.
  intros H.
  assert (Hp : forall lv pt, sum_patch cf (w lv) pt = sum_patch cf (w' lv) pt).
  { intros lv pt; unfold sum_patch. destruct (son pt =? -1)%Z; auto.
    apply sumZ_ext; intros k. apply sumZ_ext; intros j.
    apply sumZ_ext; intros i. apply H. }
  assert (Hs : forall sh, sum_share cf lvs w sh = sum_share cf lvs w' sh).
  { intros sh; unfold sum_share. apply sumZ_ext; intros lv.
    apply sumZ_ext; intros pt. apply Hp. }
  assert (Hr : forall rk, sum_rank cf lvs w rk = sum_rank cf lvs w' rk).
  { intros rk; unfold sum_rank. rewrite Hs. f_equal.
    apply sumZ_ext; exact Hs. }
  unfold sum_cells. rewrite Hr. f_equal. apply sumZ_ext; exact Hr.
Qed.

(** For a valid configuration a cell is counted exactly when its distance is
    below the outer radius. *)
Lemma counted_within (amr : AMR_t) (cl : Call) (h : R) (pt : patch_t)
    (k j i : Z) :
  valid_configuration cl -> (1 <= initial_NBin cl)%Z ->
  counted cl (initial_NBin cl) (SQR (outer_radius cl))
          (cell_r2 amr cl h pt k j i)
  = if Rlt_dec (distance amr cl h pt k j i) (outer_radius cl) then 1%Z else 0%Z.
Proof.
  intros [_ [Hd Hq]] Hn; unfold counted.
  assert (Hm := outer_radius_pos cl Hd Hq Hn).
  assert (H0 := cell_r2_nonneg amr cl h pt k j i).
  assert (Hiff := sqrt_lt_outer _ _ H0 Hm).
  rewrite <- cell_r2_distance.
  destruct (Rlt_dec (cell_r2 amr cl h pt k j i) (SQR (outer_radius cl))) as [Hr|Hr];
    destruct (Rlt_dec (sqrt (cell_r2 amr cl h pt k j i)) (outer_radius cl))
      as [Hs|Hs]; try tauto.
  assert (Hb := cell_bin_below cl _ Hd Hq Hn (sqrt_pos _) Hs).
  destruct (Z.geb_spec (cell_bin cl (sqrt (cell_r2 amr cl h pt k j i)))
                       (initial_NBin cl)); [lia | reflexivity].
Qed.

(** The sum of the cell counts of every profile a call returns is the
    number of cells the accumulation counted. *)
Lemma cell_count_counted (cf : Config) (amr : AMR_t) (cl : Call)
    (Prof P5 : list Profile_t) :
  Aux_ComputeProfile cf amr cl Prof = Return P5 ->
  (2 <= initial_NBin cl)%Z /\
  forall pr, In pr P5 ->
    total (NCell (visible pr))
    = sum_cells cf amr (considered_levels cf cl)
        (fun lv pt k j i =>
           counted cl (initial_NBin cl) (SQR (outer_radius cl))
                   (cell_r2 amr cl (dh amr lv) pt k j i)).
Proof.
  intros H.
  destruct (Aux_Return_visible _ _ _ _ _ H)
    as [sums [mask [Hpos [Ec [Lm [L5 Hp]]]]]].
  assert (Hle : (length (final_bins (arg_RemoveEmpty cl) mask mask)
                 <= length mask)%nat).
  { unfold final_bins. destruct (arg_RemoveEmpty cl);
      [apply keep_nonempty_length_le | lia]. }
  split.
  - destruct P5 as [|pr5 P5'].
    + destruct (Aux_Return_profiles _ _ _ _ _ H)
        as [sums' [o0 [_ [Ec' [Ho0 [L _]]]]]].
      apply collect_wf in Ec'. destruct Ec' as [Ls _].
      apply nth_error_length in Ho0. simpl in L. lia.
    + destruct (Hp 0%nat pr5 eq_refl)
        as [a1 [o [a3 [_ [_ [_ [_ [_ [_ [_ [_ [Nn [_ [_ [_ [_ [H2 _]]]]]]]]]]]]]]]]].
      lia.
  - intros pr Hin.
    apply In_nth_error in Hin. destruct Hin as [p Hp5].
    destruct (Hp p pr Hp5)
      as [a1 [o [a3 [Ho [_ [_ [Hmask [_ [_ [_ [_ [Nn [_ [_ [_ [Mc [H2 _]]]]]]]]]]]]]]]]].
    rewrite Mc.
    assert (Ht : total (final_bins (arg_RemoveEmpty cl) mask mask) = total mask).
    { unfold final_bins. destruct (arg_RemoveEmpty cl);
        [apply total_keep_nonempty | reflexivity]. }
    rewrite Ht, <- Hmask. exact (sums_total _ _ _ _ _ _ _ Ec p o Ho).
Qed.

(** The amended C9. The cell counts of every profile a call returns sum to
    the number of leaf cells, on the levels the call considers (all of them
    if [SingleLv < 0], level [SingleLv] alone otherwise), that pass the two
    tests of the accumulation: the squared distance, with the nearest-image
    offsets, below the squared outer radius the geometry loop set, and the
    bin index below the number of bins. In exact arithmetic and for a valid
    configuration the second test rejects no cell, and the sum is the number
    of leaf cells of these levels whose distance is below the outer
    radius. *)
Theorem cell_count_sum (cf : Config) (amr : AMR_t) (cl : Call)
    (Prof P5 : list Profile_t) :
  Aux_ComputeProfile cf amr cl Prof = Return P5 ->
  forall pr, In pr P5 ->
    total (NCell (visible pr))
    = leaf_cells_counted cf amr cl (considered_levels cf cl) /\
    (valid_configuration cl ->
     total (NCell (visible pr))
     = leaf_cells_within cf amr cl (considered_levels cf cl) (outer_radius cl)).
Proof.
  intros H pr Hin.
  destruct (cell_count_counted cf amr cl Prof P5 H) as [Hn Hsum].
  split; [exact (Hsum pr Hin)|].
  intros V. rewrite (Hsum pr Hin).
  unfold leaf_cells_within. apply sum_cells_ext.
  intros lv pt k j i. apply counted_within; [exact V | lia].
Qed.

Lemma sumZ_nonneg {A} (f : A -> Z) (l : list A) :
  (forall a, (0 <= f a)%Z) -> (0 <= sumZ f l)%Z.
Proof.
  intros H; induction l as [|a l IH]; simpl; [lia|]. specialize (H a); lia.
Qed.

Lemma sumZ_member_le {A} (f : A -> Z) (l : list A) (x : A) :
  (forall a, (0 <= f a)%Z) -> In x l -> (f x <= sumZ f l)%Z.
Proof.
  intros H; induction l as [|a l IH]; simpl; [tauto|].
  assert (N := sumZ_nonneg f l H).
  intros [-> | Hin]; [lia|]. specialize (IH Hin). specialize (H a). lia.
Qed.

Lemma level_one_call_valid : valid_configuration level_one_call.
Proof. exact linear_call_valid. Qed.

Lemma level_one_call_outer_radius : outer_radius level_one_call = 4.
Proof.
  unfold outer_radius.
  change (initial_NBin level_one_call) with (initial_NBin linear_call).
  rewrite linear_call_NBin. unfold initial_MaxRadius; simpl. lra.
Qed.

(** C9 as stated fails: a call restricted to level 1 counts no cell of the
    leaf patch on level 0, whose cell (3,3,3) lies well within the outer
    radius. *)
Lemma cell_count_all_levels_counterexample :
  valid_configuration level_one_call /\
  exists P5,
    Aux_ComputeProfile two_level_build single_patch_amr level_one_call
                       [fresh_profile] = Return P5 /\
    length P5 = 1%nat /\
    (forall pr, In pr P5 -> total (NCell (visible pr)) = 0%Z) /\
    (0 < leaf_cells_within two_level_build single_patch_amr level_one_call
                           (all_levels two_level_build)
                           (outer_radius level_one_call))%Z.
Proof.
  split; [exact level_one_call_valid|].
  assert (Hret : exists P5,
             Aux_ComputeProfile two_level_build single_patch_amr level_one_call
                                [fresh_profile] = Return P5).
  { apply Aux_returns_valid.
    - exact level_one_call_valid.
    - discriminate.
    - change (initial_NBin level_one_call) with (initial_NBin linear_call).
      rewrite linear_call_NBin; lia.
    - reflexivity.
    - intros p _; exact I. }
  destruct Hret as [P5 E].
  exists P5. split; [exact E|].
  split.
  { destruct (Aux_Return_visible _ _ _ _ _ E) as [_ [_ [_ [_ [_ [L _]]]]]].
    exact L. }
  split.
  - intros pr Hin.
    destruct (cell_count_counted _ _ _ _ _ E) as [_ Hsum].
    rewrite (Hsum pr Hin). reflexivity.
  - rewrite level_one_call_outer_radius.
    set (w := fun (pt : patch_t) (k j i : Z) =>
                if Rlt_dec (distance single_patch_amr level_one_call 1 pt k j i) 4
                then 1%Z else 0%Z).
    assert (Hw0 : forall pt k j i, (0 <= w pt k j i)%Z).
    { intros pt k j i; unfold w. destruct (Rlt_dec _ _); lia. }
    assert (Hw1 : w uniform_patch 3%Z 3%Z 3%Z = 1%Z).
    { unfold w. destruct (Rlt_dec _ _) as [_|Hn]; [reflexivity|].
      exfalso; apply Hn.
      rewrite <- cell_r2_distance.
      assert (H4 : 0 < 4) by lra.
      apply (proj1 (sqrt_lt_outer _ 4 (cell_r2_nonneg _ _ _ _ _ _ _) H4)).
      unfold cell_r2, offset, wrap, Periodic, SQR.
      cbn [level_one_call linear_call single_patch_amr uniform_patch arg_Center
           OPT__BC_FLU is_periodic EdgeL axis].
      lra. }
    set (ix := seqZ 0 (Z.to_nat (PS1 two_level_build))).
    assert (In3 : In 3%Z ix) by (unfold ix; simpl; tauto).
    assert (A1 : (w uniform_patch 3 3 3
                  <= sumZ (fun i => w uniform_patch 3 3 i) ix)%Z).
    { apply (sumZ_member_le (fun i => w uniform_patch 3%Z 3%Z i) ix 3%Z); auto. }
    assert (A2 : (sumZ (fun i => w uniform_patch 3 3 i) ix
                  <= sumZ (fun j => sumZ (fun i => w uniform_patch 3 j i) ix) ix)%Z).
    { apply (sumZ_member_le
               (fun j => sumZ (fun i => w uniform_patch 3%Z j i) ix) ix 3%Z); auto.
      intros; apply sumZ_nonneg; auto. }
    assert (A3 : (sumZ (fun j => sumZ (fun i => w uniform_patch 3 j i) ix) ix
                  <= sumZ (fun k => sumZ (fun j => sumZ (fun i => w uniform_patch k j i)
                                                        ix) ix) ix)%Z).
    { apply (sumZ_member_le
               (fun k => sumZ (fun j => sumZ (fun i => w uniform_patch k j i) ix) ix)
               ix 3%Z); auto.
      intros; apply sumZ_nonneg; intros; apply sumZ_nonneg; auto. }
    assert (Hp : (1 <= sum_patch two_level_build w uniform_patch)%Z).
    { unfold sum_patch. simpl (son uniform_patch =? -1)%Z. cbv iota.
      fold ix. lia. }
    unfold leaf_cells_within, sum_cells, sum_rank, sum_share, all_levels.
    simpl (ranks single_patch_amr). simpl (threads (root single_patch_amr)).
    simpl (thread0 (root single_patch_amr)).
    change (seqZ 0 (Z.to_nat (TOP_LEVEL two_level_build + 1))) with [0%Z; 1%Z].
    cbn [sumZ fold_right Z.eqb].
    change (dh single_patch_amr 0) with 1.
    fold w. lia.
Qed.

(* ------------------------------------------------------------------ *)
(** ** A uniform density *)

Lemma zero_omp_uniform (rho0 : R) (n : Z) : uniform_bins rho0 (zero_omp n).
Proof.
  intros i; unfold zero_omp; simpl. rewrite !nth_repeat_default.
  repeat split; try lra; lia.
Qed.

Lemma add_cell_uniform (rho0 dv : R) (n bin : Z) (o : omp_t) :
  omp_wf n o -> (0 <= bin < n)%Z -> 0 < dv ->
  uniform_bins rho0 o -> uniform_bins rho0 (add_cell bin (rho0 * dv) dv o).
Proof.
  intros [W1 [W2 W3]] Hb Hdv H i; unfold add_cell; simpl.
  destruct (H i) as [H1 [H2 [H3 H4]]].
  destruct (Nat.eq_dec (Z.to_nat bin) i) as [<-|Hne].
  - rewrite !nth_upd_eq by lia. unfold entry, cells.
    repeat split; intros; try lra; try lia.
  - rewrite !nth_upd_neq by auto. repeat split; auto.
Qed.

Lemma omp_add_uniform (rho0 : R) (n : Z) (a b : omp_t) :
  omp_wf n a -> omp_wf n b ->
  uniform_bins rho0 a -> uniform_bins rho0 b -> uniform_bins rho0 (omp_add a b).
Proof.
  intros [A1 [A2 A3]] [B1 [B2 B3]] Ha Hb i; unfold omp_add; simpl.
  rewrite !nth_map2_default; try congruence; try lra; try lia.
  destruct (Ha i) as [Ha1 [Ha2 [Ha3 Ha4]]], (Hb i) as [Hb1 [Hb2 [Hb3 Hb4]]].
  split; [lra|]. split; [lia|]. split; [lra|].
  intros Hpos.
  destruct (Z.lt_ge_cases 0 (nth i (OMP_NCell a) 0%Z)) as [Hc|Hc].
  - specialize (Ha4 Hc); lra.
  - assert (Hc' : (0 < nth i (OMP_NCell b) 0)%Z) by lia.
    specialize (Hb4 Hc'); lra.
Qed.

Lemma CUBE_pos (h : R) : 0 < h -> 0 < CUBE h.
Proof.
  intros H; unfold CUBE. apply Rmult_lt_0_compat; [|exact H].
  apply Rmult_lt_0_compat; exact H.
Qed.

Lemma sums_uniform (cf : Config) (amr : AMR_t) (cl : Call)
    (NProf : nat) (NBin0 : Z) (r_max2 rho0 : R) (sums : list omp_t) :
  (forall lv pt k j i, visited cf amr cl lv pt k j i ->
                       fluid pt DENS k j i = rho0) ->
  (forall lv, (lv_min cl <= lv <= lv_max cf cl)%Z -> 0 < dh amr lv) ->
  collect cf amr cl NProf NBin0 r_max2 = Ok sums ->
  forall p o, nth_error sums p = Some o -> arg_TVar cl p = DENS ->
              uniform_bins rho0 o.
Proof.
  intros Hrho Hdh H.
  apply (collect_per_profile cf amr cl NProf NBin0 r_max2
           (fun p _ o => arg_TVar cl p = DENS -> uniform_bins rho0 o)); auto.
  - intros p _ _. apply zero_omp_uniform.
  - intros lv pt k j i p n o c w V _ W J h r _ Hb Hc Hq.
    rewrite Hq in Hc. simpl in Hc. inv_ok Hc.
    rewrite (Hrho lv pt k j i V).
    apply (add_cell_uniform rho0 (CUBE h) NBin0); auto.
    apply CUBE_pos, Hdh, V.
  - intros p n m a b Wa Wb Ja Jb Hq.
    apply (omp_add_uniform rho0 NBin0); auto.
Qed.

Lemma Forall2_of_nth {A B} (R : A -> B -> Prop) (da : A) (db : B) :
  forall (l : list A) (l' : list B),
    length l = length l' ->
    (forall i, (i < length l)%nat -> R (nth i l da) (nth i l' db)) ->
    Forall2 R l l'.
Proof.
  induction l as [|a l IH]; intros [|b l'] L H; simpl in L; try lia;
    constructor.
  - apply (H 0%nat); simpl; lia.
  - apply IH; [lia|]. intros i Hi. apply (H (Datatypes.S i)); simpl; lia.
Qed.

Lemma Forall2_nth {A B} (R : A -> B -> Prop) (da : A) (db : B) :
  forall (l : list A) (l' : list B) (i : nat),
    Forall2 R l l' -> (i < length l)%nat -> R (nth i l da) (nth i l' db).
Proof.
  intros l l' i F; revert i.
  induction F as [|a b l l' H F IH]; intros [|i] Hi; simpl in *; try lia; auto.
  apply IH; lia.
Qed.

Lemma keep_nonempty_Forall2 {A B} (R : A -> B -> Prop) (mask : list Z) :
  forall (l : list A) (l' : list B),
    Forall2 R l l' ->
    Forall2 R (keep_nonempty mask l) (keep_nonempty mask l').
Proof.
  induction mask as [|m mask IH]; intros l l' F; [constructor|].
  destruct F as [|a b l l' H F]; simpl; [constructor|].
  destruct (m =? 0)%Z; [apply IH; exact F | constructor; auto].
Qed.

(** With the same density [rho0] in every cell the loops visit, and positive
    cell spacings, the density profile of a call that returns is [rho0] in
    every bin whose cell count is not zero. *)
Lemma uniform_bins_returned (cf : Config) (amr : AMR_t) (cl : Call)
    (Prof P5 : list Profile_t) (rho0 : R) :
  (forall lv pt k j i, visited cf amr cl lv pt k j i ->
                       fluid pt DENS k j i = rho0) ->
  (forall lv, (lv_min cl <= lv <= lv_max cf cl)%Z -> 0 < dh amr lv) ->
  Aux_ComputeProfile cf amr cl Prof = Return P5 ->
  forall p pr, nth_error P5 p = Some pr -> arg_TVar cl p = DENS ->
    forall b, (0 <= b < NBin pr)%Z -> cells (NCell pr) b <> 0%Z ->
              entry (Data pr) b = rho0.
Proof.
  intros Hrho Hdh H p pr Hp5 Hq b Hb Hc.
  destruct (Aux_Return_visible _ _ _ _ _ H)
    as [sums [mask [Hpos [Ec [Lm [L5 Hp]]]]]].
  destruct (Hp p pr Hp5)
    as [pr1 [o [pr3 [Ho [C1 [Wo [Hmask [Hn [_ [_ [_ [Nn [_ [Vd [_ [Vc _]]]]]]]]]]]]]]]].
  assert (U := sums_uniform _ _ _ _ _ _ rho0 _ Hrho Hdh Ec p o Ho Hq).
  destruct Hn as [data [Hpr3 [Ld Hx]]]. simpl in Ld.
  destruct Wo as [Wd [Ww Wc]].
  assert (F : Forall2 (fun (c : Z) (d : R) => c <> 0%Z -> d = rho0) mask (Data pr3)).
  { apply (Forall2_of_nth _ 0%Z 0).
    - rewrite Hpr3; simpl. rewrite Ld, Wd, Lm. reflexivity.
    - intros i Hi Hci. rewrite Hpr3; simpl.
      assert (Ex : entry data (Z.of_nat i)
                   = normalized_value (arg_TVar cl p)
                       (cells (OMP_NCell o) (Z.of_nat i))
                       (entry (OMP_Data o) (Z.of_nat i))
                       (entry (OMP_Weight o) (Z.of_nat i))).
      { apply (Hx (Z.of_nat i)). lia. }
      unfold entry, cells in Ex. rewrite Nat2Z.id in Ex. rewrite Ex, Hq.
      destruct (U i) as [U1 [U2 [U3 U4]]].
      rewrite Hmask in *.
      unfold normalized_value.
      destruct (Z.gtb_spec (nth i mask 0%Z) 0) as [Hg|Hg]; [|lia].
      rewrite U1. field. specialize (U4 Hg). lra. }
  assert (F' : Forall2 (fun (c : Z) (d : R) => c <> 0%Z -> d = rho0)
                       (NCell (visible pr)) (Data (visible pr))).
  { rewrite Vc, Vd. unfold final_bins.
    destruct (arg_RemoveEmpty cl); [apply keep_nonempty_Forall2|]; exact F. }
  assert (Hlen : length (NCell (visible pr)) = Z.to_nat (NBin pr)).
  { rewrite Vc, Nn, Nat2Z.id. reflexivity. }
  assert (G := Forall2_nth _ 0%Z 0 _ _ (Z.to_nat b) F').
  unfold visible in G; simpl in G.
  rewrite !nth_firstn in G.
  replace (Z.to_nat b <? Z.to_nat (NBin pr))%nat with true in G
    by (symmetry; apply Nat.ltb_lt; lia).
  apply G; [|exact Hc].
  unfold visible in Hlen; simpl in Hlen. rewrite Hlen. lia.
Qed.

(* ------------------------------------------------------------------ *)
(** ** The outer radius after a call that keeps the empty bins *)

Lemma MaxRadius_linear_without_removal (cf : Config) (amr : AMR_t) (cl : Call)
    (Prof P5 : list Profile_t) :
  arg_LogBin cl = false -> arg_RemoveEmpty cl = false ->
  Aux_ComputeProfile cf amr cl Prof = Return P5 ->
  length P5 = length Prof /\
  forall pr, In pr P5 ->
    NBin pr = initial_NBin cl /\
    MaxRadius pr = (IZR (initial_NBin cl) + 0.5) * arg_dr_min cl.
Proof.
  intros Hlin Hre H.
  destruct (Aux_Return_visible _ _ _ _ _ H)
    as [sums [mask [Hpos [Ec [Lm [L5 Hp]]]]]].
  split; [exact L5|].
  intros pr Hin. apply In_nth_error in Hin. destruct Hin as [p Hp5].
  destruct (Hp p pr Hp5)
    as [pr1 [o [pr3 [_ [C1 [_ [_ [_ [_ [_ [_ [Nn [Vr [_ [_ [_ [H2 Hm]]]]]]]]]]]]]]]]].
  rewrite Hre in *. unfold final_bins in *.
  assert (Hn : NBin pr = initial_NBin cl) by (rewrite Nn, Lm; lia).
  split; [exact Hn|].
  rewrite Hm, Vr, Hn. unfold extrapolate; rewrite Hlin.
  destruct C1 as [_ [Nn1 [_ [_ [_ [_ [_ [_ [_ Hrad]]]]]]]]].
  rewrite !Hrad by lia. unfold radial_coordinate; rewrite Hlin.
  rewrite !minus_IZR. lra.
Qed.

(** C8 at a concrete call. Linear bins of width 1 out to radius 4, empty bins
    kept: the geometry loop sets 4 bins and the outer radius 4, the right
    edge of the last bin; the call returns with the same 4 bins and the
    outer radius 4.5. *)
Theorem MaxRadius_changes_without_removal :
  exists P1 P5,
    configure linear_call [fresh_profile] = Ok P1 /\
    Forall (fun pr => NBin pr = 4%Z /\ MaxRadius pr = 4) P1 /\
    Aux_ComputeProfile serial_build single_patch_amr linear_call
                       [fresh_profile] = Return P5 /\
    length P5 = 1%nat /\
    Forall (fun pr => NBin pr = 4%Z /\ MaxRadius pr = 4.5) P5.
Proof.
  destruct (configure_ok linear_call [fresh_profile]) as [P1 [E1 [_ F1]]].
  destruct (linear_call_returns serial_build single_patch_amr [fresh_profile])
    as [P5 E]; [discriminate|].
  exists P1, P5. split; [exact E1|]. split.
  - eapply Forall_impl; [|exact F1].
    intros pr [_ [Hn [Hm _]]]. rewrite Hn, Hm, linear_call_NBin.
    split; [reflexivity|]. unfold initial_MaxRadius; simpl. lra.
  - split; [exact E|].
    destruct (MaxRadius_linear_without_removal
                serial_build single_patch_amr linear_call [fresh_profile] P5
                eq_refl eq_refl E) as [L H].
    split; [exact L|].
    apply Forall_forall; intros pr Hin.
    destruct (H pr Hin) as [Hn Hm]. rewrite Hn, Hm, linear_call_NBin.
    split; [reflexivity|]. simpl. lra.
Qed.

(* ------------------------------------------------------------------ *)
(** ** Removing the empty bins by hand *)

Lemma configure_loop_RemoveEmpty (flag : bool) (cl : Call) :
  forall (Prof : list Profile_t) (first : option Z),
    configure_loop (with_RemoveEmpty flag cl) first Prof
    = configure_loop cl first Prof.
Proof.
  induction Prof as [|pr rest IH]; intros first; [reflexivity|].
  cbn [configure_loop].
  change (configure_profile (with_RemoveEmpty flag cl) first pr)
    with (configure_profile cl first pr).
  destruct (configure_profile cl first pr) as [pr'|e]; [|reflexivity].
  cbn [bind]. rewrite IH. reflexivity.
Qed.

Lemma configure_RemoveEmpty (flag : bool) (cl : Call) (Prof : list Profile_t) :
  configure (with_RemoveEmpty flag cl) Prof = configure cl Prof.
Proof. apply configure_loop_RemoveEmpty. Qed.

Lemma accumulate_all_RemoveEmpty (cf : Config) (amr : AMR_t) (flag : bool)
    (cl : Call) (P : list Profile_t) :
  accumulate_all cf amr (with_RemoveEmpty flag cl) P = accumulate_all cf amr cl P.
Proof. reflexivity. Qed.

Lemma normalize_all_RemoveEmpty (flag : bool) (cl : Call) (P : list Profile_t) :
  normalize_all (with_RemoveEmpty flag cl) P = normalize_all cl P.
Proof. reflexivity. Qed.

Lemma update_MaxRadius_RemoveEmpty (flag : bool) (cl : Call)
    (P : list Profile_t) :
  update_MaxRadius (with_RemoveEmpty flag cl) P = update_MaxRadius cl P.
Proof. reflexivity. Qed.

Lemma check_parameters_RemoveEmpty (cf : Config) (flag : bool) (cl : Call) :
  check_parameters cf (with_RemoveEmpty flag cl) = check_parameters cf cl.
Proof. reflexivity. Qed.

Lemma Profile_ext (a b : Profile_t) :
  Center a = Center b -> MaxRadius a = MaxRadius b -> LogBin a = LogBin b ->
  LogBinRatio a = LogBinRatio b -> NBin a = NBin b -> Radius a = Radius b ->
  Data a = Data b -> Weight a = Weight b -> NCell a = NCell b ->
  a = b.
Proof. destruct a, b; simpl; intros; subst; reflexivity. Qed.

Lemma load_firstn {A} (n : nat) (a : list A) (i : Z) :
  (i < Z.of_nat n)%Z -> load (firstn n a) i = load a i.
Proof.
  intros H; unfold load. destruct (i <? 0)%Z eqn:E; [reflexivity|].
  rewrite nth_error_firstn.
  replace (Z.to_nat i <? n)%nat with true; [reflexivity|].
  symmetry; apply Nat.ltb_lt. apply Z.ltb_ge in E. lia.
Qed.

Lemma for_each_const_Forall2 {A} (f : A -> result A) :
  forall (l : list A) (p0 : nat) (r : list A),
    for_each (fun _ => f) p0 l = Ok r -> Forall2 (fun a b => f a = Ok b) l r.
Proof.
  induction l as [|a l IH]; intros p0 r H; simpl in H.
  - inv_ok H; constructor.
  - inv_bind H. inv_bind H. inv_ok H. constructor; eauto.
Qed.

Lemma normalized_stage (cf : Config) (amr : AMR_t) (cl : Call)
    (Prof P1 P2 P3 : list Profile_t) :
  configure cl Prof = Ok P1 ->
  accumulate_all cf amr cl P1 = Ok P2 ->
  normalize_all cl P2 = Ok P3 ->
  (0 <= initial_NBin cl)%Z ->
  exists p3 rest3,
    P3 = p3 :: rest3 /\
    Forall (fun pr => prof_wf (Z.to_nat (initial_NBin cl)) pr /\
                      NBin pr = Z.of_nat (Z.to_nat (initial_NBin cl)) /\
                      NCell pr = NCell p3) P3.
Proof.
  intros E1 E2 E3 Hpos.
  assert (Hred : reduced cf amr cl Prof = Ok P2)
    by (unfold reduced; rewrite E1; exact E2).
  destruct (reduced_inv _ _ _ _ _ Hred) as [sums [Ec [L2 [En F2]]]].
  rewrite En in E3.
  set (L := Z.to_nat (initial_NBin cl)).
  assert (W2 : Forall (prof_wf L) P2).
  { apply Forall_forall; intros pr2 Hpr2.
    apply In_nth_error in Hpr2; destruct Hpr2 as [p Hp].
    destruct (F2 p pr2 Hp) as [pr1 [o [_ [Cp [Wo ->]]]]].
    apply store_sums_wf; auto. }
  destruct (normalize_ok cl L (initial_NBin cl) P2 W2) as [P3' [E3' [L3 H3]]];
    [unfold L; lia|].
  rewrite E3 in E3'; injection E3' as E3'; subst P3'.
  assert (Hne : P1 <> []) by (intros ->; discriminate E2).
  destruct (configure_inv cl Prof P1 E1) as [L1 _].
  destruct P3 as [|p3 rest3].
  { destruct P1; [contradiction|]. simpl in *. lia. }
  exists p3, rest3. split; [reflexivity|].
  assert (Hall : forall p pr3, nth_error (p3 :: rest3) p = Some pr3 ->
                   exists o, nth_error sums p = Some o /\
                             prof_wf L pr3 /\ NBin pr3 = Z.of_nat L /\
                             NCell pr3 = OMP_NCell o).
  { intros p pr3 Hp.
    destruct (nth_error_lt P2 p) as [pr2 Hp2];
      [rewrite <- L3; eapply nth_error_length; eauto|].
    destruct (H3 p pr2 Hp2) as [pr3' [Hp3 Hnorm]].
    rewrite Hp in Hp3; injection Hp3 as Hp3; subst pr3'.
    destruct (F2 p pr2 Hp2) as [pr1 [o [Ho [Cp [Wo Hpr2]]]]].
    destruct (store_sums_wf cl pr1 o Cp Wo Hpos) as [Wp Np].
    assert (Hf := normalized_fields _ _ _ _ Hnorm).
    destruct Hf as [_ [_ [_ [_ [Hnb [_ [_ Hnc]]]]]]].
    exists o. split; [exact Ho|].
    split; [eapply normalized_wf; eauto; rewrite Hpr2; exact Wp|].
    split; [rewrite Hnb, Hpr2; exact Np|].
    rewrite Hnc, Hpr2; reflexivity. }
  destruct (Hall 0%nat p3 eq_refl) as [o0 [Ho0 [_ [_ Hc0]]]].
  apply Forall_forall; intros pr3 Hin.
  apply In_nth_error in Hin; destruct Hin as [p Hp].
  destruct (Hall p pr3 Hp) as [o [Ho [Wp [Np Hc]]]].
  split; [exact Wp|]. split; [exact Np|].
  rewrite Hc, Hc0. eapply sums_same_NCell; eauto.
Qed.

(** One profile: updating the outer radius of the compacted profile, and
    removing the empty bins by hand from the profile of the call that kept
    them. *)
Lemma manual_agrees (cl : Call) (L : nat) (pr3 pr4 : Profile_t) (m : R) :
  prof_wf L pr3 -> NBin pr3 = Z.of_nat L ->
  compacted L 0 L (NCell pr3) pr3 pr4 ->
  agree1 (update_MaxRadius_body cl pr4)
         (manual_MaxRadius cl (manual_compact (set_MaxRadius pr3 m))).
Proof.
  intros [A1 [A2 [A3 [A4 A5]]]] Hn
         [C1 [C2 [C3 [C4 [C5 [C6 [C7 [C8 [C9 [B1 [B2 [B3 [B4 B5]]]]]]]]]]]]].
  rewrite !compact_from_0 in * by auto.
  assert (Hmc : manual_compact (set_MaxRadius pr3 m)
                = set_MaxRadius (visible pr4) m).
  { apply Profile_ext.
    - simpl. congruence.
    - reflexivity.
    - simpl. congruence.
    - simpl. congruence.
    - change (NBin (set_MaxRadius (visible pr4) m)) with (NBin pr4).
      simpl. rewrite Hn, Nat2Z.id, !firstn_all2 by lia. congruence.
    - change (Radius (set_MaxRadius (visible pr4) m)) with (Radius (visible pr4)).
      rewrite C6. simpl. rewrite Hn, Nat2Z.id, !firstn_all2 by lia. reflexivity.
    - change (Data (set_MaxRadius (visible pr4) m)) with (Data (visible pr4)).
      rewrite C7. simpl. rewrite Hn, Nat2Z.id, !firstn_all2 by lia. reflexivity.
    - change (Weight (set_MaxRadius (visible pr4) m)) with (Weight (visible pr4)).
      rewrite C8. simpl. rewrite Hn, Nat2Z.id, !firstn_all2 by lia. reflexivity.
    - change (NCell (set_MaxRadius (visible pr4) m)) with (NCell (visible pr4)).
      rewrite C9. simpl. rewrite Hn, Nat2Z.id, !firstn_all2 by lia. reflexivity. }
  rewrite Hmc. unfold update_MaxRadius_body, manual_MaxRadius, agree1.
  simpl (NBin (set_MaxRadius (visible pr4) m)).
  simpl (Radius (set_MaxRadius (visible pr4) m)).
  unfold visible at 1 3; simpl.
  rewrite !load_firstn by lia.
  destruct (load (Radius pr4) (NBin pr4 - 1)) as [r1|e1]; simpl; auto.
  destruct (load (Radius pr4) (NBin pr4 - 2)) as [r2|e2]; simpl; auto.
Qed.

Lemma agree_lists (f g : Profile_t -> result Profile_t) :
  forall (la lb : list Profile_t) (p0 : nat),
    Forall2 (fun a b => agree1 (f a) (g b)) la lb ->
    agree (for_each (fun _ => f) p0 la) (map_ok g lb).
Proof.
  intros la lb p0 F; revert p0.
  induction F as [|a b la lb H F IH]; intros p0; simpl; [reflexivity|].
  unfold agree1 in H. specialize (IH (Datatypes.S p0)). unfold agree in *.
  destruct (f a) as [a'|ea], (g b) as [b'|eb]; simpl; try contradiction; auto;
    destruct (for_each (fun _ => f) (Datatypes.S p0) la) as [la'|ela],
             (map_ok g lb) as [lb'|elb]; simpl; try contradiction; auto.
  rewrite H, IH; reflexivity.
Qed.

Lemma Forall2_join {A B C} (R : A -> B -> Prop) (S : A -> C -> Prop) :
  forall (l : list A) (lb : list B) (lc : list C),
    Forall2 R l lb -> Forall2 S l lc ->
    Forall2 (fun b c => exists a, In a l /\ R a b /\ S a c) lb lc.
Proof.
  intros l lb lc F; revert lc.
  induction F as [|a b l lb H F IH]; intros lc G; inversion G; subst;
    constructor.
  - exists a; simpl; auto.
  - eapply Forall2_impl; [|apply IH; eassumption].
    intros b0 c0 [a0 [Hin [Hr Hs]]]. exists a0; simpl; auto.
Qed.

(** C6. When the call that keeps the empty bins returns, removing the bins
    without cells by hand from its profiles (the four arrays in step, the
    number of bins, then the outer radius by the extrapolation rule) gives
    the bins of the call that removes them; and where the rule is undefined
    for want of two bins, that call does not return either. *)
Theorem removal_round_trip (cf : Config) (amr : AMR_t) (cl : Call)
    (Prof Pf : list Profile_t) :
  Aux_ComputeProfile cf amr (with_RemoveEmpty false cl) Prof = Return Pf ->
  match Aux_ComputeProfile cf amr (with_RemoveEmpty true cl) Prof,
        manual_remove_empty cl Pf with
  | Return Pt, Ok Pm => map visible Pt = Pm
  | Fatal _ _, Err _ => True
  | _, _ => False
  end.
Proof.
  intros H.
  destruct (Aux_Return_profiles _ _ _ _ _ H) as [_ [_ [Hpos _]]].
  change (initial_NBin (with_RemoveEmpty false cl)) with (initial_NBin cl) in Hpos.
  destruct (Aux_Return_stages _ _ _ _ _ H)
    as [P1 [P2 [P3 [P4 [Hc [E1 [E2 [E3 [E4 E5]]]]]]]]].
  rewrite configure_RemoveEmpty in E1.
  rewrite accumulate_all_RemoveEmpty in E2.
  rewrite normalize_all_RemoveEmpty in E3.
  rewrite update_MaxRadius_RemoveEmpty in E5.
  rewrite check_parameters_RemoveEmpty in Hc.
  unfold remove_empty_bins in E4. simpl in E4. injection E4 as E4; subst P4.
  destruct (normalized_stage _ _ _ _ _ _ _ E1 E2 E3 Hpos)
    as [p3 [rest3 [-> F3]]].
  set (L := Z.to_nat (initial_NBin cl)) in *.
  destruct (remove_empty_bins_ok (with_RemoveEmpty true cl) L L p3 rest3)
    as [P4 [E4 R4]].
  { eapply Forall_impl; [|exact F3]. intros pr Hpr; apply Hpr. }
  { eapply Forall_impl; [|exact F3]. intros pr Hpr; apply Hpr. }
  simpl in R4.
  unfold Aux_ComputeProfile.
  rewrite check_parameters_RemoveEmpty, Hc, configure_RemoveEmpty, E1.
  cbn [stage].
  rewrite accumulate_all_RemoveEmpty, E2. cbn [stage].
  rewrite normalize_all_RemoveEmpty, E3. cbn [stage].
  rewrite E4. cbn [stage].
  rewrite update_MaxRadius_RemoveEmpty.
  assert (G : agree (update_MaxRadius cl P4) (manual_remove_empty cl Pf)).
  { apply (agree_lists (update_MaxRadius_body cl)
                       (fun pr => manual_MaxRadius cl (manual_compact pr))).
    apply (for_each_const_Forall2 (update_MaxRadius_body cl)) in E5.
    assert (J := Forall2_join _ _ _ _ _ R4 E5).
    eapply Forall2_impl; [|exact J].
    intros pr4 pf [pr3 [Hin [Hcomp Hupd]]].
    rewrite Forall_forall in F3. destruct (F3 pr3 Hin) as [W3 [N3 M3]].
    unfold update_MaxRadius_body in Hupd.
    inv_bind Hupd. inv_bind Hupd. injection Hupd as Hupd; subst pf.
    apply (manual_agrees cl L); auto.
    rewrite M3; exact Hcomp. }
  unfold agree in G.
  destruct (update_MaxRadius cl P4) as [Pt|e],
           (manual_remove_empty cl Pf) as [Pm|e']; simpl; auto.
Qed.

Lemma reduced_returns_valid (cf : Config) (amr : AMR_t) (cl : Call)
    (Prof : list Profile_t) :
  valid_configuration cl ->
  Prof <> [] ->
  (forall p, (p < length Prof)%nat -> supported (arg_TVar cl p)) ->
  exists P2, reduced cf amr cl Prof = Ok P2.
Proof.
  intros [_ [Hd Hr]] Hne Hq; unfold reduced.
  destruct (configure_ok cl Prof) as [P1 [E1 [L1 F1]]].
  rewrite E1; cbn [bind].
  assert (Hne1 : P1 <> []) by (destruct P1, Prof; simpl in *; congruence).
  rewrite accumulate_all_spec_list by auto.
  destruct (collect_total cf amr cl (length P1) (initial_NBin cl)
                          (SQR (outer_radius cl))) as [sums E2].
  - intros lv pt k j i _ r2 _. apply cell_bin_nonneg; auto. apply sqrt_pos.
  - rewrite L1; exact Hq.
  - rewrite E2; cbn [bind]. eauto.
Qed.

Lemma normalization_witness :
  exists P2,
    reduced serial_build single_patch_amr linear_call [fresh_profile] = Ok P2 /\
    exists P3,
      normalize_all linear_call P2 = Ok P3 /\ length P3 = length P2 /\
      forall p pr2 pr3,
        nth_error P2 p = Some pr2 -> nth_error P3 p = Some pr3 ->
        Weight pr3 = Weight pr2 /\ NCell pr3 = NCell pr2 /\
        forall b, (0 <= b < NBin pr2)%Z ->
          let n := cells (NCell pr2) b in
          let d := entry (Data pr2) b in
          let w := entry (Weight pr2) b in
          (0 <= n)%Z /\
          ((0 < n)%Z ->
           (volume_weighted (arg_TVar linear_call p) ->
            entry (Data pr3) b = d / w) /\
           (arg_TVar linear_call p = VRAD -> 0 < w ->
            entry (Data pr3) b = d / w) /\
           (arg_TVar linear_call p = VRAD -> ~ 0 < w ->
            entry (Data pr3) b = d)) /\
          (n = 0%Z -> d = 0 /\ w = 0 /\ entry (Data pr3) b = d).
Proof.
  destruct (reduced_returns_valid serial_build single_patch_amr linear_call
                                  [fresh_profile] linear_call_valid)
    as [P2 E].
  - discriminate.
  - intros p _; exact I.
  - exists P2. split; [exact E|].
    exact (normalization serial_build single_patch_amr linear_call
                         [fresh_profile] P2 E).
Defined.

(* ================================================================== *)
(** * Further properties *)

(* ------------------------------------------------------------------ *)
(** ** Nearest images *)

Lemma wrap_cases (L d : R) :
  let d' := wrap true (0.5 * L) L d in
  (0.5 * L < d /\ d' = d - L) \/
  (d <= 0.5 * L /\ d < - (0.5 * L) /\ d' = d + L) \/
  (d <= 0.5 * L /\ - (0.5 * L) <= d /\ d' = d).
Proof.
  unfold wrap; simpl.
  destruct (Rlt_dec (0.5 * L) d); [left; lra|].
  destruct (Rlt_dec d (- (0.5 * L))); right; [left | right]; lra.
Qed.

Lemma Rabs_shift_ge (x L : R) (m : Z) :
  0 < L -> Rabs x <= 0.5 * L -> m <> 0%Z -> Rabs x <= Rabs (x + IZR m * L).
Proof.
  intros HL Hx Hm.
  assert (Hc : (m <= -1 \/ 1 <= m)%Z) by lia.
  destruct Hc as [Hc|Hc]; apply IZR_le in Hc.
  - assert (IZR m * L <= -1 * L) by (apply Rmult_le_compat_r; lra).
    revert Hx; unfold Rabs;
      destruct (Rcase_abs x), (Rcase_abs (x + IZR m * L)); intros; lra.
  - assert (1 * L <= IZR m * L) by (apply Rmult_le_compat_r; lra).
    revert Hx; unfold Rabs;
      destruct (Rcase_abs x), (Rcase_abs (x + IZR m * L)); intros; lra.
Qed.

(** X6. On a periodic axis, an offset of at most one box length is corrected to
    its nearest periodic image: the result is within half a box length, it
    differs from the raw offset by at most one box length, and no other image
    is closer. *)
Theorem offset_nearest_image (amr : AMR_t) (cl : Call) (h : R) (pt : patch_t)
    (d : nat) (n m : Z) :
  Periodic amr d = true ->
  0 < axis (BoxSize amr) d ->
  Rabs (raw_offset cl h pt d n) <= axis (BoxSize amr) d ->
  let L := axis (BoxSize amr) d in
  let raw := raw_offset cl h pt d n in
  let o := offset amr cl h pt d n in
  Rabs o <= HalfBox amr d /\
  (o = raw \/ o = raw - L \/ o = raw + L) /\
  Rabs o <= Rabs (raw + IZR m * L).
Proof.
  intros Hp HL Hd L raw o.
  assert (Ho : o = wrap true (0.5 * L) L raw).
  { unfold o, offset; rewrite Hp; reflexivity. }
  assert (Hb : - L <= raw <= L).
  { revert Hd; fold raw; fold L; unfold Rabs; destruct (Rcase_abs raw);
      intros; lra. }
  assert (Hc := wrap_cases L raw); cbv zeta in Hc; rewrite <- Ho in Hc.
  assert (Hhalf : Rabs o <= 0.5 * L).
  { unfold Rabs; destruct (Rcase_abs o); lra. }
  split; [exact Hhalf|].
  split; [lra|].
  assert (Hs : exists s : Z, raw = o + IZR s * L).
  { destruct Hc as [[H1 H2]|[[H1 [H2 H3]]|[H1 [H2 H3]]]].
    - exists 1%Z; lra.
    - exists (-1)%Z; lra.
    - exists 0%Z; lra. }
  destruct Hs as [s Hs].
  replace (raw + IZR m * L) with (o + IZR (s + m) * L)
    by (rewrite plus_IZR; lra).
  destruct (Z.eq_dec (s + m) 0) as [E|E].
  - rewrite E. replace (o + 0 * L) with o by lra. lra.
  - apply Rabs_shift_ge; auto.
Qed.

Lemma offset_nearest_image_witness :
  Periodic periodic_amr 0 = true /\
  0 < axis (BoxSize periodic_amr) 0 /\
  Rabs (raw_offset corner_call 1 uniform_patch 0 7) <= axis (BoxSize periodic_amr) 0 /\
  let L := axis (BoxSize periodic_amr) 0 in
  let raw := raw_offset corner_call 1 uniform_patch 0 7 in
  let o := offset periodic_amr corner_call 1 uniform_patch 0 7 in
  Rabs o <= HalfBox periodic_amr 0 /\
  (o = raw \/ o = raw - L \/ o = raw + L) /\
  Rabs o <= Rabs (raw + IZR 1 * L).
Proof.
  assert (H0 : Periodic periodic_amr 0 = true) by reflexivity.
  assert (H1 : 0 < axis (BoxSize periodic_amr) 0) by (simpl; lra).
  assert (H2 : Rabs (raw_offset corner_call 1 uniform_patch 0 7)
               <= axis (BoxSize periodic_amr) 0).
  { unfold raw_offset; simpl.
    unfold Rabs; destruct (Rcase_abs _); lra. }
  split; [exact H0|]. split; [exact H1|]. split; [exact H2|].
  exact (offset_nearest_image periodic_amr corner_call 1 uniform_patch 0 7 1
                              H0 H1 H2).
Defined.

(* ------------------------------------------------------------------ *)
(** ** The edges of the bins *)

Lemma quotient_scale (r d x : R) : 0 < d -> (x <= r / d <-> d * x <= r).
Proof.
  intros Hd; split; intros H.
  - replace r with (d * (r / d)) by (field; lra).
    apply Rmult_le_compat_l; lra.
  - apply (Rmult_le_reg_l d); [exact Hd|].
    replace (d * (r / d)) with r by (field; lra). exact H.
Qed.

Lemma quotient_scale_lt (r d x : R) : 0 < d -> (r / d < x <-> r < d * x).
Proof.
  intros Hd; split; intros H.
  - replace r with (d * (r / d)) by (field; lra).
    apply Rmult_lt_compat_l; lra.
  - apply (Rmult_lt_reg_l d); [exact Hd|].
    replace (d * (r / d)) with r by (field; lra). exact H.
Qed.

Lemma ln_over_ln_le (x q y : R) :
  0 < x -> 1 < q -> (y <= ln x / ln q <-> Rpower q y <= x).
Proof.
  intros Hx Hq. assert (Hl := ln_ratio_pos q Hq). unfold Rpower.
  split; intros H.
  - assert (H1 : y * ln q <= ln x).
    { apply (Rmult_le_reg_r (/ ln q)); [apply Rinv_0_lt_compat; exact Hl|].
      replace (y * ln q * / ln q) with y by (field; lra). exact H. }
    rewrite <- (exp_ln x Hx).
    destruct H1 as [H1|H1]; [left; apply exp_increasing; exact H1|].
    rewrite H1; lra.
  - apply (Rmult_le_reg_r (ln q)); [exact Hl|].
    replace (ln x / ln q * ln q) with (ln x) by (field; lra).
    rewrite <- (ln_exp (y * ln q)).
    destruct H as [H|H]; [left; apply ln_increasing; [apply exp_pos | exact H]|].
    rewrite H; lra.
Qed.

Lemma ln_over_ln_lt (x q y : R) :
  0 < x -> 1 < q -> (ln x / ln q < y <-> x < Rpower q y).
Proof.
  intros Hx Hq. assert (Hl := ln_ratio_pos q Hq). unfold Rpower.
  split; intros H.
  - assert (H1 : ln x < y * ln q).
    { apply (Rmult_lt_reg_r (/ ln q)); [apply Rinv_0_lt_compat; exact Hl|].
      replace (y * ln q * / ln q) with y by (field; lra). exact H. }
    rewrite <- (exp_ln x Hx). apply exp_increasing; exact H1.
  - apply (Rmult_lt_reg_r (ln q)); [exact Hl|].
    replace (ln x / ln q * ln q) with (ln x) by (field; lra).
    rewrite <- (ln_exp (y * ln q)).
    apply ln_increasing; [exact Hx | exact H].
Qed.

Lemma Rpower_ge_1 (q y : R) : 1 < q -> 0 <= y -> 1 <= Rpower q y.
Proof.
  intros Hq Hy. assert (Hl := ln_ratio_pos q Hq). unfold Rpower.
  rewrite <- exp_0.
  assert (H : 0 <= y * ln q) by (apply Rmult_le_pos; lra).
  destruct H as [H|H]; [left; apply exp_increasing; exact H | rewrite <- H; lra].
Qed.

Lemma floorZ_iff (x : R) (z : Z) : floorZ x = z <-> IZR z <= x < IZR z + 1.
Proof.
  split; [intros <-; apply floorZ_spec | apply floorZ_unique].
Qed.

(** X4. In exact arithmetic the bins tile the radial axis: a cell at radius
    [r] falls into bin [b] exactly when [r] lies between the left edge
    (included) and the right edge (excluded) of the bin. (With rounded
    logarithms and quotients a radius on an edge can land on either side of
    it.) *)
Theorem bin_edges (cl : Call) (r : R) (b : Z) :
  0 < arg_dr_min cl -> (arg_LogBin cl = true -> 1 < arg_LogBinRatio cl) ->
  0 <= r -> (0 <= b)%Z ->
  (cell_bin cl r = b <-> left_edge cl b <= r < right_edge cl b).
Proof.
  intros Hd Hq Hr Hb. rewrite cell_bin_spec by auto.
  unfold spec_bin, left_edge, right_edge.
  destruct (arg_LogBin cl) eqn:Hlog.
  - specialize (Hq eq_refl).
    set (d := arg_dr_min cl) in *. set (q := arg_LogBinRatio cl) in *.
    assert (Hq0 : 0 < q) by lra.
    destruct (Rlt_dec r d) as [Hlt|Hge].
    + destruct (Z.eqb_spec b 0) as [->|Hne].
      * rewrite Rpower_O by exact Hq0. split; [intros _; lra | reflexivity].
      * split; [intros E; lia|]. intros [H1 _]. exfalso.
        assert (H2 := Rpower_ge_1 q (IZR (b - 1)) Hq ltac:(apply IZR_le; lia)).
        assert (d * 1 <= d * Rpower q (IZR (b - 1)))
          by (apply Rmult_le_compat_l; lra).
        lra.
    + assert (Hx : 0 < r / d).
      { assert (1 <= r / d) by (apply quotient_ge_1; lra). lra. }
      destruct (Z.eqb_spec b 0) as [->|Hne].
      * rewrite Rpower_O by exact Hq0. split.
        -- intros E. exfalso.
           assert (0 <= floorZ (ln (r / d) / ln q))%Z; [|lia].
           apply floorZ_nonneg, ln_quotient_nonneg; auto.
           apply quotient_ge_1; lra.
        -- intros [_ H]; lra.
      * split.
        -- intros E.
           assert (F : floorZ (ln (r / d) / ln q) = (b - 1)%Z) by lia.
           apply floorZ_iff in F. destruct F as [F1 F2].
           apply ln_over_ln_le in F1; auto.
           replace (IZR (b - 1) + 1) with (IZR b) in F2
             by (rewrite minus_IZR; lra).
           apply ln_over_ln_lt in F2; auto.
           apply quotient_scale in F1; auto.
           apply quotient_scale_lt in F2; auto.
        -- intros [H1 H2].
           assert (F : floorZ (ln (r / d) / ln q) = (b - 1)%Z); [|lia].
           apply floorZ_iff. split.
           ++ apply ln_over_ln_le; auto. apply quotient_scale; auto.
           ++ replace (IZR (b - 1) + 1) with (IZR b)
                by (rewrite minus_IZR; lra).
              apply ln_over_ln_lt; auto. apply quotient_scale_lt; auto.
  - set (d := arg_dr_min cl) in *.
    assert (Hl : (if (b =? 0)%Z then 0 else (IZR (b - 1) + 1) * d) = IZR b * d).
    { destruct (Z.eqb_spec b 0) as [->|Hne]; [lra|].
      rewrite minus_IZR; lra. }
    rewrite Hl, floorZ_iff.
    split; intros [H1 H2]; split.
    + apply quotient_scale in H1; auto; lra.
    + apply quotient_scale_lt in H2; auto; lra.
    + apply quotient_scale; auto; lra.
    + apply quotient_scale_lt; auto; lra.
Qed.

Lemma log_call_edges :
  left_edge log_call 2 = 2 /\ right_edge log_call 2 = 4.
Proof.
  unfold left_edge, right_edge; simpl.
  assert (H1 : Rpower 2 1 = 2) by (apply Rpower_1; lra).
  assert (H2 : Rpower 2 2 = 4).
  { replace 2 with (1 + 1) at 2 by lra. rewrite Rpower_plus, H1. lra. }
  rewrite H1, H2. split; lra.
Qed.

Lemma bin_edges_witness :
  0 < arg_dr_min log_call /\
  (cell_bin log_call 3 = 2%Z <-> left_edge log_call 2 <= 3 < right_edge log_call 2) /\
  left_edge log_call 2 = 2 /\
  (cell_bin log_call 2 = 2%Z <-> left_edge log_call 2 <= 2 < right_edge log_call 2) /\
  cell_bin log_call 2 = 2%Z.
Proof.
  assert (H0 : 0 < arg_dr_min log_call) by (simpl; lra).
  assert (H1 : arg_LogBin log_call = true -> 1 < arg_LogBinRatio log_call)
    by (intros _; simpl; lra).
  assert (Hin := bin_edges log_call 3 2 H0 H1 ltac:(lra) ltac:(lia)).
  assert (Hedge := bin_edges log_call 2 2 H0 H1 ltac:(lra) ltac:(lia)).
  destruct log_call_edges as [EL ER].
  split; [exact H0|]. split; [exact Hin|]. split; [exact EL|].
  split; [exact Hedge|].
  apply Hedge. rewrite EL, ER. lra.
Defined.

Lemma radial_coordinate_bin (cl : Call) (b : Z) :
  0 < arg_dr_min cl -> (arg_LogBin cl = true -> 1 < arg_LogBinRatio cl) ->
  (0 <= b)%Z ->
  0 < radial_coordinate cl b /\ cell_bin cl (radial_coordinate cl b) = b.
Proof.
  intros Hd Hq Hb.
  assert (Hpos : 0 < radial_coordinate cl b).
  { unfold radial_coordinate; destruct (arg_LogBin cl).
    - apply Rmult_lt_0_compat; [exact Hd | apply exp_pos].
    - apply Rmult_lt_0_compat; [|exact Hd].
      apply IZR_le in Hb; lra. }
  split; [exact Hpos|].
  rewrite cell_bin_spec by (auto; lra).
  unfold spec_bin, radial_coordinate in *.
  destruct (arg_LogBin cl) eqn:Hlog.
  - specialize (Hq eq_refl).
    set (d := arg_dr_min cl) in *. set (q := arg_LogBinRatio cl) in *.
    assert (Hl := ln_ratio_pos q Hq).
    assert (Hquot : ln (d * Rpower q (IZR b - 0.5) / d) / ln q = IZR b - 0.5).
    { replace (d * Rpower q (IZR b - 0.5) / d) with (Rpower q (IZR b - 0.5))
        by (field; lra).
      unfold Rpower; rewrite ln_exp; field; lra. }
    destruct (Rlt_dec (d * Rpower q (IZR b - 0.5)) d) as [Hlt|Hge].
    + destruct (Z.eq_dec b 0) as [->|Hne]; [reflexivity|]. exfalso.
      assert (H2 := Rpower_ge_1 q (IZR b - 0.5) Hq).
      assert (1 <= IZR b) by (apply IZR_le; lia).
      specialize (H2 ltac:(lra)).
      assert (d * 1 <= d * Rpower q (IZR b - 0.5))
        by (apply Rmult_le_compat_l; lra).
      lra.
    + rewrite Hquot.
      destruct (Z.eq_dec b 0) as [->|Hne].
      * exfalso. apply Hge.
        assert (Rpower q (0 - 0.5) < 1).
        { unfold Rpower; rewrite <- exp_0; apply exp_increasing.
          assert (0 < 0.5 * ln q) by (apply Rmult_lt_0_compat; lra). lra. }
        replace d with (d * 1) at 2 by lra.
        apply Rmult_lt_compat_l; auto.
      * assert (F : floorZ (IZR b - 0.5) = (b - 1)%Z); [|lia].
        apply floorZ_unique; rewrite minus_IZR; lra.
  - set (d := arg_dr_min cl) in *.
    replace ((IZR b + 0.5) * d / d) with (IZR b + 0.5) by (field; lra).
    apply floorZ_unique; lra.
Qed.

Lemma radial_coordinate_inside (cl : Call) (b : Z) :
  0 < arg_dr_min cl -> (arg_LogBin cl = true -> 1 < arg_LogBinRatio cl) ->
  (0 <= b)%Z ->
  left_edge cl b < radial_coordinate cl b < right_edge cl b.
Proof.
  intros Hd Hq Hb.
  destruct (radial_coordinate_bin cl b Hd Hq Hb) as [Hpos _].
  unfold left_edge, right_edge, radial_coordinate in *.
  destruct (arg_LogBin cl) eqn:Hlog.
  - specialize (Hq eq_refl).
    split.
    + destruct (Z.eqb_spec b 0) as [->|Hne]; [exact Hpos|].
      apply Rmult_lt_compat_l; [exact Hd|].
      apply Rpower_lt; [exact Hq | rewrite minus_IZR; lra].
    + apply Rmult_lt_compat_l; [exact Hd|].
      apply Rpower_lt; [exact Hq | lra].
  - split.
    + destruct (Z.eqb_spec b 0) as [->|Hne]; [exact Hpos|].
      rewrite minus_IZR.
      assert (0 < 0.5 * arg_dr_min cl) by lra. lra.
    + assert (0 < 0.5 * arg_dr_min cl) by lra. lra.
Qed.

(** X5. Round trip between the two bin formulas: the radial coordinate the
    geometry loop records for bin [b] is a radius the accumulation assigns to
    bin [b], strictly between the edges of the bin. *)
Theorem radius_in_own_bin (cl : Call) (Prof P1 : list Profile_t) :
  0 < arg_dr_min cl -> (arg_LogBin cl = true -> 1 < arg_LogBinRatio cl) ->
  configure cl Prof = Ok P1 ->
  forall pr, In pr P1 ->
    forall b, (0 <= b < NBin pr)%Z ->
      cell_bin cl (entry (Radius pr) b) = b /\
      left_edge cl b < entry (Radius pr) b < right_edge cl b.
Proof.
  intros Hd Hq Hc pr Hin b Hb.
  apply configure_inv in Hc. destruct Hc as [_ Hall].
  rewrite Forall_forall in Hall. specialize (Hall pr Hin).
  destruct Hall as (_ & _ & _ & _ & _ & _ & _ & _ & _ & Hrad).
  rewrite (Hrad b Hb).
  split.
  - apply radial_coordinate_bin; auto; lia.
  - apply radial_coordinate_inside; auto; lia.
Qed.

Lemma radius_in_own_bin_witness :
  0 < arg_dr_min log_call /\
  exists P1,
    configure log_call [fresh_profile] = Ok P1 /\
    forall pr, In pr P1 ->
      forall b, (0 <= b < NBin pr)%Z ->
        cell_bin log_call (entry (Radius pr) b) = b /\
        left_edge log_call b < entry (Radius pr) b < right_edge log_call b.
Proof.
  assert (H0 : 0 < arg_dr_min log_call) by (simpl; lra).
  assert (H1 : arg_LogBin log_call = true -> 1 < arg_LogBinRatio log_call)
    by (intros _; simpl; lra).
  split; [exact H0|].
  destruct (configure_ok log_call [fresh_profile]) as [P1 [Hc _]].
  exists P1; split; [exact Hc|].
  exact (radius_in_own_bin log_call [fresh_profile] P1 H0 H1 Hc).
Defined.

(* ------------------------------------------------------------------ *)
(** ** Real sums over the cells *)

Lemma for_steps_sumR {S} (Q : R -> S -> Prop) (E : error -> Prop)
    (w : Z -> R) (body : Z -> S -> result S) :
  forall (n : nat) (lo : Z) (m : R) (s : S),
    Q m s ->
    (forall i m s, (lo <= i < lo + Z.of_nat n)%Z -> Q m s ->
                   post (Q (m + w i)) E (body i s)) ->
    post (Q (m + sumR w (seqZ lo n))) E (for_steps n lo body s).
Proof.
  induction n as [|n IH]; intros lo m s H0 Hstep; cbn [for_steps seqZ].
  - simpl. rewrite Rplus_0_r. exact H0.
  - apply post_bind.
    assert (Hb := Hstep lo m s ltac:(lia) H0).
    destruct (body lo s) as [s'|e]; simpl in *; auto.
    assert (P := IH (lo + 1)%Z (m + w lo) s' Hb
                    (fun i m' t Hi => Hstep i m' t ltac:(lia))).
    destruct (for_steps n (lo + 1) body s') as [r|e]; simpl in *; auto.
    rewrite <- Rplus_assoc. exact P.
Qed.

Lemma for_Z_sumR {S} (Q : R -> S -> Prop) (E : error -> Prop)
    (w : Z -> R) (body : Z -> S -> result S) (lo hi : Z) (m : R) (s : S) :
  Q m s ->
  (forall i m s, (lo <= i < hi)%Z -> Q m s -> post (Q (m + w i)) E (body i s)) ->
  post (Q (m + sumR w (seqZ lo (Z.to_nat (hi - lo))))) E (for_Z lo hi body s).
Proof.
  intros H0 Hstep; unfold for_Z; apply for_steps_sumR; auto.
  intros i m' t Hi; apply Hstep; lia.
Qed.

Lemma for_patches_sumR {S} (Q : R -> S -> Prop) (E : error -> Prop)
    (w : patch_t -> R) (body : patch_t -> S -> result S) :
  forall (l : list patch_t) (m : R) (s : S),
    Q m s ->
    (forall pt m s, In pt l -> Q m s -> post (Q (m + w pt)) E (body pt s)) ->
    post (Q (m + sumR w l)) E (for_patches body l s).
Proof.
  induction l as [|pt l IH]; intros m s H0 Hstep; cbn [for_patches].
  - simpl. rewrite Rplus_0_r. exact H0.
  - apply post_bind.
    assert (Hb := Hstep pt m s (or_introl eq_refl) H0).
    destruct (body pt s) as [s'|e]; simpl in *; auto.
    assert (P := IH (m + w pt) s' Hb
                    (fun pt' m' t Hi => Hstep pt' m' t (or_intror Hi))).
    destruct (for_patches body l s') as [r|e]; simpl in *; auto.
    rewrite <- Rplus_assoc. exact P.
Qed.

Lemma fold_sums_sumR {A} (Q : R -> list omp_t -> Prop) (g : A -> R) :
  (forall n m a b, Q n a -> Q m b -> Q (n + m) (sums_add a b)) ->
  forall (l : list A) (ts : list (list omp_t)) (m : R) (a : list omp_t),
    Q m a ->
    Forall2 (fun x t => Q (g x) t) l ts ->
    Q (m + sumR g l) (fold_left sums_add ts a).
Proof.
  intros Hadd l ts m a H0 F; revert m a H0.
  induction F as [|x t l ts Hx F IH]; intros m a H0; simpl.
  - rewrite Rplus_0_r; exact H0.
  - rewrite <- Rplus_assoc. apply IH, Hadd; auto.
Qed.

(* ------------------------------------------------------------------ *)
(** ** The induction principle of the accumulation, for real sums *)

Section AccumulationR.

Variables (cf : Config) (amr : AMR_t) (cl : Call).
Variables (NProf : nat) (NBin0 : Z) (r_max2 : R).

Variable Q : R -> list omp_t -> Prop.
Variable E : error -> Prop.
Variable w : Z -> patch_t -> Z -> Z -> Z -> R.

Hypothesis Q_zero : Q 0 (repeat (zero_omp NBin0) NProf).

Hypothesis Q_cell :
  forall lv pt k j i n omp,
    visited cf amr cl lv pt k j i ->
    Q n omp ->
    post (Q (n + w lv pt k j i)) E
         (accumulate_cell cf cl NBin0 r_max2 pt (CUBE (dh amr lv)) k j i
            (offset amr cl (dh amr lv) pt 0 i)
            (offset amr cl (dh amr lv) pt 1 j)
            (offset amr cl (dh amr lv) pt 2 k) omp).

Hypothesis Q_add :
  forall n m a b, Q n a -> Q m b -> Q (n + m) (sums_add a b).

Lemma accumulate_patch_sumR (lv : Z) (pt : patch_t) (n : R)
    (omp : list omp_t) :
  (lv_min cl <= lv <= lv_max cf cl)%Z ->
  patch_at amr lv pt ->
  Q n omp ->
  post (Q (n + sumR_patch cf (w lv) pt)) E
       (accumulate_patch cf amr cl NBin0 r_max2 (dh amr lv)
                         (CUBE (dh amr lv)) pt omp).
Proof.
  intros Hlv Hpt H0; unfold accumulate_patch, sumR_patch.
  destruct (son pt =? -1)%Z eqn:Hson.
  - apply Z.eqb_eq in Hson.
    replace (Z.to_nat (PS1 cf)) with (Z.to_nat (PS1 cf - 0)) by (f_equal; lia).
    apply (for_Z_sumR Q E); auto.
    intros k m s Hk Hm.
    apply (for_Z_sumR Q E); auto.
    intros j m1 s1 Hj Hm1.
    apply (for_Z_sumR Q E); auto.
    intros i m2 s2 Hi Hm2.
    apply Q_cell; auto.
    unfold visited; repeat split; auto; lia.
  - simpl. rewrite Rplus_0_r. exact H0.
Qed.

Lemma accumulate_thread_sumR (share : share_t) :
  In share (shares amr) ->
  post (Q (sumR_share cf (considered_levels cf cl) w share)) E
       (accumulate_thread cf amr cl NProf NBin0 r_max2 share).
Proof.
  intros Hsh; unfold accumulate_thread, sumR_share, considered_levels.
  assert (P : post
    (Q (0 + sumR (fun lv => sumR (sumR_patch cf (w lv)) (share lv))
                 (seqZ (lv_min cl) (Z.to_nat (lv_max cf cl + 1 - lv_min cl)))))
    E
    (for_Z (lv_min cl) (lv_max cf cl + 1)
       (fun lv omp =>
          for_patches
            (accumulate_patch cf amr cl NBin0 r_max2 (dh amr lv)
                              (CUBE (dh amr lv))) (share lv) omp)
       (repeat (zero_omp NBin0) NProf))).
  { apply (for_Z_sumR Q E); auto.
    intros lv m s Hlv Hm.
    apply (for_patches_sumR Q E); auto.
    intros pt m1 s1 Hpt Hm1.
    apply accumulate_patch_sumR; auto; [lia|].
    exists share; auto. }
  rewrite Rplus_0_l in P. exact P.
Qed.

Lemma accumulate_rank_sumR (rk : rank_t) :
  In rk (root amr :: ranks amr) ->
  post (Q (sumR_rank cf (considered_levels cf cl) w rk)) E
       (accumulate_rank cf amr cl NProf NBin0 r_max2 rk).
Proof.
  intros Hrk; unfold accumulate_rank, sumR_rank.
  assert (Hin : forall sh, In sh (thread0 rk :: threads rk) -> In sh (shares amr)).
  { intros sh Hsh; unfold shares; apply in_flat_map; exists rk; auto. }
  apply post_bind.
  assert (H0 := accumulate_thread_sumR (thread0 rk) (Hin _ (or_introl eq_refl))).
  destruct (accumulate_thread cf amr cl NProf NBin0 r_max2 (thread0 rk))
    as [t0|e]; simpl in *; auto.
  apply post_bind.
  assert (Hts := all_ok_post
                   (fun sh t => Q (sumR_share cf (considered_levels cf cl) w sh) t)
                   E (accumulate_thread cf amr cl NProf NBin0 r_max2)
                   (threads rk)
                   (fun sh Hsh => accumulate_thread_sumR sh (Hin sh (or_intror Hsh)))).
  destruct (all_ok _) as [ts|e]; simpl in *; auto.
  apply (fold_sums_sumR Q); auto.
Qed.

Theorem collect_sumR :
  post (Q (sumR_cells cf amr (considered_levels cf cl) w)) E
       (collect cf amr cl NProf NBin0 r_max2).
Proof.
  unfold collect, sumR_cells.
  apply post_bind.
  assert (H0 := accumulate_rank_sumR (root amr) (or_introl eq_refl)).
  destruct (accumulate_rank cf amr cl NProf NBin0 r_max2 (root amr))
    as [r0|e]; simpl in *; auto.
  apply post_bind.
  assert (Hrs := all_ok_post
                   (fun rk t => Q (sumR_rank cf (considered_levels cf cl) w rk) t)
                   E (accumulate_rank cf amr cl NProf NBin0 r_max2)
                   (ranks amr)
                   (fun rk Hrk => accumulate_rank_sumR rk (or_intror Hrk))).
  destruct (all_ok _) as [rs|e]; simpl in *; auto.
  apply (fold_sums_sumR Q); auto.
Qed.

End AccumulationR.

(* ------------------------------------------------------------------ *)
(** ** The contents of one bin *)

Lemma cells_add_cell_other (bin b : Z) (c w : R) (o : omp_t) :
  (0 <= bin)%Z -> (0 <= b)%Z -> bin <> b ->
  cells (OMP_NCell (add_cell bin c w o)) b = cells (OMP_NCell o) b.
Proof.
  intros H1 H2 H3; unfold cells, add_cell; simpl.
  apply nth_upd_neq; lia.
Qed.

Lemma entry_add_cell (n bin b : Z) (c w : R) (o : omp_t) :
  omp_wf n o -> (0 <= bin < n)%Z -> (0 <= b)%Z ->
  entry (OMP_Data (add_cell bin c w o)) b
  = entry (OMP_Data o) b + (if (bin =? b)%Z then c else 0) /\
  entry (OMP_Weight (add_cell bin c w o)) b
  = entry (OMP_Weight o) b + (if (bin =? b)%Z then w else 0).
Proof.
  intros [Wd [Ww _]] Hbin Hb; unfold entry, add_cell; simpl.
  destruct (Z.eqb_spec bin b) as [->|Hne].
  - rewrite !nth_upd_eq by lia. unfold entry. split; reflexivity.
  - rewrite !nth_upd_neq by lia. split; lra.
Qed.

Lemma counted_0_not_in_bin (amr : AMR_t) (cl : Call) (NBin0 : Z) (r_max2 : R)
    (b lv : Z) (pt : patch_t) (k j i : Z) :
  (b < NBin0)%Z ->
  counted cl NBin0 r_max2 (cell_r2 amr cl (dh amr lv) pt k j i) = 0%Z ->
  in_bin amr cl r_max2 b lv pt k j i = false.
Proof.
  intros Hb; unfold counted, in_bin; cbv zeta.
  destruct (Rlt_dec _ _); [|reflexivity].
  destruct (Z.geb_spec (cell_bin cl (sqrt (cell_r2 amr cl (dh amr lv) pt k j i)))
                       NBin0); [|discriminate].
  intros _; apply Z.eqb_neq; lia.
Qed.

Lemma in_bin_inside (amr : AMR_t) (cl : Call) (r_max2 : R)
    (b lv : Z) (pt : patch_t) (k j i : Z) :
  cell_r2 amr cl (dh amr lv) pt k j i < r_max2 ->
  in_bin amr cl r_max2 b lv pt k j i
  = (cell_bin cl (sqrt (cell_r2 amr cl (dh amr lv) pt k j i)) =? b)%Z.
Proof.
  intros H; unfold in_bin; cbv zeta. destruct (Rlt_dec _ _); [reflexivity | tauto].
Qed.

(** The count of bin [b] after the reduction is the number of leaf cells in
    the bin. *)
Lemma sums_bin_count (cf : Config) (amr : AMR_t) (cl : Call)
    (NProf : nat) (NBin0 : Z) (r_max2 : R) (sums : list omp_t) (b : Z) :
  (0 <= b < NBin0)%Z ->
  collect cf amr cl NProf NBin0 r_max2 = Ok sums ->
  forall p o, nth_error sums p = Some o ->
              cells (OMP_NCell o) b = cells_in_bin cf amr cl r_max2 b.
Proof.
  intros Hb H.
  assert (P : post
                (fun omp => omp_all_wf NProf NBin0 omp /\
                   forall p o, nth_error omp p = Some o ->
                     cells (OMP_NCell o) b = cells_in_bin cf amr cl r_max2 b)
                (fun _ => True)
                (collect cf amr cl NProf NBin0 r_max2));
    [|rewrite H in P; exact (proj2 P)].
  unfold cells_in_bin.
  apply (collect_post cf amr cl NProf NBin0 r_max2
           (fun n omp => omp_all_wf NProf NBin0 omp /\
                         forall p o, nth_error omp p = Some o ->
                                     cells (OMP_NCell o) b = n)
           (fun _ => True)).
  - split; [apply zeros_wf|].
    intros p o Ho; apply nth_error_zeros in Ho; destruct Ho as [-> Hp].
    unfold cells, zero_omp; simpl. apply nth_repeat_default.
  - intros lv pt k j i n omp V [W HJ].
    destruct (accumulate_cell _ _ _ _ _ _ _ _ _ _ _ _ _) as [omp'|e] eqn:Hc;
      simpl; auto.
    apply accumulate_cell_inv in Hc.
    fold (cell_r2 amr cl (dh amr lv) pt k j i) in Hc.
    destruct Hc as [[Hc ->] | [Hc [Hr [Hlt Ha]]]].
    + rewrite (counted_0_not_in_bin amr cl NBin0) by (auto; lia).
      rewrite Z.add_0_r; auto.
    + split; [eapply cell_added_wf; eauto|].
      intros p o' Ho'.
      destruct Ha as [L Ha].
      destruct (nth_error omp p) as [o|] eqn:Eo.
      * destruct (Ha p o Eo) as [Hb0 [c [w [Hcw Hn]]]].
        rewrite Hn in Ho'; inv_ok Ho'.
        rewrite in_bin_inside by exact Hr.
        assert (Wo := omp_all_wf_nth _ _ _ _ _ W Eo).
        destruct (Z.eqb_spec (cell_bin cl (sqrt (cell_r2 amr cl (dh amr lv) pt k j i))) b)
          as [Eb|Eb].
        -- rewrite <- Eb at 1. rewrite (cells_add_cell NBin0) by (auto; lia).
           rewrite Eb, (HJ p o Eo). reflexivity.
        -- rewrite cells_add_cell_other by (auto; lia).
           rewrite (HJ p o Eo). lia.
      * apply nth_error_None in Eo.
        assert (p < length omp')%nat by (apply nth_error_Some; congruence).
        lia.
  - intros n m x y [Wa Ja] [Wb Jb]; split; [apply sums_add_wf; auto|].
    intros p o Ho.
    apply nth_error_map2 in Ho; destruct Ho as [u [v [Hu [Hv ->]]]].
    assert (Wu := omp_all_wf_nth _ _ _ _ _ Wa Hu).
    assert (Wv := omp_all_wf_nth _ _ _ _ _ Wb Hv).
    destruct Wu as [_ [_ Wu]]. destruct Wv as [_ [_ Wv]].
    unfold cells, omp_add; simpl.
    rewrite (nth_map2 Z.add 0%Z 0%Z) by lia.
    rewrite <- (Ja p u Hu), <- (Jb p v Hv). reflexivity.
Qed.

(** The data and the weight of bin [b] after the reduction are the sums of
    what the leaf cells in the bin add; [sel] selects one of the two. *)
Lemma sums_bin_terms (cf : Config) (amr : AMR_t) (cl : Call)
    (NProf : nat) (NBin0 : Z) (r_max2 : R) (sums : list omp_t) (b : Z) (p : nat)
    (sel : R * R -> R) :
  sel (0, 0) = 0 ->
  (forall a c x y, sel (a + x, c + y) = sel (a, c) + sel (x, y)) ->
  (0 <= b < NBin0)%Z ->
  collect cf amr cl NProf NBin0 r_max2 = Ok sums ->
  forall o, nth_error sums p = Some o ->
    sel (entry (OMP_Data o) b, entry (OMP_Weight o) b)
    = sumR_cells cf amr (considered_levels cf cl)
        (fun lv pt k j i =>
           if in_bin amr cl r_max2 b lv pt k j i
           then sel (cell_terms cf amr cl p lv pt k j i) else 0).
Proof.
  intros S0 Sadd Hb H.
  assert (P : post
                (fun omp => omp_all_wf NProf NBin0 omp /\
                   forall o, nth_error omp p = Some o ->
                     sel (entry (OMP_Data o) b, entry (OMP_Weight o) b)
                     = sumR_cells cf amr (considered_levels cf cl)
                         (fun lv pt k j i =>
                            if in_bin amr cl r_max2 b lv pt k j i
                            then sel (cell_terms cf amr cl p lv pt k j i) else 0))
                (fun _ => True)
                (collect cf amr cl NProf NBin0 r_max2));
    [|rewrite H in P; exact (proj2 P)].
  apply (collect_sumR cf amr cl NProf NBin0 r_max2
           (fun n omp => omp_all_wf NProf NBin0 omp /\
                         forall o, nth_error omp p = Some o ->
                           sel (entry (OMP_Data o) b, entry (OMP_Weight o) b) = n)
           (fun _ => True)).
  - split; [apply zeros_wf|].
    intros o Ho; apply nth_error_zeros in Ho; destruct Ho as [-> Hp].
    unfold entry, zero_omp; simpl. rewrite !nth_repeat_default. exact S0.
  - intros lv pt k j i n omp V [W HJ].
    destruct (accumulate_cell _ _ _ _ _ _ _ _ _ _ _ _ _) as [omp'|e] eqn:Hc;
      simpl; auto.
    apply accumulate_cell_inv in Hc.
    fold (cell_r2 amr cl (dh amr lv) pt k j i) in Hc.
    destruct Hc as [[Hc ->] | [Hc [Hr [Hlt Ha]]]].
    + rewrite (counted_0_not_in_bin amr cl NBin0) by (auto; lia).
      rewrite Rplus_0_r; auto.
    + split; [eapply cell_added_wf; eauto|].
      intros o' Ho'.
      destruct Ha as [L Ha].
      destruct (nth_error omp p) as [o|] eqn:Eo.
      * destruct (Ha p o Eo) as [Hb0 [c [w [Hcw Hn]]]].
        rewrite Hn in Ho'; inv_ok Ho'.
        rewrite in_bin_inside by exact Hr.
        assert (Wo := omp_all_wf_nth _ _ _ _ _ W Eo).
        destruct (entry_add_cell NBin0
                    (cell_bin cl (sqrt (cell_r2 amr cl (dh amr lv) pt k j i)))
                    b c w o Wo ltac:(lia) ltac:(lia)) as [Ed Ew].
        rewrite Ed, Ew, Sadd, (HJ o eq_refl).
        assert (Ht : cell_terms cf amr cl p lv pt k j i = (c, w)).
        { unfold cell_terms; cbv zeta. rewrite Hcw. reflexivity. }
        rewrite Ht.
        destruct (Z.eqb_spec
                    (cell_bin cl (sqrt (cell_r2 amr cl (dh amr lv) pt k j i))) b);
          [reflexivity | rewrite S0; reflexivity].
      * apply nth_error_None in Eo.
        assert (p < length omp')%nat by (apply nth_error_Some; congruence).
        lia.
  - intros n m x y [Wa Ja] [Wb Jb]; split; [apply sums_add_wf; auto|].
    intros o Ho.
    apply nth_error_map2 in Ho; destruct Ho as [u [v [Hu [Hv ->]]]].
    assert (Wu := omp_all_wf_nth _ _ _ _ _ Wa Hu).
    assert (Wv := omp_all_wf_nth _ _ _ _ _ Wb Hv).
    destruct Wu as [Wu1 [Wu2 _]]. destruct Wv as [Wv1 [Wv2 _]].
    unfold entry, omp_add; simpl.
    rewrite !(nth_map2 Rplus 0 0) by lia.
    rewrite Sadd. unfold entry in Ja, Jb.
    rewrite (Ja u Hu), (Jb v Hv). reflexivity.
Qed.

(* ------------------------------------------------------------------ *)
(** ** The contents of the bins of a call *)

Lemma entry_visible (n : Z) (a a' : list R) (b : Z) :
  firstn (Z.to_nat n) a = a' -> (0 <= b < n)%Z -> entry a b = entry a' b.
Proof.
  intros <- Hb; unfold entry. rewrite nth_firstn.
  replace (Z.to_nat b <? Z.to_nat n)%nat with true
    by (symmetry; apply Nat.ltb_lt; lia).
  reflexivity.
Qed.

Lemma cells_visible (n : Z) (a a' : list Z) (b : Z) :
  firstn (Z.to_nat n) a = a' -> (0 <= b < n)%Z -> cells a b = cells a' b.
Proof.
  intros <- Hb; unfold cells. rewrite nth_firstn.
  replace (Z.to_nat b <? Z.to_nat n)%nat with true
    by (symmetry; apply Nat.ltb_lt; lia).
  reflexivity.
Qed.

(** What a call that keeps the empty bins returns, bin by bin, from the sums
    of the reduction. *)
Lemma Aux_Return_kept (cf : Config) (amr : AMR_t) (cl : Call)
    (Prof P5 : list Profile_t) :
  arg_RemoveEmpty cl = false ->
  Aux_ComputeProfile cf amr cl Prof = Return P5 ->
  exists sums,
    (2 <= initial_NBin cl)%Z /\
    collect cf amr cl (length Prof) (initial_NBin cl) (SQR (outer_radius cl))
    = Ok sums /\
    length P5 = length Prof /\
    forall p pr, nth_error P5 p = Some pr ->
      exists o,
        nth_error sums p = Some o /\ omp_wf (initial_NBin cl) o /\
        NBin pr = initial_NBin cl /\
        Center pr = arg_Center cl /\ LogBin pr = arg_LogBin cl /\
        MaxRadius pr
        = extrapolate cl (radial_coordinate cl (initial_NBin cl - 1))
                         (radial_coordinate cl (initial_NBin cl - 2)) /\
        forall b, (0 <= b < initial_NBin cl)%Z ->
          entry (Radius pr) b = radial_coordinate cl b /\
          entry (Weight pr) b = entry (OMP_Weight o) b /\
          cells (NCell pr) b = cells (OMP_NCell o) b /\
          entry (Data pr) b
          = normalized_value (arg_TVar cl p) (cells (OMP_NCell o) b)
                             (entry (OMP_Data o) b) (entry (OMP_Weight o) b).
Proof.
  intros Hre H.
  destruct (Aux_Return_visible _ _ _ _ _ H)
    as [sums [mask [Hpos [Ec [Lm [L5 Hp]]]]]].
  exists sums.
  assert (H2 : (2 <= initial_NBin cl)%Z).
  { destruct P5 as [|pr5 P5'].
    - apply collect_wf in Ec. destruct Ec as [Ls _].
      destruct (Aux_Return_profiles _ _ _ _ _ H)
        as [sums' [o0 [_ [Ec' [Ho0 [L _]]]]]].
      apply collect_wf in Ec'. destruct Ec' as [Ls' _].
      apply nth_error_length in Ho0. simpl in L. lia.
    - destruct (Hp 0%nat pr5 eq_refl)
        as [pr1 [o [pr3 [Ho [C1 [Wo [Hmask [Hn [Hcen [Hlog [Hratio [Nn [Vr [Vd [Vw [Vc [H2 Hm]]]]]]]]]]]]]]]]].
      rewrite Hre in Nn; unfold final_bins in Nn. lia. }
  split; [exact H2|]. split; [exact Ec|]. split; [exact L5|].
  intros p pr Hp5.
  destruct (Hp p pr Hp5)
    as [pr1 [o [pr3 [Ho [C1 [Wo [Hmask [Hn [Hcen [Hlog [Hratio [Nn [Vr [Vd [Vw [Vc [_ Hm]]]]]]]]]]]]]]]]].
  rewrite Hre in *; unfold final_bins in *.
  assert (HN : NBin pr = initial_NBin cl) by (rewrite Nn, Lm; lia).
  destruct C1 as [Cc [Cn [_ [Cl [_ [_ [_ [_ [_ Hrad]]]]]]]]].
  exists o. split; [exact Ho|]. split; [exact Wo|]. split; [exact HN|].
  split; [congruence|]. split; [congruence|].
  unfold visible in Vr, Vd, Vw, Vc; simpl in Vr, Vd, Vw, Vc.
  split.
  - rewrite Hm. unfold visible; simpl. rewrite Vr, HN.
    rewrite !Hrad by lia. reflexivity.
  - intros b Hb. rewrite <- HN in Hb.
    rewrite (entry_visible _ _ _ b Vr Hb), (entry_visible _ _ _ b Vw Hb),
            (cells_visible _ _ _ b Vc Hb), (entry_visible _ _ _ b Vd Hb).
    rewrite HN in Hb.
    split; [apply Hrad; lia|]. split; [reflexivity|].
    split; [rewrite Hmask; reflexivity|].
    destruct Hn as [data [Hpr3 [Ld Hx]]].
    rewrite Hpr3; simpl. exact (Hx b Hb).
Qed.

(** X1. The cell counts of a call that keeps the empty bins are the histogram of
    the leaf cells over the bins: [NCell[b]] is the number of leaf cells of the
    considered levels whose squared distance is below the squared outer radius
    and whose bin index is [b]. *)
Theorem bin_cell_count (cf : Config) (amr : AMR_t) (cl : Call)
    (Prof P5 : list Profile_t) :
  arg_RemoveEmpty cl = false ->
  Aux_ComputeProfile cf amr cl Prof = Return P5 ->
  forall pr, In pr P5 ->
    forall b, (0 <= b < NBin pr)%Z ->
      cells (NCell pr) b = cells_in_bin cf amr cl (SQR (outer_radius cl)) b.
Proof.
  intros Hre H pr Hin b Hb.
  destruct (Aux_Return_kept _ _ _ _ _ Hre H) as [sums [H2 [Ec [L5 Hp]]]].
  apply In_nth_error in Hin. destruct Hin as [p Hp5].
  destruct (Hp p pr Hp5) as [o [Ho [Wo [HN [_ [_ [_ Hbins]]]]]]].
  rewrite HN in Hb.
  destruct (Hbins b Hb) as [_ [_ [Hc _]]].
  rewrite Hc.
  exact (sums_bin_count _ _ _ _ _ _ _ b Hb Ec p o Ho).
Qed.

Lemma bin_cell_count_witness :
  arg_RemoveEmpty linear_call = false /\
  exists P5,
    Aux_ComputeProfile serial_build single_patch_amr linear_call
                       [fresh_profile] = Return P5 /\
    forall pr, In pr P5 ->
      forall b, (0 <= b < NBin pr)%Z ->
        cells (NCell pr) b
        = cells_in_bin serial_build single_patch_amr linear_call
                       (SQR (outer_radius linear_call)) b.
Proof.
  split; [reflexivity|].
  destruct (linear_call_returns serial_build single_patch_amr [fresh_profile])
    as [P5 H5]; [discriminate|].
  exists P5; split; [exact H5|].
  exact (bin_cell_count serial_build single_patch_amr linear_call
                        [fresh_profile] P5 eq_refl H5).
Defined.

(** X2. The profile of a call that keeps the empty bins, bin by bin: [Weight[b]]
    is the sum of the weights of the leaf cells in bin [b], and [Data[b]] is
    the sum of their data divided by that weight (for radial velocity only
    when the weight is positive; a bin without cells keeps the sum). *)
Theorem bin_weighted_average (cf : Config) (amr : AMR_t) (cl : Call)
    (Prof P5 : list Profile_t) :
  arg_RemoveEmpty cl = false ->
  Aux_ComputeProfile cf amr cl Prof = Return P5 ->
  forall p pr, nth_error P5 p = Some pr ->
    forall b, (0 <= b < NBin pr)%Z ->
      let D := data_in_bin cf amr cl (SQR (outer_radius cl)) p b in
      let W := weight_in_bin cf amr cl (SQR (outer_radius cl)) p b in
      entry (Weight pr) b = W /\
      ((0 < cells (NCell pr) b)%Z -> volume_weighted (arg_TVar cl p) ->
       entry (Data pr) b = D / W) /\
      ((0 < cells (NCell pr) b)%Z -> arg_TVar cl p = VRAD -> 0 < W ->
       entry (Data pr) b = D / W) /\
      (arg_TVar cl p = VRAD -> ~ 0 < W -> entry (Data pr) b = D) /\
      ((cells (NCell pr) b <= 0)%Z -> entry (Data pr) b = D).
Proof.
  intros Hre H p pr Hp5 b Hb D W.
  destruct (Aux_Return_kept _ _ _ _ _ Hre H) as [sums [H2 [Ec [L5 Hp]]]].
  destruct (Hp p pr Hp5) as [o [Ho [Wo [HN [_ [_ [_ Hbins]]]]]]].
  rewrite HN in Hb.
  destruct (Hbins b Hb) as [_ [Hw [Hc Hd]]].
  assert (ED : entry (OMP_Data o) b = D).
  { exact (sums_bin_terms cf amr cl _ _ _ sums b p fst eq_refl
             (fun _ _ _ _ => eq_refl) Hb Ec o Ho). }
  assert (EW : entry (OMP_Weight o) b = W).
  { exact (sums_bin_terms cf amr cl _ _ _ sums b p snd eq_refl
             (fun _ _ _ _ => eq_refl) Hb Ec o Ho). }
  rewrite Hd, Hw, Hc, ED, EW. unfold normalized_value.
  split; [reflexivity|].
  split; [|split; [|split]].
  - intros Hn Hq. destruct (Z.gtb_spec (cells (OMP_NCell o) b) 0); [|lia].
    destruct (arg_TVar cl p); simpl in Hq; tauto || reflexivity.
  - intros Hn Hq Hpos. destruct (Z.gtb_spec (cells (OMP_NCell o) b) 0); [|lia].
    rewrite Hq. destruct (Rlt_dec 0 W); [reflexivity | tauto].
  - intros Hq Hpos. rewrite Hq.
    destruct (cells (OMP_NCell o) b >? 0)%Z; [|reflexivity].
    destruct (Rlt_dec 0 W); [tauto | reflexivity].
  - intros Hn. destruct (Z.gtb_spec (cells (OMP_NCell o) b) 0); [lia|].
    reflexivity.
Qed.

Lemma bin_weighted_average_witness :
  arg_RemoveEmpty linear_call = false /\
  exists P5,
    Aux_ComputeProfile serial_build single_patch_amr linear_call
                       [fresh_profile] = Return P5 /\
    forall p pr, nth_error P5 p = Some pr ->
      forall b, (0 <= b < NBin pr)%Z ->
        let D := data_in_bin serial_build single_patch_amr linear_call
                             (SQR (outer_radius linear_call)) p b in
        let W := weight_in_bin serial_build single_patch_amr linear_call
                               (SQR (outer_radius linear_call)) p b in
        entry (Weight pr) b = W /\
        ((0 < cells (NCell pr) b)%Z -> volume_weighted (arg_TVar linear_call p) ->
         entry (Data pr) b = D / W) /\
        ((0 < cells (NCell pr) b)%Z -> arg_TVar linear_call p = VRAD -> 0 < W ->
         entry (Data pr) b = D / W) /\
        (arg_TVar linear_call p = VRAD -> ~ 0 < W -> entry (Data pr) b = D) /\
        ((cells (NCell pr) b <= 0)%Z -> entry (Data pr) b = D).
Proof.
  split; [reflexivity|].
  destruct (linear_call_returns serial_build single_patch_amr [fresh_profile])
    as [P5 H5]; [discriminate|].
  exists P5; split; [exact H5|].
  exact (bin_weighted_average serial_build single_patch_amr linear_call
                              [fresh_profile] P5 eq_refl H5).
Defined.

(* ------------------------------------------------------------------ *)
(** ** When a call returns *)

Lemma seqZ_length (lo : Z) (n : nat) : length (seqZ lo n) = n.
Proof. revert lo; induction n; intros lo; simpl; auto. Qed.

Lemma nth_seqZ (lo d : Z) (n i : nat) :
  (i < n)%nat -> nth i (seqZ lo n) d = (lo + Z.of_nat i)%Z.
Proof.
  revert lo i; induction n as [|n IH]; intros lo i Hi; [lia|].
  destruct i as [|i]; simpl seqZ; cbn [nth]; [lia|].
  rewrite IH by lia. lia.
Qed.

Lemma In_seqZ (lo x : Z) (n : nat) :
  In x (seqZ lo n) <-> (lo <= x < lo + Z.of_nat n)%Z.
Proof.
  revert lo; induction n as [|n IH]; intros lo; simpl; [lia|].
  rewrite IH. lia.
Qed.

Lemma sums_bin_counts (cf : Config) (amr : AMR_t) (cl : Call)
    (NProf : nat) (sums : list omp_t) :
  collect cf amr cl NProf (initial_NBin cl) (SQR (outer_radius cl)) = Ok sums ->
  forall p o, nth_error sums p = Some o -> OMP_NCell o = bin_counts cf amr cl.
Proof.
  intros Ec p o Ho.
  assert (W := collect_wf _ _ _ _ _ _ _ Ec).
  destruct (omp_all_wf_nth _ _ _ _ _ W Ho) as [_ [_ Wc]].
  unfold bin_counts.
  apply (nth_ext _ _ 0%Z (cells_in_bin cf amr cl (SQR (outer_radius cl)) 0%Z)).
  - rewrite length_map, seqZ_length. exact Wc.
  - intros i Hi. rewrite Wc in Hi.
    rewrite (map_nth (cells_in_bin cf amr cl (SQR (outer_radius cl)))).
    rewrite nth_seqZ by lia.
    assert (Hb : (0 <= Z.of_nat i < initial_NBin cl)%Z) by lia.
    assert (Hs := sums_bin_count cf amr cl NProf (initial_NBin cl)
                    (SQR (outer_radius cl)) sums (Z.of_nat i) Hb Ec p o Ho).
    unfold cells in Hs. rewrite Nat2Z.id in Hs. exact Hs.
Qed.

Lemma load_negative {A} (a : list A) (i : Z) :
  (i < 0)%Z -> load a i = Err OutOfBounds.
Proof.
  intros H; unfold load. destruct (Z.ltb_spec i 0); [reflexivity | lia].
Qed.

Lemma load_Err {A} (a : list A) (i : Z) (e : error) :
  load a i = Err e -> e = OutOfBounds.
Proof.
  unfold load. destruct (i <? 0)%Z; [congruence|].
  destruct (nth_error a (Z.to_nat i)); congruence.
Qed.

(** With fewer than two bins the update of the outer radius reads before the
    start of [Radius]. *)
Lemma update_MaxRadius_short (cl : Call) (pr : Profile_t)
    (rest : list Profile_t) :
  (NBin pr < 2)%Z -> update_MaxRadius cl (pr :: rest) = Err OutOfBounds.
Proof.
  intros H; unfold update_MaxRadius; cbn [for_each].
  destruct (load (Radius pr) (NBin pr - 1)) as [r1|e] eqn:E1; cbn [bind].
  - rewrite load_negative by lia. reflexivity.
  - apply load_Err in E1; subst e. reflexivity.
Qed.

(** A call with a valid configuration and supported quantities runs up to
    the update of the outer radius. *)
Lemma Aux_reaches_update (cf : Config) (amr : AMR_t) (cl : Call)
    (Prof : list Profile_t) :
  valid_configuration cl ->
  Prof <> [] ->
  (forall p, (p < length Prof)%nat -> supported (arg_TVar cl p)) ->
  exists p4 rest4,
    Aux_ComputeProfile cf amr cl Prof
    = stage (p4 :: rest4) (update_MaxRadius cl (p4 :: rest4)) Return /\
    Forall (fun pr => (NBin pr <= Z.of_nat (length (Radius pr)))%Z /\
                      (2 <= remaining_bins cf amr cl <-> 2 <= NBin pr)%Z)
           (p4 :: rest4).
Proof.
  intros V Hne Hq.
  destruct (reduced_returns_valid cf amr cl Prof V Hne Hq) as [P2 Hred].
  assert (Hred' := Hred). unfold reduced in Hred'. inv_bind Hred'.
  rename x into P1. rename E into E1. rename Hred' into E2.
  destruct (reduced_inv _ _ _ _ _ Hred) as [sums [Ec [L2 [En F2]]]].
  unfold Aux_ComputeProfile.
  rewrite (check_parameters_valid cf cl V), E1; cbn [stage].
  rewrite E2; cbn [stage].
  destruct (Z.ltb_spec (initial_NBin cl) 0) as [Hneg|Hpos].
  - (* no bin at all *)
    destruct P2 as [|p2 rest2]; [destruct Prof; [contradiction | discriminate L2]|].
    destruct (F2 0%nat p2 eq_refl) as [pr1 [o [Ho [Cp [Wo Hp2]]]]].
    assert (N2 : NBin p2 = initial_NBin cl).
    { rewrite Hp2; simpl. apply Cp. }
    assert (E3 : normalize_all cl (p2 :: rest2) = Ok (p2 :: rest2)).
    { rewrite En. apply normalize_empty; lia. }
    rewrite E3; cbn [stage].
    assert (E4 : remove_empty_bins cl (p2 :: rest2) = Ok (p2 :: rest2)).
    { apply remove_empty_bins_negative; lia. }
    rewrite E4; cbn [stage].
    exists p2, rest2. split; [reflexivity|].
    apply Forall_forall; intros pr Hin.
    apply In_nth_error in Hin; destruct Hin as [p Hp].
    destruct (F2 p pr Hp) as [pr1' [o' [_ [Cp' [_ Hpr]]]]].
    assert (Np : NBin pr = initial_NBin cl) by (rewrite Hpr; simpl; apply Cp').
    split; [lia|].
    unfold remaining_bins, bin_counts.
    replace (Z.to_nat (initial_NBin cl)) with 0%nat by lia.
    destruct (arg_RemoveEmpty cl); simpl; lia.
  - set (L := Z.to_nat (initial_NBin cl)).
    assert (W2 : Forall (prof_wf L) P2).
    { apply Forall_forall; intros pr2 Hpr2.
      apply In_nth_error in Hpr2; destruct Hpr2 as [p Hp].
      destruct (F2 p pr2 Hp) as [pr1 [o [_ [Cp [Wo ->]]]]].
      apply store_sums_wf; auto. }
    destruct (normalize_ok cl L (initial_NBin cl) P2 W2) as [P3 [E3 [L3 H3]]];
      [unfold L; lia|].
    rewrite En, E3; cbn [stage].
    assert (Hall : forall p pr3, nth_error P3 p = Some pr3 ->
                     prof_wf L pr3 /\ NBin pr3 = Z.of_nat L /\
                     NCell pr3 = bin_counts cf amr cl).
    { intros p pr3 Hp.
      destruct (nth_error_lt P2 p) as [pr2 Hp2];
        [rewrite <- L3; eapply nth_error_length; eauto|].
      destruct (H3 p pr2 Hp2) as [pr3' [Hp3 Hnorm]].
      rewrite Hp in Hp3; injection Hp3 as Hp3; subst pr3'.
      destruct (F2 p pr2 Hp2) as [pr1 [o [Ho [Cp [Wo Hpr2]]]]].
      destruct (store_sums_wf cl pr1 o Cp Wo Hpos) as [Wp Np].
      assert (Hf := normalized_fields _ _ _ _ Hnorm).
      destruct Hf as [_ [_ [_ [_ [Hnb [_ [_ Hnc]]]]]]].
      split; [eapply normalized_wf; eauto; rewrite Hpr2; exact Wp|].
      split; [rewrite Hnb, Hpr2; exact Np|].
      rewrite Hnc, Hpr2; simpl. eapply sums_bin_counts; eauto. }
    destruct P3 as [|p3 rest3].
    { destruct P2; [destruct Prof; [contradiction | discriminate L2]|].
      discriminate L3. }
    assert (Lc : length (bin_counts cf amr cl) = L).
    { unfold bin_counts. rewrite length_map, seqZ_length. reflexivity. }
    destruct (remove_empty_bins_ok cl L L p3 rest3) as [P4 [E4 H4]].
    { apply Forall_forall; intros pr Hin.
      apply In_nth_error in Hin; destruct Hin as [p Hp]. apply (Hall p pr Hp). }
    { apply Forall_forall; intros pr Hin.
      apply In_nth_error in Hin; destruct Hin as [p Hp]. apply (Hall p pr Hp). }
    rewrite E4; cbn [stage].
    destruct (Hall 0%nat p3 eq_refl) as [_ [_ Hc3]].
    unfold remaining_bins, final_bins.
    destruct (arg_RemoveEmpty cl).
    + rewrite Hc3 in H4.
      destruct P4 as [|p4 rest4]; [inversion H4|].
      exists p4, rest4. split; [reflexivity|].
      apply Forall_forall; intros pr Hin.
      apply In_nth_error in Hin; destruct Hin as [p Hp].
      destruct (Forall2_nth_error_r _ _ _ p pr H4 Hp) as [pr3 [_ Hcomp]].
      destruct Hcomp as (_ & _ & _ & _ & Hn & _ & _ & _ & _ & Wf).
      rewrite compact_from_0 in Hn by auto.
      destruct Wf as [Lr [_ [_ [_ Hb]]]].
      split; [lia|]. rewrite Hn. reflexivity.
    + subst P4. exists p3, rest3. split; [reflexivity|].
      apply Forall_forall; intros pr Hin.
      apply In_nth_error in Hin; destruct Hin as [p Hp].
      destruct (Hall p pr Hp) as [[Lr [_ [_ [_ Hb]]]] [Hn _]].
      split; [lia|]. rewrite Lc, Hn. reflexivity.
Qed.

(** X8. A call with a valid configuration and supported quantities returns
    exactly when at least two bins remain. With fewer, the update of the outer
    radius reads [Radius[NBin-2]] before the start of the array. *)
Theorem returns_iff_two_bins (cf : Config) (amr : AMR_t) (cl : Call)
    (Prof : list Profile_t) :
  valid_configuration cl ->
  Prof <> [] ->
  (forall p, (p < length Prof)%nat -> supported (arg_TVar cl p)) ->
  ((exists P5, Aux_ComputeProfile cf amr cl Prof = Return P5)
   <-> (2 <= remaining_bins cf amr cl)%Z) /\
  ((remaining_bins cf amr cl < 2)%Z ->
   exists st, Aux_ComputeProfile cf amr cl Prof = Fatal OutOfBounds st).
Proof.
  intros V Hne Hq.
  destruct (Aux_reaches_update cf amr cl Prof V Hne Hq)
    as [p4 [rest4 [Ea F4]]].
  assert (Hshort : (remaining_bins cf amr cl < 2)%Z ->
            Aux_ComputeProfile cf amr cl Prof = Fatal OutOfBounds (p4 :: rest4)).
  { intros Hlt. rewrite Ea.
    rewrite update_MaxRadius_short; [reflexivity|].
    inversion F4 as [|? ? [_ Hi] _]; subst. lia. }
  split; [split|].
  - intros [P5 E5].
    destruct (Z.lt_ge_cases (remaining_bins cf amr cl) 2) as [Hlt|Hge]; [|lia].
    rewrite (Hshort Hlt) in E5. discriminate E5.
  - intros Hge.
    destruct (update_MaxRadius_total cl (p4 :: rest4)) as [P5 E5].
    { eapply Forall_impl; [|exact F4]. intros pr [H1 H2]; simpl. lia. }
    exists P5. rewrite Ea, E5. reflexivity.
  - intros Hlt. exists (p4 :: rest4). apply Hshort; exact Hlt.
Qed.

(* ------------------------------------------------------------------ *)
(** ** Unsupported quantities *)

Lemma sum_patch_nonneg (cf : Config) (w : patch_t -> Z -> Z -> Z -> Z)
    (pt : patch_t) :
  (forall pt k j i, (0 <= w pt k j i)%Z) -> (0 <= sum_patch cf w pt)%Z.
Proof.
  intros Hw; unfold sum_patch. destruct (son pt =? -1)%Z; [|lia].
  apply sumZ_nonneg; intros; apply sumZ_nonneg; intros; apply sumZ_nonneg; auto.
Qed.

Lemma sum_share_nonneg (cf : Config) (lvs : list Z)
    (w : Z -> patch_t -> Z -> Z -> Z -> Z) (sh : share_t) :
  (forall lv pt k j i, (0 <= w lv pt k j i)%Z) -> (0 <= sum_share cf lvs w sh)%Z.
Proof.
  intros Hw; unfold sum_share.
  apply sumZ_nonneg; intros; apply sumZ_nonneg; intros.
  apply sum_patch_nonneg; auto.
Qed.

Lemma sum_rank_nonneg (cf : Config) (lvs : list Z)
    (w : Z -> patch_t -> Z -> Z -> Z -> Z) (rk : rank_t) :
  (forall lv pt k j i, (0 <= w lv pt k j i)%Z) -> (0 <= sum_rank cf lvs w rk)%Z.
Proof.
  intros Hw; unfold sum_rank.
  assert (0 <= sum_share cf lvs w (thread0 rk))%Z by (apply sum_share_nonneg; auto).
  assert (0 <= sumZ (sum_share cf lvs w) (threads rk))%Z
    by (apply sumZ_nonneg; intros; apply sum_share_nonneg; auto).
  lia.
Qed.

(** A sum of non-negative weights over the cells is at least the weight of
    any cell the loops visit. *)
Lemma sum_cells_member (cf : Config) (amr : AMR_t) (cl : Call)
    (w : Z -> patch_t -> Z -> Z -> Z -> Z) (lv : Z) (pt : patch_t) (k j i : Z) :
  (forall lv pt k j i, (0 <= w lv pt k j i)%Z) ->
  visited cf amr cl lv pt k j i ->
  (w lv pt k j i <= sum_cells cf amr (considered_levels cf cl) w)%Z.
Proof.
  intros Hw [Hlv [[sh [Hsh Hpt]] [Hson [Hk [Hj Hi]]]]].
  set (ix := seqZ 0 (Z.to_nat (PS1 cf))).
  assert (Hix : forall x, (0 <= x < PS1 cf)%Z -> In x ix).
  { intros x Hx; apply In_seqZ; lia. }
  assert (A1 : (w lv pt k j i <= sum_patch cf (w lv) pt)%Z).
  { unfold sum_patch. rewrite Hson. simpl (-1 =? -1)%Z. cbv iota. fold ix.
    assert (B1 : (w lv pt k j i <= sumZ (fun i => w lv pt k j i) ix)%Z).
    { apply (sumZ_member_le (fun i => w lv pt k j i) ix i); auto. }
    assert (B2 : (sumZ (fun i => w lv pt k j i) ix
                  <= sumZ (fun j => sumZ (fun i => w lv pt k j i) ix) ix)%Z).
    { apply (sumZ_member_le (fun j => sumZ (fun i => w lv pt k j i) ix) ix j); auto.
      intros; apply sumZ_nonneg; auto. }
    assert (B3 : (sumZ (fun j => sumZ (fun i => w lv pt k j i) ix) ix
                  <= sumZ (fun k => sumZ (fun j => sumZ (fun i => w lv pt k j i) ix)
                                         ix) ix)%Z).
    { apply (sumZ_member_le
               (fun k => sumZ (fun j => sumZ (fun i => w lv pt k j i) ix) ix)
               ix k); auto.
      intros; apply sumZ_nonneg; intros; apply sumZ_nonneg; auto. }
    lia. }
  assert (A2 : (sum_patch cf (w lv) pt <= sumZ (sum_patch cf (w lv)) (sh lv))%Z).
  { apply (sumZ_member_le (sum_patch cf (w lv)) (sh lv) pt); auto.
    intros; apply sum_patch_nonneg; auto. }
  assert (A3 : (sumZ (sum_patch cf (w lv)) (sh lv)
                <= sum_share cf (considered_levels cf cl) w sh)%Z).
  { unfold sum_share.
    apply (sumZ_member_le (fun lv => sumZ (sum_patch cf (w lv)) (sh lv))
                          (considered_levels cf cl) lv).
    - intros; apply sumZ_nonneg; intros; apply sum_patch_nonneg; auto.
    - apply In_seqZ; lia. }
  unfold shares in Hsh. apply in_flat_map in Hsh. destruct Hsh as [rk [Hrk Hin]].
  assert (A4 : (sum_share cf (considered_levels cf cl) w sh
                <= sum_rank cf (considered_levels cf cl) w rk)%Z).
  { unfold sum_rank. destruct Hin as [<-|Hin].
    - assert (0 <= sumZ (sum_share cf (considered_levels cf cl) w) (threads rk))%Z
        by (apply sumZ_nonneg; intros; apply sum_share_nonneg; auto).
      lia.
    - assert (0 <= sum_share cf (considered_levels cf cl) w (thread0 rk))%Z
        by (apply sum_share_nonneg; auto).
      assert (sum_share cf (considered_levels cf cl) w sh
              <= sumZ (sum_share cf (considered_levels cf cl) w) (threads rk))%Z.
      { apply (sumZ_member_le (sum_share cf (considered_levels cf cl) w)
                              (threads rk) sh); auto.
        intros; apply sum_share_nonneg; auto. }
      lia. }
  assert (A5 : (sum_rank cf (considered_levels cf cl) w rk
                <= sum_cells cf amr (considered_levels cf cl) w)%Z).
  { unfold sum_cells. destruct Hrk as [<-|Hrk].
    - assert (0 <= sumZ (sum_rank cf (considered_levels cf cl) w) (ranks amr))%Z
        by (apply sumZ_nonneg; intros; apply sum_rank_nonneg; auto).
      lia.
    - assert (0 <= sum_rank cf (considered_levels cf cl) w (root amr))%Z
        by (apply sum_rank_nonneg; auto).
      assert (sum_rank cf (considered_levels cf cl) w rk
              <= sumZ (sum_rank cf (considered_levels cf cl) w) (ranks amr))%Z.
      { apply (sumZ_member_le (sum_rank cf (considered_levels cf cl) w)
                              (ranks amr) rk); auto.
        intros; apply sum_rank_nonneg; auto. }
      lia. }
  lia.
Qed.

Lemma in_bin_counted (amr : AMR_t) (cl : Call) (NBin0 : Z) (r_max2 : R)
    (b lv : Z) (pt : patch_t) (k j i : Z) :
  (b < NBin0)%Z ->
  in_bin amr cl r_max2 b lv pt k j i = true ->
  counted cl NBin0 r_max2 (cell_r2 amr cl (dh amr lv) pt k j i) = 1%Z.
Proof.
  unfold in_bin, counted; cbv zeta; intros Hb.
  destruct (Rlt_dec _ _); [|discriminate].
  intros H; apply Z.eqb_eq in H. rewrite H.
  destruct (Z.geb_spec b NBin0); [lia | reflexivity].
Qed.

(** A bin with a visited cell in it has a positive count. *)
Lemma cells_in_bin_pos (cf : Config) (amr : AMR_t) (cl : Call) (r_max2 : R)
    (b lv : Z) (pt : patch_t) (k j i : Z) :
  visited cf amr cl lv pt k j i ->
  in_bin amr cl r_max2 b lv pt k j i = true ->
  (1 <= cells_in_bin cf amr cl r_max2 b)%Z.
Proof.
  intros V Hin; unfold cells_in_bin.
  set (w := fun lv pt k j i =>
              if in_bin amr cl r_max2 b lv pt k j i then 1%Z else 0%Z).
  assert (Hw : forall lv pt k j i, (0 <= w lv pt k j i)%Z).
  { intros lv0 pt0 k0 j0 i0; unfold w.
    destruct (in_bin amr cl r_max2 b lv0 pt0 k0 j0 i0); lia. }
  assert (H := sum_cells_member cf amr cl w lv pt k j i Hw V).
  unfold w at 1 in H. rewrite Hin in H. exact H.
Qed.

(** The loop over the profiles of one cell stops at the first quantity the
    switch rejects. *)
Lemma for_each_unsupported (cf : Config) (cl : Call) (pt : patch_t)
    (k j i : Z) (dx dy dz r dv : R) (bin n : Z) :
  (0 <= bin < n)%Z ->
  forall (omp : list omp_t) (p0 p : nat),
    Forall (omp_wf n) omp ->
    (p < length omp)%nat -> ~ supported (arg_TVar cl (p0 + p)) ->
    for_each (accumulate_quantity cf cl pt k j i dx dy dz r dv bin) p0 omp
    = Err UnsupportedQuantity.
Proof.
  intros Hbin; induction omp as [|o omp IH]; intros p0 p W Hp Hq; [simpl in Hp; lia|].
  inversion W as [|? ? Wo Wr]; subst.
  cbn [for_each]. rewrite (accumulate_quantity_spec _ _ _ _ _ _ _ _ _ _ _ _ _ _ n)
    by auto.
  destruct (arg_TVar cl p0) eqn:Eq; cbn [contribution bind];
    try (destruct p as [|p];
         [exfalso; apply Hq; rewrite Nat.add_0_r, Eq; exact I|];
         rewrite (IH (Datatypes.S p0) p Wr ltac:(simpl in Hp; lia));
         [reflexivity | rewrite Nat.add_succ_comm; exact Hq]).
  reflexivity.
Qed.

(** X7. A quantity the switch does not know is fatal as soon as a cell
    contributes: with a valid configuration, a call that asks for such a
    quantity and visits a cell inside some bin aborts with the
    unsupported-quantity error. *)
Theorem unsupported_quantity_aborts (cf : Config) (amr : AMR_t) (cl : Call)
    (Prof : list Profile_t) (p : nat) (b lv : Z) (pt : patch_t) (k j i : Z) :
  valid_configuration cl ->
  (p < length Prof)%nat -> ~ supported (arg_TVar cl p) ->
  visited cf amr cl lv pt k j i ->
  (0 <= b < initial_NBin cl)%Z ->
  in_bin amr cl (SQR (outer_radius cl)) b lv pt k j i = true ->
  exists st, Aux_ComputeProfile cf amr cl Prof = Fatal UnsupportedQuantity st.
Proof.
  intros V Hp Hq Hv Hb Hin.
  destruct (configure_ok cl Prof) as [P1 [E1 [L1 F1]]].
  unfold Aux_ComputeProfile.
  rewrite (check_parameters_valid cf cl V), E1; cbn [stage].
  exists P1.
  assert (Hne : P1 <> []) by (intros ->; simpl in L1; lia).
  rewrite (accumulate_all_spec_list cf amr cl P1 Hne F1).
  set (N := initial_NBin cl) in *. set (r_max2 := SQR (outer_radius cl)) in *.
  assert (P : post (fun omp => omp_all_wf (length P1) N omp /\
                      sum_cells cf amr (considered_levels cf cl)
                        (fun lv pt k j i =>
                           counted cl N r_max2
                                   (cell_r2 amr cl (dh amr lv) pt k j i)) = 0%Z)
                   (fun e => e = UnsupportedQuantity)
                   (collect cf amr cl (length P1) N r_max2)).
  { apply (collect_post cf amr cl (length P1) N r_max2
             (fun n omp => omp_all_wf (length P1) N omp /\ n = 0%Z)
             (fun e => e = UnsupportedQuantity)).
    - split; [apply zeros_wf | reflexivity].
    - intros lv' pt' k' j' i' n omp V' [W ->].
      unfold accumulate_cell.
      fold (cell_r2 amr cl (dh amr lv') pt' k' j' i').
      unfold counted.
      set (r2 := cell_r2 amr cl (dh amr lv') pt' k' j' i').
      destruct (Rlt_dec r2 r_max2); [|simpl; auto].
      destruct (Z.geb_spec (cell_bin cl (sqrt r2)) N); [simpl; auto|].
      assert (H0 : (0 <= cell_bin cl (sqrt r2))%Z).
      { destruct V as [_ [Hd Hr]]. apply cell_bin_nonneg; auto. apply sqrt_pos. }
      replace (cell_bin cl (sqrt r2) <? 0)%Z with false
        by (symmetry; apply Z.ltb_ge; exact H0).
      rewrite andb_false_r.
      destruct W as [Lo Wf].
      assert (Hrange : (0 <= cell_bin cl (sqrt r2) < N)%Z) by lia.
      assert (Hlen : (p < length omp)%nat) by lia.
      rewrite (for_each_unsupported cf cl pt' k' j' i' _ _ _ _ _ _ N
                 Hrange omp 0%nat p Wf Hlen Hq).
      reflexivity.
    - intros n m x y [Wx ->] [Wy ->]; split; [apply sums_add_wf; auto | reflexivity]. }
  destruct (collect cf amr cl (length P1) N r_max2) as [sums|e]; simpl in P.
  - exfalso. destruct P as [_ P].
    set (w := fun lv pt k j i =>
                counted cl N r_max2 (cell_r2 amr cl (dh amr lv) pt k j i)) in *.
    assert (Hw : forall lv pt k j i, (0 <= w lv pt k j i)%Z).
    { intros; unfold w, counted.
      destruct (Rlt_dec _ _); [destruct (_ >=? _)%Z|]; lia. }
    assert (M := sum_cells_member cf amr cl w lv pt k j i Hw Hv).
    unfold w at 1 in M.
    rewrite (in_bin_counted amr cl N r_max2 b) in M by (auto; lia).
    lia.
  - subst e. reflexivity.
Qed.

(* ------------------------------------------------------------------ *)
(** ** The concrete grid *)

Lemma sqrt_between (r2 lo hi : R) :
  0 <= lo -> 0 < hi -> SQR lo <= r2 < SQR hi -> lo <= sqrt r2 < hi.
Proof.
  intros Hlo Hhi [H1 H2].
  assert (H0 : 0 <= r2) by (assert (0 <= SQR lo) by apply SQR_nonneg; lra).
  split.
  - rewrite <- (sqrt_square lo Hlo). apply sqrt_le_1_alt. exact H1.
  - apply (proj1 (sqrt_lt_outer r2 hi H0 Hhi)). exact H2.
Qed.

Lemma linear_call_bin (r : R) (b : Z) :
  (0 <= b)%Z -> IZR b <= r < IZR b + 1 -> cell_bin linear_call r = b.
Proof.
  intros Hb Hr. apply IZR_le in Hb.
  unfold cell_bin; cbn [linear_call arg_LogBin arg_dr_min].
  replace (r / 1) with r by field.
  rewrite c_int_nonneg by lra. apply floorZ_unique; exact Hr.
Qed.

Lemma linear_call_outer_radius : outer_radius linear_call = 4.
Proof.
  unfold outer_radius. rewrite linear_call_NBin.
  unfold initial_MaxRadius; simpl. lra.
Qed.

Lemma linear_call_r2 (k j i : Z) :
  cell_r2 single_patch_amr linear_call 1 uniform_patch k j i
  = SQR (IZR i - 3.5) + SQR (IZR j - 3.5) + SQR (IZR k - 3.5).
Proof.
  unfold cell_r2, offset, wrap, Periodic.
  cbn [linear_call single_patch_amr uniform_patch arg_Center
       OPT__BC_FLU is_periodic EdgeL axis].
  unfold SQR; lra.
Qed.

(** On the concrete grid, a cell whose squared distance lies between [b^2]
    and [(b+1)^2] is in bin [b] of [linear_call]. *)
Lemma linear_call_in_bin (b k j i : Z) :
  (0 <= b < 4)%Z ->
  SQR (IZR b) <= SQR (IZR i - 3.5) + SQR (IZR j - 3.5) + SQR (IZR k - 3.5)
    < SQR (IZR b + 1) ->
  in_bin single_patch_amr linear_call (SQR (outer_radius linear_call)) b
         0 uniform_patch k j i = true.
Proof.
  intros Hb Hr. unfold in_bin; cbv zeta.
  change (dh single_patch_amr 0) with 1.
  rewrite linear_call_r2, linear_call_outer_radius.
  assert (Hb0 : 0 <= IZR b) by (apply IZR_le; lia).
  assert (Hb4 : IZR b + 1 <= 4).
  { replace 4 with (IZR 3 + 1) by (simpl; lra).
    apply Rplus_le_compat_r, IZR_le; lia. }
  destruct (Rlt_dec _ _) as [_|Hn].
  - apply Z.eqb_eq, linear_call_bin; [lia|].
    apply sqrt_between; auto; lra.
  - exfalso; apply Hn.
    assert (SQR (IZR b + 1) <= SQR 4); [|lra].
    unfold SQR. apply Rmult_le_compat; lra.
Qed.

Lemma single_patch_visited (cf : Config) (cl : Call) (k j i : Z) :
  (lv_min cl <= 0 <= lv_max cf cl)%Z ->
  (0 <= k < PS1 cf)%Z -> (0 <= j < PS1 cf)%Z -> (0 <= i < PS1 cf)%Z ->
  visited cf single_patch_amr cl 0 uniform_patch k j i.
Proof.
  intros Hlv Hk Hj Hi. unfold visited.
  split; [exact Hlv|]. split.
  - exists (thread0 (root single_patch_amr)). split; simpl; auto.
  - split; [reflexivity|]. auto.
Qed.

Lemma unsupported_quantity_aborts_witness :
  valid_configuration unknown_field_call /\
  (0 < length [fresh_profile])%nat /\
  ~ supported (arg_TVar unknown_field_call 0) /\
  visited serial_build single_patch_amr unknown_field_call 0 uniform_patch 3 3 3 /\
  (0 <= 0 < initial_NBin unknown_field_call)%Z /\
  in_bin single_patch_amr unknown_field_call
         (SQR (outer_radius unknown_field_call)) 0 0 uniform_patch 3 3 3 = true /\
  exists st,
    Aux_ComputeProfile serial_build single_patch_amr unknown_field_call
                       [fresh_profile] = Fatal UnsupportedQuantity st.
Proof.
  assert (H1 : valid_configuration unknown_field_call) by exact linear_call_valid.
  assert (H2 : (0 < length [fresh_profile])%nat) by (simpl; lia).
  assert (H3 : ~ supported (arg_TVar unknown_field_call 0)) by (simpl; tauto).
  assert (H4 : visited serial_build single_patch_amr unknown_field_call 0
                       uniform_patch 3 3 3).
  { apply single_patch_visited; unfold lv_min, lv_max; simpl; lia. }
  assert (H5 : (0 <= 0 < initial_NBin unknown_field_call)%Z).
  { change (initial_NBin unknown_field_call) with (initial_NBin linear_call).
    rewrite linear_call_NBin; lia. }
  assert (H6 : in_bin single_patch_amr unknown_field_call
                      (SQR (outer_radius unknown_field_call)) 0 0 uniform_patch
                      3 3 3 = true).
  { change (in_bin single_patch_amr linear_call
                   (SQR (outer_radius linear_call)) 0 0 uniform_patch 3 3 3 = true).
    apply linear_call_in_bin; [lia|]. unfold SQR; simpl; lra. }
  repeat (split; [assumption|]).
  exact (unsupported_quantity_aborts serial_build single_patch_amr
           unknown_field_call [fresh_profile] 0 0 0 uniform_patch 3 3 3
           H1 H2 H3 H4 H5 H6).
Defined.

(* ------------------------------------------------------------------ *)
(** ** The bins left by the removal *)

Lemma keep_nonempty_Forall {A} (P : A -> Prop) (mask : list Z) :
  forall a : list A, Forall P a -> Forall P (keep_nonempty mask a).
Proof.
  induction mask as [|n mask IH]; intros a F; [constructor|].
  destruct a as [|x a]; [constructor|].
  inversion F; subst. simpl.
  destruct (n =? 0)%Z; [apply IH; assumption|].
  constructor; [assumption | apply IH; assumption].
Qed.

Lemma keep_nonempty_nonzero (mask : list Z) :
  Forall (fun c => c <> 0%Z) (keep_nonempty mask mask).
Proof.
  assert (G : forall a : list Z,
             Forall2 (fun m x => m = x) mask a ->
             Forall (fun c => c <> 0%Z) (keep_nonempty mask a)).
  { induction mask as [|n mask IH]; intros a F; [constructor|].
    inversion F as [|? x ? a' Hx F']; subst. simpl.
    destruct (Z.eqb_spec x 0); [apply IH; exact F'|].
    constructor; [assumption | apply IH; exact F']. }
  apply G. clear G. induction mask; constructor; auto.
Qed.

Lemma keep_nonempty_one {A} (mask : list Z) :
  forall (a : list A) (i : nat),
    length a = length mask -> (i < length mask)%nat -> nth i mask 0%Z <> 0%Z ->
    (1 <= length (keep_nonempty mask a))%nat.
Proof.
  induction mask as [|n mask IH]; intros a i L Hi Hn; [simpl in Hi; lia|].
  destruct a as [|x a]; [discriminate L|]. simpl.
  destruct i as [|i].
  - simpl in Hn. destruct (Z.eqb_spec n 0); [contradiction|]. simpl; lia.
  - simpl in Hn, Hi, L.
    assert (1 <= length (keep_nonempty mask a))%nat
      by (apply (IH a i); auto; lia).
    destruct (n =? 0)%Z; simpl; lia.
Qed.

Lemma keep_nonempty_two {A} (mask : list Z) :
  forall (a : list A) (i j : nat),
    length a = length mask -> (i < j < length mask)%nat ->
    nth i mask 0%Z <> 0%Z -> nth j mask 0%Z <> 0%Z ->
    (2 <= length (keep_nonempty mask a))%nat.
Proof.
  induction mask as [|n mask IH]; intros a i j L Hij Hi Hj; [simpl in Hij; lia|].
  destruct a as [|x a]; [discriminate L|]. simpl.
  destruct j as [|j]; [lia|]. simpl in Hj, Hij, L.
  destruct i as [|i].
  - simpl in Hi. destruct (Z.eqb_spec n 0); [contradiction|].
    assert (1 <= length (keep_nonempty mask a))%nat
      by (apply (keep_nonempty_one mask a j); auto; lia).
    simpl; lia.
  - simpl in Hi.
    assert (2 <= length (keep_nonempty mask a))%nat
      by (apply (IH a i j); auto; lia).
    destruct (n =? 0)%Z; simpl; lia.
Qed.

Lemma bin_counts_length (cf : Config) (amr : AMR_t) (cl : Call) :
  length (bin_counts cf amr cl) = Z.to_nat (initial_NBin cl).
Proof. unfold bin_counts. rewrite length_map, seqZ_length. reflexivity. Qed.

Lemma bin_counts_nth (cf : Config) (amr : AMR_t) (cl : Call) (b : Z) :
  (0 <= b < initial_NBin cl)%Z ->
  nth (Z.to_nat b) (bin_counts cf amr cl) 0%Z
  = cells_in_bin cf amr cl (SQR (outer_radius cl)) b.
Proof.
  intros Hb. unfold bin_counts.
  rewrite (nth_indep _ 0%Z (cells_in_bin cf amr cl (SQR (outer_radius cl)) 0%Z))
    by (rewrite length_map, seqZ_length; lia).
  rewrite (map_nth (cells_in_bin cf amr cl (SQR (outer_radius cl)))).
  rewrite nth_seqZ by lia. f_equal; lia.
Qed.

(** Two visited cells in different bins leave at least two bins. *)
Lemma two_bins_remain (cf : Config) (amr : AMR_t) (cl : Call)
    (b1 b2 lv1 lv2 : Z) (pt1 pt2 : patch_t) (k1 j1 i1 k2 j2 i2 : Z) :
  (0 <= b1 < b2)%Z -> (b2 < initial_NBin cl)%Z ->
  visited cf amr cl lv1 pt1 k1 j1 i1 ->
  in_bin amr cl (SQR (outer_radius cl)) b1 lv1 pt1 k1 j1 i1 = true ->
  visited cf amr cl lv2 pt2 k2 j2 i2 ->
  in_bin amr cl (SQR (outer_radius cl)) b2 lv2 pt2 k2 j2 i2 = true ->
  (2 <= remaining_bins cf amr cl)%Z.
Proof.
  intros Hb1 Hb2 V1 I1 V2 I2. unfold remaining_bins, final_bins.
  assert (L := bin_counts_length cf amr cl).
  destruct (arg_RemoveEmpty cl); [|lia].
  assert (2 <= length (keep_nonempty (bin_counts cf amr cl) (bin_counts cf amr cl)))%nat;
    [|lia].
  apply (keep_nonempty_two _ _ (Z.to_nat b1) (Z.to_nat b2)); auto; [lia| |].
  - rewrite bin_counts_nth by lia.
    assert (H := cells_in_bin_pos cf amr cl _ b1 lv1 pt1 k1 j1 i1 V1 I1). lia.
  - rewrite bin_counts_nth by lia.
    assert (H := cells_in_bin_pos cf amr cl _ b2 lv2 pt2 k2 j2 i2 V2 I2). lia.
Qed.

(** A call with a valid configuration and supported quantities that visits
    cells in two different bins returns. *)
Lemma Aux_returns_two_cells (cf : Config) (amr : AMR_t) (cl : Call)
    (Prof : list Profile_t)
    (b1 b2 lv1 lv2 : Z) (pt1 pt2 : patch_t) (k1 j1 i1 k2 j2 i2 : Z) :
  valid_configuration cl ->
  Prof <> [] ->
  (forall p, (p < length Prof)%nat -> supported (arg_TVar cl p)) ->
  (0 <= b1 < b2)%Z -> (b2 < initial_NBin cl)%Z ->
  visited cf amr cl lv1 pt1 k1 j1 i1 ->
  in_bin amr cl (SQR (outer_radius cl)) b1 lv1 pt1 k1 j1 i1 = true ->
  visited cf amr cl lv2 pt2 k2 j2 i2 ->
  in_bin amr cl (SQR (outer_radius cl)) b2 lv2 pt2 k2 j2 i2 = true ->
  exists P5, Aux_ComputeProfile cf amr cl Prof = Return P5.
Proof.
  intros V Hne Hq Hb1 Hb2 V1 I1 V2 I2.
  assert (H2 := two_bins_remain cf amr cl b1 b2 lv1 lv2 pt1 pt2
                  k1 j1 i1 k2 j2 i2 Hb1 Hb2 V1 I1 V2 I2).
  destruct (Aux_reaches_update cf amr cl Prof V Hne Hq)
    as [p4 [rest4 [Ea F4]]].
  destruct (update_MaxRadius_total cl (p4 :: rest4)) as [P5 E5].
  { eapply Forall_impl; [|exact F4]. intros pr [Ha Hb]; simpl. lia. }
  exists P5. rewrite Ea, E5. reflexivity.
Qed.

(** [linear_call] with the removal of the empty bins returns on the concrete
    grid. *)
Lemma removal_call_returns (Prof : list Profile_t) :
  Prof <> [] ->
  exists P5,
    Aux_ComputeProfile serial_build single_patch_amr
                       (with_RemoveEmpty true linear_call) Prof = Return P5.
Proof.
  intros Hne.
  apply (Aux_returns_two_cells serial_build single_patch_amr
           (with_RemoveEmpty true linear_call) Prof
           0 1 0 0 uniform_patch uniform_patch 3 3 3 2 3 3).
  - exact linear_call_valid.
  - exact Hne.
  - intros p _; exact I.
  - lia.
  - change (initial_NBin (with_RemoveEmpty true linear_call))
      with (initial_NBin linear_call).
    rewrite linear_call_NBin; lia.
  - apply single_patch_visited; unfold lv_min, lv_max; simpl; lia.
  - change (in_bin single_patch_amr linear_call
                   (SQR (outer_radius linear_call)) 0 0 uniform_patch 3 3 3 = true).
    apply linear_call_in_bin; [lia|]. unfold SQR; simpl; lra.
  - apply single_patch_visited; unfold lv_min, lv_max; simpl; lia.
  - change (in_bin single_patch_amr linear_call
                   (SQR (outer_radius linear_call)) 1 0 uniform_patch 2 3 3 = true).
    apply linear_call_in_bin; [lia|]. unfold SQR; simpl; lra.
Qed.

(** X9. After a call that removes the empty bins, every bin that is left holds at
    least one cell, at least two bins are left and never more than were
    configured. *)
Theorem removal_leaves_no_empty_bin (cf : Config) (amr : AMR_t) (cl : Call)
    (Prof P5 : list Profile_t) :
  arg_RemoveEmpty cl = true ->
  Aux_ComputeProfile cf amr cl Prof = Return P5 ->
  forall pr, In pr P5 ->
    (2 <= NBin pr <= initial_NBin cl)%Z /\
    NBin pr = remaining_bins cf amr cl /\
    forall b, (0 <= b < NBin pr)%Z -> (0 < cells (NCell pr) b)%Z.
Proof.
  intros Hre H pr Hin.
  destruct (Aux_Return_visible _ _ _ _ _ H)
    as [sums [mask [Hpos [Ec [Lm [L5 Hp]]]]]].
  apply In_nth_error in Hin. destruct Hin as [p Hp5].
  destruct (Hp p pr Hp5)
    as [pr1 [o [pr3 [Ho [C1 [Wo [Hmask [Hn [Hcen [Hlog [Hratio [Nn [Vr [Vd [Vw [Vc [H2 Hm]]]]]]]]]]]]]]]]].
  rewrite Hre in *. unfold final_bins in *.
  assert (Hm' : mask = bin_counts cf amr cl).
  { rewrite <- Hmask. eapply sums_bin_counts; eauto. }
  assert (Hle := keep_nonempty_length_le mask mask).
  split; [lia|].
  split; [unfold remaining_bins, final_bins; rewrite Hre, <- Hm'; exact Nn|].
  intros b Hb.
  assert (Z0 := sums_empty_bins_zero _ _ _ _ _ _ _ Ec p o Ho).
  assert (F0 : Forall (fun c => (0 <= c)%Z) mask).
  { rewrite <- Hmask. apply Forall_forall. intros c Hc.
    apply (In_nth _ _ 0%Z) in Hc. destruct Hc as [i [_ <-]]. apply Z0. }
  assert (F1 := keep_nonempty_Forall _ mask mask F0).
  assert (F2 := keep_nonempty_nonzero mask).
  unfold visible in Vc; simpl in Vc.
  rewrite (cells_visible _ _ _ b Vc Hb). unfold cells.
  assert (Hlt : (Z.to_nat b < length (keep_nonempty mask mask))%nat) by lia.
  rewrite Forall_forall in F1, F2.
  assert (Hi := nth_In _ 0%Z Hlt).
  specialize (F1 _ Hi). specialize (F2 _ Hi). lia.
Qed.

Lemma returns_iff_two_bins_witness :
  valid_configuration linear_call /\
  [fresh_profile] <> [] /\
  ((exists P5, Aux_ComputeProfile serial_build single_patch_amr linear_call
                                  [fresh_profile] = Return P5)
   <-> (2 <= remaining_bins serial_build single_patch_amr linear_call)%Z) /\
  ((remaining_bins serial_build single_patch_amr linear_call < 2)%Z ->
   exists st, Aux_ComputeProfile serial_build single_patch_amr linear_call
                                 [fresh_profile] = Fatal OutOfBounds st).
Proof.
  assert (H1 : valid_configuration linear_call) by exact linear_call_valid.
  assert (H2 : [fresh_profile] <> []) by discriminate.
  split; [exact H1|]. split; [exact H2|].
  apply (returns_iff_two_bins serial_build single_patch_amr linear_call
                              [fresh_profile] H1 H2).
  intros p _; exact I.
Defined.

(* ------------------------------------------------------------------ *)
(** ** Radial coordinates and the outer radius *)

Lemma radial_coordinate_pos (cl : Call) (b : Z) :
  0 < arg_dr_min cl -> (0 <= b)%Z -> 0 < radial_coordinate cl b.
Proof.
  intros Hd Hb; unfold radial_coordinate; destruct (arg_LogBin cl).
  - apply Rmult_lt_0_compat; [exact Hd | apply exp_pos].
  - apply Rmult_lt_0_compat; [|exact Hd]. apply IZR_le in Hb; lra.
Qed.

Lemma radial_coordinate_lt (cl : Call) (b b' : Z) :
  0 < arg_dr_min cl -> (arg_LogBin cl = true -> 1 < arg_LogBinRatio cl) ->
  (b < b')%Z -> radial_coordinate cl b < radial_coordinate cl b'.
Proof.
  intros Hd Hq Hb; apply IZR_lt in Hb.
  unfold radial_coordinate; destruct (arg_LogBin cl).
  - apply Rmult_lt_compat_l; [exact Hd|].
    apply Rpower_lt; [apply Hq; reflexivity | lra].
  - apply Rmult_lt_compat_r; [exact Hd | lra].
Qed.

Lemma sorted_of_nth (l : list R) :
  (forall i j, (i < j < length l)%nat -> nth i l 0 < nth j l 0) ->
  StronglySorted Rlt l.
Proof.
  induction l as [|a l IH]; intros H; constructor.
  - apply IH. intros i j Hij.
    apply (H (Datatypes.S i) (Datatypes.S j)); simpl; lia.
  - apply Forall_forall. intros x Hx.
    apply (In_nth _ _ 0) in Hx. destruct Hx as [j [Hj <-]].
    apply (H 0%nat (Datatypes.S j)); simpl; lia.
Qed.

Lemma sorted_nth (l : list R) :
  StronglySorted Rlt l ->
  forall i j, (i < j < length l)%nat -> nth i l 0 < nth j l 0.
Proof.
  induction 1 as [|a l S IH F]; intros i j Hij; [simpl in Hij; lia|].
  destruct j as [|j]; [lia|]. simpl in Hij.
  destruct i as [|i]; simpl.
  - rewrite Forall_forall in F. apply F, nth_In; lia.
  - apply IH; lia.
Qed.

Lemma keep_nonempty_sorted (mask : list Z) :
  forall a : list R,
    StronglySorted Rlt a -> StronglySorted Rlt (keep_nonempty mask a).
Proof.
  induction mask as [|n mask IH]; intros a S; [constructor|].
  destruct a as [|x a]; [constructor|].
  inversion S; subst. simpl.
  destruct (n =? 0)%Z; [apply IH; assumption|].
  constructor; [apply IH; assumption | apply keep_nonempty_Forall; assumption].
Qed.

Lemma final_bins_sorted (flag : bool) (mask : list Z) (a : list R) :
  StronglySorted Rlt a -> Forall (Rlt 0) a ->
  StronglySorted Rlt (final_bins flag mask a) /\
  Forall (Rlt 0) (final_bins flag mask a).
Proof.
  intros S F; unfold final_bins; destruct flag; [|auto].
  split; [apply keep_nonempty_sorted | apply keep_nonempty_Forall]; assumption.
Qed.

(** X10. The radial coordinates a call returns are positive and strictly
    increasing, with or without the removal of the empty bins, and the outer
    radius it returns lies beyond the last of them. *)
Theorem radius_increasing (cf : Config) (amr : AMR_t) (cl : Call)
    (Prof P5 : list Profile_t) :
  valid_configuration cl ->
  Aux_ComputeProfile cf amr cl Prof = Return P5 ->
  forall pr, In pr P5 ->
    (forall b b', (0 <= b < b')%Z -> (b' < NBin pr)%Z ->
                  entry (Radius pr) b < entry (Radius pr) b') /\
    0 < entry (Radius pr) 0 /\
    entry (Radius pr) (NBin pr - 1) < MaxRadius pr.
Proof.
  intros [_ [Hd Hq]] H pr Hin.
  destruct (Aux_Return_visible _ _ _ _ _ H)
    as [sums [mask [Hpos [Ec [Lm [L5 Hp]]]]]].
  apply In_nth_error in Hin. destruct Hin as [p Hp5].
  destruct (Hp p pr Hp5)
    as [pr1 [o [pr3 [Ho [C1 [Wo [Hmask [Hn [Hcen [Hlog [Hratio [Nn [Vr [Vd [Vw [Vc [H2 Hm]]]]]]]]]]]]]]]]].
  destruct C1 as [_ [Cn [_ [_ [_ [Lr [_ [_ [_ Hrad]]]]]]]]].
  assert (S1 : StronglySorted Rlt (Radius pr1)).
  { apply sorted_of_nth. intros i j Hij. rewrite Lr in Hij.
    assert (Ei := Hrad (Z.of_nat i) ltac:(lia)).
    assert (Ej := Hrad (Z.of_nat j) ltac:(lia)).
    unfold entry in Ei, Ej. rewrite Nat2Z.id in Ei, Ej. rewrite Ei, Ej.
    apply radial_coordinate_lt; auto; lia. }
  assert (F1 : Forall (Rlt 0) (Radius pr1)).
  { apply Forall_forall. intros x Hx.
    apply (In_nth _ _ 0) in Hx. destruct Hx as [i [Hi <-]]. rewrite Lr in Hi.
    assert (Ei := Hrad (Z.of_nat i) ltac:(lia)).
    unfold entry in Ei. rewrite Nat2Z.id in Ei. rewrite Ei.
    apply radial_coordinate_pos; auto; lia. }
  destruct (final_bins_sorted (arg_RemoveEmpty cl) mask _ S1 F1) as [S5 F5].
  rewrite <- Vr in S5, F5.
  assert (L5r : length (Radius (visible pr)) = Z.to_nat (NBin pr)).
  { rewrite Vr. unfold final_bins in *.
    destruct (arg_RemoveEmpty cl).
    - rewrite (keep_nonempty_length mask (Radius pr1)) by lia. lia.
    - lia. }
  assert (Hvis : forall b, (0 <= b < NBin pr)%Z ->
                   entry (Radius pr) b = nth (Z.to_nat b) (Radius (visible pr)) 0).
  { intros b Hb. exact (entry_visible _ _ _ b eq_refl Hb). }
  assert (Hinc : forall b b', (0 <= b < b')%Z -> (b' < NBin pr)%Z ->
                   entry (Radius pr) b < entry (Radius pr) b').
  { intros b b' Hb Hb'. rewrite !Hvis by lia.
    apply sorted_nth; [exact S5 | lia]. }
  assert (Hp0 : forall b, (0 <= b < NBin pr)%Z -> 0 < entry (Radius pr) b).
  { intros b Hb. rewrite Hvis by lia.
    rewrite Forall_forall in F5. apply F5, nth_In. lia. }
  split; [exact Hinc|]. split; [apply Hp0; lia|].
  rewrite Hm.
  change (Radius (visible pr)) with (firstn (Z.to_nat (NBin pr)) (Radius pr)).
  rewrite <- (entry_visible (NBin pr) (Radius pr) _ (NBin pr - 1) eq_refl) by lia.
  rewrite <- (entry_visible (NBin pr) (Radius pr) _ (NBin pr - 2) eq_refl) by lia.
  assert (Hlt := Hinc (NBin pr - 2)%Z (NBin pr - 1)%Z ltac:(lia) ltac:(lia)).
  assert (Hp2 := Hp0 (NBin pr - 2)%Z ltac:(lia)).
  set (r1 := entry (Radius pr) (NBin pr - 1)) in *.
  set (r2 := entry (Radius pr) (NBin pr - 2)) in *.
  unfold extrapolate, SQR. destruct (arg_LogBin cl); [|lra].
  apply (Rmult_lt_reg_r r2); [exact Hp2|].
  replace (r1 * r1 / r2 * r2) with (r1 * r1) by (field; lra).
  apply Rmult_lt_compat_l; lra.
Qed.

Lemma radius_increasing_witness :
  valid_configuration linear_call /\
  exists P5,
    Aux_ComputeProfile serial_build single_patch_amr
                       (with_RemoveEmpty true linear_call) [fresh_profile]
    = Return P5 /\
    forall pr, In pr P5 ->
      (forall b b', (0 <= b < b')%Z -> (b' < NBin pr)%Z ->
                    entry (Radius pr) b < entry (Radius pr) b') /\
      0 < entry (Radius pr) 0 /\
      entry (Radius pr) (NBin pr - 1) < MaxRadius pr.
Proof.
  split; [exact linear_call_valid|].
  destruct (removal_call_returns [fresh_profile]) as [P5 H5]; [discriminate|].
  exists P5; split; [exact H5|].
  exact (radius_increasing serial_build single_patch_amr
           (with_RemoveEmpty true linear_call) [fresh_profile] P5
           linear_call_valid H5).
Defined.

(** X11. A call that keeps the empty bins leaves the bins as the geometry loop
    set them, but not the outer radius: it returns the radial coordinate of
    the bin after the last one, which lies beyond the outer radius the cells
    were selected with. *)
Theorem MaxRadius_after_call (cf : Config) (amr : AMR_t) (cl : Call)
    (Prof P5 : list Profile_t) :
  valid_configuration cl ->
  arg_RemoveEmpty cl = false ->
  Aux_ComputeProfile cf amr cl Prof = Return P5 ->
  forall pr, In pr P5 ->
    NBin pr = initial_NBin cl /\
    Center pr = arg_Center cl /\ LogBin pr = arg_LogBin cl /\
    (forall b, (0 <= b < NBin pr)%Z ->
               entry (Radius pr) b = radial_coordinate cl b) /\
    MaxRadius pr = radial_coordinate cl (NBin pr) /\
    outer_radius cl < MaxRadius pr.
Proof.
  intros [_ [Hd Hq]] Hre H pr Hin.
  destruct (Aux_Return_kept _ _ _ _ _ Hre H) as [sums [H2 [Ec [L5 Hp]]]].
  apply In_nth_error in Hin. destruct Hin as [p Hp5].
  destruct (Hp p pr Hp5) as [o [Ho [Wo [HN [Hc [Hl [Hm Hbins]]]]]]].
  rewrite HN. set (N := initial_NBin cl) in *.
  assert (Hmax : MaxRadius pr = radial_coordinate cl N).
  { rewrite Hm. unfold extrapolate, radial_coordinate, SQR.
    destruct (arg_LogBin cl).
    - rewrite !minus_IZR. unfold Rpower.
      set (l := ln (arg_LogBinRatio cl)).
      replace (arg_dr_min cl * exp ((IZR N - 1 - 0.5) * l)
               * (arg_dr_min cl * exp ((IZR N - 1 - 0.5) * l))
               / (arg_dr_min cl * exp ((IZR N - 2 - 0.5) * l)))
        with (arg_dr_min cl
              * (exp ((IZR N - 1 - 0.5) * l) * exp ((IZR N - 1 - 0.5) * l)
                 * / exp ((IZR N - 2 - 0.5) * l))).
      2:{ field. split; [apply Rgt_not_eq, exp_pos | lra]. }
      rewrite <- exp_plus, <- exp_Ropp, <- exp_plus.
      f_equal. f_equal. lra.
    - rewrite !minus_IZR. lra. }
  split; [reflexivity|]. split; [exact Hc|]. split; [exact Hl|].
  split; [intros b Hb; apply Hbins; exact Hb|].
  split; [exact Hmax|].
  rewrite Hmax. unfold outer_radius, initial_MaxRadius, radial_coordinate.
  fold N. destruct (arg_LogBin cl).
  - apply Rmult_lt_compat_l; [exact Hd|].
    apply Rpower_lt; [apply Hq; reflexivity | rewrite minus_IZR; lra].
  - assert (0 < 0.5 * arg_dr_min cl) by lra. lra.
Qed.

Lemma MaxRadius_after_call_witness :
  valid_configuration linear_call /\
  arg_RemoveEmpty linear_call = false /\
  exists P5,
    Aux_ComputeProfile serial_build single_patch_amr linear_call
                       [fresh_profile] = Return P5 /\
    forall pr, In pr P5 ->
      NBin pr = initial_NBin linear_call /\
      Center pr = arg_Center linear_call /\ LogBin pr = arg_LogBin linear_call /\
      (forall b, (0 <= b < NBin pr)%Z ->
                 entry (Radius pr) b = radial_coordinate linear_call b) /\
      MaxRadius pr = radial_coordinate linear_call (NBin pr) /\
      outer_radius linear_call < MaxRadius pr.
Proof.
  split; [exact linear_call_valid|]. split; [reflexivity|].
  destruct (linear_call_returns serial_build single_patch_amr [fresh_profile])
    as [P5 H5]; [discriminate|].
  exists P5; split; [exact H5|].
  exact (MaxRadius_after_call serial_build single_patch_amr linear_call
           [fresh_profile] P5 linear_call_valid eq_refl H5).
Defined.

Lemma configure_profile_ext (cl : Call) (first : option Z) (pr pr' : Profile_t) :
  (arg_LogBin cl = false -> LogBinRatio pr = LogBinRatio pr') ->
  configure_profile cl first pr = configure_profile cl first pr'.
Proof.
  intros H; unfold configure_profile, AllocateMemory; cbn [NBin Radius LogBinRatio
    Center MaxRadius LogBin Data Weight NCell].
  destruct (arg_LogBin cl); [reflexivity|].
  rewrite (H eq_refl). reflexivity.
Qed.

Lemma configure_loop_ext (cl : Call) :
  forall (Prof Prof' : list Profile_t) (first : option Z),
    Forall2 (fun a b => arg_LogBin cl = false -> LogBinRatio a = LogBinRatio b)
            Prof Prof' ->
    configure_loop cl first Prof = configure_loop cl first Prof'.
Proof.
  intros Prof Prof' first F; revert first.
  induction F as [|a b l l' Hab F IH]; intros first; [reflexivity|].
  cbn [configure_loop]. rewrite (configure_profile_ext cl first a b Hab).
  destruct (configure_profile cl first b) as [pr|e]; cbn [bind]; [|reflexivity].
  rewrite IH. reflexivity.
Qed.

(** X12. A call reads nothing of what the profile objects held before, but their
    number and, with linear bins, the field [LogBinRatio] it leaves alone:
    two arrays of objects that agree on these give the same outcome. *)
Theorem prior_contents_irrelevant (cf : Config) (amr : AMR_t) (cl : Call)
    (Prof Prof' : list Profile_t) :
  check_parameters cf cl = Ok tt ->
  Forall2 (fun a b => arg_LogBin cl = false -> LogBinRatio a = LogBinRatio b)
          Prof Prof' ->
  Aux_ComputeProfile cf amr cl Prof = Aux_ComputeProfile cf amr cl Prof'.
Proof.
  intros Hc F. unfold Aux_ComputeProfile. rewrite Hc.
  assert (E : configure cl Prof = configure cl Prof')
    by (apply configure_loop_ext; exact F).
  rewrite <- E.
  destruct (configure_ok cl Prof) as [P1 [E1 _]].
  rewrite E1. reflexivity.
Qed.

Lemma prior_contents_irrelevant_witness :
  check_parameters serial_build linear_call = Ok tt /\
  Forall2 (fun a b => arg_LogBin linear_call = false ->
                      LogBinRatio a = LogBinRatio b)
          [fresh_profile] [used_profile] /\
  Aux_ComputeProfile serial_build single_patch_amr linear_call [fresh_profile]
  = Aux_ComputeProfile serial_build single_patch_amr linear_call [used_profile].
Proof.
  assert (H1 : check_parameters serial_build linear_call = Ok tt) by reflexivity.
  assert (H2 : Forall2 (fun a b => arg_LogBin linear_call = false ->
                                   LogBinRatio a = LogBinRatio b)
                       [fresh_profile] [used_profile]).
  { constructor; [intros _; reflexivity | constructor]. }
  split; [exact H1|]. split; [exact H2|].
  exact (prior_contents_irrelevant serial_build single_patch_amr linear_call
           [fresh_profile] [used_profile] H1 H2).
Defined.

(* ------------------------------------------------------------------ *)
(** ** Distribution of the patches *)

Lemma sumZ_app {A} (f : A -> Z) (l m : list A) :
  sumZ f (l ++ m) = (sumZ f l + sumZ f m)%Z.
Proof. induction l as [|a l IH]; simpl; [reflexivity | rewrite IH; lia]. Qed.

Lemma sumZ_flat_map {A B} (f : B -> Z) (g : A -> list B) (l : list A) :
  sumZ f (flat_map g l) = sumZ (fun x => sumZ f (g x)) l.
Proof.
  induction l as [|a l IH]; simpl; [reflexivity|].
  rewrite sumZ_app, IH. reflexivity.
Qed.

Lemma sumZ_plus {A} (f g : A -> Z) (l : list A) :
  sumZ (fun a => (f a + g a)%Z) l = (sumZ f l + sumZ g l)%Z.
Proof. induction l as [|a l IH]; simpl; [reflexivity | rewrite IH; lia]. Qed.

Lemma sumZ_zero {A} (l : list A) : sumZ (fun _ => 0%Z) l = 0%Z.
Proof. induction l as [|a l IH]; simpl; [reflexivity | rewrite IH; lia]. Qed.

Lemma sumZ_swap {A B} (f : A -> B -> Z) (la : list A) (lb : list B) :
  sumZ (fun a => sumZ (f a) lb) la = sumZ (fun b => sumZ (fun a => f a b) la) lb.
Proof.
  induction la as [|a la IH]; simpl.
  - rewrite sumZ_zero. reflexivity.
  - rewrite IH, <- sumZ_plus. reflexivity.
Qed.

Lemma sumZ_perm {A} (f : A -> Z) (l l' : list A) :
  Permutation l l' -> sumZ f l = sumZ f l'.
Proof. induction 1; simpl; lia. Qed.

(** A sum over the cells does not depend on which thread of which rank holds
    a patch. *)
Lemma sum_cells_by_level (cf : Config) (amr : AMR_t) (lvs : list Z)
    (w : Z -> patch_t -> Z -> Z -> Z -> Z) :
  sum_cells cf amr lvs w
  = sumZ (fun lv => sumZ (sum_patch cf (w lv)) (all_patches amr lv)) lvs.
Proof.
  transitivity (sumZ (sum_share cf lvs w) (shares amr)).
  - unfold sum_cells, shares.
    change (sum_rank cf lvs w (root amr) + sumZ (sum_rank cf lvs w) (ranks amr))%Z
      with (sumZ (sum_rank cf lvs w) (root amr :: ranks amr)).
    rewrite sumZ_flat_map. reflexivity.
  - unfold sum_share. rewrite sumZ_swap.
    apply sumZ_ext; intros lv. unfold all_patches.
    rewrite sumZ_flat_map. reflexivity.
Qed.

Lemma sumR_app {A} (f : A -> R) (l m : list A) :
  sumR f (l ++ m) = sumR f l + sumR f m.
Proof. induction l as [|a l IH]; simpl; [lra | rewrite IH; lra]. Qed.

Lemma sumR_flat_map {A B} (f : B -> R) (g : A -> list B) (l : list A) :
  sumR f (flat_map g l) = sumR (fun x => sumR f (g x)) l.
Proof.
  induction l as [|a l IH]; simpl; [reflexivity|].
  rewrite sumR_app, IH. reflexivity.
Qed.

Lemma sumR_plus {A} (f g : A -> R) (l : list A) :
  sumR (fun a => f a + g a) l = sumR f l + sumR g l.
Proof. induction l as [|a l IH]; simpl; [lra | rewrite IH; lra]. Qed.

Lemma sumR_zero {A} (l : list A) : sumR (fun _ => 0) l = 0.
Proof. induction l as [|a l IH]; simpl; [reflexivity | rewrite IH; lra]. Qed.

Lemma sumR_swap {A B} (f : A -> B -> R) (la : list A) (lb : list B) :
  sumR (fun a => sumR (f a) lb) la = sumR (fun b => sumR (fun a => f a b) la) lb.
Proof.
  induction la as [|a la IH]; simpl.
  - rewrite sumR_zero. reflexivity.
  - rewrite IH, <- sumR_plus. reflexivity.
Qed.

Lemma sumR_perm {A} (f : A -> R) (l l' : list A) :
  Permutation l l' -> sumR f l = sumR f l'.
Proof. induction 1; simpl; lra. Qed.

Lemma sumR_ext_in {A} (f g : A -> R) (l : list A) :
  (forall a, In a l -> f a = g a) -> sumR f l = sumR g l.
Proof.
  induction l as [|a l IH]; intros H; simpl; [reflexivity|].
  rewrite (H a (or_introl eq_refl)), IH; auto. intros; apply H; right; auto.
Qed.

Lemma sumR_cells_by_level (cf : Config) (amr : AMR_t) (lvs : list Z)
    (w : Z -> patch_t -> Z -> Z -> Z -> R) :
  sumR_cells cf amr lvs w
  = sumR (fun lv => sumR (sumR_patch cf (w lv)) (all_patches amr lv)) lvs.
Proof.
  transitivity (sumR (sumR_share cf lvs w) (shares amr)).
  - unfold sumR_cells, shares.
    change (sumR_rank cf lvs w (root amr) + sumR (sumR_rank cf lvs w) (ranks amr))
      with (sumR (sumR_rank cf lvs w) (root amr :: ranks amr)).
    rewrite sumR_flat_map. reflexivity.
  - unfold sumR_share. rewrite sumR_swap.
    apply sumR_ext_in; intros lv _. unfold all_patches.
    rewrite sumR_flat_map. reflexivity.
Qed.

Lemma sum_patch_ext (cf : Config) (w w' : patch_t -> Z -> Z -> Z -> Z)
    (pt : patch_t) :
  (forall k j i, w pt k j i = w' pt k j i) ->
  sum_patch cf w pt = sum_patch cf w' pt.
Proof.
  intros H; unfold sum_patch. destruct (son pt =? -1)%Z; [|reflexivity].
  apply sumZ_ext; intros k. apply sumZ_ext; intros j. apply sumZ_ext; intros i.
  apply H.
Qed.

Lemma sumR_patch_ext (cf : Config) (w w' : patch_t -> Z -> Z -> Z -> R)
    (pt : patch_t) :
  (forall k j i, w pt k j i = w' pt k j i) ->
  sumR_patch cf w pt = sumR_patch cf w' pt.
Proof.
  intros H; unfold sumR_patch. destruct (son pt =? -1)%Z; [|reflexivity].
  apply sumR_ext_in; intros k _. apply sumR_ext_in; intros j _.
  apply sumR_ext_in; intros i _. apply H.
Qed.

Lemma offset_same_grid (amr amr' : AMR_t) (cl : Call) (h : R) (pt : patch_t)
    (d : nat) (n : Z) :
  same_grid amr amr' -> offset amr cl h pt d n = offset amr' cl h pt d n.
Proof.
  intros [Hb [_ [Hbc _]]]. unfold offset, Periodic, HalfBox.
  rewrite Hb, Hbc. reflexivity.
Qed.

Lemma cell_r2_same_grid (amr amr' : AMR_t) (cl : Call) (lv : Z) (pt : patch_t)
    (k j i : Z) :
  same_grid amr amr' ->
  cell_r2 amr cl (dh amr lv) pt k j i = cell_r2 amr' cl (dh amr' lv) pt k j i.
Proof.
  intros G. assert (Hh : dh amr lv = dh amr' lv) by apply G.
  unfold cell_r2. rewrite Hh, !(offset_same_grid amr amr') by exact G.
  reflexivity.
Qed.

Lemma in_bin_same_grid (amr amr' : AMR_t) (cl : Call) (r_max2 : R)
    (b lv : Z) (pt : patch_t) (k j i : Z) :
  same_grid amr amr' ->
  in_bin amr cl r_max2 b lv pt k j i = in_bin amr' cl r_max2 b lv pt k j i.
Proof.
  intros G. unfold in_bin. rewrite (cell_r2_same_grid amr amr') by exact G.
  reflexivity.
Qed.

Lemma cell_terms_same_grid (cf : Config) (amr amr' : AMR_t) (cl : Call)
    (p : nat) (lv : Z) (pt : patch_t) (k j i : Z) :
  same_grid amr amr' ->
  cell_terms cf amr cl p lv pt k j i = cell_terms cf amr' cl p lv pt k j i.
Proof.
  intros G. assert (Hh : dh amr lv = dh amr' lv) by apply G.
  unfold cell_terms. cbv zeta.
  rewrite (cell_r2_same_grid amr amr') by exact G.
  rewrite Hh, !(offset_same_grid amr amr') by exact G.
  reflexivity.
Qed.

Lemma cells_in_bin_same_grid (cf : Config) (amr amr' : AMR_t) (cl : Call)
    (r_max2 : R) (b : Z) :
  same_grid amr amr' ->
  cells_in_bin cf amr cl r_max2 b = cells_in_bin cf amr' cl r_max2 b.
Proof.
  intros G. unfold cells_in_bin. rewrite !sum_cells_by_level.
  apply sumZ_ext; intros lv.
  rewrite (sumZ_perm _ _ _ (proj2 (proj2 (proj2 G)) lv)).
  apply sumZ_ext; intros pt. apply sum_patch_ext; intros k j i.
  rewrite (in_bin_same_grid amr amr') by exact G. reflexivity.
Qed.

Lemma terms_in_bin_same_grid (cf : Config) (amr amr' : AMR_t) (cl : Call)
    (r_max2 : R) (p : nat) (b : Z) (sel : R * R -> R) :
  same_grid amr amr' ->
  sumR_cells cf amr (considered_levels cf cl)
    (fun lv pt k j i =>
       if in_bin amr cl r_max2 b lv pt k j i
       then sel (cell_terms cf amr cl p lv pt k j i) else 0)
  = sumR_cells cf amr' (considered_levels cf cl)
      (fun lv pt k j i =>
         if in_bin amr' cl r_max2 b lv pt k j i
         then sel (cell_terms cf amr' cl p lv pt k j i) else 0).
Proof.
  intros G. rewrite !sumR_cells_by_level.
  apply sumR_ext_in; intros lv _.
  rewrite (sumR_perm _ _ _ (proj2 (proj2 (proj2 G)) lv)).
  apply sumR_ext_in; intros pt _. apply sumR_patch_ext; intros k j i.
  rewrite (in_bin_same_grid amr amr'), (cell_terms_same_grid cf amr amr')
    by exact G.
  reflexivity.
Qed.

(** The reduction gives the same sums for two descriptions of the same
    grid. *)
Lemma collect_same_grid (cf : Config) (amr amr' : AMR_t) (cl : Call)
    (NProf : nat) (NBin0 : Z) (r_max2 : R) (sums sums' : list omp_t) :
  same_grid amr amr' ->
  collect cf amr cl NProf NBin0 r_max2 = Ok sums ->
  collect cf amr' cl NProf NBin0 r_max2 = Ok sums' ->
  sums = sums'.
Proof.
  intros G E E'.
  destruct (collect_wf _ _ _ _ _ _ _ E) as [L W].
  destruct (collect_wf _ _ _ _ _ _ _ E') as [L' W'].
  apply nth_error_ext. intros p.
  destruct (nth_error sums p) as [o|] eqn:Ho.
  - destruct (nth_error_lt sums' p) as [o' Ho'];
      [rewrite L', <- L; eapply nth_error_length; eauto|].
    rewrite Ho'. f_equal.
    rewrite Forall_forall in W, W'.
    destruct (W o (nth_error_In _ _ Ho)) as [Wd [Ww Wc]].
    destruct (W' o' (nth_error_In _ _ Ho')) as [Wd' [Ww' Wc']].
    assert (Hd : OMP_Data o = OMP_Data o').
    { apply (nth_ext _ _ 0 0); [congruence|]. intros i Hi. rewrite Wd in Hi.
      assert (Hb : (0 <= Z.of_nat i < NBin0)%Z) by lia.
      assert (A := sums_bin_terms cf amr cl NProf NBin0 r_max2 sums _ p fst
                     eq_refl (fun _ _ _ _ => eq_refl) Hb E o Ho).
      assert (A' := sums_bin_terms cf amr' cl NProf NBin0 r_max2 sums' _ p fst
                      eq_refl (fun _ _ _ _ => eq_refl) Hb E' o' Ho').
      simpl in A, A'. unfold entry in A, A'. rewrite Nat2Z.id in A, A'.
      rewrite A, A'. apply terms_in_bin_same_grid; exact G. }
    assert (Hw : OMP_Weight o = OMP_Weight o').
    { apply (nth_ext _ _ 0 0); [congruence|]. intros i Hi. rewrite Ww in Hi.
      assert (Hb : (0 <= Z.of_nat i < NBin0)%Z) by lia.
      assert (A := sums_bin_terms cf amr cl NProf NBin0 r_max2 sums _ p snd
                     eq_refl (fun _ _ _ _ => eq_refl) Hb E o Ho).
      assert (A' := sums_bin_terms cf amr' cl NProf NBin0 r_max2 sums' _ p snd
                      eq_refl (fun _ _ _ _ => eq_refl) Hb E' o' Ho').
      simpl in A, A'. unfold entry in A, A'. rewrite Nat2Z.id in A, A'.
      rewrite A, A'. apply terms_in_bin_same_grid; exact G. }
    assert (Hc : OMP_NCell o = OMP_NCell o').
    { apply (nth_ext _ _ 0%Z 0%Z); [congruence|]. intros i Hi. rewrite Wc in Hi.
      assert (Hb : (0 <= Z.of_nat i < NBin0)%Z) by lia.
      assert (A := sums_bin_count cf amr cl NProf NBin0 r_max2 sums _ Hb E p o Ho).
      assert (A' := sums_bin_count cf amr' cl NProf NBin0 r_max2 sums' _ Hb E' p o' Ho').
      unfold cells in A, A'. rewrite Nat2Z.id in A, A'.
      rewrite A, A'. apply cells_in_bin_same_grid; exact G. }
    destruct o, o'; simpl in *; congruence.
  - apply nth_error_None in Ho. symmetry; apply nth_error_None. lia.
Qed.

(** X13. The outcome of a call does not depend on how the patches are distributed
    over the threads and the ranks (in exact arithmetic). *)
Theorem patch_distribution_irrelevant (cf : Config) (amr amr' : AMR_t)
    (cl : Call) (Prof : list Profile_t) :
  valid_configuration cl ->
  (forall p, (p < length Prof)%nat -> supported (arg_TVar cl p)) ->
  same_grid amr amr' ->
  Aux_ComputeProfile cf amr cl Prof = Aux_ComputeProfile cf amr' cl Prof.
Proof.
  intros V Hq G. unfold Aux_ComputeProfile.
  rewrite (check_parameters_valid cf cl V).
  destruct (configure_ok cl Prof) as [P1 [E1 [L1 F1]]].
  rewrite E1; cbn [stage].
  assert (Ea : accumulate_all cf amr cl P1 = accumulate_all cf amr' cl P1).
  { unfold accumulate_all. destruct (load P1 0) as [p0|e]; cbn [bind]; [|reflexivity].
    assert (Hbin : forall r2, (0 <= cell_bin cl (sqrt r2))%Z).
    { intros r2. destruct V as [_ [Hd Hr]].
      apply cell_bin_nonneg; auto. apply sqrt_pos. }
    destruct (collect_total cf amr cl (length P1) (NBin p0) (SQR (MaxRadius p0)))
      as [sums E]; [intros; apply Hbin | rewrite L1; exact Hq |].
    destruct (collect_total cf amr' cl (length P1) (NBin p0) (SQR (MaxRadius p0)))
      as [sums' E']; [intros; apply Hbin | rewrite L1; exact Hq |].
    rewrite E, E'. rewrite (collect_same_grid _ _ _ _ _ _ _ _ _ G E E').
    reflexivity. }
  rewrite Ea. reflexivity.
Qed.

Lemma serial_split_same_grid : same_grid serial_amr split_amr.
Proof.
  split; [reflexivity|]. split; [reflexivity|]. split; [reflexivity|].
  intros lv. unfold all_patches, shares; simpl.
  destruct (lv =? 0)%Z; simpl; [apply perm_swap | apply Permutation_refl].
Qed.

Lemma patch_distribution_irrelevant_witness :
  valid_configuration linear_call /\
  same_grid serial_amr split_amr /\
  Aux_ComputeProfile serial_build serial_amr linear_call [fresh_profile]
  = Aux_ComputeProfile serial_build split_amr linear_call [fresh_profile].
Proof.
  split; [exact linear_call_valid|]. split; [exact serial_split_same_grid|].
  apply (patch_distribution_irrelevant serial_build serial_amr split_amr
           linear_call [fresh_profile] linear_call_valid).
  - intros p _; exact I.
  - exact serial_split_same_grid.
Defined.

(* ------------------------------------------------------------------ *)
(** ** Profiles as means *)






(* ------------------------------------------------------------------ *)
(** ** The bins of a call, from the histogram of the leaf cells *)

Lemma configured_radii_eq (cl : Call) (pr : Profile_t) :
  configured cl pr -> Radius pr = configured_radii cl.
Proof.
  intros [_ [Na [_ [_ [_ [La [_ [_ [_ Ha]]]]]]]]].
  unfold configured_radii.
  apply (nth_ext _ _ 0 (radial_coordinate cl 0)).
  - rewrite length_map, seqZ_length, La, Na. reflexivity.
  - intros i Hi. rewrite La, Na in Hi.
    rewrite (map_nth (radial_coordinate cl)), nth_seqZ by lia.
    assert (Hb : (0 <= Z.of_nat i < NBin pr)%Z) by lia.
    specialize (Ha _ Hb). unfold entry in Ha. rewrite Nat2Z.id in Ha.
    rewrite Ha. f_equal; lia.
Qed.

(** The bins of a call that returns, from the histogram of the leaf cells:
    every profile holds the counts of the histogram and the radial
    coordinates of the configured bins, without the bins the histogram leaves
    empty when they are removed. *)
Lemma Aux_Return_counts (cf : Config) (amr : AMR_t) (cl : Call)
    (Prof P5 : list Profile_t) :
  Aux_ComputeProfile cf amr cl Prof = Return P5 ->
  length P5 = length Prof /\
  forall p pr, nth_error P5 p = Some pr ->
    NBin pr = remaining_bins cf amr cl /\ (2 <= NBin pr)%Z /\
    NCell (visible pr)
    = final_bins (arg_RemoveEmpty cl) (bin_counts cf amr cl) (bin_counts cf amr cl) /\
    Radius (visible pr)
    = final_bins (arg_RemoveEmpty cl) (bin_counts cf amr cl) (configured_radii cl).
Proof.
  intros H.
  destruct (Aux_Return_visible _ _ _ _ _ H)
    as [sums [mask [Hpos [Ec [Lm [L5 Hp]]]]]].
  split; [exact L5|].
  intros p pr Hp5.
  destruct (Hp p pr Hp5)
    as [pr1 [o [pr3 [Ho [C1 [Wo [Hmask [Hn [_ [_ [_ [Nn [Vr [_ [_ [Vc [H2 _]]]]]]]]]]]]]]]]].
  assert (Hm : mask = bin_counts cf amr cl).
  { rewrite <- Hmask. eapply sums_bin_counts; eauto. }
  rewrite <- Hm. unfold remaining_bins. rewrite <- Hm.
  rewrite <- (configured_radii_eq cl pr1 C1).
  repeat split; assumption.
Qed.

(** [NCell[b]] of a profile, from the bins it exposes. *)
Lemma cells_of_visible (pr : Profile_t) (l : list Z) (b : Z) :
  NCell (visible pr) = l -> (0 <= b < NBin pr)%Z -> cells (NCell pr) b = cells l b.
Proof.
  intros H Hb. unfold visible in H; simpl in H.
  exact (cells_visible _ _ _ b H Hb).
Qed.

(** The bins of the call that keeps the empty ones are the configured bins,
    with the counts of the histogram; those of the call that removes them
    all hold cells. *)
Lemma Aux_Return_bins (cf : Config) (amr : AMR_t) (cl : Call)
    (Prof P5 : list Profile_t) :
  Aux_ComputeProfile cf amr cl Prof = Return P5 ->
  forall p pr, nth_error P5 p = Some pr ->
    (arg_RemoveEmpty cl = false ->
     NBin pr = initial_NBin cl /\
     forall b, (0 <= b < initial_NBin cl)%Z ->
       cells (NCell pr) b = cells_in_bin cf amr cl (SQR (outer_radius cl)) b) /\
    (arg_RemoveEmpty cl = true ->
     forall b, (0 <= b < NBin pr)%Z -> (0 < cells (NCell pr) b)%Z).
Proof.
  intros H p pr Hp5.
  destruct (Aux_Return_counts _ _ _ _ _ H) as [_ Hc].
  destruct (Hc p pr Hp5) as [Nn [H2 [Vc _]]].
  split; intros Hre; rewrite Hre in Vc; unfold final_bins in Vc.
  - assert (HN : NBin pr = initial_NBin cl).
    { unfold remaining_bins, final_bins in Nn. rewrite Hre in Nn.
      rewrite bin_counts_length in Nn. lia. }
    split; [exact HN|]. intros b Hb.
    rewrite (cells_of_visible pr _ b Vc) by lia.
    unfold cells. apply bin_counts_nth; exact Hb.
  - intros b Hb.
    rewrite (cells_of_visible pr _ b Vc Hb). unfold cells.
    assert (Hlen : length (keep_nonempty (bin_counts cf amr cl) (bin_counts cf amr cl))
                   = Z.to_nat (NBin pr)).
    { rewrite Nn. unfold remaining_bins, final_bins. rewrite Hre, Nat2Z.id.
      reflexivity. }
    assert (F0 : Forall (fun c => (0 <= c)%Z) (bin_counts cf amr cl)).
    { unfold bin_counts. apply Forall_forall. intros c Hin.
      apply in_map_iff in Hin. destruct Hin as [x [<- _]].
      unfold cells_in_bin.
      assert (Hs : forall w, (forall lv pt k j i, (0 <= w lv pt k j i)%Z) ->
                     (0 <= sum_cells cf amr (considered_levels cf cl) w)%Z).
      { intros w Hw. unfold sum_cells.
        assert (0 <= sum_rank cf (considered_levels cf cl) w (root amr))%Z
          by (apply sum_rank_nonneg; auto).
        assert (0 <= sumZ (sum_rank cf (considered_levels cf cl) w) (ranks amr))%Z
          by (apply sumZ_nonneg; intros; apply sum_rank_nonneg; auto).
        lia. }
      apply Hs. intros lv pt k j i.
      destruct (in_bin amr cl (SQR (outer_radius cl)) x lv pt k j i); lia. }
    assert (F1 := keep_nonempty_Forall _ (bin_counts cf amr cl) _ F0).
    assert (F2 := keep_nonempty_nonzero (bin_counts cf amr cl)).
    assert (Hlt : (Z.to_nat b
                   < length (keep_nonempty (bin_counts cf amr cl)
                                           (bin_counts cf amr cl)))%nat) by lia.
    rewrite Forall_forall in F1, F2.
    assert (Hi := nth_In _ 0%Z Hlt).
    specialize (F1 _ Hi). specialize (F2 _ Hi). lia.
Qed.

(** A call with a valid configuration and supported quantities returns
    exactly when at least two bins remain. *)
Lemma Aux_returns_iff (cf : Config) (amr : AMR_t) (cl : Call)
    (Prof : list Profile_t) :
  valid_configuration cl ->
  Prof <> [] ->
  (forall p, (p < length Prof)%nat -> supported (arg_TVar cl p)) ->
  ((exists P5, Aux_ComputeProfile cf amr cl Prof = Return P5)
   <-> (2 <= remaining_bins cf amr cl)%Z).
Proof.
  intros V Hne Hq.
  destruct (Aux_reaches_update cf amr cl Prof V Hne Hq)
    as [p4 [rest4 [Ea F4]]].
  split.
  - intros [P5 E5].
    destruct (Z.lt_ge_cases (remaining_bins cf amr cl) 2) as [Hlt|Hge]; [|lia].
    rewrite Ea, update_MaxRadius_short in E5; [discriminate E5|].
    inversion F4 as [|? ? [_ Hi] _]; subst. lia.
  - intros Hge.
    destruct (update_MaxRadius_total cl (p4 :: rest4)) as [P5 E5].
    { eapply Forall_impl; [|exact F4]. intros pr [H1 H2]; simpl. lia. }
    exists P5. rewrite Ea, E5. reflexivity.
Qed.

(** From a property of the data of the bins whose count is not zero to the
    bins of the histogram: without [RemoveEmpty] every configured bin that
    holds a leaf cell has it, with [RemoveEmpty] every bin that is left. *)
Lemma Aux_Return_nonempty_bins (cf : Config) (amr : AMR_t) (cl : Call)
    (Prof P5 : list Profile_t) (P : R -> Prop) (p : nat) (pr : Profile_t) :
  Aux_ComputeProfile cf amr cl Prof = Return P5 ->
  nth_error P5 p = Some pr ->
  (forall b, (0 <= b < NBin pr)%Z -> cells (NCell pr) b <> 0%Z ->
             P (entry (Data pr) b)) ->
  (arg_RemoveEmpty cl = false ->
   NBin pr = initial_NBin cl /\
   forall b, (0 <= b < initial_NBin cl)%Z ->
     cells (NCell pr) b = cells_in_bin cf amr cl (SQR (outer_radius cl)) b /\
     ((0 < cells_in_bin cf amr cl (SQR (outer_radius cl)) b)%Z ->
      P (entry (Data pr) b))) /\
  (arg_RemoveEmpty cl = true ->
   NBin pr = remaining_bins cf amr cl /\
   forall b, (0 <= b < NBin pr)%Z ->
     (0 < cells (NCell pr) b)%Z /\ P (entry (Data pr) b)).
Proof.
  intros H Hp5 HP.
  destruct (Aux_Return_bins _ _ _ _ _ H p pr Hp5) as [Hkeep Hrem].
  destruct (Aux_Return_counts _ _ _ _ _ H) as [_ Hc].
  destruct (Hc p pr Hp5) as [Nn _].
  split; intros Hre.
  - destruct (Hkeep Hre) as [HN Hcells].
    split; [exact HN|]. intros b Hb.
    split; [exact (Hcells b Hb)|].
    intros Hpos. apply HP; [lia|]. rewrite (Hcells b Hb). lia.
  - split; [exact Nn|]. intros b Hb.
    assert (Hpos := Hrem Hre b Hb).
    split; [exact Hpos|]. apply HP; [exact Hb | lia].
Qed.

(** C10. After a call that returns, there are as many profiles as were
    passed, and every one of them holds the bins of the histogram of the
    leaf cells: the count of a bin is the number of leaf cells of the
    considered levels in range whose bin index it is, the same for every
    profile; with [RemoveEmpty] the bins the histogram leaves empty are
    removed, the same bins from the counts and from the radial coordinates
    of every profile. Hence any two profiles hold the same number of bins,
    the same radii and the same cell counts, bin by bin. *)
Theorem profiles_share_bins (cf : Config) (amr : AMR_t) (cl : Call)
    (Prof P5 : list Profile_t) :
  Aux_ComputeProfile cf amr cl Prof = Return P5 ->
  length P5 = length Prof /\
  (forall pr, In pr P5 ->
     NBin pr = remaining_bins cf amr cl /\
     NCell (visible pr)
     = final_bins (arg_RemoveEmpty cl) (bin_counts cf amr cl)
                  (bin_counts cf amr cl) /\
     Radius (visible pr)
     = final_bins (arg_RemoveEmpty cl) (bin_counts cf amr cl)
                  (configured_radii cl)) /\
  forall pr pr', In pr P5 -> In pr' P5 ->
    NBin pr = NBin pr' /\
    Radius (visible pr) = Radius (visible pr') /\
    NCell (visible pr) = NCell (visible pr') /\
    length (Radius (visible pr)) = Z.to_nat (NBin pr) /\
    length (NCell (visible pr)) = Z.to_nat (NBin pr).
Proof.
  intros H.
  destruct (Aux_Return_counts _ _ _ _ _ H) as [L5 Hc].
  assert (Hall : forall pr, In pr P5 ->
            NBin pr = remaining_bins cf amr cl /\
            NCell (visible pr)
            = final_bins (arg_RemoveEmpty cl) (bin_counts cf amr cl)
                         (bin_counts cf amr cl) /\
            Radius (visible pr)
            = final_bins (arg_RemoveEmpty cl) (bin_counts cf amr cl)
                         (configured_radii cl)).
  { intros pr Hin. apply In_nth_error in Hin. destruct Hin as [p Hp].
    destruct (Hc p pr Hp) as [Nn [_ [Vc Vr]]]. auto. }
  split; [exact L5|]. split; [exact Hall|].
  intros pr pr' Hin Hin'.
  destruct (Hall pr Hin) as [Na [Ca Ra]], (Hall pr' Hin') as [Nb [Cb Rb]].
  rewrite Na, Nb, Ca, Cb, Ra, Rb.
  assert (Lr : length (configured_radii cl) = length (bin_counts cf amr cl)).
  { unfold configured_radii. rewrite length_map, seqZ_length, bin_counts_length.
    reflexivity. }
  repeat split; try reflexivity.
  - unfold remaining_bins. rewrite Nat2Z.id. unfold final_bins.
    destruct (arg_RemoveEmpty cl); [apply keep_nonempty_length|]; exact Lr.
  - unfold remaining_bins. rewrite Nat2Z.id. reflexivity.
Qed.

(** C7. With the same density [rho0] in every cell the loops visit, and
    positive cell spacings, a call that returns gives every profile that was
    passed, and its density profile is [rho0] in every bin whose cell count
    is not zero, whatever the bins and the center. The bins concerned are
    those of the histogram of the leaf cells: without [RemoveEmpty] every
    configured bin that holds a leaf cell is counted and reads [rho0]; with
    [RemoveEmpty] every bin that is left holds a cell and reads [rho0]. A
    call with a valid configuration and supported quantities returns exactly
    when at least two bins remain; with fewer, no profile is returned. *)
Theorem uniform_density_profile (cf : Config) (amr : AMR_t) (cl : Call)
    (Prof : list Profile_t) (rho0 : R) :
  (forall lv pt k j i, visited cf amr cl lv pt k j i ->
                       fluid pt DENS k j i = rho0) ->
  (forall lv, (lv_min cl <= lv <= lv_max cf cl)%Z -> 0 < dh amr lv) ->
  (valid_configuration cl -> Prof <> [] ->
   (forall p, (p < length Prof)%nat -> supported (arg_TVar cl p)) ->
   ((exists P5, Aux_ComputeProfile cf amr cl Prof = Return P5)
    <-> (2 <= remaining_bins cf amr cl)%Z)) /\
  forall P5, Aux_ComputeProfile cf amr cl Prof = Return P5 ->
    length P5 = length Prof /\
    forall p pr, nth_error P5 p = Some pr -> arg_TVar cl p = DENS ->
      (forall b, (0 <= b < NBin pr)%Z -> cells (NCell pr) b <> 0%Z ->
                 entry (Data pr) b = rho0) /\
      (arg_RemoveEmpty cl = false ->
       NBin pr = initial_NBin cl /\
       forall b, (0 <= b < initial_NBin cl)%Z ->
         cells (NCell pr) b = cells_in_bin cf amr cl (SQR (outer_radius cl)) b /\
         ((0 < cells_in_bin cf amr cl (SQR (outer_radius cl)) b)%Z ->
          entry (Data pr) b = rho0)) /\
      (arg_RemoveEmpty cl = true ->
       NBin pr = remaining_bins cf amr cl /\
       forall b, (0 <= b < NBin pr)%Z ->
         (0 < cells (NCell pr) b)%Z /\ entry (Data pr) b = rho0).
Proof.
  intros Hrho Hdh.
  split; [exact (Aux_returns_iff cf amr cl Prof)|].
  intros P5 H.
  destruct (Aux_Return_counts _ _ _ _ _ H) as [L5 _].
  split; [exact L5|].
  intros p pr Hp5 Hq.
  assert (HP : forall b, (0 <= b < NBin pr)%Z -> cells (NCell pr) b <> 0%Z ->
                         entry (Data pr) b = rho0).
  { exact (uniform_bins_returned cf amr cl Prof P5 rho0 Hrho Hdh H p pr Hp5 Hq). }
  split; [exact HP|].
  exact (Aux_Return_nonempty_bins cf amr cl Prof P5 (fun d => d = rho0) p pr
           H Hp5 HP).
Qed.


(* ------------------------------------------------------------------ *)
(** ** A grid with an empty bin *)

Lemma sumZ_zero_in {A} (f : A -> Z) (l : list A) :
  (forall a, In a l -> f a = 0%Z) -> sumZ f l = 0%Z.
Proof.
  induction l as [|a l IH]; intros H; simpl; [reflexivity|].
  rewrite (H a) by (simpl; auto). rewrite IH; [reflexivity|].
  intros x Hx; apply H; simpl; auto.
Qed.

(** A weight that vanishes on every cell the loops visit sums to zero. *)
Lemma sum_cells_visited_zero (cf : Config) (amr : AMR_t) (cl : Call)
    (w : Z -> patch_t -> Z -> Z -> Z -> Z) :
  (forall lv pt k j i, visited cf amr cl lv pt k j i -> w lv pt k j i = 0%Z) ->
  sum_cells cf amr (considered_levels cf cl) w = 0%Z.
Proof.
  intros Hw.
  assert (Hsh : forall sh, In sh (shares amr) ->
                  sum_share cf (considered_levels cf cl) w sh = 0%Z).
  { intros sh Hin. unfold sum_share.
    apply sumZ_zero_in; intros lv Hlv.
    apply In_seqZ in Hlv.
    apply sumZ_zero_in; intros pt Hpt.
    unfold sum_patch. destruct (Z.eqb_spec (son pt) (-1)) as [Hson|]; [|reflexivity].
    apply sumZ_zero_in; intros k Hk. apply In_seqZ in Hk.
    apply sumZ_zero_in; intros j Hj. apply In_seqZ in Hj.
    apply sumZ_zero_in; intros i Hi. apply In_seqZ in Hi.
    apply Hw. unfold visited.
    split; [unfold considered_levels in *; lia|].
    split; [exists sh; auto|].
    split; [exact Hson|]. lia. }
  assert (Hrk : forall rk, In rk (root amr :: ranks amr) ->
                  sum_rank cf (considered_levels cf cl) w rk = 0%Z).
  { intros rk Hin. unfold sum_rank.
    assert (Hm : forall sh, In sh (thread0 rk :: threads rk) -> In sh (shares amr)).
    { intros sh Hs. unfold shares. apply in_flat_map. exists rk; auto. }
    rewrite (Hsh (thread0 rk)) by (apply Hm; simpl; auto).
    rewrite sumZ_zero_in; [reflexivity|].
    intros sh Hs; apply Hsh, Hm; simpl; auto. }
  unfold sum_cells.
  rewrite (Hrk (root amr)) by (simpl; auto).
  rewrite sumZ_zero_in; [reflexivity|].
  intros rk Hr; apply Hrk; simpl; auto.
Qed.

(** For linear bins of width 1 the bin of a radius is its integer part. *)
Lemma unit_bin (cl : Call) (r : R) (b : Z) :
  arg_LogBin cl = false -> arg_dr_min cl = 1 ->
  (0 <= b)%Z -> IZR b <= r < IZR b + 1 -> cell_bin cl r = b.
Proof.
  intros Hl Hd Hb Hr. apply IZR_le in Hb.
  unfold cell_bin. rewrite Hl, Hd.
  replace (r / 1) with r by field.
  rewrite c_int_nonneg by lra. apply floorZ_unique; exact Hr.
Qed.

Lemma unit_bin_beyond (cl : Call) (r : R) (b : Z) :
  arg_LogBin cl = false -> arg_dr_min cl = 1 ->
  (0 <= b)%Z -> IZR b + 1 <= r -> cell_bin cl r <> b.
Proof.
  intros Hl Hd Hb Hr E. apply IZR_le in Hb.
  unfold cell_bin in E. rewrite Hl, Hd in E.
  replace (r / 1) with r in E by field.
  rewrite c_int_nonneg in E by lra.
  assert (H := floorZ_spec r). rewrite E in H. lra.
Qed.

Lemma outside_call_NBin : initial_NBin outside_call = 4%Z.
Proof. exact linear_call_NBin. Qed.

Lemma outside_call_outer_radius : outer_radius outside_call = 4.
Proof. exact linear_call_outer_radius. Qed.

Lemma outside_call_r2 (k j i : Z) :
  cell_r2 single_patch_amr outside_call 1 uniform_patch k j i
  = SQR (IZR i - 3.5) + SQR (IZR j - 3.5) + SQR (IZR k + 1.5).
Proof.
  unfold cell_r2, offset, wrap, Periodic.
  cbn [outside_call single_patch_amr uniform_patch arg_Center
       OPT__BC_FLU is_periodic EdgeL axis].
  unfold SQR; lra.
Qed.

(** On the concrete grid, a cell whose squared distance from the center of
    [outside_call] lies between [b^2] and [(b+1)^2] is in bin [b]. *)
Lemma outside_call_in_bin (b k j i : Z) :
  (0 <= b < 4)%Z ->
  SQR (IZR b) <= SQR (IZR i - 3.5) + SQR (IZR j - 3.5) + SQR (IZR k + 1.5)
    < SQR (IZR b + 1) ->
  in_bin single_patch_amr outside_call (SQR (outer_radius outside_call)) b
         0 uniform_patch k j i = true.
Proof.
  intros Hb Hr. unfold in_bin; cbv zeta.
  change (dh single_patch_amr 0) with 1.
  rewrite outside_call_r2, outside_call_outer_radius.
  assert (Hb0 : 0 <= IZR b) by (apply IZR_le; lia).
  assert (Hb4 : IZR b + 1 <= 4).
  { replace 4 with (IZR 3 + 1) by (simpl; lra).
    apply Rplus_le_compat_r, IZR_le; lia. }
  destruct (Rlt_dec _ _) as [_|Hn].
  - apply Z.eqb_eq, unit_bin; [reflexivity | reflexivity | lia |].
    apply sqrt_between; auto; lra.
  - exfalso; apply Hn.
    assert (SQR (IZR b + 1) <= SQR 4); [|lra].
    unfold SQR. apply Rmult_le_compat; lra.
Qed.

(** No cell the loops visit is in bin 0 of [outside_call]. *)
Lemma outside_call_bin_0 (lv : Z) (pt : patch_t) (k j i : Z) :
  visited serial_build single_patch_amr outside_call lv pt k j i ->
  in_bin single_patch_amr outside_call (SQR (outer_radius outside_call)) 0
         lv pt k j i = false.
Proof.
  intros [_ [Hpt [_ [Hk _]]]].
  apply single_patch_amr_patch in Hpt; subst pt.
  unfold in_bin; cbv zeta.
  change (dh single_patch_amr lv) with 1.
  rewrite outside_call_r2.
  destruct (Rlt_dec _ _) as [_|_]; [|reflexivity].
  apply Z.eqb_neq, unit_bin_beyond; [reflexivity | reflexivity | lia |].
  assert (Hk0 : 0 <= IZR k) by (apply IZR_le; lia).
  assert (H1 : SQR 1 <= SQR (IZR i - 3.5) + SQR (IZR j - 3.5) + SQR (IZR k + 1.5)).
  { assert (0 <= SQR (IZR i - 3.5)) by apply SQR_nonneg.
    assert (0 <= SQR (IZR j - 3.5)) by apply SQR_nonneg.
    unfold SQR in *. nra. }
  assert (H2 := sqrt_le_1_alt _ _ H1).
  unfold SQR in H2 at 1. rewrite sqrt_square in H2 by lra.
  simpl; lra.
Qed.

Lemma outside_call_visited (k j i : Z) :
  (0 <= k < 8)%Z -> (0 <= j < 8)%Z -> (0 <= i < 8)%Z ->
  visited serial_build single_patch_amr outside_call 0 uniform_patch k j i.
Proof.
  intros Hk Hj Hi.
  apply single_patch_visited; auto; unfold lv_min, lv_max; simpl; lia.
Qed.

(** The cell counts of [outside_call] on the concrete grid: none in bin 0,
    some in each of the bins 1 to 3. *)
Lemma outside_call_counts :
  exists c1 c2 c3,
    (0 < c1)%Z /\ (0 < c2)%Z /\ (0 < c3)%Z /\
    bin_counts serial_build single_patch_amr outside_call = [0%Z; c1; c2; c3].
Proof.
  set (cnt := cells_in_bin serial_build single_patch_amr outside_call
                           (SQR (outer_radius outside_call))).
  assert (E : bin_counts serial_build single_patch_amr outside_call
              = [cnt 0%Z; cnt 1%Z; cnt 2%Z; cnt 3%Z]).
  { unfold bin_counts. rewrite outside_call_NBin. reflexivity. }
  assert (C0 : cnt 0%Z = 0%Z).
  { unfold cnt, cells_in_bin. apply sum_cells_visited_zero.
    intros lv pt k j i V. rewrite (outside_call_bin_0 lv pt k j i V). reflexivity. }
  assert (C1 : (1 <= cnt 1)%Z).
  { apply (cells_in_bin_pos _ _ _ _ 1 0 uniform_patch 0 3 3).
    - apply outside_call_visited; lia.
    - apply outside_call_in_bin; [lia|]. unfold SQR; simpl; lra. }
  assert (C2 : (1 <= cnt 2)%Z).
  { apply (cells_in_bin_pos _ _ _ _ 2 0 uniform_patch 1 3 3).
    - apply outside_call_visited; lia.
    - apply outside_call_in_bin; [lia|]. unfold SQR; simpl; lra. }
  assert (C3 : (1 <= cnt 3)%Z).
  { apply (cells_in_bin_pos _ _ _ _ 3 0 uniform_patch 2 3 3).
    - apply outside_call_visited; lia.
    - apply outside_call_in_bin; [lia|]. unfold SQR; simpl; lra. }
  exists (cnt 1%Z), (cnt 2%Z), (cnt 3%Z).
  rewrite E, C0. repeat split; lia || reflexivity.
Qed.

Lemma keep_nonempty_4 (c1 c2 c3 : Z) {A} (a0 a1 a2 a3 : A) :
  (0 < c1)%Z -> (0 < c2)%Z -> (0 < c3)%Z ->
  keep_nonempty [0%Z; c1; c2; c3] [a0; a1; a2; a3] = [a1; a2; a3].
Proof.
  intros H1 H2 H3; simpl.
  destruct (Z.eqb_spec c1 0); [lia|].
  destruct (Z.eqb_spec c2 0); [lia|].
  destruct (Z.eqb_spec c3 0); [lia|]. reflexivity.
Qed.

Lemma outside_call_remaining (flag : bool) :
  remaining_bins serial_build single_patch_amr (with_RemoveEmpty flag outside_call)
  = if flag then 3%Z else 4%Z.
Proof.
  unfold remaining_bins, final_bins.
  change (bin_counts serial_build single_patch_amr
                     (with_RemoveEmpty flag outside_call))
    with (bin_counts serial_build single_patch_amr outside_call).
  destruct outside_call_counts as [c1 [c2 [c3 [H1 [H2 [H3 ->]]]]]].
  cbn [arg_RemoveEmpty with_RemoveEmpty].
  destruct flag; [rewrite keep_nonempty_4 by assumption|]; reflexivity.
Qed.

(** [outside_call] returns on the concrete grid, with and without the removal
    of its empty bin. *)
Lemma outside_call_returns (flag : bool) (Prof : list Profile_t) :
  Prof <> [] ->
  exists P5,
    Aux_ComputeProfile serial_build single_patch_amr
                       (with_RemoveEmpty flag outside_call) Prof = Return P5.
Proof.
  intros Hne.
  apply (Aux_returns_two_cells serial_build single_patch_amr
           (with_RemoveEmpty flag outside_call) Prof
           1 2 0 0 uniform_patch uniform_patch 0 3 3 1 3 3).
  - exact linear_call_valid.
  - exact Hne.
  - intros p _; exact I.
  - lia.
  - change (initial_NBin (with_RemoveEmpty flag outside_call))
      with (initial_NBin linear_call).
    rewrite linear_call_NBin; lia.
  - apply (outside_call_visited 0 3 3); lia.
  - change (in_bin single_patch_amr outside_call
                   (SQR (outer_radius outside_call)) 1 0 uniform_patch 0 3 3 = true).
    apply outside_call_in_bin; [lia|]. unfold SQR; simpl; lra.
  - apply (outside_call_visited 1 3 3); lia.
  - change (in_bin single_patch_amr outside_call
                   (SQR (outer_radius outside_call)) 2 0 uniform_patch 1 3 3 = true).
    apply outside_call_in_bin; [lia|]. unfold SQR; simpl; lra.
Qed.

(** A visited cell in one of the bins is counted. *)
Lemma leaf_cells_counted_pos (cf : Config) (amr : AMR_t) (cl : Call)
    (b lv : Z) (pt : patch_t) (k j i : Z) :
  (b < initial_NBin cl)%Z ->
  visited cf amr cl lv pt k j i ->
  in_bin amr cl (SQR (outer_radius cl)) b lv pt k j i = true ->
  (1 <= leaf_cells_counted cf amr cl (considered_levels cf cl))%Z.
Proof.
  intros Hb V Hin. unfold leaf_cells_counted.
  set (w := fun lv pt k j i =>
              counted cl (initial_NBin cl) (SQR (outer_radius cl))
                      (cell_r2 amr cl (dh amr lv) pt k j i)).
  assert (Hw : forall lv pt k j i, (0 <= w lv pt k j i)%Z).
  { intros lv0 pt0 k0 j0 i0; unfold w, counted.
    destruct (Rlt_dec _ _); [destruct (_ >=? _)%Z|]; lia. }
  assert (M := sum_cells_member cf amr cl w lv pt k j i Hw V).
  unfold w at 1 in M.
  rewrite (in_bin_counted amr cl (initial_NBin cl) _ b) in M by assumption.
  exact M.
Qed.

Lemma cell_count_sum_witness :
  valid_configuration outside_call /\
  exists P5,
    Aux_ComputeProfile serial_build single_patch_amr outside_call
                       [fresh_profile] = Return P5 /\
    length P5 = 1%nat /\
    forall pr, In pr P5 ->
      (0 < total (NCell (visible pr)))%Z /\
      total (NCell (visible pr))
      = leaf_cells_counted serial_build single_patch_amr outside_call
          (considered_levels serial_build outside_call) /\
      total (NCell (visible pr))
      = leaf_cells_within serial_build single_patch_amr outside_call
          (considered_levels serial_build outside_call)
          (outer_radius outside_call).
Proof.
  assert (V : valid_configuration outside_call) by exact linear_call_valid.
  split; [exact V|].
  destruct (outside_call_returns false [fresh_profile]) as [P5 E];
    [discriminate|].
  exists P5. split; [exact E|].
  split; [exact (proj1 (Aux_Return_counts _ _ _ _ _ E))|].
  intros pr Hin.
  destruct (cell_count_sum serial_build single_patch_amr outside_call
                           [fresh_profile] P5 E pr Hin) as [Hc Hw].
  split; [|split; [exact Hc | exact (Hw V)]].
  rewrite Hc.
  assert (H1 := leaf_cells_counted_pos serial_build single_patch_amr outside_call
                  1 0 uniform_patch 0 3 3).
  assert (1 <= leaf_cells_counted serial_build single_patch_amr outside_call
                 (considered_levels serial_build outside_call))%Z; [|lia].
  apply H1.
  - rewrite outside_call_NBin; lia.
  - apply outside_call_visited; lia.
  - apply outside_call_in_bin; [lia|]. unfold SQR; simpl; lra.
Defined.

Lemma outside_call_bins :
  cells_in_bin serial_build single_patch_amr outside_call
               (SQR (outer_radius outside_call)) 0 = 0%Z /\
  forall b, (1 <= b < 4)%Z ->
    (0 < cells_in_bin serial_build single_patch_amr outside_call
                      (SQR (outer_radius outside_call)) b)%Z.
Proof.
  destruct outside_call_counts as [c1 [c2 [c3 [H1 [H2 [H3 E]]]]]].
  assert (Hn : forall b, (0 <= b < 4)%Z ->
             cells_in_bin serial_build single_patch_amr outside_call
                          (SQR (outer_radius outside_call)) b
             = nth (Z.to_nat b) [0%Z; c1; c2; c3] 0%Z).
  { intros b Hb. rewrite <- E. symmetry. apply bin_counts_nth.
    rewrite outside_call_NBin; exact Hb. }
  split; [rewrite Hn by lia; reflexivity|].
  intros b Hb. rewrite Hn by lia.
  assert (C : b = 1%Z \/ b = 2%Z \/ b = 3%Z) by lia.
  destruct C as [-> | [-> | ->]]; simpl; assumption.
Qed.

Lemma uniform_density_profile_witness :
  (forall lv pt k j i,
      visited serial_build single_patch_amr outside_call lv pt k j i ->
      fluid pt DENS k j i = 2) /\
  (forall lv, (lv_min outside_call <= lv <= lv_max serial_build outside_call)%Z ->
              0 < dh single_patch_amr lv) /\
  exists P5,
    Aux_ComputeProfile serial_build single_patch_amr outside_call
                       [fresh_profile] = Return P5 /\
    length P5 = 1%nat /\
    forall pr, nth_error P5 0 = Some pr ->
      NBin pr = 4%Z /\ cells (NCell pr) 0 = 0%Z /\
      forall b, (1 <= b < 4)%Z ->
        (0 < cells (NCell pr) b)%Z /\ entry (Data pr) b = 2.
Proof.
  assert (H1 : forall lv pt k j i,
             visited serial_build single_patch_amr outside_call lv pt k j i ->
             fluid pt DENS k j i = 2).
  { intros lv pt k j i [_ [Hpt _]].
    apply single_patch_amr_patch in Hpt; subst pt; reflexivity. }
  assert (H2 : forall lv,
             (lv_min outside_call <= lv <= lv_max serial_build outside_call)%Z ->
             0 < dh single_patch_amr lv).
  { intros lv _; simpl; lra. }
  split; [exact H1|]. split; [exact H2|].
  destruct (uniform_density_profile serial_build single_patch_amr outside_call
              [fresh_profile] 2 H1 H2) as [HR HU].
  assert (Hret : exists P5,
             Aux_ComputeProfile serial_build single_patch_amr outside_call
                                [fresh_profile] = Return P5).
  { apply HR.
    - exact linear_call_valid.
    - discriminate.
    - intros p _; exact I.
    - change (2 <= remaining_bins serial_build single_patch_amr
                               (with_RemoveEmpty false outside_call))%Z.
      rewrite (outside_call_remaining false). lia. }
  destruct Hret as [P5 E].
  exists P5. split; [exact E|].
  destruct (HU P5 E) as [HL HD].
  split; [exact HL|].
  intros pr Hpr.
  destruct (HD 0%nat pr Hpr eq_refl) as [_ [Hkeep _]].
  destruct (Hkeep eq_refl) as [HN Hb].
  destruct outside_call_bins as [B0 B1].
  split; [rewrite HN; exact outside_call_NBin|].
  split.
  - destruct (Hb 0%Z) as [Hc _]; [rewrite outside_call_NBin; lia|].
    rewrite Hc; exact B0.
  - intros b Hr.
    destruct (Hb b) as [Hc Hd]; [rewrite outside_call_NBin; lia|].
    split; [rewrite Hc; exact (B1 b Hr) | exact (Hd (B1 b Hr))].
Defined.

Lemma profiles_share_bins_witness :
  exists P5,
    Aux_ComputeProfile serial_build single_patch_amr
                       (with_RemoveEmpty true outside_call)
                       [fresh_profile; used_profile] = Return P5 /\
    initial_NBin (with_RemoveEmpty true outside_call) = 4%Z /\
    length P5 = 2%nat /\
    (forall pr, In pr P5 ->
       NBin pr = 3%Z /\
       NCell (visible pr)
       = final_bins true
           (bin_counts serial_build single_patch_amr
                       (with_RemoveEmpty true outside_call))
           (bin_counts serial_build single_patch_amr
                       (with_RemoveEmpty true outside_call)) /\
       Radius (visible pr)
       = final_bins true
           (bin_counts serial_build single_patch_amr
                       (with_RemoveEmpty true outside_call))
           (configured_radii (with_RemoveEmpty true outside_call))) /\
    forall pr pr', In pr P5 -> In pr' P5 ->
      NBin pr = NBin pr' /\
      Radius (visible pr) = Radius (visible pr') /\
      NCell (visible pr) = NCell (visible pr') /\
      length (Radius (visible pr)) = Z.to_nat (NBin pr) /\
      length (NCell (visible pr)) = Z.to_nat (NBin pr).
Proof.
  destruct (outside_call_returns true [fresh_profile; used_profile]) as [P5 E];
    [discriminate|].
  exists P5. split; [exact E|]. split; [exact outside_call_NBin|].
  destruct (profiles_share_bins serial_build single_patch_amr
              (with_RemoveEmpty true outside_call)
              [fresh_profile; used_profile] P5 E) as [HL [HA HB]].
  split; [exact HL|]. split; [|exact HB].
  intros pr Hin. destruct (HA pr Hin) as [Hn [Hc Hr]].
  split; [rewrite Hn; exact (outside_call_remaining true)|].
  split; assumption.
Defined.

Lemma removal_round_trip_witness :
  exists Pf,
    Aux_ComputeProfile serial_build single_patch_amr
                       (with_RemoveEmpty false outside_call) [fresh_profile]
    = Return Pf /\
    (forall pr, In pr Pf -> NBin pr = 4%Z /\ cells (NCell pr) 0 = 0%Z) /\
    exists Pt,
      Aux_ComputeProfile serial_build single_patch_amr
                         (with_RemoveEmpty true outside_call) [fresh_profile]
      = Return Pt /\
      (forall pr, In pr Pt -> NBin pr = 3%Z) /\
      manual_remove_empty outside_call Pf = Ok (map visible Pt).
Proof.
  destruct (outside_call_returns false [fresh_profile]) as [Pf Ef];
    [discriminate|].
  destruct (outside_call_returns true [fresh_profile]) as [Pt Et];
    [discriminate|].
  exists Pf. split; [exact Ef|]. split.
  { intros pr Hin. apply In_nth_error in Hin. destruct Hin as [p Hp].
    destruct (Aux_Return_bins _ _ _ _ _ Ef p pr Hp) as [Hkeep _].
    destruct (Hkeep eq_refl) as [HN Hc].
    split; [rewrite HN; exact outside_call_NBin|].
    rewrite Hc by (change (0 <= 0 < initial_NBin outside_call)%Z;
                   rewrite outside_call_NBin; lia).
    exact (proj1 outside_call_bins). }
  exists Pt. split; [exact Et|]. split.
  { intros pr Hin. apply In_nth_error in Hin. destruct Hin as [p Hp].
    destruct (Aux_Return_counts _ _ _ _ _ Et) as [_ Hc].
    destruct (Hc p pr Hp) as [Hn _].
    rewrite Hn. exact (outside_call_remaining true). }
  assert (G := removal_round_trip serial_build single_patch_amr outside_call
                 [fresh_profile] Pf Ef).
  rewrite Et in G.
  destruct (manual_remove_empty outside_call Pf) as [Pm|e];
    [rewrite G; reflexivity | contradiction].
Defined.

Lemma removal_leaves_no_empty_bin_witness :
  arg_RemoveEmpty (with_RemoveEmpty true outside_call) = true /\
  initial_NBin (with_RemoveEmpty true outside_call) = 4%Z /\
  exists P5,
    Aux_ComputeProfile serial_build single_patch_amr
                       (with_RemoveEmpty true outside_call) [fresh_profile]
    = Return P5 /\
    length P5 = 1%nat /\
    forall pr, In pr P5 ->
      NBin pr = 3%Z /\
      forall b, (0 <= b < NBin pr)%Z -> (0 < cells (NCell pr) b)%Z.
Proof.
  split; [reflexivity|]. split; [exact outside_call_NBin|].
  destruct (outside_call_returns true [fresh_profile]) as [P5 H5];
    [discriminate|].
  exists P5; split; [exact H5|].
  split; [exact (proj1 (Aux_Return_counts _ _ _ _ _ H5))|].
  intros pr Hin.
  destruct (removal_leaves_no_empty_bin serial_build single_patch_amr
              (with_RemoveEmpty true outside_call) [fresh_profile] P5
              eq_refl H5 pr Hin) as [_ [Hn Hc]].
  split; [rewrite Hn; exact (outside_call_remaining true) | exact Hc].
Defined.

(* ------------------------------------------------------------------ *)
(** ** Two patches of different densities *)







(* ------------------------------------------------------------------ *)
(** ** The time-step criteria *)

Ltac rmin_le :=
  first [ apply Rle_refl
        | apply Rmin_r
        | eapply Rle_trans; [apply Rmin_l|]; rmin_le ].

Lemma minimum_criteria_le (cf : Config) (env : DtEnv) (lv : Z) :
  forall c, In c (active_criteria env lv) -> criteria_minimum cf env lv <= c.
Proof.
  unfold criteria_minimum, minimum_criteria, active_criteria.
  destruct (COMOVING env), (DumpByTime env), (user_criterion env);
    cbv iota; cbn [app In]; intros c Hc;
    repeat match goal with
           | H : _ \/ _ |- _ => destruct H as [H|H]
           | H : False |- _ => contradiction
           end;
    subst c; rmin_le.
Qed.

Lemma minimum_criteria_In (cf : Config) (env : DtEnv) (lv : Z) :
  In (criteria_minimum cf env lv) (active_criteria env lv).
Proof.
  unfold criteria_minimum, minimum_criteria, active_criteria.
  destruct (COMOVING env), (DumpByTime env), (user_criterion env);
    cbv iota; cbn [app];
    repeat apply Rmin_case; simpl; tauto.
Qed.

(** What a call that returns on a level with patches went through. *)
Lemma Mis_GetTimeStep_Returned (cf : Config) (env : DtEnv) (lv : Z)
    (dTime_SyncFaLv d : R) (w w' : World) :
  NPatchTotal env lv <> 0%Z ->
  Mis_GetTimeStep cf env lv dTime_SyncFaLv w = (Returned d, w') ->
  (DumpByTime env = true -> 0 < DumpTime env - Time_ env lv) /\
  0 < END_T env - Time_ env lv /\
  (synchronised env lv = true -> 0 < dTime_SyncFaLv) /\
  d = (if synchronised env lv
          && (if Rge_dec ((1.0 + DT__FLEXIBLE_RANGE env) * criteria_minimum cf env lv)
                         dTime_SyncFaLv then true else false)
       then dTime_SyncFaLv else criteria_minimum cf env lv) /\
  0 < Mis_dTime2dt env (Time_ env lv) d /\ 0 < d.
Proof.
  intros Hn H. unfold Mis_GetTimeStep in H. cbv zeta in H.
  destruct (Z.eqb_spec (NPatchTotal env lv) 0) as [E|_]; [contradiction|].
  fold (criteria_minimum cf env lv) in H.
  destruct (DumpByTime env) eqn:Ed; cbn [andb] in H.
  - destruct (Rle_dec (DumpTime env - Time_ env lv) 0.0) as [L4|L4];
      [discriminate H|].
    destruct (Rle_dec (END_T env - Time_ env lv) 0.0) as [L5|L5];
      [discriminate H|].
    destruct (synchronised env lv) eqn:Es; cbn [andb] in H.
    + destruct (Rle_dec dTime_SyncFaLv 0.0) as [Ls|Ls]; [discriminate H|].
      match type of H with
      | context [Mis_dTime2dt env _ ?x] => set (dmin := x) in *
      end.
      destruct (Rle_dec (Mis_dTime2dt env (Time_ env lv) dmin) 0.0) as [La|La];
        [discriminate H|].
      destruct (Rle_dec dmin 0.0) as [Lb|Lb]; [discriminate H|].
      cbn [orb] in H. injection H as Hd _. subst d.
      repeat split; try (intros; lra).
    + match type of H with
      | context [Mis_dTime2dt env _ ?x] => set (dmin := x) in *
      end.
      destruct (Rle_dec (Mis_dTime2dt env (Time_ env lv) dmin) 0.0) as [La|La];
        [discriminate H|].
      destruct (Rle_dec dmin 0.0) as [Lb|Lb]; [discriminate H|].
      cbn [orb] in H. injection H as Hd _. subst d.
      repeat split; try (intros; try discriminate; lra).
  - destruct (Rle_dec (END_T env - Time_ env lv) 0.0) as [L5|L5];
      [discriminate H|].
    destruct (synchronised env lv) eqn:Es; cbn [andb] in H.
    + destruct (Rle_dec dTime_SyncFaLv 0.0) as [Ls|Ls]; [discriminate H|].
      match type of H with
      | context [Mis_dTime2dt env _ ?x] => set (dmin := x) in *
      end.
      destruct (Rle_dec (Mis_dTime2dt env (Time_ env lv) dmin) 0.0) as [La|La];
        [discriminate H|].
      destruct (Rle_dec dmin 0.0) as [Lb|Lb]; [discriminate H|].
      cbn [orb] in H. injection H as Hd _. subst d.
      repeat split; try (intros; try discriminate; lra).
    + match type of H with
      | context [Mis_dTime2dt env _ ?x] => set (dmin := x) in *
      end.
      destruct (Rle_dec (Mis_dTime2dt env (Time_ env lv) dmin) 0.0) as [La|La];
        [discriminate H|].
      destruct (Rle_dec dmin 0.0) as [Lb|Lb]; [discriminate H|].
      cbn [orb] in H. injection H as Hd _. subst d.
      repeat split; try (intros; try discriminate; lra).
Qed.

(** The conditions under which a call on a level with patches returns. *)
Lemma Mis_GetTimeStep_returns (cf : Config) (env : DtEnv) (lv : Z)
    (dTime_SyncFaLv : R) (w : World) :
  NPatchTotal env lv <> 0%Z ->
  (DumpByTime env = true -> 0 < DumpTime env - Time_ env lv) ->
  0 < END_T env - Time_ env lv ->
  (synchronised env lv = true -> 0 < dTime_SyncFaLv) ->
  let d := if synchronised env lv
              && (if Rge_dec ((1.0 + DT__FLEXIBLE_RANGE env)
                              * criteria_minimum cf env lv)
                             dTime_SyncFaLv then true else false)
           then dTime_SyncFaLv else criteria_minimum cf env lv in
  0 < d -> 0 < Mis_dTime2dt env (Time_ env lv) d ->
  exists w', Mis_GetTimeStep cf env lv dTime_SyncFaLv w = (Returned d, w').
Proof.
  intros Hn H4 H5 Hs d Hd Hdt. unfold Mis_GetTimeStep. cbv zeta.
  destruct (Z.eqb_spec (NPatchTotal env lv) 0) as [E|_]; [contradiction|].
  fold (criteria_minimum cf env lv). fold d.
  assert (E4 : DumpByTime env
               && (if Rle_dec (if DumpByTime env
                               then DumpTime env - Time_ env lv
                               else NULL_REAL cf) 0.0 then true else false)
               = false).
  { destruct (DumpByTime env) eqn:Ed; [|reflexivity].
    assert (0 < DumpTime env - Time_ env lv) by (apply H4; reflexivity).
    destruct (Rle_dec (DumpTime env - Time_ env lv) 0.0); [lra | reflexivity]. }
  rewrite E4.
  destruct (Rle_dec (END_T env - Time_ env lv) 0.0); [lra|].
  assert (E6 : synchronised env lv
               && (if Rle_dec dTime_SyncFaLv 0.0 then true else false) = false).
  { destruct (synchronised env lv) eqn:Es; [|reflexivity].
    assert (0 < dTime_SyncFaLv) by (apply Hs; reflexivity).
    destruct (Rle_dec dTime_SyncFaLv 0.0); [lra | reflexivity]. }
  rewrite E6.
  destruct (Rle_dec (Mis_dTime2dt env (Time_ env lv) d) 0.0); [lra|].
  destruct (Rle_dec d 0.0); [lra|].
  cbn [orb]. eauto.
Qed.

(** X14. Without the synchronisation with the parent level, a call on a level
    with patches returns the smallest of the criteria in force: a positive
    interval, one of the criteria, and not above any of them (so never beyond
    the end of the run or the next dump). *)
Theorem timestep_is_smallest_criterion (cf : Config) (env : DtEnv) (lv : Z)
    (dTime_SyncFaLv d : R) (w w' : World) :
  NPatchTotal env lv <> 0%Z ->
  synchronised env lv = false ->
  Mis_GetTimeStep cf env lv dTime_SyncFaLv w = (Returned d, w') ->
  0 < d /\ 0 < Mis_dTime2dt env (Time_ env lv) d /\
  In d (active_criteria env lv) /\
  (forall c, In c (active_criteria env lv) -> d <= c) /\
  d <= END_T env - Time_ env lv.
Proof.
  intros Hn Hs H.
  destruct (Mis_GetTimeStep_Returned cf env lv dTime_SyncFaLv d w w' Hn H)
    as [_ [_ [_ [Hd [Hdt Hpos]]]]].
  rewrite Hs in Hd; cbn [andb] in Hd. subst d.
  split; [exact Hpos|]. split; [exact Hdt|].
  split; [apply minimum_criteria_In|].
  split; [apply minimum_criteria_le|].
  apply minimum_criteria_le. unfold active_criteria.
  apply in_or_app; right. apply in_or_app; right. apply in_or_app; right.
  left; reflexivity.
Qed.

Lemma plain_env_minimum : criteria_minimum serial_build plain_env 0 = 1.0 * 0.25.
Proof.
  unfold criteria_minimum, minimum_criteria; simpl.
  change (dTime_dt plain_env 0) with 1.0.
  rewrite (Rmin_left (1.0 * 0.25) (3 - 2)) by lra.
  rewrite Rmin_left by lra. reflexivity.
Qed.

Lemma timestep_is_smallest_criterion_witness :
  NPatchTotal plain_env 0 <> 0%Z /\
  synchronised plain_env 0 = false /\
  exists d w',
    Mis_GetTimeStep serial_build plain_env 0 1 fresh_world = (Returned d, w') /\
    0 < d /\ 0 < Mis_dTime2dt plain_env (Time_ plain_env 0) d /\
    In d (active_criteria plain_env 0) /\
    (forall c, In c (active_criteria plain_env 0) -> d <= c) /\
    d <= END_T plain_env - Time_ plain_env 0.
Proof.
  assert (H1 : NPatchTotal plain_env 0 <> 0%Z) by (simpl; lia).
  assert (H2 : synchronised plain_env 0 = false) by reflexivity.
  split; [exact H1|]. split; [exact H2|].
  destruct (Mis_GetTimeStep_returns serial_build plain_env 0 1 fresh_world H1)
    as [w' Hw].
  - intros _; simpl; lra.
  - simpl; lra.
  - intros E; discriminate E.
  - rewrite H2; cbn [andb]. rewrite plain_env_minimum. lra.
  - rewrite H2; cbn [andb]. rewrite plain_env_minimum. simpl. lra.
  - eexists; exists w'. split; [exact Hw|].
    exact (timestep_is_smallest_criterion serial_build plain_env 0 1 _
             fresh_world w' H1 H2 Hw).
Defined.

(** X15. With flexible time-steps on a refined level, the interval a call returns
    never passes the synchronisation time of the parent level: it either
    lands on it or stays short of it by more than the flexible range, in
    which case it is the smallest criterion. Landing on it can stretch the
    interval beyond a criterion (the end of the run included) by the factor
    [1 + DT__FLEXIBLE_RANGE] at most. *)
Theorem timestep_synchronised (cf : Config) (env : DtEnv) (lv : Z)
    (dTime_SyncFaLv d : R) (w w' : World) :
  NPatchTotal env lv <> 0%Z ->
  synchronised env lv = true ->
  0 <= DT__FLEXIBLE_RANGE env ->
  Mis_GetTimeStep cf env lv dTime_SyncFaLv w = (Returned d, w') ->
  0 < d <= dTime_SyncFaLv /\
  (d = dTime_SyncFaLv \/
   (In d (active_criteria env lv) /\
    (1 + DT__FLEXIBLE_RANGE env) * d < dTime_SyncFaLv)) /\
  (forall c, In c (active_criteria env lv) ->
             d <= (1 + DT__FLEXIBLE_RANGE env) * c).
Proof.
  intros Hn Hs Hr H.
  destruct (Mis_GetTimeStep_Returned cf env lv dTime_SyncFaLv d w w' Hn H)
    as [_ [_ [Hsync [Hd [Hdt Hpos]]]]].
  specialize (Hsync Hs). rewrite Hs in Hd; cbn [andb] in Hd.
  set (m := criteria_minimum cf env lv) in *.
  set (q := DT__FLEXIBLE_RANGE env) in *.
  assert (Hle := minimum_criteria_le cf env lv). fold m in Hle.
  destruct (Rge_dec ((1.0 + q) * m) dTime_SyncFaLv) as [Hge|Hlt]; subst d.
  - split; [lra|]. split; [left; reflexivity|].
    intros c Hc. specialize (Hle c Hc).
    assert ((1 + q) * m <= (1 + q) * c)
      by (apply Rmult_le_compat_l; lra).
    lra.
  - assert (Hm : (1 + q) * m < dTime_SyncFaLv) by lra.
    assert (Hqm : 0 <= q * m) by (apply Rmult_le_pos; lra).
    split; [lra|].
    split; [right; split; [apply minimum_criteria_In | exact Hm]|].
    intros c Hc. specialize (Hle c Hc).
    assert (0 <= q * c) by (apply Rmult_le_pos; lra).
    lra.
Qed.

Lemma plain_env_minimum_1 : criteria_minimum serial_build plain_env 1 = 1.0 * 0.25.
Proof.
  unfold criteria_minimum, minimum_criteria; simpl.
  change (dTime_dt plain_env 1) with 1.0.
  rewrite (Rmin_left (1.0 * 0.25) (3 - 2)) by lra.
  rewrite Rmin_left by lra. reflexivity.
Qed.

Lemma timestep_synchronised_witness :
  NPatchTotal plain_env 1 <> 0%Z /\
  synchronised plain_env 1 = true /\
  0 <= DT__FLEXIBLE_RANGE plain_env /\
  exists d w',
    Mis_GetTimeStep serial_build plain_env 1 0.26 fresh_world = (Returned d, w') /\
    0 < d <= 0.26 /\
    (d = 0.26 \/
     (In d (active_criteria plain_env 1) /\
      (1 + DT__FLEXIBLE_RANGE plain_env) * d < 0.26)) /\
    (forall c, In c (active_criteria plain_env 1) ->
               d <= (1 + DT__FLEXIBLE_RANGE plain_env) * c).
Proof.
  assert (H1 : NPatchTotal plain_env 1 <> 0%Z) by (simpl; lia).
  assert (H2 : synchronised plain_env 1 = true) by reflexivity.
  assert (H3 : 0 <= DT__FLEXIBLE_RANGE plain_env) by (simpl; lra).
  split; [exact H1|]. split; [exact H2|]. split; [exact H3|].
  assert (Hd : 0 < (if synchronised plain_env 1
                       && (if Rge_dec ((1.0 + DT__FLEXIBLE_RANGE plain_env)
                                       * criteria_minimum serial_build plain_env 1)
                                      0.26 then true else false)
                    then 0.26 else criteria_minimum serial_build plain_env 1)).
  { destruct (_ && _); [lra | rewrite plain_env_minimum_1; lra]. }
  destruct (Mis_GetTimeStep_returns serial_build plain_env 1 0.26 fresh_world H1)
    as [w' Hw].
  - intros _; simpl; lra.
  - simpl; lra.
  - intros _; lra.
  - exact Hd.
  - simpl (Mis_dTime2dt plain_env _ _). exact Hd.
  - eexists; exists w'. split; [exact Hw|].
    exact (timestep_synchronised serial_build plain_env 1 0.26 _
             fresh_world w' H1 H2 H3 Hw).
Defined.

(** X16. At or past the end of the run, a call on a level with patches ends the
    run with an error (the end-time one, or the dump-time one when dumps by
    time are on and the dump time has passed as well), while a call on a
    level without patches still returns [HUGE_NUMBER]. *)
Theorem timestep_past_end (cf : Config) (env : DtEnv) (lv : Z)
    (dTime_SyncFaLv : R) (w : World) :
  END_T env <= Time_ env lv ->
  (NPatchTotal env lv = 0%Z ->
   Mis_GetTimeStep cf env lv dTime_SyncFaLv w
   = (Returned (HUGE_NUMBER env), first_call env w)) /\
  (NPatchTotal env lv <> 0%Z ->
   exists e msg,
     Mis_GetTimeStep cf env lv dTime_SyncFaLv w
     = (Exited e, say [msg] (first_call env w)) /\
     (e = EndTimePassed \/
      (e = DumpTimePassed /\ DumpByTime env = true /\
       DumpTime env <= Time_ env lv))).
Proof.
  intros Hend. unfold Mis_GetTimeStep; cbv zeta. split; intros Hn.
  - rewrite Hn. reflexivity.
  - destruct (Z.eqb_spec (NPatchTotal env lv) 0) as [E|_]; [contradiction|].
    destruct (DumpByTime env) eqn:Ed; cbn [andb].
    + destruct (Rle_dec (DumpTime env - Time_ env lv) 0.0) as [L4|L4].
      * eexists; eexists; split; [reflexivity|].
        right. split; [reflexivity|]. split; [reflexivity | lra].
      * destruct (Rle_dec (END_T env - Time_ env lv) 0.0) as [L5|L5]; [|lra].
        eexists; eexists; split; [reflexivity|]. left; reflexivity.
    + destruct (Rle_dec (END_T env - Time_ env lv) 0.0) as [L5|L5]; [|lra].
      eexists; eexists; split; [reflexivity|]. left; reflexivity.
Qed.

(* ------------------------------------------------------------------ *)
(** ** The state of the time-step routine *)

Lemma timestep_past_end_witness :
  END_T late_env <= Time_ late_env 0 /\
  (NPatchTotal late_env 0 = 0%Z ->
   Mis_GetTimeStep serial_build late_env 0 1 fresh_world
   = (Returned (HUGE_NUMBER late_env), first_call late_env fresh_world)) /\
  (NPatchTotal late_env 0 <> 0%Z ->
   exists e msg,
     Mis_GetTimeStep serial_build late_env 0 1 fresh_world
     = (Exited e, say [msg] (first_call late_env fresh_world)) /\
     (e = EndTimePassed \/
      (e = DumpTimePassed /\ DumpByTime late_env = true /\
       DumpTime late_env <= Time_ late_env 0))).
Proof.
  assert (H : END_T late_env <= Time_ late_env 0) by (simpl; lra).
  split; [exact H|].
  exact (timestep_past_end serial_build late_env 0 1 fresh_world H).
Defined.

(** What a call does to the state: the first-call block, then messages other
    than the warning, and lines appended to the record file when the call gets
    as far as the record on the root rank. *)
Lemma Mis_GetTimeStep_world (cf : Config) (env : DtEnv) (lv : Z)
    (dTime_SyncFaLv : R) (w : World) :
  let r := Mis_GetTimeStep cf env lv dTime_SyncFaLv w in
  let w0 := first_call env w in
  FirstTime (snd r) = FirstTime w0 /\
  (exists m, Stderr (snd r) = Stderr w0 ++ m /\ ~ In Warning_FileExists m) /\
  (RecordFile (snd r) = RecordFile w0 \/
   (OPT__RECORD_DT env = true /\ MPI_Rank env = 0%Z /\
    exists l dt d,
      RecordFile (snd r) = Some (file_lines w0 ++ l ++ [Line_Minimum dt d; Line_Blank]) /\
      (forall d', fst r = Returned d' -> d' = d))).
Proof.
  cbv zeta. unfold Mis_GetTimeStep; cbv zeta.
  set (w0 := first_call env w).
  assert (Hnil : exists m : list dt_message,
             Stderr w0 = Stderr w0 ++ m /\ ~ In Warning_FileExists m).
  { exists []. rewrite app_nil_r. split; [reflexivity | simpl; tauto]. }
  assert (Hsay : forall msg, msg <> Warning_FileExists ->
             forall w1, Stderr w1 = Stderr w0 ->
             exists m : list dt_message,
               Stderr (say [msg] w1) = Stderr w0 ++ m /\ ~ In Warning_FileExists m).
  { intros msg Hmsg w1 E. exists [msg]. unfold say; simpl. rewrite E.
    split; [reflexivity|]. simpl. intros [F|[]]. congruence. }
  destruct (NPatchTotal env lv =? 0)%Z; cbn [fst snd].
  { split; [reflexivity|]. split; [exact Hnil | left; reflexivity]. }
  destruct (DumpByTime env && _); cbn [fst snd].
  { split; [reflexivity|]. split; [|left; reflexivity].
    apply Hsay; [discriminate | reflexivity]. }
  destruct (Rle_dec (END_T env - Time_ env lv) 0.0); cbn [fst snd].
  { split; [reflexivity|]. split; [|left; reflexivity].
    apply Hsay; [discriminate | reflexivity]. }
  destruct (synchronised env lv && (if Rle_dec dTime_SyncFaLv 0.0 then true else false));
    cbn [fst snd].
  { split; [reflexivity|]. split; [|left; reflexivity].
    apply Hsay; [discriminate | reflexivity]. }
  match goal with
  | |- context [Mis_dTime2dt env (Time_ env lv) ?x] => set (d := x)
  end.
  set (dt := Mis_dTime2dt env (Time_ env lv) d).
  match goal with
  | |- context [append_lines ?x w0] => set (lines := x)
  end.
  assert (Hlines : exists l, lines = l ++ [Line_Minimum dt d; Line_Blank]).
  { unfold lines, record_lines. eexists. rewrite !app_assoc. reflexivity. }
  destruct Hlines as [l Hl].
  destruct (OPT__RECORD_DT env) eqn:Er; cbn [andb].
  - destruct (Z.eqb_spec (MPI_Rank env) 0) as [E0|E0].
    + destruct ((if Rle_dec dt 0.0 then true else false)
                || (if Rle_dec d 0.0 then true else false)); cbn [fst snd].
      * split; [reflexivity|]. split; [apply Hsay; [discriminate | reflexivity]|].
        right. split; [reflexivity|]. split; [exact E0|].
        exists l, dt, d. split; [|intros d' F; discriminate F].
        unfold say, append_lines, file_lines; simpl. rewrite Hl.
        destruct (RecordFile w0); reflexivity.
      * split; [reflexivity|]. split; [exact Hnil|].
        right. split; [reflexivity|]. split; [exact E0|].
        exists l, dt, d. split; [|intros d' F; injection F as <-; reflexivity].
        unfold append_lines, file_lines; simpl. rewrite Hl.
        destruct (RecordFile w0); reflexivity.
    + destruct ((if Rle_dec dt 0.0 then true else false)
                || (if Rle_dec d 0.0 then true else false)); cbn [fst snd].
      * split; [reflexivity|]. split; [|left; reflexivity].
        apply Hsay; [discriminate | reflexivity].
      * split; [reflexivity|]. split; [exact Hnil | left; reflexivity].
  - destruct ((if Rle_dec dt 0.0 then true else false)
              || (if Rle_dec d 0.0 then true else false)); cbn [fst snd].
    + split; [reflexivity|]. split; [|left; reflexivity].
      apply Hsay; [discriminate | reflexivity].
    + split; [reflexivity|]. split; [exact Hnil | left; reflexivity].
Qed.

Lemma first_call_settled (env : DtEnv) (w w1 : World) :
  FirstTime w1 = FirstTime (first_call env w) -> first_call env w1 = w1.
Proof.
  unfold first_call.
  destruct (Z.eqb_spec (MPI_Rank env) 0) as [E|E]; cbn [andb]; [|reflexivity].
  destruct (FirstTime w) eqn:Ew; cbn [FirstTime]; intros H; rewrite H;
    try rewrite Ew; reflexivity.
Qed.

(** X17. The warning about an existing record file is written at most once: after
    any call, a later call on any level adds no such warning to [stderr]. *)
Theorem timestep_warns_once (cf : Config) (env : DtEnv) (lv lv' : Z)
    (s s' : R) (w : World) :
  let w1 := snd (Mis_GetTimeStep cf env lv s w) in
  let w2 := snd (Mis_GetTimeStep cf env lv' s' w1) in
  FirstTime w2 = FirstTime w1 /\
  exists m, Stderr w2 = Stderr w1 ++ m /\ ~ In Warning_FileExists m.
Proof.
  intros w1 w2.
  destruct (Mis_GetTimeStep_world cf env lv s w) as [F1 _]. fold w1 in F1.
  destruct (Mis_GetTimeStep_world cf env lv' s' w1) as [F2 [M2 _]]. fold w2 in F2, M2.
  rewrite (first_call_settled env w w1 F1) in F2, M2.
  split; [exact F2 | exact M2].
Qed.

(** X18. The record file is only ever appended to, and only on the root rank with
    [OPT__RECORD_DT]: a call leaves it as the first-call block found it, or
    adds one record after what it held, whose last line but one gives the
    interval the call returns. *)
Theorem record_file_appended (cf : Config) (env : DtEnv) (lv : Z)
    (dTime_SyncFaLv : R) (w : World) :
  let r := Mis_GetTimeStep cf env lv dTime_SyncFaLv w in
  RecordFile (first_call env w) = RecordFile w /\
  (RecordFile (snd r) = RecordFile w \/
   (OPT__RECORD_DT env = true /\ MPI_Rank env = 0%Z /\
    exists l dt d,
      RecordFile (snd r)
      = Some (file_lines w ++ l ++ [Line_Minimum dt d; Line_Blank]) /\
      (forall d', fst r = Returned d' -> d' = d))).
Proof.
  intros r.
  assert (H0 : RecordFile (first_call env w) = RecordFile w).
  { unfold first_call. destruct (_ && _); reflexivity. }
  split; [exact H0|].
  destruct (Mis_GetTimeStep_world cf env lv dTime_SyncFaLv w) as [_ [_ H]].
  fold r in H. unfold file_lines in *. rewrite H0 in H. exact H.
Qed.

(* ------------------------------------------------------------------ *)
(** ** The input of the chemistry solver *)

Lemma Forall_upd {A} (P : A -> Prop) (v : A) :
  forall (l : list A) (n : nat), Forall P l -> P v -> Forall P (upd n v l).
Proof.
  induction l as [|a l IH]; intros n F Hv; [destruct n; constructor|].
  inversion F; subst. destruct n; simpl; constructor; auto.
Qed.

Lemma che_wf_row (rows cells : nat) (h : list (list (list R))) (N : nat) :
  che_wf rows cells h -> (N < rows)%nat ->
  length (nth N h []) = Z.to_nat CHE_NPREP /\
  Forall (fun comp => length comp = cells) (nth N h []).
Proof.
  intros [L F] HN. rewrite Forall_forall in F. apply F, nth_In. lia.
Qed.

Lemma store3_ok (rows cells : nat) (h : list (list (list R))) (N Idx t : Z) (v : R) :
  che_wf rows cells h ->
  (0 <= N < Z.of_nat rows)%Z -> (0 <= Idx < CHE_NPREP)%Z ->
  (0 <= t < Z.of_nat cells)%Z ->
  exists h',
    store3 h N Idx t v = Ok h' /\ che_wf rows cells h' /\
    forall N' Idx' t', (0 <= N')%Z -> (0 <= Idx')%Z -> (0 <= t')%Z ->
      get3 h' N' Idx' t'
      = if ((N' =? N) && (Idx' =? Idx) && (t' =? t))%Z then v
        else get3 h N' Idx' t'.
Proof.
  intros W HN HI Ht.
  destruct (che_wf_row rows cells h (Z.to_nat N) W ltac:(lia)) as [Lr Fr].
  destruct W as [L F].
  set (row := nth (Z.to_nat N) h []) in *.
  set (comp := nth (Z.to_nat Idx) row []).
  assert (Lc : length comp = cells).
  { rewrite Forall_forall in Fr. apply Fr, nth_In. unfold CHE_NPREP in *. lia. }
  unfold store3.
  rewrite (load_ok h N []) by lia. cbn [bind]. fold row.
  rewrite (load_ok row Idx []) by (unfold CHE_NPREP in *; lia). cbn [bind]. fold comp.
  rewrite store_ok by lia. cbn [bind].
  rewrite store_ok by (unfold CHE_NPREP in *; lia). cbn [bind].
  rewrite store_ok by lia.
  eexists. split; [reflexivity|]. split.
  - split; [rewrite upd_length; exact L|].
    apply Forall_upd; [exact F|].
    split; [rewrite upd_length; exact Lr|].
    apply Forall_upd; [exact Fr|]. rewrite upd_length; exact Lc.
  - intros N' Idx' t' HN' HI' Ht'. unfold get3.
    destruct (Z.eqb_spec N' N) as [->|En]; cbn [andb].
    + rewrite nth_upd_eq by lia.
      destruct (Z.eqb_spec Idx' Idx) as [->|Ei]; cbn [andb].
      * rewrite nth_upd_eq by (unfold CHE_NPREP in *; lia).
        destruct (Z.eqb_spec t' t) as [->|Et].
        -- rewrite nth_upd_eq by lia. reflexivity.
        -- rewrite nth_upd_neq by lia. reflexivity.
      * rewrite nth_upd_neq by lia. reflexivity.
    + rewrite nth_upd_neq by lia. reflexivity.
Qed.

Lemma prepare_cell_ok (cf : Config) (patch : list patch_t) (pt : patch_t)
    (rows cells : nat) (h : list (list (list R))) (PID N t : Z) :
  load patch PID = Ok pt ->
  che_wf rows cells h ->
  (0 <= N < Z.of_nat rows)%Z -> (0 <= t < Z.of_nat cells)%Z ->
  exists h',
    prepare_cell cf patch PID N t h = Ok h' /\ che_wf rows cells h' /\
    forall N' Idx' t', (0 <= N')%Z -> (0 <= Idx' < CHE_NPREP)%Z -> (0 <= t')%Z ->
      get3 h' N' Idx' t'
      = if ((N' =? N) && (t' =? t))%Z then prepared cf pt Idx' t
        else get3 h N' Idx' t'.
Proof.
  intros Hpt W HN Ht. unfold prepare_cell. rewrite Hpt. cbn [bind]. cbv zeta.
  destruct (store3_ok rows cells h N Idx_Dens t (flat cf (fluid pt DENS) t) W HN)
    as [h1 [E1 [W1 G1]]]; [unfold Idx_Dens, CHE_NPREP; lia | exact Ht |].
  rewrite E1; cbn [bind].
  destruct (store3_ok rows cells h1 N Idx_sEint t (prepared_sEint cf pt t) W1 HN)
    as [h2 [E2 [W2 G2]]]; [unfold Idx_sEint, CHE_NPREP; lia | exact Ht |].
  rewrite E2; cbn [bind].
  destruct (store3_ok rows cells h2 N Idx_Ek t (prepared_Ek cf pt t) W2 HN)
    as [h3 [E3 [W3 G3]]]; [unfold Idx_Ek, CHE_NPREP; lia | exact Ht |].
  exists h3. split; [exact E3|]. split; [exact W3|].
  intros N' Idx' t' HN' HI' Ht'.
  rewrite G3, G2, G1 by lia. unfold prepared, Idx_Dens, Idx_sEint, Idx_Ek, CHE_NPREP in *.
  destruct (Z.eqb_spec N' N), (Z.eqb_spec t' t); cbn [andb];
    try rewrite !andb_false_r; try reflexivity.
  destruct (Z.eqb_spec Idx' 2), (Z.eqb_spec Idx' 1), (Z.eqb_spec Idx' 0);
    cbn [andb]; try reflexivity; lia.
Qed.

Lemma prepare_cells_ok (cf : Config) (patch : list patch_t) (PID0_List : list Z)
    (pt : patch_t) (rows cells : nat) (h0 h : list (list (list R))) (PID N : Z) :
  load patch PID = Ok pt ->
  source_patch patch PID0_List N = Ok pt ->
  cells = Z.to_nat (PS1 cf * PS1 cf * PS1 cf) ->
  (0 <= N < Z.of_nat rows)%Z ->
  che_filled cf patch PID0_List rows cells h0 N 0 h ->
  exists h',
    for_Z 0 (PS1 cf * PS1 cf * PS1 cf) (prepare_cell cf patch PID N) h = Ok h' /\
    che_filled cf patch PID0_List rows cells h0 (N + 1) 0 h'.
Proof.
  intros Hpt Hsrc Hc HN H0.
  set (T := (PS1 cf * PS1 cf * PS1 cf)%Z) in *.
  destruct (for_Z_total
              (fun t h => che_filled cf patch PID0_List rows cells h0 N t h)
              (prepare_cell cf patch PID N) 0 T h H0) as [h' [E I]].
  - intros t s Ht [W G].
    destruct (prepare_cell_ok cf patch pt rows cells s PID N t Hpt W HN)
      as [s' [E' [W' G']]]; [lia|].
    exists s'. split; [exact E'|]. split; [exact W'|].
    intros N' Idx' t' HN' HI' Ht'.
    rewrite G' by lia. rewrite G by lia. unfold che_done.
    destruct (Z.eqb_spec N' N) as [->|En]; cbn [andb].
    + rewrite Hsrc.
      destruct (Z.eqb_spec t' t) as [->|Et].
      * replace (t <? t + 1)%Z with true by (symmetry; apply Z.ltb_lt; lia).
        rewrite orb_true_r. reflexivity.
      * replace (t' <? t + 1)%Z with (t' <? t)%Z; [reflexivity|].
        destruct (Z.ltb_spec t' t), (Z.ltb_spec t' (t + 1)); auto; lia.
    + reflexivity.
  - exists h'. split; [exact E|].
    destruct I as [W G]. split; [exact W|].
    intros N' Idx' t' HN' HI' Ht'. rewrite G by lia. unfold che_done.
    replace ((N' <? N) || (N' =? N) && (t' <? Z.max 0 T))%Z
      with ((N' <? N + 1) || (N' =? N + 1) && (t' <? 0))%Z; [reflexivity|].
    destruct (Z.ltb_spec N' N), (Z.ltb_spec N' (N + 1)), (Z.eqb_spec N' N),
             (Z.eqb_spec N' (N + 1)), (Z.ltb_spec t' 0), (Z.ltb_spec t' (Z.max 0 T));
      cbn [orb andb]; auto; lia.
Qed.

Lemma source_patch_at (patch : list patch_t) (PID0_List : list Z)
    (TID LocalID PID0 : Z) :
  (0 <= LocalID < 8)%Z ->
  load PID0_List TID = Ok PID0 ->
  source_patch patch PID0_List (8 * TID + LocalID) = load patch (PID0 + LocalID).
Proof.
  intros HL H. unfold source_patch.
  replace ((8 * TID + LocalID) / 8)%Z with TID
    by (apply (Z.div_unique _ 8 TID LocalID); lia).
  replace ((8 * TID + LocalID) mod 8)%Z with LocalID
    by (apply (Z.mod_unique _ 8 TID LocalID); lia).
  rewrite H. reflexivity.
Qed.

Lemma prepare_patch_ok (cf : Config) (mode : bool) (dh_lv : R)
    (patch : list patch_t) (PID0_List : list Z) (rows cells : nat)
    (h0 : list (list (list R))) (fd0 : list Che_FieldData_t)
    (TID PID0 LocalID : Z) (pt : patch_t)
    (s : list (list (list R)) * list Che_FieldData_t) :
  (0 <= LocalID < 8)%Z -> (0 <= TID)%Z ->
  load PID0_List TID = Ok PID0 ->
  load patch (PID0 + LocalID) = Ok pt ->
  cells = Z.to_nat (PS1 cf * PS1 cf * PS1 cf) ->
  (8 * TID + LocalID < Z.of_nat rows)%Z ->
  (mode = true -> (8 * TID + LocalID < Z.of_nat (length fd0))%Z) ->
  che_filled cf patch PID0_List rows cells h0 (8 * TID + LocalID) 0 (fst s) ->
  fd_filled mode dh_lv fd0 (8 * TID + LocalID) (snd s) ->
  exists s',
    prepare_patch cf mode dh_lv patch TID PID0 LocalID s = Ok s' /\
    che_filled cf patch PID0_List rows cells h0 (8 * TID + (LocalID + 1)) 0 (fst s') /\
    fd_filled mode dh_lv fd0 (8 * TID + (LocalID + 1)) (snd s').
Proof.
  intros HL HT Hp0 Hpt Hc Hrows Hfd H0 F0.
  unfold prepare_patch. cbv zeta.
  assert (Hsrc : source_patch patch PID0_List (8 * TID + LocalID) = Ok pt)
    by (rewrite (source_patch_at patch PID0_List TID LocalID PID0 HL Hp0); exact Hpt).
  destruct (prepare_cells_ok cf patch PID0_List pt rows cells h0 (fst s)
              (PID0 + LocalID) (8 * TID + LocalID) Hpt Hsrc Hc ltac:(lia) H0)
    as [h' [E H1]].
  rewrite E; cbn [bind].
  replace (8 * TID + (LocalID + 1))%Z with (8 * TID + LocalID + 1)%Z by lia.
  destruct mode.
  - destruct F0 as [Lf Gf]. specialize (Hfd eq_refl).
    rewrite store_ok by lia. cbn [bind].
    eexists. split; [reflexivity|]. split; [exact H1|]. cbn [snd].
    split; [rewrite upd_length; exact Lf|].
    intros N' HN'. cbn [andb] in *.
    destruct (Z.eq_dec N' (8 * TID + LocalID)) as [->|En].
    + replace (8 * TID + LocalID <? 8 * TID + LocalID + 1)%Z with true
        by (symmetry; apply Z.ltb_lt; lia).
      assert (Hlt : (Z.to_nat (8 * TID + LocalID) < length (snd s))%nat) by lia.
      destruct (nth_error_lt (upd (Z.to_nat (8 * TID + LocalID))
                                  {| density := Some ((8 * TID + LocalID)%Z, Idx_Dens);
                                     internal_energy := Some ((8 * TID + LocalID)%Z, Idx_sEint);
                                     grid_dx := dh_lv |} (snd s))
                             (Z.to_nat (8 * TID + LocalID)))
        as [x Hx]; [rewrite upd_length; exact Hlt|].
      rewrite Hx. f_equal.
      apply (nth_error_nth _ _ unset_FieldData) in Hx.
      rewrite nth_upd_eq in Hx by exact Hlt. subst x. reflexivity.
    + replace (N' <? 8 * TID + LocalID + 1)%Z with (N' <? 8 * TID + LocalID)%Z
        by (destruct (Z.ltb_spec N' (8 * TID + LocalID)),
                     (Z.ltb_spec N' (8 * TID + LocalID + 1)); auto; lia).
      rewrite <- (Gf N' HN').
      destruct (Nat.lt_ge_cases (Z.to_nat N') (length (snd s))) as [Hlt|Hge].
      * destruct (nth_error_lt (snd s) (Z.to_nat N') Hlt) as [y Hy].
        destruct (nth_error_lt (upd (Z.to_nat (8 * TID + LocalID))
                                    {| density := Some ((8 * TID + LocalID)%Z, Idx_Dens);
                                       internal_energy := Some ((8 * TID + LocalID)%Z, Idx_sEint);
                                       grid_dx := dh_lv |} (snd s))
                               (Z.to_nat N'))
          as [x Hx]; [rewrite upd_length; exact Hlt|].
        rewrite Hx, Hy. f_equal.
        apply (nth_error_nth _ _ unset_FieldData) in Hx.
        apply (nth_error_nth _ _ unset_FieldData) in Hy.
        rewrite nth_upd_neq in Hx by lia. congruence.
      * rewrite (proj2 (nth_error_None _ _)) by (rewrite upd_length; exact Hge).
        rewrite (proj2 (nth_error_None _ _)) by exact Hge. reflexivity.
  - eexists. split; [reflexivity|]. split; [exact H1|]. cbn [snd].
    destruct F0 as [Lf Gf]. split; [exact Lf|]. exact Gf.
Qed.

Lemma prepare_group_ok (cf : Config) (mode : bool) (dh_lv : R)
    (patch : list patch_t) (PID0_List : list Z) (rows cells : nat)
    (h0 : list (list (list R))) (fd0 : list Che_FieldData_t)
    (TID PID0 : Z) (s : list (list (list R)) * list Che_FieldData_t) :
  (0 <= TID)%Z ->
  load PID0_List TID = Ok PID0 ->
  (forall L, (0 <= L < 8)%Z -> exists pt, load patch (PID0 + L) = Ok pt) ->
  cells = Z.to_nat (PS1 cf * PS1 cf * PS1 cf) ->
  (8 * TID + 8 <= Z.of_nat rows)%Z ->
  (mode = true -> (8 * TID + 8 <= Z.of_nat (length fd0))%Z) ->
  che_filled cf patch PID0_List rows cells h0 (8 * TID) 0 (fst s) ->
  fd_filled mode dh_lv fd0 (8 * TID) (snd s) ->
  exists s',
    for_Z 0 8 (prepare_patch cf mode dh_lv patch TID PID0) s = Ok s' /\
    che_filled cf patch PID0_List rows cells h0 (8 * (TID + 1)) 0 (fst s') /\
    fd_filled mode dh_lv fd0 (8 * (TID + 1)) (snd s').
Proof.
  intros HT Hp0 Hpt Hc Hrows Hfd H0 F0.
  destruct (for_Z_total
              (fun L s => che_filled cf patch PID0_List rows cells h0
                                     (8 * TID + L) 0 (fst s) /\
                          fd_filled mode dh_lv fd0 (8 * TID + L) (snd s))
              (prepare_patch cf mode dh_lv patch TID PID0) 0 8 s)
    as [s' [E [I1 I2]]].
  - rewrite Z.add_0_r. split; assumption.
  - intros L t HL [I1 I2].
    destruct (Hpt L HL) as [pt Hl].
    apply (prepare_patch_ok cf mode dh_lv patch PID0_List rows cells h0 fd0
                            TID PID0 L pt t); auto; try lia.
    intros Hm; specialize (Hfd Hm); lia.
  - exists s'. split; [exact E|].
    replace (8 * (TID + 1))%Z with (8 * TID + Z.max 0 8)%Z by lia.
    split; assumption.
Qed.

Lemma source_patch_inv (patch : list patch_t) (PID0_List : list Z) (NPG : Z) :
  (forall N, (0 <= N < 8 * NPG)%Z ->
             exists pt, source_patch patch PID0_List N = Ok pt) ->
  forall TID, (0 <= TID < NPG)%Z ->
    exists PID0,
      load PID0_List TID = Ok PID0 /\
      forall L, (0 <= L < 8)%Z -> exists pt, load patch (PID0 + L) = Ok pt.
Proof.
  intros H TID HT.
  destruct (H (8 * TID + 0)%Z ltac:(lia)) as [pt0 H0].
  unfold source_patch in H0. inv_bind H0. rename x into PID0.
  replace ((8 * TID + 0) / 8)%Z with TID in E
    by (apply (Z.div_unique _ 8 TID 0); lia).
  exists PID0. split; [exact E|].
  intros L HL. destruct (H (8 * TID + L)%Z ltac:(lia)) as [pt Hs].
  rewrite (source_patch_at patch PID0_List TID L PID0 HL E) in Hs. eauto.
Qed.

(** X19. [Grackle_Prepare] fills the first [8*NPG] patches of the host array
    and nothing else: patch [N = 8*TID + LocalID] of the array is prepared
    from patch [PID0_List[TID] + LocalID] of the level, cell by cell, as the
    density, the specific internal energy and the kinetic energy density, from
    which the total energy density is recovered where the density is not zero;
    the patches at and above [8*NPG] keep what they held; in the original
    Grackle mode the field data of the prepared patches point at their density
    and internal-energy components and carry the cell size of the level. *)
Theorem Grackle_Prepare_fills (cf : Config) (amr : AMR_t) (mode : bool)
    (patch : list patch_t) (fd : list Che_FieldData_t) (lv : Z)
    (h : list (list (list R))) (NPG : Z) (PID0_List : list Z) (rows : nat) :
  che_wf rows (Z.to_nat (PS1 cf * PS1 cf * PS1 cf)) h ->
  (8 * NPG <= Z.of_nat rows)%Z ->
  (mode = true -> (8 * NPG <= Z.of_nat (length fd))%Z) ->
  (forall N, (0 <= N < 8 * NPG)%Z ->
             exists pt, source_patch patch PID0_List N = Ok pt) ->
  exists h' fd',
    Grackle_Prepare cf amr mode patch fd lv h NPG PID0_List = Ok (h', fd') /\
    che_wf rows (Z.to_nat (PS1 cf * PS1 cf * PS1 cf)) h' /\
    length fd' = length fd /\
    (forall N t, (0 <= N < 8 * NPG)%Z -> (0 <= t < PS1 cf * PS1 cf * PS1 cf)%Z ->
       exists pt,
         source_patch patch PID0_List N = Ok pt /\
         get3 h' N Idx_Dens t = flat cf (fluid pt DENS) t /\
         get3 h' N Idx_sEint t = prepared_sEint cf pt t /\
         get3 h' N Idx_Ek t = prepared_Ek cf pt t /\
         (flat cf (fluid pt DENS) t <> 0 ->
          get3 h' N Idx_Dens t * get3 h' N Idx_sEint t + get3 h' N Idx_Ek t
          = flat cf (fluid pt ENGY) t)) /\
    (forall N Idx t, (8 * NPG <= N)%Z -> (0 <= N)%Z -> (0 <= Idx < CHE_NPREP)%Z ->
       (0 <= t < PS1 cf * PS1 cf * PS1 cf)%Z ->
       get3 h' N Idx t = get3 h N Idx t) /\
    (forall N, (0 <= N)%Z ->
       nth_error fd' (Z.to_nat N)
       = if mode && (N <? 8 * NPG)%Z
         then Some (prepared_FieldData (dh amr lv) N)
         else nth_error fd (Z.to_nat N)).
Proof.
  intros W Hrows Hfd Hsrc.
  set (cells := Z.to_nat (PS1 cf * PS1 cf * PS1 cf)) in *.
  assert (Hstart : che_filled cf patch PID0_List rows cells h 0 0 h).
  { split; [exact W|]. intros N' Idx' t' HN' _ Ht'. unfold che_done.
    destruct (Z.ltb_spec N' 0); [lia|].
    destruct (Z.ltb_spec t' 0); [lia|].
    rewrite andb_false_r. reflexivity. }
  assert (Fstart : fd_filled mode (dh amr lv) fd 0 fd).
  { split; [reflexivity|]. intros N' HN'.
    destruct (Z.ltb_spec N' 0); [lia|]. rewrite andb_false_r. reflexivity. }
  unfold Grackle_Prepare. cbv zeta.
  destruct (for_Z_total
              (fun TID s => che_filled cf patch PID0_List rows cells h
                                       (8 * TID) 0 (fst s) /\
                            fd_filled mode (dh amr lv) fd (8 * TID) (snd s))
              (fun TID s =>
                 PID0 <- load PID0_List TID ;;
                 for_Z 0 8 (prepare_patch cf mode (dh amr lv) patch TID PID0) s)
              0 NPG (h, fd))
    as [[h' fd'] [E [[W' G'] [L' F']]]].
  - split; assumption.
  - intros TID s HT [I1 I2].
    destruct (source_patch_inv patch PID0_List NPG Hsrc TID HT) as [PID0 [Hp0 Hpt]].
    rewrite Hp0; cbn [bind].
    apply (prepare_group_ok cf mode (dh amr lv) patch PID0_List rows cells h fd
                            TID PID0 s); auto; try lia.
    intros Hm; specialize (Hfd Hm); lia.
  - cbn [fst snd] in *. exists h', fd'.
    split; [exact E|]. split; [exact W'|]. split; [exact L'|].
    assert (Hmax : (0 <= NPG -> 8 * Z.max 0 NPG = 8 * NPG)%Z) by lia.
    split; [|split].
    + intros N t HN Ht.
      destruct (Hsrc N HN) as [pt Hpt]. exists pt. split; [exact Hpt|].
      assert (Hd : che_done (8 * Z.max 0 NPG) 0 N t = true).
      { unfold che_done. destruct (Z.ltb_spec N (8 * Z.max 0 NPG)); [reflexivity | lia]. }
      assert (Ht' : (0 <= t < Z.of_nat cells)%Z) by (unfold cells; lia).
      assert (G0 := G' N Idx_Dens t ltac:(lia) ltac:(unfold Idx_Dens, CHE_NPREP; lia) Ht').
      assert (G1 := G' N Idx_sEint t ltac:(lia) ltac:(unfold Idx_sEint, CHE_NPREP; lia) Ht').
      assert (G2 := G' N Idx_Ek t ltac:(lia) ltac:(unfold Idx_Ek, CHE_NPREP; lia) Ht').
      rewrite Hd, Hpt in G0, G1, G2.
      unfold prepared in G0, G1, G2. simpl in G0, G1, G2.
      rewrite G0, G1, G2.
      repeat split; try reflexivity.
      intros Hne. unfold prepared_sEint. cbv zeta.
      replace 1.0 with 1 by lra. field. exact Hne.
    + intros N Idx t HN HN0 HI Ht.
      assert (Hd : che_done (8 * Z.max 0 NPG) 0 N t = false).
      { unfold che_done. destruct (Z.ltb_spec N (8 * Z.max 0 NPG)); [lia|].
        destruct (Z.eqb_spec N (8 * Z.max 0 NPG)); cbn [orb andb]; [|reflexivity].
        destruct (Z.ltb_spec t 0); [lia | reflexivity]. }
      rewrite (G' N Idx t HN0 HI ltac:(unfold cells; lia)), Hd. reflexivity.
    + intros N HN. rewrite (F' N HN).
      replace (N <? 8 * Z.max 0 NPG)%Z with (N <? 8 * NPG)%Z; [reflexivity|].
      destruct (Z.ltb_spec N (8 * NPG)), (Z.ltb_spec N (8 * Z.max 0 NPG));
        auto; lia.
Qed.

Lemma zero_Che_Array_wf : che_wf 8 512 zero_Che_Array.
Proof.
  unfold che_wf, zero_Che_Array. split; [apply repeat_length|].
  apply Forall_forall. intros row Hrow. apply repeat_spec in Hrow. subst row.
  split; [apply repeat_length|].
  apply Forall_forall. intros comp Hc. apply repeat_spec in Hc. subst comp.
  apply repeat_length.
Qed.

Lemma patch_group_source (N : Z) :
  (0 <= N < 8 * 1)%Z -> exists pt, source_patch patch_group [0%Z] N = Ok pt.
Proof.
  intros HN.
  assert (C : (N = 0 \/ N = 1 \/ N = 2 \/ N = 3 \/ N = 4 \/ N = 5 \/ N = 6
               \/ N = 7)%Z) by lia.
  destruct C as [->|[->|[->|[->|[->|[->|[->| ->]]]]]]];
    exists uniform_patch; reflexivity.
Qed.

Lemma Grackle_Prepare_fills_witness :
  che_wf 8 (Z.to_nat (PS1 serial_build * PS1 serial_build * PS1 serial_build))
         zero_Che_Array /\
  (8 * 1 <= Z.of_nat 8)%Z /\
  exists h' fd',
    Grackle_Prepare serial_build single_patch_amr true patch_group
                    (repeat unset_FieldData 8) 0 zero_Che_Array 1 [0%Z]
    = Ok (h', fd') /\
    che_wf 8 (Z.to_nat (PS1 serial_build * PS1 serial_build * PS1 serial_build)) h' /\
    length fd' = length (repeat unset_FieldData 8) /\
    (forall N t, (0 <= N < 8 * 1)%Z ->
       (0 <= t < PS1 serial_build * PS1 serial_build * PS1 serial_build)%Z ->
       exists pt,
         source_patch patch_group [0%Z] N = Ok pt /\
         get3 h' N Idx_Dens t = flat serial_build (fluid pt DENS) t /\
         get3 h' N Idx_sEint t = prepared_sEint serial_build pt t /\
         get3 h' N Idx_Ek t = prepared_Ek serial_build pt t /\
         (flat serial_build (fluid pt DENS) t <> 0 ->
          get3 h' N Idx_Dens t * get3 h' N Idx_sEint t + get3 h' N Idx_Ek t
          = flat serial_build (fluid pt ENGY) t)) /\
    (forall N Idx t, (8 * 1 <= N)%Z -> (0 <= N)%Z -> (0 <= Idx < CHE_NPREP)%Z ->
       (0 <= t < PS1 serial_build * PS1 serial_build * PS1 serial_build)%Z ->
       get3 h' N Idx t = get3 zero_Che_Array N Idx t) /\
    (forall N, (0 <= N)%Z ->
       nth_error fd' (Z.to_nat N)
       = if true && (N <? 8 * 1)%Z
         then Some (prepared_FieldData (dh single_patch_amr 0) N)
         else nth_error (repeat unset_FieldData 8) (Z.to_nat N)).
Proof.
  assert (H1 : che_wf 8 (Z.to_nat (PS1 serial_build * PS1 serial_build
                                   * PS1 serial_build)) zero_Che_Array)
    by exact zero_Che_Array_wf.
  assert (H2 : (8 * 1 <= Z.of_nat 8)%Z) by (simpl; lia).
  split; [exact H1|]. split; [exact H2|].
  apply (Grackle_Prepare_fills serial_build single_patch_amr true patch_group
           (repeat unset_FieldData 8) 0 zero_Che_Array 1 [0%Z] 8 H1 H2).
  - intros _. simpl. lia.
  - exact patch_group_source.
Defined.
